(** * ClaudeCiv6: runtime bridge and asynchronous request engine

    A shallow embedding of [ClaudeAPI.cpp] and [HavokScriptIntegration.cpp].
    The C++ globals become fields of explicit state records, the worker
    thread becomes a small-step machine interleaved with the calls of the
    scripting runtime, and the nlohmann::json library the code links against
    is modelled by an RFC 8259 reader and writer over byte strings.
    Logging changes no state and is left out; so are the HTTP transport
    (a field of the world), the thread that waits for the Lua state and the
    DLL entry point of [dllmain.cpp], of which only the store to
    [g_shutdownRequested] appears. *)

From Stdlib Require Import ZArith NArith String Ascii List Bool Lia.
From stdpp Require Import base option gmap strings list relations.

Local Open Scope string_scope.
Local Open Scope Z_scope.

(** ** Bytes and C string literals *)

Definition byte_of (n : N) : ascii := ascii_of_N n.
Definition code (c : ascii) : N := N_of_ascii c.

Definition LF : ascii := byte_of 10.
Definition CR : ascii := byte_of 13.
Definition TAB : ascii := byte_of 9.
Definition BS : ascii := byte_of 8.
Definition FF : ascii := byte_of 12.
Definition DQ : ascii := byte_of 34.
Definition BSLASH : ascii := byte_of 92.

(** [cstr] reads a literal the way the C++ source writes it, with two
    conventions: a backslash escape [\n], [\r], [\t] or [\\] stands for the
    byte it names, and an apostrophe stands for the double quote (byte 34).
    So [cstr "{'a':1}"] is the seven bytes of the JSON text with key a. *)
Fixpoint cstr (s : string) : string :=
  match s with
  | EmptyString => EmptyString
  | String c r =>
      if Ascii.eqb c BSLASH then
        match r with
        | String e r' =>
            if Ascii.eqb e "n" then String LF (cstr r')
            else if Ascii.eqb e "r" then String CR (cstr r')
            else if Ascii.eqb e "t" then String TAB (cstr r')
            else String e (cstr r')
        | EmptyString => String c EmptyString
        end
      else if Ascii.eqb c "'" then String DQ (cstr r)
      else String c (cstr r)
  end.

(** ** std::string members used by the code

    Positions are [nat]; [None] is [std::string::npos]. *)

Fixpoint find_at (pat s : string) (i : nat) : option nat :=
  if String.prefix pat s then Some i
  else match s with
       | EmptyString => None
       | String _ r => find_at pat r (S i)
       end.

Fixpoint drop_str (n : nat) (s : string) : string :=
  match n, s with
  | O, _ => s
  | S k, String _ r => drop_str k r
  | S _, EmptyString => EmptyString
  end.

(** [s.find(pat, pos)] *)
Definition str_find (s pat : string) (pos : nat) : option nat :=
  if (pos <=? String.length s)%nat then find_at pat (drop_str pos s) pos else None.

(** [s.find(c, pos)] *)
Definition chr_find (s : string) (c : ascii) (pos : nat) : option nat :=
  str_find s (String c EmptyString) pos.

(** [s.substr(pos, len)], for [pos <= s.size()] *)
Definition substr (s : string) (pos len : nat) : string := String.substring pos len s.

(** [s.substr(pos)] *)
Definition substr_from (s : string) (pos : nat) : string := drop_str pos s.

Fixpoint mem_chr (c : ascii) (set : string) : bool :=
  match set with
  | EmptyString => false
  | String d r => Ascii.eqb c d || mem_chr c r
  end.

(** [s.find_first_not_of(set)] *)
Fixpoint first_not_of_at (set s : string) (i : nat) : option nat :=
  match s with
  | EmptyString => None
  | String c r => if mem_chr c set then first_not_of_at set r (S i) else Some i
  end.

Definition find_first_not_of (s set : string) : option nat := first_not_of_at set s 0.

(** [s.find_last_not_of(set)] *)
Fixpoint last_not_of_at (set s : string) (i : nat) : option nat :=
  match s with
  | EmptyString => None
  | String c r =>
      match last_not_of_at set r (S i) with
      | Some j => Some j
      | None => if mem_chr c set then None else Some i
      end
  end.

Definition find_last_not_of (s set : string) : option nat := last_not_of_at set s 0.

(** The set the code trims: blank, tab, line feed, carriage return. *)
Definition kWhitespace : string := Eval vm_compute in cstr " \t\n\r".

(** ** nlohmann::json: values

    [json] is [nlohmann::json] with its default template arguments: an
    object is a [std::map] (keys unique and in byte order), an integer that
    fits 64 bits is stored exactly, any other number is a double.  A double
    is kept as the lexeme it was read from; what the code does with a double
    (conversion to [int], printing) is left to the two parameters of section
    [Engine] below. *)

#[warnings="-register-all"]
Inductive json : Type :=
| JNull
| JBool (b : bool)
| JInt (z : Z)
| JFloat (lexeme : string)
| JString (s : string)
| JArray (items : list json)
| JObject (members : list (string * json)).

Fixpoint obj_find (k : string) (m : list (string * json)) : option json :=
  match m with
  | [] => None
  | (k', v) :: r => if String.eqb k k' then Some v else obj_find k r
  end.

(** [m[k] = v] on a [std::map]: replace, or insert in key order. *)
Fixpoint obj_assign (k : string) (v : json) (m : list (string * json)) : list (string * json) :=
  match m with
  | [] => [(k, v)]
  | (k', v') :: r =>
      match String.compare k k' with
      | Eq => (k, v) :: r
      | Lt => (k, v) :: m
      | Gt => (k', v') :: obj_assign k v r
      end
  end.

(** The object a brace initialiser builds. *)
Definition obj_of (kvs : list (string * json)) : json :=
  JObject (fold_left (fun m kv => obj_assign (fst kv) (snd kv) m) kvs []).

(** ** nlohmann::json: the reader ([json::parse])

    The lexer follows RFC 8259 as the library does: four whitespace bytes,
    the three literals, numbers without leading zeros, strings whose bytes
    are well-formed UTF-8 with control bytes escaped. *)

Definition in_range (lo hi : N) (c : ascii) : bool :=
  ((lo <=? code c) && (code c <=? hi))%N.

Definition is_ws (c : ascii) : bool := mem_chr c kWhitespace.

Fixpoint skip_ws (s : string) : string :=
  match s with
  | String c r => if is_ws c then skip_ws r else s
  | EmptyString => s
  end.

Definition is_digit (c : ascii) : bool := in_range 48 57 c.

Fixpoint take_digits (s : string) : string * string :=
  match s with
  | String c r =>
      if is_digit c then let '(d, t) := take_digits r in (String c d, t)
      else (EmptyString, s)
  | EmptyString => (EmptyString, EmptyString)
  end.

Fixpoint digits_value (s : string) (acc : N) : N :=
  match s with
  | String c r => digits_value r (acc * 10 + (code c - 48))%N
  | EmptyString => acc
  end.

Definition is_empty_str (s : string) : bool :=
  match s with EmptyString => true | _ => false end.

(** Integer part: a single 0, or a non-zero digit and more digits. *)
Definition scan_int_part (s : string) : option (string * string) :=
  match s with
  | String c r =>
      if Ascii.eqb c "0" then Some ("0", r)
      else if is_digit c then let '(d, t) := take_digits r in Some (String c d, t)
      else None
  | EmptyString => None
  end.

(** Optional fraction: a dot must be followed by a digit. *)
Definition scan_frac (s : string) : option (string * string) :=
  match s with
  | String c r =>
      if Ascii.eqb c "." then
        match take_digits r with
        | (EmptyString, _) => None
        | (d, t) => Some (d, t)
        end
      else Some (EmptyString, s)
  | EmptyString => Some (EmptyString, s)
  end.

(** Optional exponent: [e] or [E], an optional sign, at least one digit.
    The result is the sign and the digits. *)
Definition scan_exp (s : string) : option (option (bool * string) * string) :=
  match s with
  | String c r =>
      if Ascii.eqb c "e" || Ascii.eqb c "E" then
        let '(neg, r1) :=
          match r with
          | String sg r' =>
              if Ascii.eqb sg "-" then (true, r')
              else if Ascii.eqb sg "+" then (false, r')
              else (false, r)
          | EmptyString => (false, r)
          end in
        match take_digits r1 with
        | (EmptyString, _) => None
        | (d, t) => Some (Some (neg, d), t)
        end
      else Some (None, s)
  | EmptyString => Some (None, s)
  end.

(** Whether the decimal [ds * 10^e] ([ds] a digit string) rounds to an
    infinite double, that is whether it reaches [2^1024 - 2^970], half way
    between the largest double and [2^1024].  The reader rejects such a
    number (out_of_range 406).  The two shortcuts only avoid large powers:
    a non-zero [ds] with [e > 400] overflows, and [ds < 10^(-e)] when [-e]
    exceeds the number of digits. *)
Definition double_overflows (ds : string) (e : Z) : bool :=
  let m := Z.of_N (digits_value ds 0) in
  let limit := 2 ^ 1024 - 2 ^ 970 in
  if m =? 0 then false
  else if 400 <? e then true
  else if 0 <=? e then limit <=? m * 10 ^ e
  else if Z.of_nat (String.length ds) <? - e then false
  else limit * 10 ^ (- e) <=? m.

Definition scan_number (s : string) : option (json * string) :=
  let '(neg, s1) :=
    match s with
    | String c r => if Ascii.eqb c "-" then (true, r) else (false, s)
    | EmptyString => (false, s)
    end in
  match scan_int_part s1 with
  | None => None
  | Some (ip, s2) =>
      match scan_frac s2 with
      | None => None
      | Some (fp, s3) =>
          match scan_exp s3 with
          | None => None
          | Some (ep, s4) =>
              let n := Z.of_N (digits_value ip 0) in
              let lexeme := substr s 0 (String.length s - String.length s4) in
              if is_empty_str fp && bool_decide (ep = None) &&
                 (if neg then n <=? 2 ^ 63 else n <? 2 ^ 64)
              then Some (JInt (if neg then - n else n), s4)
              else
                let e10 :=
                  match ep with
                  | Some (eneg, d) =>
                      let x := Z.of_N (digits_value d 0) in if eneg then - x else x
                  | None => 0
                  end - Z.of_nat (String.length fp) in
                if double_overflows (ip +:+ fp) e10 then None
                else Some (JFloat lexeme, s4)
          end
      end
  end.

Definition hex_val (c : ascii) : option N :=
  if in_range 48 57 c then Some (code c - 48)%N
  else if in_range 65 70 c then Some (code c - 55)%N
  else if in_range 97 102 c then Some (code c - 87)%N
  else None.

(** The bytes that may follow a UTF-8 lead byte, as ranges (Unicode 3.1,
    table 3-7); [None] for a byte that cannot start a sequence. *)
Definition utf8_tail (lead : N) : option (list (N * N)) :=
  (if (0xC2 <=? lead) && (lead <=? 0xDF) then Some [(0x80, 0xBF)]
   else if lead =? 0xE0 then Some [(0xA0, 0xBF); (0x80, 0xBF)]
   else if lead =? 0xED then Some [(0x80, 0x9F); (0x80, 0xBF)]
   else if (0xE1 <=? lead) && (lead <=? 0xEF) then Some [(0x80, 0xBF); (0x80, 0xBF)]
   else if lead =? 0xF0 then Some [(0x90, 0xBF); (0x80, 0xBF); (0x80, 0xBF)]
   else if (0xF1 <=? lead) && (lead <=? 0xF3) then Some [(0x80, 0xBF); (0x80, 0xBF); (0x80, 0xBF)]
   else if lead =? 0xF4 then Some [(0x80, 0x8F); (0x80, 0xBF); (0x80, 0xBF)]
   else None)%N.

Definition utf8_encode (cp : N) : string :=
  (if cp <? 0x80 then String (byte_of cp) EmptyString
   else if cp <? 0x800 then
     String (byte_of (0xC0 + cp / 64)) (String (byte_of (0x80 + cp mod 64)) EmptyString)
   else if cp <? 0x10000 then
     String (byte_of (0xE0 + cp / 4096))
       (String (byte_of (0x80 + (cp / 64) mod 64))
          (String (byte_of (0x80 + cp mod 64)) EmptyString))
   else
     String (byte_of (0xF0 + cp / 262144))
       (String (byte_of (0x80 + (cp / 4096) mod 64))
          (String (byte_of (0x80 + (cp / 64) mod 64))
             (String (byte_of (0x80 + cp mod 64)) EmptyString))))%N.

(** Where the string lexer stands between two bytes. *)
Inductive sstate : Type :=
| SNormal
| SCont (rs : list (N * N))
| SEsc
| SHex (k : nat) (acc : N) (hi : option N)
| SLowEsc (hi : N)
| SLowU (hi : N).

Definition emit (b : string) (r : option (string * string)) : option (string * string) :=
  match r with
  | Some (t, u) => Some (b +:+ t, u)
  | None => None
  end.

Definition chr (c : ascii) : string := String c EmptyString.

(** The body of a string token, after its opening quote: the decoded bytes
    and the text after the closing quote. *)
Fixpoint scan_string (st : sstate) (s : string) : option (string * string) :=
  match s with
  | EmptyString => None
  | String c r =>
      match st with
      | SNormal =>
          if Ascii.eqb c DQ then Some (EmptyString, r)
          else if Ascii.eqb c BSLASH then scan_string SEsc r
          else if (code c <? 0x20)%N then None
          else if (code c <? 0x80)%N then emit (chr c) (scan_string SNormal r)
          else match utf8_tail (code c) with
               | Some rs => emit (chr c) (scan_string (SCont rs) r)
               | None => None
               end
      | SCont rs =>
          match rs with
          | [] => None
          | (lo, hi) :: rs' =>
              if in_range lo hi c
              then emit (chr c) (scan_string (match rs' with [] => SNormal | _ => SCont rs' end) r)
              else None
          end
      | SEsc =>
          if Ascii.eqb c DQ then emit (chr DQ) (scan_string SNormal r)
          else if Ascii.eqb c BSLASH then emit (chr BSLASH) (scan_string SNormal r)
          else if Ascii.eqb c "/" then emit (chr "/") (scan_string SNormal r)
          else if Ascii.eqb c "b" then emit (chr BS) (scan_string SNormal r)
          else if Ascii.eqb c "f" then emit (chr FF) (scan_string SNormal r)
          else if Ascii.eqb c "n" then emit (chr LF) (scan_string SNormal r)
          else if Ascii.eqb c "r" then emit (chr CR) (scan_string SNormal r)
          else if Ascii.eqb c "t" then emit (chr TAB) (scan_string SNormal r)
          else if Ascii.eqb c "u" then scan_string (SHex 3 0 None) r
          else None
      | SHex k acc hi =>
          match hex_val c with
          | None => None
          | Some v =>
              let cp := (acc * 16 + v)%N in
              match k with
              | S k' => scan_string (SHex k' cp hi) r
              | O =>
                  match hi with
                  | Some h =>
                      if ((0xDC00 <=? cp) && (cp <=? 0xDFFF))%N
                      then emit (utf8_encode (0x10000 + (h - 0xD800) * 1024 + (cp - 0xDC00))%N)
                                (scan_string SNormal r)
                      else None
                  | None =>
                      if ((0xD800 <=? cp) && (cp <=? 0xDBFF))%N then scan_string (SLowEsc cp) r
                      else if ((0xDC00 <=? cp) && (cp <=? 0xDFFF))%N then None
                      else emit (utf8_encode cp) (scan_string SNormal r)
                  end
              end
          end
      | SLowEsc h => if Ascii.eqb c BSLASH then scan_string (SLowU h) r else None
      | SLowU h => if Ascii.eqb c "u" then scan_string (SHex 3 0 (Some h)) r else None
      end
  end.

(** The parser, by recursive descent.  [fuel] bounds the number of calls;
    two successive calls consume at least one byte, so [json_parse] gives
    twice the length of the text (lemma [json_parse_enough_fuel]). *)
Fixpoint parse_value (fuel : nat) (s : string) : option (json * string) :=
  match fuel with
  | O => None
  | S f =>
      match skip_ws s with
      | EmptyString => None
      | String c r =>
          if Ascii.eqb c "{" then
            match skip_ws r with
            | String c' r' =>
                if Ascii.eqb c' "}" then Some (JObject [], r') else parse_members f r []
            | EmptyString => None
            end
          else if Ascii.eqb c "[" then
            match skip_ws r with
            | String c' r' =>
                if Ascii.eqb c' "]" then Some (JArray [], r') else parse_elements f r []
            | EmptyString => None
            end
          else if Ascii.eqb c DQ then
            match scan_string SNormal r with
            | Some (str, t) => Some (JString str, t)
            | None => None
            end
          else if String.prefix "true" (String c r) then Some (JBool true, drop_str 4 (String c r))
          else if String.prefix "false" (String c r) then Some (JBool false, drop_str 5 (String c r))
          else if String.prefix "null" (String c r) then Some (JNull, drop_str 4 (String c r))
          else scan_number (String c r)
      end
  end
with parse_elements (fuel : nat) (s : string) (acc : list json) : option (json * string) :=
  match fuel with
  | O => None
  | S f =>
      match parse_value f s with
      | None => None
      | Some (v, t) =>
          match skip_ws t with
          | String c r =>
              if Ascii.eqb c "," then parse_elements f r (acc ++ [v])%list
              else if Ascii.eqb c "]" then Some (JArray (acc ++ [v])%list, r)
              else None
          | EmptyString => None
          end
      end
  end
with parse_members (fuel : nat) (s : string) (acc : list (string * json)) : option (json * string) :=
  match fuel with
  | O => None
  | S f =>
      match skip_ws s with
      | String c r =>
          if Ascii.eqb c DQ then
            match scan_string SNormal r with
            | Some (k, t) =>
                match skip_ws t with
                | String c1 r1 =>
                    if Ascii.eqb c1 ":" then
                      match parse_value f r1 with
                      | Some (v, u) =>
                          match skip_ws u with
                          | String c2 r2 =>
                              if Ascii.eqb c2 "," then parse_members f r2 (obj_assign k v acc)
                              else if Ascii.eqb c2 "}" then Some (JObject (obj_assign k v acc), r2)
                              else None
                          | EmptyString => None
                          end
                      | None => None
                      end
                    else None
                | EmptyString => None
                end
            | None => None
            end
          else None
      | EmptyString => None
      end
  end.

Definition kBom : string :=
  String (byte_of 0xEF) (String (byte_of 0xBB) (String (byte_of 0xBF) EmptyString)).

(** [json::parse(text)], strict: one value, then only whitespace.  [None]
    stands for every [json::exception] the reader throws. *)
Definition json_parse (text : string) : option json :=
  let t := if String.prefix kBom text then drop_str 3 text else text in
  match parse_value (2 * String.length t + 2) t with
  | Some (v, r) => if is_empty_str (skip_ws r) then Some v else None
  | None => None
  end.

(** ** nlohmann::json: accessors

    [None] is the [json::type_error] the accessor throws. *)

Definition contains (j : json) (k : string) : bool :=
  match j with
  | JObject m => bool_decide (is_Some (obj_find k m))
  | _ => false
  end.

(** [j[key]] on a non-const value: a missing key reads as null, null behaves
    as an empty object, any other type throws (305). *)
Definition at_key (j : json) (k : string) : option json :=
  match j with
  | JObject m => Some (default JNull (obj_find k m))
  | JNull => Some JNull
  | _ => None
  end.

(** [j[i]] on a non-const value: a missing element reads as null. *)
Definition at_index (j : json) (i : nat) : option json :=
  match j with
  | JArray l => Some (default JNull (l !! i))
  | JNull => Some JNull
  | _ => None
  end.

Definition is_array (j : json) : bool :=
  match j with JArray _ => true | _ => false end.

(** [j.empty()] *)
Definition json_empty (j : json) : bool :=
  match j with
  | JNull => true
  | JArray [] => true
  | JObject [] => true
  | _ => false
  end.

(** [j.get<std::string>()] *)
Definition get_string (j : json) : option string :=
  match j with JString s => Some s | _ => None end.

(** Conversion of a 64-bit integer to [int]. *)
Definition wrap32 (z : Z) : Z := (z + 2 ^ 31) mod 2 ^ 32 - 2 ^ 31.

(** ** ClaudeAPI.cpp: string helpers *)

Definition hex_digit (n : N) : ascii :=
  if (n <? 10)%N then byte_of (48 + n) else byte_of (87 + n).

(** [std::hex], [setw(4)], [setfill('0')] applied to a value below 65536. *)
Definition hex4 (n : N) : string :=
  String (hex_digit (n / 4096)) (String (hex_digit ((n / 256) mod 16))
    (String (hex_digit ((n / 16) mod 16)) (String (hex_digit (n mod 16)) EmptyString)))%N.

(** [EscapeJson]: the seven named escapes, [\u00XX] for the other bytes up
    to 0x1f, every other byte as it is. *)
Fixpoint EscapeJson (s : string) : string :=
  match s with
  | EmptyString => EmptyString
  | String c r =>
      (if Ascii.eqb c DQ then String BSLASH (chr DQ)
       else if Ascii.eqb c BSLASH then String BSLASH (chr BSLASH)
       else if Ascii.eqb c BS then String BSLASH "b"
       else if Ascii.eqb c FF then String BSLASH "f"
       else if Ascii.eqb c LF then String BSLASH "n"
       else if Ascii.eqb c CR then String BSLASH "r"
       else if Ascii.eqb c TAB then String BSLASH "t"
       else if (code c <=? 0x1f)%N then String BSLASH (String "u" (hex4 (code c)))
       else chr c) +:+ EscapeJson r
  end.

(** [ReplaceAll(str, from, to)] for a non-empty [from]: occurrences are
    replaced left to right and the search resumes after the inserted text,
    so [skip] counts the bytes of the occurrence still to be dropped. *)
Fixpoint ReplaceAll_from (skip : nat) (str from to : string) : string :=
  match str with
  | EmptyString => EmptyString
  | String c r =>
      match skip with
      | S k => ReplaceAll_from k r from to
      | O =>
          if String.prefix from str
          then to +:+ ReplaceAll_from (String.length from - 1) r from to
          else String c (ReplaceAll_from O r from to)
      end
  end.

Definition ReplaceAll (str from to : string) : string := ReplaceAll_from O str from to.

(** ** ClaudeAPI.cpp: [ExtractJsonFromResponse] *)

Definition kFenceJson : string := "```json".
Definition kFence : string := "```".

(** The inner part of strategies 1 and 2, the same code in both: from the
    fence at [blockStart], the text between the next line feed and the next
    fence; the whole text when either is missing. *)
Definition fence_body (content : string) (blockStart : nat) : string :=
  match chr_find content LF blockStart with
  | Some nl =>
      let jsonStart := S nl in
      match str_find content kFence jsonStart with
      | Some jsonEnd => substr content jsonStart (jsonEnd - jsonStart)
      | None => content
      end
  | None => content
  end.

(** The value of [trimmed] when strategy 3 starts (lines 156-192). *)
Definition fenced_candidate (content : string) : string :=
  match str_find content kFenceJson 0 with
  | Some jsonBlockStart => fence_body content jsonBlockStart
  | None =>
      match str_find content kFence 0 with
      | Some blockStart => fence_body content blockStart
      | None => content
      end
  end.

(** The [for] loop of strategy 3 over the text from index [i] on; the result
    is [braceEnd].  [braceCount] is an [int] in the source; it stays below
    the length of the text, so no wrap-around is written. *)
Fixpoint brace_scan (s : string) (i : nat) (braceCount : Z) : option nat :=
  match s with
  | EmptyString => None
  | String c r =>
      if Ascii.eqb c "{" then brace_scan r (S i) (braceCount + 1)
      else if Ascii.eqb c "}" then
        if braceCount - 1 =? 0 then Some i else brace_scan r (S i) (braceCount - 1)
      else brace_scan r (S i) braceCount
  end.

(** Strategy 3: the balanced substring from the first open brace, when the
    reader accepts it. *)
Definition balanced_object (trimmed : string) : option string :=
  match chr_find trimmed "{" 0 with
  | Some braceStart =>
      match brace_scan (drop_str braceStart trimmed) braceStart 0 with
      | Some braceEnd =>
          let extracted := substr trimmed braceStart (braceEnd - braceStart + 1) in
          match json_parse extracted with
          | Some _ => Some extracted
          | None => None
          end
      | None => None
      end
  | None => None
  end.

(** Strategy 4 (lines 236-244). *)
Definition trim_passthrough (trimmed : string) : string :=
  match find_first_not_of trimmed kWhitespace, find_last_not_of trimmed kWhitespace with
  | Some start, Some last => substr trimmed start (last - start + 1)
  | _, _ => trimmed
  end.

Definition ExtractJsonFromResponse (content : string) : string :=
  let trimmed := fenced_candidate content in
  match balanced_object trimmed with
  | Some extracted => extracted
  | None => trim_passthrough trimmed
  end.

(** ** nlohmann::json: the writer ([dump]) *)

Fixpoint dec_digits (fuel : nat) (n : N) (acc : string) : string :=
  match fuel with
  | O => acc
  | S f =>
      let acc' := String (byte_of (48 + n mod 10)) acc in
      if (n <? 10)%N then acc' else dec_digits f (n / 10)%N acc'
  end.

Definition N_to_dec (n : N) : string := dec_digits (S (N.to_nat (N.log2 n))) n EmptyString.

Definition Z_to_dec (z : Z) : string :=
  if z <? 0 then String "-" (N_to_dec (Z.abs_N z)) else N_to_dec (Z.to_N z).

Definition prepend (b : string) (r : option string) : option string :=
  match r with
  | Some t => Some (b +:+ t)
  | None => None
  end.

(** The escaped body of a string, with [ensure_ascii] off and the strict
    error handler: [None] is type_error 316, thrown at a byte that breaks
    UTF-8 or at the end of a text that stops inside a sequence.  [pending]
    holds the ranges of the continuation bytes still expected. *)
Fixpoint dump_escaped (pending : list (N * N)) (s : string) : option string :=
  match s with
  | EmptyString => match pending with [] => Some EmptyString | _ => None end
  | String c r =>
      match pending with
      | (lo, hi) :: rest =>
          if in_range lo hi c then prepend (chr c) (dump_escaped rest r) else None
      | [] =>
          if Ascii.eqb c DQ then prepend (String BSLASH (chr DQ)) (dump_escaped [] r)
          else if Ascii.eqb c BSLASH then prepend (String BSLASH (chr BSLASH)) (dump_escaped [] r)
          else if Ascii.eqb c BS then prepend (String BSLASH "b") (dump_escaped [] r)
          else if Ascii.eqb c FF then prepend (String BSLASH "f") (dump_escaped [] r)
          else if Ascii.eqb c LF then prepend (String BSLASH "n") (dump_escaped [] r)
          else if Ascii.eqb c CR then prepend (String BSLASH "r") (dump_escaped [] r)
          else if Ascii.eqb c TAB then prepend (String BSLASH "t") (dump_escaped [] r)
          else if (code c <? 0x20)%N
          then prepend (String BSLASH (String "u" (hex4 (code c)))) (dump_escaped [] r)
          else if (code c <? 0x80)%N then prepend (chr c) (dump_escaped [] r)
          else match utf8_tail (code c) with
               | Some rs => prepend (chr c) (dump_escaped rs r)
               | None => None
               end
      end
  end.

Definition dump_quoted (s : string) : option string :=
  match dump_escaped [] s with
  | Some body => Some (String DQ (body +:+ chr DQ))
  | None => None
  end.

(** ** Outcomes of a call that may throw *)

Inductive outcome (A : Type) : Type :=
| Returned (a : A)
| Thrown (what : string).

Arguments Returned {A} a.
Arguments Thrown {A} what.

(** ** ClaudeAPI.cpp: module state and the world a call runs in *)

(** The globals of lines 53-63, and the one environment variable the code
    reads ([None] when [_dupenv_s] finds none); the code never writes it. *)
Record ApiState : Type := {
  env_ANTHROPIC_API_KEY : option string;
  g_apiKey : string;
  g_model : string;
  g_maxTokens : Z;
  g_lastQueriedTurn : Z;
  g_lastQueriedPlayer : Z;
  g_cachedResponse : string
}.

Definition with_apiKey (k : string) (s : ApiState) : ApiState :=
  {| env_ANTHROPIC_API_KEY := env_ANTHROPIC_API_KEY s; g_apiKey := k;
     g_model := g_model s; g_maxTokens := g_maxTokens s;
     g_lastQueriedTurn := g_lastQueriedTurn s;
     g_lastQueriedPlayer := g_lastQueriedPlayer s;
     g_cachedResponse := g_cachedResponse s |}.

Definition with_cache (turn player : Z) (payload : string) (s : ApiState) : ApiState :=
  {| env_ANTHROPIC_API_KEY := env_ANTHROPIC_API_KEY s; g_apiKey := g_apiKey s;
     g_model := g_model s; g_maxTokens := g_maxTokens s;
     g_lastQueriedTurn := turn;
     g_lastQueriedPlayer := player;
     g_cachedResponse := payload |}.

(** What one call meets outside the process: the answer of the service to a
    POST (empty when the transport fails, as [HttpPost] returns it) and the
    contents of system_prompt.txt when the file can be opened. *)
Record World : Type := {
  HttpPost : string -> string -> string -> string -> string;
  system_prompt_file : option string
}.

Definition kApiHost : string := "api.anthropic.com".
Definition kApiPath : string := "/v1/messages".
Definition kDefaultModel : string := "claude-sonnet-4-5-20250929".
Definition kDefaultMaxTokens : Z := 4096.

Definition kErrNoKey : string := Eval vm_compute in cstr "{'error':'API key not set'}".
Definition kErrEmptyResponse : string := Eval vm_compute in cstr "{'error':'Empty response'}".
Definition kErrUnexpected : string := Eval vm_compute in cstr "{'error':'Unexpected response format'}".
Definition kErrParse : string := Eval vm_compute in cstr "{'error':'JSON parse error'}".
Definition kAlreadyQueried : string :=
  Eval vm_compute in cstr "{'action':'end_turn','reason':'Already queried this turn'}".
Definition kInvalidJson : string :=
  Eval vm_compute in cstr "{'action':'end_turn','reason':'Invalid JSON from Claude'}".

(** The pieces the code concatenates around an escaped text. *)
Definition kErrorOpen : string := Eval vm_compute in cstr "{'error':'".
Definition kReasonOpen : string := Eval vm_compute in cstr "{'action':'end_turn','reason':'".
Definition kObjectClose : string := Eval vm_compute in cstr "'}".
Definition kStateIntro : string := Eval vm_compute in cstr "Current game state:\n".
Definition kQuestion : string := Eval vm_compute in cstr "\n\nWhat is your next action?".

Definition kFallbackPrompt : string :=
  Eval vm_compute in
  cstr ("You are an AI playing Civilization VI as {LEADER_NAME} of {CIV_NAME}. "
        +:+ "Respond with a JSON object containing an \'actions\' array. "
        +:+ "Valid actions: move_unit, attack, found_city, build, research, civic, end_turn. "
        +:+ "Always end with {'action': 'end_turn'}. "
        +:+ "Respond ONLY with JSON, no explanation.").

(** [Initialize] (lines 583-606). *)
Definition Initialize (s : ApiState) : bool * ApiState :=
  if is_empty_str (g_apiKey s) then
    match env_ANTHROPIC_API_KEY s with
    | Some envKey => (true, with_apiKey envKey s)
    | None => (false, s)
    end
  else (true, s).

(** [ResetTurnTracking] (lines 608-614). *)
Definition ResetTurnTracking (s : ApiState) : ApiState := with_cache (-1) (-1) EmptyString s.

(** ** ClaudeAPI.cpp: reading the game state *)

Fixpoint map_str (f : ascii -> ascii) (s : string) : string :=
  match s with
  | EmptyString => EmptyString
  | String c r => String (f c) (map_str f r)
  end.

Fixpoint remove_chr (x : ascii) (s : string) : string :=
  match s with
  | EmptyString => EmptyString
  | String c r => if Ascii.eqb c x then remove_chr x r else String c (remove_chr x r)
  end.

(** [toupper] and [tolower] in the C locale. *)
Definition toupper (c : ascii) : ascii :=
  if in_range 97 122 c then byte_of (code c - 32) else c.

Definition tolower (c : ascii) : ascii :=
  if in_range 65 90 c then byte_of (code c + 32) else c.

(** The second loop of lines 461-467, in place: [prev] is the byte just
    written at the index before. *)
Fixpoint cap_after_underscore (prev : ascii) (s : string) : string :=
  match s with
  | EmptyString => EmptyString
  | String c r =>
      let c' := if Ascii.eqb prev "_" then toupper c else c in
      String c' (cap_after_underscore c' r)
  end.

(** Lines 453-472 (and 485-502): capitalise, lower the rest, capitalise
    after underscores, drop the underscores. *)
Definition tidy_name (s : string) : string :=
  match s with
  | EmptyString => EmptyString
  | String c r =>
      let c0 := toupper c in
      remove_chr "_" (String c0 (cap_after_underscore c0 (map_str tolower r)))
  end.

Definition strip_type_prefix (pfx : string) (n : nat) (s : string) : string :=
  if String.prefix pfx s then tidy_name (substr_from s n) else s.

(** [ExtractCivInfo] (lines 431-513).  A throwing accessor leaves the two
    names as they are at that point. *)
Definition ExtractCivInfo (gameStateJson : string) : string * string :=
  match json_parse gameStateJson with
  | None => ("Unknown", "Unknown")
  | Some gameState =>
      if contains gameState "player" then
        match at_key gameState "player" with
        | None => ("Unknown", "Unknown")
        | Some player =>
            let civ :=
              if contains player "civilizationType"
              then match at_key player "civilizationType" ≫= get_string with
                   | Some t => Some (strip_type_prefix "CIVILIZATION_" 13 t)
                   | None => None
                   end
              else Some "Unknown" in
            match civ with
            | None => ("Unknown", "Unknown")
            | Some civType =>
                if contains player "leaderType"
                then match at_key player "leaderType" ≫= get_string with
                     | Some t => (civType, strip_type_prefix "LEADER_" 7 t)
                     | None => (civType, "Unknown")
                     end
                else (civType, "Unknown")
            end
        end
      else ("Unknown", "Unknown")
  end.

(** [BuildSystemPrompt] (lines 537-575). *)
Definition BuildSystemPrompt (w : World) (civType leaderType : string) : string :=
  let loaded := default EmptyString (system_prompt_file w) in
  let prompt := if is_empty_str loaded then kFallbackPrompt else loaded in
  ReplaceAll (ReplaceAll prompt "{CIV_NAME}" civType) "{LEADER_NAME}" leaderType.

(** What the model leaves to the platform: the conversion of a double (given
    by its lexeme) to [int], the text [dump] prints for a double, and the
    message of the type_error 316 that [dump] throws for a value holding a
    string that is not UTF-8. *)
Class Platform : Type := {
  double_to_int : string -> Z;
  double_dump : string -> string;
  dump_error_what : json -> string
}.

Section Engine.

Context {platform : Platform}.

(** [j.get<int>()]: numbers and booleans convert, anything else throws. *)
Definition get_int (j : json) : option Z :=
  match j with
  | JInt z => Some (wrap32 z)
  | JFloat l => Some (double_to_int l)
  | JBool b => Some (if b then 1 else 0)
  | _ => None
  end.

(** [j.dump()]: compact, members in key order. *)
Fixpoint dump (j : json) : option string :=
  match j with
  | JNull => Some "null"
  | JBool b => Some (if b then "true" else "false")
  | JInt z => Some (Z_to_dec z)
  | JFloat l => Some (double_dump l)
  | JString s => dump_quoted s
  | JArray items =>
      prepend "["
        ((fix elements (l : list json) : option string :=
            match l with
            | [] => Some "]"
            | x :: r =>
                match dump x, elements r with
                | Some dx, Some dr =>
                    Some (dx +:+ (match r with [] => EmptyString | _ => "," end) +:+ dr)
                | _, _ => None
                end
            end) items)
  | JObject members =>
      prepend "{"
        ((fix fields (l : list (string * json)) : option string :=
            match l with
            | [] => Some "}"
            | (k, x) :: r =>
                match dump_quoted k, dump x, fields r with
                | Some dk, Some dx, Some dr =>
                    Some (dk +:+ ":" +:+ dx +:+ (match r with [] => EmptyString | _ => "," end) +:+ dr)
                | _, _, _ => None
                end
            end) members)
  end.

(** [ExtractTurnAndPlayer] (lines 404-428).  A throwing accessor leaves the
    pair as it is at that point. *)
Definition ExtractTurnAndPlayer (gameStateJson : string) : Z * Z :=
  match json_parse gameStateJson with
  | None => (-1, -1)
  | Some gameState =>
      let turn :=
        if contains gameState "turn" then at_key gameState "turn" ≫= get_int
        else Some (-1) in
      match turn with
      | None => (-1, -1)
      | Some t =>
          if contains gameState "playerID"
          then match at_key gameState "playerID" ≫= get_int with
               | Some p => (t, p)
               | None => (t, -1)
               end
          else (t, -1)
      end
  end.

(** ** ClaudeAPI.cpp: [GetActionFromClaude] *)

(** Lines 758-780: the action text made from the first content block. *)
Definition action_of_content (content : string) : string :=
  let jsonStr := ExtractJsonFromResponse content in
  if negb (is_empty_str jsonStr) then
    match json_parse jsonStr with
    | Some actionJson =>
        match dump actionJson with
        | Some result => result
        | None => kInvalidJson
        end
    | None => kInvalidJson
    end
  else kReasonOpen +:+ EscapeJson content +:+ kObjectClose.

(** Lines 729-801: what the call returns for the body the service sent, and
    the state it leaves.  Only the branch that reaches line 783 writes the
    cache. *)
Definition handle_response (s : ApiState) (currentTurn currentPlayer : Z)
    (response : string) : string * ApiState :=
  if is_empty_str response then (kErrEmptyResponse, s)
  else
    match json_parse response with
    | None => (kErrParse, s)
    | Some responseJson =>
        if contains responseJson "error" then
          match (at_key responseJson "error" ≫= fun e => at_key e "message") ≫= get_string with
          | Some errorMsg => (kErrorOpen +:+ EscapeJson errorMsg +:+ kObjectClose, s)
          | None => (kErrParse, s)
          end
        else
          let blocks := default JNull (at_key responseJson "content") in
          if contains responseJson "content" && is_array blocks && negb (json_empty blocks) then
            match (at_index blocks 0 ≫= fun b => at_key b "text") ≫= get_string with
            | Some content =>
                let result := action_of_content content in
                (result, with_cache currentTurn currentPlayer result s)
            | None => (kErrParse, s)
            end
          else (kErrUnexpected, s)
    end.

(** The request of lines 715-723, before [dump]. *)
Definition request_json (w : World) (s : ApiState) (gameStateJson : string) : json :=
  let '(civType, leaderType) := ExtractCivInfo gameStateJson in
  let systemPrompt := BuildSystemPrompt w civType leaderType in
  obj_of
    [("model", JString (g_model s));
     ("max_tokens", JInt (g_maxTokens s));
     ("system", JString systemPrompt);
     ("messages",
      JArray
        [obj_of
           [("role", JString "user");
            ("content",
             JString (kStateIntro +:+ gameStateJson +:+ kQuestion))]])].

(** The result of a call: what it returned or threw, the module state it
    left, and the body it posted when it reached [HttpPost]. *)
Record CallResult : Type := {
  call_outcome : outcome string;
  call_state : ApiState;
  call_posted : option string
}.

(** Whether lines 693-706 answer from the cache. *)
Definition cache_hit (s : ApiState) (currentTurn currentPlayer : Z) : bool :=
  (0 <=? currentTurn) && (0 <=? currentPlayer)
  && (currentTurn =? g_lastQueriedTurn s) && (currentPlayer =? g_lastQueriedPlayer s).

Definition GetActionFromClaude (w : World) (s : ApiState) (gameStateJson : string)
    : CallResult :=
  if is_empty_str (g_apiKey s) then
    {| call_outcome := Returned kErrNoKey; call_state := s; call_posted := None |}
  else
    let '(currentTurn, currentPlayer) := ExtractTurnAndPlayer gameStateJson in
    if cache_hit s currentTurn currentPlayer then
      {| call_outcome :=
           Returned (if negb (is_empty_str (g_cachedResponse s))
                     then g_cachedResponse s else kAlreadyQueried);
         call_state := s; call_posted := None |}
    else
      let requestBody := request_json w s gameStateJson in
      match dump requestBody with
      | None =>
          {| call_outcome := Thrown (dump_error_what requestBody);
             call_state := s; call_posted := None |}
      | Some body =>
          let response := HttpPost w kApiHost kApiPath body (g_apiKey s) in
          let '(result, s') := handle_response s currentTurn currentPlayer response in
          {| call_outcome := Returned result; call_state := s'; call_posted := Some body |}
      end.

(** ** ClaudeAPI.cpp: the asynchronous engine *)

Inductive AsyncState : Type := Idle | Pending | Ready | Failed.

#[global] Instance AsyncState_eq_dec : EqDecision AsyncState.
Proof. solve_decision. Defined.

(** Where the worker stands in [AsyncWorkerThread]; each constructor is the
    point before one access to the shared state. *)
Inductive WorkerPc : Type :=
| AtEntry
| CancelledBefore
| AtCall
| AfterCall (result : string)
| CancelledAfter
| AtStore (result : string)
| InCatch (what : string).

(** [g_asyncThread]: not joinable, running the worker on a snapshot, or
    joinable with the worker returned. *)
Inductive Thread : Type :=
| NoThread
| Running (gameStateJson : string) (pc : WorkerPc)
| Finished.

Record Async : Type := {
  api : ApiState;
  g_asyncState : AsyncState;
  g_asyncResponse : string;
  g_asyncError : string;
  g_asyncCancelled : bool;
  g_asyncThread : Thread
}.

Definition set_api (x : ApiState) (a : Async) : Async :=
  {| api := x; g_asyncState := g_asyncState a; g_asyncResponse := g_asyncResponse a;
     g_asyncError := g_asyncError a; g_asyncCancelled := g_asyncCancelled a;
     g_asyncThread := g_asyncThread a |}.

Definition set_state (x : AsyncState) (a : Async) : Async :=
  {| api := api a; g_asyncState := x; g_asyncResponse := g_asyncResponse a;
     g_asyncError := g_asyncError a; g_asyncCancelled := g_asyncCancelled a;
     g_asyncThread := g_asyncThread a |}.

Definition set_response (x : string) (a : Async) : Async :=
  {| api := api a; g_asyncState := g_asyncState a; g_asyncResponse := x;
     g_asyncError := g_asyncError a; g_asyncCancelled := g_asyncCancelled a;
     g_asyncThread := g_asyncThread a |}.

Definition set_error (x : string) (a : Async) : Async :=
  {| api := api a; g_asyncState := g_asyncState a; g_asyncResponse := g_asyncResponse a;
     g_asyncError := x; g_asyncCancelled := g_asyncCancelled a;
     g_asyncThread := g_asyncThread a |}.

Definition set_cancelled (x : bool) (a : Async) : Async :=
  {| api := api a; g_asyncState := g_asyncState a; g_asyncResponse := g_asyncResponse a;
     g_asyncError := g_asyncError a; g_asyncCancelled := x;
     g_asyncThread := g_asyncThread a |}.

Definition set_thread (x : Thread) (a : Async) : Async :=
  {| api := api a; g_asyncState := g_asyncState a; g_asyncResponse := g_asyncResponse a;
     g_asyncError := g_asyncError a; g_asyncCancelled := g_asyncCancelled a;
     g_asyncThread := x |}.

(** Lines 840-865, under the mutex: publish the result.  A result that
    parses to an object whose [error] member is a string fails the cycle;
    when [get<std::string>] throws, [catch (...)] declares it ready. *)
Definition store_result (result : string) (a : Async) : Async :=
  let a1 := set_response result a in
  match json_parse result with
  | Some resultJson =>
      if contains resultJson "error" then
        match at_key resultJson "error" ≫= get_string with
        | Some e => set_state Failed (set_error e a1)
        | None => set_state Ready a1
        end
      else set_state Ready a1
  | None => set_state Ready a1
  end.

(** One step of the worker thread.  [None] when no worker is running. *)
Definition worker_step (w : World) (a : Async) : option Async :=
  match g_asyncThread a with
  | Running gs pc =>
      Some
        match pc with
        | AtEntry =>
            if g_asyncCancelled a then set_thread (Running gs CancelledBefore) a
            else set_thread (Running gs AtCall) a
        | CancelledBefore => set_thread Finished (set_state Idle a)
        | AtCall =>
            let r := GetActionFromClaude w (api a) gs in
            match call_outcome r with
            | Returned result =>
                set_thread (Running gs (AfterCall result)) (set_api (call_state r) a)
            | Thrown what =>
                set_thread (Running gs (InCatch what)) (set_api (call_state r) a)
            end
        | AfterCall result =>
            if g_asyncCancelled a then set_thread (Running gs CancelledAfter) a
            else set_thread (Running gs (AtStore result)) a
        | CancelledAfter => set_thread Finished (set_state Idle a)
        | AtStore result => set_thread Finished (store_result result a)
        | InCatch what =>
            set_thread Finished (set_state Failed (set_error ("Exception: " +:+ what) a))
        end
  | _ => None
  end.

(** [AsyncWorkerThread] run from its entry to its return with no other
    thread in between: at most five steps. *)
Fixpoint run_worker (n : nat) (w : World) (a : Async) : Async :=
  match n with
  | O => a
  | S k =>
      match worker_step w a with
      | Some a' => run_worker k w a'
      | None => a
      end
  end.

Definition AsyncWorkerThread (w : World) (a : Async) : Async := run_worker 5 w a.

(** [StartAsyncRequest] (lines 880-926).  [None] when [join] has to wait
    for a worker that is still running. *)
Definition StartAsyncRequest (gameStateJson : string) (a : Async) : option (bool * Async) :=
  if decide (g_asyncState a = Pending) then Some (false, a)
  else
    match g_asyncThread a with
    | Running _ _ => None
    | _ =>
        let a1 := set_thread NoThread a in
        let '(ok, api') :=
          if is_empty_str (g_apiKey (api a1)) then Initialize (api a1) else (true, api a1) in
        if ok then
          Some (true,
                set_thread (Running gameStateJson AtEntry)
                  (set_state Pending
                     (set_cancelled false
                        (set_error EmptyString
                           (set_response EmptyString (set_api api' a1))))))
        else
          Some (false, set_state Failed (set_error "Failed to initialize API" a1))
    end.

(** [GetAsyncState] *)
Definition GetAsyncState (a : Async) : AsyncState := g_asyncState a.

(** [GetAsyncResponse] (lines 933-948) *)
Definition GetAsyncResponse (a : Async) : string * Async :=
  if decide (g_asyncState a = Ready)
  then (g_asyncResponse a, set_state Idle (set_response EmptyString a))
  else (EmptyString, a).

(** [GetAsyncError] (lines 950-954) *)
Definition GetAsyncError (a : Async) : string * Async := (g_asyncError a, a).

(** [CancelAsyncRequest] (lines 956-975) in its two parts: the store to the
    flag, and, once [join] has returned, the reset under the mutex. *)
Definition CancelAsyncRequest_signal (a : Async) : Async := set_cancelled true a.

Definition CancelAsyncRequest_reset (a : Async) : option Async :=
  match g_asyncThread a with
  | Running _ _ => None
  | _ =>
      Some (set_error EmptyString
              (set_response EmptyString (set_state Idle (set_thread NoThread a))))
  end.


(** ** The engine and its caller, interleaved

    The scripting runtime is logically single-threaded, so the model has one
    caller beside the worker.  [in_cancel] holds while the caller waits in
    [join] inside [CancelAsyncRequest]; every other call is one step.  For
    the calls on the async state that is what the code does: each holds
    [g_asyncMutex] for all its writes or (for [StartAsyncRequest]) writes
    only after [join] has returned.  [GetActionFromClaude] holds no lock:
    the worker runs it outside [g_asyncMutex], and its three stores to the
    cache (lines 783-785) are separate.  The model takes the call as one
    step all the same, so [step] describes the runs in which no call of
    [GetActionFromClaude] overlaps another; the states between those three
    stores are not among the states it reaches. *)
Record System : Type := {
  engine : Async;
  in_cancel : bool
}.

Inductive step : System -> System -> Prop :=
| step_worker w a a' c :
    worker_step w a = Some a' ->
    step {| engine := a; in_cancel := c |} {| engine := a'; in_cancel := c |}
| step_start gs a ok a' :
    StartAsyncRequest gs a = Some (ok, a') ->
    step {| engine := a; in_cancel := false |} {| engine := a'; in_cancel := false |}
| step_take a :
    step {| engine := a; in_cancel := false |}
         {| engine := snd (GetAsyncResponse a); in_cancel := false |}
| step_read_error a :
    step {| engine := a; in_cancel := false |}
         {| engine := snd (GetAsyncError a); in_cancel := false |}
| step_cancel_signal a :
    step {| engine := a; in_cancel := false |}
         {| engine := CancelAsyncRequest_signal a; in_cancel := true |}
| step_cancel_reset a a' :
    CancelAsyncRequest_reset a = Some a' ->
    step {| engine := a; in_cancel := true |} {| engine := a'; in_cancel := false |}
| step_blocking_call w gs a :
    step {| engine := a; in_cancel := false |}
         {| engine := set_api (call_state (GetActionFromClaude w (api a) gs)) a;
            in_cancel := false |}
| step_initialize a :
    step {| engine := a; in_cancel := false |}
         {| engine := set_api (snd (Initialize (api a))) a; in_cancel := false |}
| step_reset_tracking a :
    step {| engine := a; in_cancel := false |}
         {| engine := set_api (ResetTurnTracking (api a)) a; in_cancel := false |}.

(** The state at load time (lines 53-72), for a given process environment. *)
Definition initial_api (env : option string) : ApiState :=
  {| env_ANTHROPIC_API_KEY := env; g_apiKey := EmptyString;
     g_model := kDefaultModel; g_maxTokens := kDefaultMaxTokens;
     g_lastQueriedTurn := -1; g_lastQueriedPlayer := -1;
     g_cachedResponse := EmptyString |}.

Definition initial_async (env : option string) : Async :=
  {| api := initial_api env; g_asyncState := Idle;
     g_asyncResponse := EmptyString; g_asyncError := EmptyString;
     g_asyncCancelled := false; g_asyncThread := NoThread |}.

Definition initial_system (env : option string) : System :=
  {| engine := initial_async env; in_cancel := false |}.

Definition reachable (y : System) : Prop :=
  exists env, rtc step (initial_system env) y.

(** Steps of the worker alone, whatever the world answers. *)
Definition worker_steps : Async -> Async -> Prop :=
  rtc (fun a a' => exists w, worker_step w a = Some a').

(** ** HavokScriptIntegration.cpp: the runtime seen through the hks API *)

(** A [hks::lua_State*]; 0 is [nullptr]. *)
Definition handle : Type := N.

(** The four functions the bridge registers. *)
Inductive CFunction : Type :=
| fn_SendGameStateToClaudeAPI
| fn_StartClaudeAPIRequest
| fn_CheckClaudeAPIResponse
| fn_CancelClaudeAPIRequest.

Inductive LuaValue : Type :=
| LNil
| LBoolean (b : bool)
| LInteger (z : Z)
| LString (s : string)
| LCClosure (f : CFunction) (name : string).

(** One runtime instance: its value stack (top first) and its globals. *)
Record LuaRuntime : Type := {
  lua_stack : list LuaValue;
  lua_globals : gmap string LuaValue
}.

Definition empty_runtime : LuaRuntime := {| lua_stack := []; lua_globals := ∅ |}.

(** The entry points [InitHavokScript] resolves in the host (HavokScript.h
    is not part of the sources at hand).  A pointer that stayed null is
    [None] or [false].  The two functions that read the arguments of a call
    are taken as the host gives them: [checklstring] yields the bytes it
    points to, or [None] for a null pointer.  [pushfstring] is taken by the
    text its "%s" format leaves on the stack. *)
Record HksApi : Type := {
  gettop : option (LuaRuntime -> Z);
  checklstring : option (LuaRuntime -> Z -> option string);
  has_pushstring : bool;
  has_pushlstring : bool;
  pushfstring : option (string -> string);
  has_pushboolean : bool;
  has_pushinteger : bool;
  has_pushnamedcclosure : bool;
  has_setfield : bool
}.

(** Modelled from the spec: the push functions of HavokScript.h, which is
    not under src/.  A bridge function returns its values on the stack of
    the runtime that called it, so a push adds one value on top. *)
Definition lua_push (v : LuaValue) (rt : LuaRuntime) : LuaRuntime :=
  {| lua_stack := v :: lua_stack rt; lua_globals := lua_globals rt |}.

(** Modelled from the spec: [setfield(L, LUA_GLOBAL, name)] of HavokScript.h,
    which is not under src/.  Registration binds a callable into the global
    namespace of the runtime: the value on top leaves the stack and becomes
    the global [name]. *)
Definition lua_setglobal (name : string) (rt : LuaRuntime) : LuaRuntime :=
  match lua_stack rt with
  | v :: st => {| lua_stack := st; lua_globals := <[name := v]> (lua_globals rt) |}
  | [] => rt
  end.

(** The bytes of a [const char*]: up to the first NUL. *)
Fixpoint c_str (s : string) : string :=
  match s with
  | EmptyString => EmptyString
  | String c r => if (code c =? 0)%N then EmptyString else String c (c_str r)
  end.

(** [PushStringToLua] on a C string (lines 109-123) *)
Definition PushStringToLua_cstr (hks : HksApi) (str : string) (rt : LuaRuntime) : LuaRuntime :=
  if has_pushstring hks then lua_push (LString (c_str str)) rt
  else match pushfstring hks with
       | Some fmt => lua_push (LString (fmt (c_str str))) rt
       | None => rt
       end.

(** [PushStringToLua] on a [std::string] (lines 126-151) *)
Definition PushStringToLua (hks : HksApi) (str : string) (rt : LuaRuntime) : LuaRuntime :=
  if has_pushlstring hks then lua_push (LString str) rt
  else if has_pushstring hks then lua_push (LString (c_str str)) rt
  else match pushfstring hks with
       | Some fmt => lua_push (LString (fmt (c_str str))) rt
       | None => rt
       end.

(** The globals of HavokScriptIntegration.cpp and dllmain.cpp the bridge
    works on, the engine they drive, and the runtimes behind the handles.
    [registrations] is a ghost log: the handles for which lines 227-241 ran,
    oldest first (the code logs a block at that point). *)
Record Bridge : Type := {
  async : Async;
  g_shutdownRequested : bool;
  g_luaState : handle;
  g_registeredStates : gset handle;
  g_claudeAPIInitialized : bool;
  runtimes : gmap handle LuaRuntime;
  registrations : list handle
}.

Definition runtime_of (b : Bridge) (L : handle) : LuaRuntime :=
  default empty_runtime (runtimes b !! L).

Definition set_async (x : Async) (b : Bridge) : Bridge :=
  {| async := x; g_shutdownRequested := g_shutdownRequested b;
     g_luaState := g_luaState b; g_registeredStates := g_registeredStates b;
     g_claudeAPIInitialized := g_claudeAPIInitialized b;
     runtimes := runtimes b; registrations := registrations b |}.

Definition set_runtime (L : handle) (rt : LuaRuntime) (b : Bridge) : Bridge :=
  {| async := async b; g_shutdownRequested := g_shutdownRequested b;
     g_luaState := g_luaState b; g_registeredStates := g_registeredStates b;
     g_claudeAPIInitialized := g_claudeAPIInitialized b;
     runtimes := <[L := rt]> (runtimes b); registrations := registrations b |}.

Definition set_luaState (L : handle) (b : Bridge) : Bridge :=
  {| async := async b; g_shutdownRequested := g_shutdownRequested b;
     g_luaState := L; g_registeredStates := g_registeredStates b;
     g_claudeAPIInitialized := g_claudeAPIInitialized b;
     runtimes := runtimes b; registrations := registrations b |}.

Definition set_apiInitialized (b : Bridge) : Bridge :=
  {| async := async b; g_shutdownRequested := g_shutdownRequested b;
     g_luaState := g_luaState b; g_registeredStates := g_registeredStates b;
     g_claudeAPIInitialized := true;
     runtimes := runtimes b; registrations := registrations b |}.

Definition mark_registered (L : handle) (b : Bridge) : Bridge :=
  {| async := async b; g_shutdownRequested := g_shutdownRequested b;
     g_luaState := g_luaState b; g_registeredStates := {[L]} ∪ g_registeredStates b;
     g_claudeAPIInitialized := g_claudeAPIInitialized b;
     runtimes := runtimes b; registrations := registrations b ++ [L] |}.

Definition cfunction_name (f : CFunction) : string :=
  match f with
  | fn_SendGameStateToClaudeAPI => "SendGameStateToClaudeAPI"
  | fn_StartClaudeAPIRequest => "StartClaudeAPIRequest"
  | fn_CheckClaudeAPIResponse => "CheckClaudeAPIResponse"
  | fn_CancelClaudeAPIRequest => "CancelClaudeAPIRequest"
  end.

(** One pair of lines 227-238: [pushnamedcclosure] then [setfield]. *)
Definition bind_cfunction (f : CFunction) (rt : LuaRuntime) : LuaRuntime :=
  lua_setglobal (cfunction_name f) (lua_push (LCClosure f (cfunction_name f)) rt).

(** [RegisterFunctionInState] (lines 199-252) *)
Definition RegisterFunctionInState (hks : HksApi) (L : handle) (b : Bridge) : Bridge :=
  if (L =? 0)%N || g_shutdownRequested b then b
  else if negb (has_pushnamedcclosure hks) || negb (has_setfield hks) then b
  else
    let b1 :=
      if g_claudeAPIInitialized b then b
      else set_apiInitialized
             (set_async (set_api (snd (Initialize (api (async b)))) (async b)) b) in
    let rt :=
      bind_cfunction fn_CancelClaudeAPIRequest
        (bind_cfunction fn_CheckClaudeAPIResponse
           (bind_cfunction fn_StartClaudeAPIRequest
              (bind_cfunction fn_SendGameStateToClaudeAPI (runtime_of b1 L)))) in
    mark_registered L (set_runtime L rt b1).

(** [HookedPcall] (lines 74-99): capture, register, forward.  The original
    entry point is a parameter; the hook hands it the arguments it got and
    returns what it returns.  The parameter stands for the global
    [g_originalPcall] while the hook is installed.
    [CleanupHavokScriptIntegration] sets that global to [nullptr] (line
    438) and line 98 calls it without a test: a call of the hook that
    arrives after the clean-up is not described by this definition. *)
Definition HookedPcall (hks : HksApi) (g_originalPcall : handle -> Z -> Z -> Z -> Z)
    (L : handle) (nargs nresults errfunc : Z) (b : Bridge) : Z * Bridge :=
  let b1 :=
    if negb (L =? 0)%N && (g_luaState b =? 0)%N then set_luaState L b else b in
  let b2 :=
    if negb (L =? 0)%N && negb (g_shutdownRequested b1) then
      if decide (L ∈ g_registeredStates b1) then b1 else RegisterFunctionInState hks L b1
    else b1 in
  (g_originalPcall L nargs nresults errfunc, b2).

(** A sequence of interception events, one handle each. *)
Definition intercept_all (hks : HksApi) (g_originalPcall : handle -> Z -> Z -> Z -> Z)
    (events : list handle) (b : Bridge) : Bridge :=
  fold_left (fun acc L => snd (HookedPcall hks g_originalPcall L 0 0 0 acc)) events b.

Definition kErrShutdown : string := Eval vm_compute in cstr "{'error':'Shutdown in progress'}".
Definition kErrNoGameState : string := Eval vm_compute in cstr "{'error':'No game state received'}".

(** The argument both entry points read (lines 512-520 and 569-575): the
    game state when there is at least one argument, [checklstring] is
    resolved and yields a non-null pointer to at least one byte. *)
Definition game_state_argument (hks : HksApi) (rt : LuaRuntime) : option string :=
  let numArgs := match gettop hks with Some f => f rt | None => 0 end in
  if 1 <=? numArgs then
    match checklstring hks with
    | Some check =>
        match check rt 1 with
        | Some gameStateJson =>
            if (0 <? String.length gameStateJson)%nat then Some gameStateJson else None
        | None => None
        end
    | None => None
    end
  else None.

(** [lua_SendGameStateToClaudeAPI] (lines 498-545): the number of results,
    or the exception [GetActionFromClaude] let through. *)
Definition lua_SendGameStateToClaudeAPI (hks : HksApi) (w : World) (L : handle) (b : Bridge)
    : outcome Z * Bridge :=
  if g_shutdownRequested b then
    (Returned 1, set_runtime L (PushStringToLua_cstr hks kErrShutdown (runtime_of b L)) b)
  else
    match game_state_argument hks (runtime_of b L) with
    | Some gameStateStr =>
        let r := GetActionFromClaude w (api (async b)) gameStateStr in
        let b1 := set_async (set_api (call_state r) (async b)) b in
        match call_outcome r with
        | Returned actionJson =>
            (Returned 1, set_runtime L (PushStringToLua hks actionJson (runtime_of b1 L)) b1)
        | Thrown what => (Thrown what, b1)
        end
    | None =>
        (Returned 1, set_runtime L (PushStringToLua_cstr hks kErrNoGameState (runtime_of b L)) b)
    end.

(** Lines 556-563, 587-594 and 600-607: the flag as a boolean, else as an
    integer, else nothing. *)
Definition push_flag (hks : HksApi) (flag : bool) (rt : LuaRuntime) : LuaRuntime :=
  if has_pushboolean hks then lua_push (LBoolean flag) rt
  else if has_pushinteger hks then lua_push (LInteger (if flag then 1 else 0)) rt
  else rt.

(** [lua_StartClaudeAPIRequest] (lines 551-609); [None] while
    [StartAsyncRequest] waits in [join]. *)
Definition lua_StartClaudeAPIRequest (hks : HksApi) (L : handle) (b : Bridge)
    : option (Z * Bridge) :=
  if g_shutdownRequested b then
    Some (1, set_runtime L (push_flag hks false (runtime_of b L)) b)
  else
    match game_state_argument hks (runtime_of b L) with
    | Some gameStateStr =>
        match StartAsyncRequest gameStateStr (async b) with
        | Some (started, a') =>
            let b1 := set_async a' b in
            Some (1, set_runtime L (push_flag hks started (runtime_of b1 L)) b1)
        | None => None
        end
    | None => Some (1, set_runtime L (push_flag hks false (runtime_of b L)) b)
    end.

(** dllmain.cpp, line 586: [g_shutdownRequested.store(true)]. *)
Definition request_shutdown (b : Bridge) : Bridge :=
  {| async := async b; g_shutdownRequested := true;
     g_luaState := g_luaState b; g_registeredStates := g_registeredStates b;
     g_claudeAPIInitialized := g_claudeAPIInitialized b;
     runtimes := runtimes b; registrations := registrations b |}.

(** The bridge at load time. *)
Definition initial_bridge (env : option string) : Bridge :=
  {| async := initial_async env; g_shutdownRequested := false; g_luaState := 0%N;
     g_registeredStates := ∅; g_claudeAPIInitialized := false;
     runtimes := ∅; registrations := [] |}.

(** ** ClaudeAPI.cpp: [TestConnection] *)

Definition kMaxTestResponseTokens : Z := 100.
Definition kTestPrompt : string := "Reply with exactly: CONNECTION_OK".

(** The request of lines 627-632, before [dump]. *)
Definition test_request_json (s : ApiState) : json :=
  obj_of
    [("model", JString (g_model s));
     ("max_tokens", JInt kMaxTestResponseTokens);
     ("messages",
      JArray [obj_of [("role", JString "user"); ("content", JString kTestPrompt)]])].

(** Lines 643-671: whether the body the service sent counts as a success.
    An error object is a failure whether or not its message can be read; an
    accessor that throws is caught and is a failure too. *)
Definition test_reply_ok (response : string) : bool :=
  match json_parse response with
  | None => false
  | Some responseJson =>
      if contains responseJson "error" then false
      else
        let blocks := default JNull (at_key responseJson "content") in
        if contains responseJson "content" && is_array blocks && negb (json_empty blocks) then
          match (at_index blocks 0 ≫= fun b => at_key b "text") ≫= get_string with
          | Some _ => true
          | None => false
          end
        else false
  end.

Record TestResult : Type := {
  test_outcome : outcome bool;
  test_state : ApiState;
  test_posted : option string
}.

(** [TestConnection] (lines 616-672). *)
Definition TestConnection (w : World) (s : ApiState) : TestResult :=
  let '(ok, s1) := Initialize s in
  if ok then
    match dump (test_request_json s1) with
    | None =>
        {| test_outcome := Thrown (dump_error_what (test_request_json s1));
           test_state := s1; test_posted := None |}
    | Some body =>
        let response := HttpPost w kApiHost kApiPath body (g_apiKey s1) in
        {| test_outcome := Returned (negb (is_empty_str response) && test_reply_ok response);
           test_state := s1; test_posted := Some body |}
    end
  else {| test_outcome := Returned false; test_state := s1; test_posted := None |}.

(** ** HavokScriptIntegration.cpp: [EscapeForLua] *)

(** One [while] loop of lines 159-185: each byte [c] found is replaced by
    the two bytes [to], and the search resumes behind them. *)
Fixpoint escape_byte (c : ascii) (to : string) (s : string) : string :=
  match s with
  | EmptyString => EmptyString
  | String d r =>
      if Ascii.eqb d c then to +:+ escape_byte c to r else String d (escape_byte c to r)
  end.

(** [EscapeForLua] (lines 154-188): backslashes first, then double quotes,
    line feeds and carriage returns. *)
Definition EscapeForLua (str : string) : string :=
  escape_byte CR (String BSLASH "r")
    (escape_byte LF (String BSLASH "n")
       (escape_byte DQ (String BSLASH (chr DQ))
          (escape_byte BSLASH (String BSLASH (chr BSLASH)) str))).

(** ** HavokScriptIntegration.cpp: hook installation and Lua execution *)

(** [hks::dostring] as the host gives it: run on a runtime, it returns a
    status and leaves the runtime in some state. *)
Definition DoString : Type := handle -> string -> LuaRuntime -> Z * LuaRuntime.

(** The two globals of lines 36-42 that [Bridge] does not hold.  The third,
    [g_originalPcall], is the parameter of [HookedPcall]. *)
Record HookState : Type := {
  g_originalDostring : option DoString;
  g_pcallHookInstalled : bool
}.

Definition initial_hooks : HookState :=
  {| g_originalDostring := None; g_pcallHookInstalled := false |}.

(** [InitializeHavokScriptIntegration] (lines 259-301), given what
    [InitHavokScript] resolved: without [pcall] it returns at line 275,
    before [dostring] is looked at. *)
Definition InitializeHavokScriptIntegration (has_pcall : bool) (dostring : option DoString)
    (h : HookState) : HookState :=
  if has_pcall then
    match dostring with
    | Some run =>
        {| g_originalDostring := Some run; g_pcallHookInstalled := g_pcallHookInstalled h |}
    | None => h
    end
  else h.

(** The status codes of MinHook the source names, and any other one. *)
Inductive MH_STATUS : Type :=
| MH_OK
| MH_ERROR_ALREADY_INITIALIZED
| MH_ERROR_NOT_INITIALIZED
| MH_ERROR_ALREADY_CREATED
| MH_ERROR_NOT_CREATED
| MH_ERROR_ENABLED
| MH_ERROR_DISABLED
| MH_ERROR_NOT_EXECUTABLE
| MH_ERROR_UNSUPPORTED_FUNCTION
| MH_ERROR_MEMORY_ALLOC
| MH_ERROR_MEMORY_PROTECT
| MH_other (status : Z).

(** MinHook as [InstallPcallHook] meets it: the answer to the n-th call of
    [MH_CreateHook] (n from 1) and the answer of [MH_EnableHook], which one
    run calls at most once. *)
Record MinHook : Type := {
  MH_CreateHook : nat -> MH_STATUS;
  MH_EnableHook : MH_STATUS
}.

Definition kMaxHookRetries : nat := 5.

(** What a run of [InstallPcallHook] did: the flag it left, and how often it
    called [MH_CreateHook], [MH_EnableHook] and [Sleep]. *)
Record InstallResult : Type := {
  hooks_after : HookState;
  create_calls : nat;
  enable_calls : nat;
  sleep_calls : nat
}.

Definition set_installed (h : HookState) : HookState :=
  {| g_originalDostring := g_originalDostring h; g_pcallHookInstalled := true |}.

(** The [for] loop of lines 314-368 from iteration [attempt] on, with
    [slept] calls of [Sleep] behind it; [fuel] bounds the iterations left. *)
Fixpoint install_from (mh : MinHook) (h : HookState) (fuel attempt slept : nat)
    : InstallResult :=
  match fuel with
  | O =>
      {| hooks_after := h; create_calls := attempt - 1; enable_calls := 0;
         sleep_calls := slept |}
  | S f =>
      match MH_CreateHook mh attempt with
      | MH_OK =>
          {| hooks_after :=
               match MH_EnableHook mh with MH_OK => set_installed h | _ => h end;
             create_calls := attempt; enable_calls := 1; sleep_calls := slept |}
      | MH_ERROR_ALREADY_CREATED =>
          {| hooks_after :=
               match MH_EnableHook mh with
               | MH_OK | MH_ERROR_ENABLED => set_installed h
               | _ => h
               end;
             create_calls := attempt; enable_calls := 1; sleep_calls := slept |}
      | MH_ERROR_MEMORY_ALLOC =>
          if (attempt <? kMaxHookRetries)%nat
          then install_from mh h f (S attempt) (S slept)
          else {| hooks_after := h; create_calls := attempt; enable_calls := 0;
                  sleep_calls := slept |}
      | _ =>
          {| hooks_after := h; create_calls := attempt; enable_calls := 0;
             sleep_calls := slept |}
      end
  end.

(** [InstallPcallHook] (lines 303-369). *)
Definition InstallPcallHook (has_pcall : bool) (mh : MinHook) (h : HookState)
    : InstallResult :=
  if has_pcall then install_from mh h kMaxHookRetries 1 0
  else {| hooks_after := h; create_calls := 0; enable_calls := 0; sleep_calls := 0 |}.

(** [CleanupHavokScriptIntegration] (lines 423-447).  The log of the
    registrations made is history and stays. *)
Definition CleanupHavokScriptIntegration (has_pcall : bool) (h : HookState) (b : Bridge)
    : HookState * Bridge :=
  ({| g_originalDostring := None;
      g_pcallHookInstalled :=
        if g_pcallHookInstalled h && has_pcall then false else g_pcallHookInstalled h |},
   {| async := async b; g_shutdownRequested := g_shutdownRequested b;
      g_luaState := 0%N; g_registeredStates := ∅;
      g_claudeAPIInitialized := g_claudeAPIInitialized b;
      runtimes := runtimes b; registrations := registrations b |}).

(** [ExecuteLuaCode] (lines 453-492): the flag it returns and the runtime
    the host left. *)
Definition ExecuteLuaCode (h : HookState) (code : string) (b : Bridge) : bool * Bridge :=
  if g_shutdownRequested b then (false, b)
  else if (g_luaState b =? 0)%N then (false, b)
  else
    match g_originalDostring h with
    | None => (false, b)
    | Some run =>
        let '(result, rt) := run (g_luaState b) (c_str code) (runtime_of b (g_luaState b)) in
        (result =? 0, set_runtime (g_luaState b) rt b)
    end.

(** ** HavokScriptIntegration.cpp: the poll and cancel entry points *)

Definition kLongResponseThreshold : nat := 400.

Definition kSetPropertyOpen : string :=
  Eval vm_compute in cstr "Game.SetProperty('ClaudeAI_LongResponse', '".
Definition kSetPropertyClose : string := Eval vm_compute in cstr "')".

(** Lines 669-671: the status and the response, pushed in full length. *)
Definition push_ready (hks : HksApi) (response : string) (rt : LuaRuntime) : LuaRuntime :=
  PushStringToLua hks response (PushStringToLua_cstr hks "ready" rt).

(** [lua_CheckClaudeAPIResponse] (lines 611-690): the number of results.
    [dostring] is [hks::dostring], resolved or not. *)
Definition lua_CheckClaudeAPIResponse (hks : HksApi) (dostring : option DoString)
    (L : handle) (b : Bridge) : Z * Bridge :=
  if g_shutdownRequested b then
    (2, set_runtime L
          (PushStringToLua_cstr hks "Shutdown in progress"
             (PushStringToLua_cstr hks "error" (runtime_of b L))) b)
  else
    match GetAsyncState (async b) with
    | Idle => (1, set_runtime L (PushStringToLua_cstr hks "idle" (runtime_of b L)) b)
    | Pending => (1, set_runtime L (PushStringToLua_cstr hks "pending" (runtime_of b L)) b)
    | Ready =>
        let '(response, a') := GetAsyncResponse (async b) in
        let b1 := set_async a' b in
        if (kLongResponseThreshold <? String.length response)%nat then
          let luaCode := kSetPropertyOpen +:+ EscapeForLua response +:+ kSetPropertyClose in
          match dostring with
          | Some run =>
              let '(result, rt) := run L (c_str luaCode) (runtime_of b1 L) in
              if result =? 0
              then (1, set_runtime L (PushStringToLua_cstr hks "ready_long" rt) b1)
              else (2, set_runtime L (push_ready hks response rt) b1)
          | None => (2, set_runtime L (push_ready hks response (runtime_of b1 L)) b1)
          end
        else (2, set_runtime L (push_ready hks response (runtime_of b1 L)) b1)
    | Failed =>
        let '(errorMsg, a') := GetAsyncError (async b) in
        let b1 := set_async a' b in
        (2, set_runtime L
              (PushStringToLua_cstr hks errorMsg
                 (PushStringToLua_cstr hks "error" (runtime_of b1 L))) b1)
    end.


(** * Vocabulary of the properties *)

(** The fuel that lets the parser read from [s] down to the rest [r]: two
    units for each byte consumed, and one. *)
Definition enough (s r : string) (f : nat) : Prop :=
  (2 * (String.length s - String.length r) + 1 <= f)%nat.

(** Trimming as the specification words it: [ws_trim] is the text without
    its leading and without its trailing whitespace.  It is defined on its
    own, to be compared with what strategy 4 computes. *)
Fixpoint drop_trailing_ws (s : string) : string :=
  match s with
  | EmptyString => EmptyString
  | String c r =>
      match drop_trailing_ws r with
      | EmptyString => if is_ws c then EmptyString else String c EmptyString
      | t => String c t
      end
  end.

Definition ws_trim (s : string) : string := drop_trailing_ws (skip_ws s).

(** What holds in every state the system reaches: the error slot is empty
    unless the state is Failed, and a worker that has not returned finds the
    state Pending. *)
Definition engine_inv (a : Async) : Prop :=
  (g_asyncState a <> Failed -> g_asyncError a = EmptyString)
  /\ (forall gs pc, g_asyncThread a = Running gs pc -> g_asyncState a = Pending).

(** A key is loaded, or the environment can provide one. *)
Definition key_available (s : ApiState) : Prop :=
  g_apiKey s <> EmptyString \/ env_ANTHROPIC_API_KEY s <> None.

(** Until the worker returns, the result slot is as [StartAsyncRequest]
    left it. *)
Definition untouched (a : Async) : Prop :=
  g_asyncThread a = Finished
  \/ (g_asyncResponse a = EmptyString /\ g_asyncState a = Pending).

(** A cycle whose flag is set before the worker reaches line 841: the slot
    stays empty and the state never becomes Ready. *)
Definition silenced (a : Async) : Prop :=
  g_asyncCancelled a = true
  /\ g_asyncResponse a = EmptyString
  /\ g_asyncState a <> Ready
  /\ (forall gs r, g_asyncThread a <> Running gs (AtStore r)).

(** The worker has seen the flag set at one of its two checkpoints, or
    stands at one with the flag set. *)
Definition observing (a : Async) : Prop :=
  match g_asyncThread a with
  | Running _ AtEntry | Running _ (AfterCall _) => g_asyncCancelled a = true
  | Running _ CancelledBefore | Running _ CancelledAfter => True
  | Finished => g_asyncState a = Idle
  | _ => False
  end.

(** The answer the specification takes as its example. *)
Definition kRateLimited : string := Eval vm_compute in cstr "{'error':{'message':'rate limited'}}".

(** What the blocking call makes of it: the error object with that message. *)
Definition kErrRateLimited : string := Eval vm_compute in cstr "{'error':'rate limited'}".

(** How many times lines 227-241 ran for [L]. *)
Definition times_registered (L : handle) (b : Bridge) : nat :=
  length (filter (fun x => x = L) (registrations b)).

(** The four callables are bound under their names. *)
Definition bridge_bound (rt : LuaRuntime) : Prop :=
  forall f : CFunction,
    lua_globals rt !! cfunction_name f = Some (LCClosure f (cfunction_name f)).

(** The log and the set agree, and every logged runtime is bound. *)
Definition registry_inv (b : Bridge) : Prop :=
  NoDup (registrations b)
  /\ g_registeredStates b = list_to_set (registrations b)
  /\ (forall L, L ∈ registrations b -> bridge_bound (runtime_of b L)).

(** The three ways the claim names: no argument, a null pointer, an empty
    string. *)
Definition lacks_game_state (hks : HksApi) (rt : LuaRuntime) : Prop :=
  match gettop hks with Some f => f rt | None => 0 end < 1
  \/ (exists check, checklstring hks = Some check /\ check rt 1 = None)
  \/ (exists check, checklstring hks = Some check /\ check rt 1 = Some EmptyString).

(** What a run of [InstallPcallHook] that reports the hook installed has
    seen: the flag was set before, or [MH_EnableHook] was called after a
    creation that succeeded or found the hook created, and answered so. *)
Definition install_ok (mh : MinHook) (h : HookState) (r : InstallResult) : Prop :=
  g_pcallHookInstalled (hooks_after r) = true ->
  g_pcallHookInstalled h = true
  \/ (enable_calls r = 1%nat
      /\ (MH_CreateHook mh (create_calls r) = MH_OK /\ MH_EnableHook mh = MH_OK
          \/ MH_CreateHook mh (create_calls r) = MH_ERROR_ALREADY_CREATED
             /\ (MH_EnableHook mh = MH_OK \/ MH_EnableHook mh = MH_ERROR_ENABLED))).

(** A turn recorded in the cache comes with a stored answer. *)
Definition cache_inv (s : ApiState) : Prop :=
  0 <= g_lastQueriedTurn s -> g_cachedResponse s <> EmptyString.

(** What a step may do to the configuration: nothing to the environment,
    the model and the token limit; the key stays once it is set, and is set
    only from the environment. *)
Definition same_config (s s' : ApiState) : Prop :=
  env_ANTHROPIC_API_KEY s' = env_ANTHROPIC_API_KEY s
  /\ g_model s' = g_model s
  /\ g_maxTokens s' = g_maxTokens s
  /\ (g_apiKey s <> EmptyString -> g_apiKey s' = g_apiKey s)
  /\ (g_apiKey s' = EmptyString \/ g_apiKey s' = g_apiKey s
      \/ env_ANTHROPIC_API_KEY s = Some (g_apiKey s')).

(** The fallback prompt around its two placeholders. *)
Definition kPromptHead : string := "You are an AI playing Civilization VI as ".
Definition kPromptOf : string := " of ".
Definition kPromptTail : string :=
  Eval vm_compute in
  cstr (". Respond with a JSON object containing an \'actions\' array. "
        +:+ "Valid actions: move_unit, attack, found_city, build, research, civic, end_turn. "
        +:+ "Always end with {'action': 'end_turn'}. "
        +:+ "Respond ONLY with JSON, no explanation.").

(** A word of a type name as the game writes it: one or more capital
    letters A-Z. *)
Fixpoint all_upper (s : string) : bool :=
  match s with
  | EmptyString => true
  | String c r => in_range 65 90 c && all_upper r
  end.

Definition type_word (w : string) : Prop := w <> EmptyString /\ all_upper w = true.

(** The words joined by underscores. *)
Fixpoint join_words (ws : list string) : string :=
  match ws with
  | [] => EmptyString
  | [w] => w
  | w :: r => w +:+ String "_" (join_words r)
  end.

(** A word with its first letter kept and the others in lower case. *)
Definition capitalised (w : string) : string :=
  match w with
  | EmptyString => EmptyString
  | String c r => String c (map_str tolower r)
  end.

Fixpoint concat_words (ws : list string) : string :=
  match ws with
  | [] => EmptyString
  | w :: r => w +:+ concat_words r
  end.

(** Well-formed UTF-8 (Unicode, table 3-7), read with the continuation
    ranges [pending] still to come. *)
Fixpoint utf8_ok (pending : list (N * N)) (s : string) : bool :=
  match s with
  | EmptyString => match pending with [] => true | _ => false end
  | String c r =>
      match pending with
      | (lo, hi) :: rest => in_range lo hi c && utf8_ok rest r
      | [] =>
          if (code c <? 0x80)%N then utf8_ok [] r
          else match utf8_tail (code c) with
               | Some rs => utf8_ok rs r
               | None => false
               end
      end
  end.

(** Continuation ranges hold no ASCII byte. *)
Definition high_ranges (p : list (N * N)) : Prop :=
  Forall (fun r => (0x80 <= fst r)%N) p.

(** The lexer state that expects the continuation bytes [p]. *)
Definition sstate_of (p : list (N * N)) : sstate :=
  match p with [] => SNormal | _ => SCont p end.

(** What the lexer states carry: the hex digits read so far of the four
    make a value below 65536, and a pending high surrogate is one. *)
Definition sstate_wf (st : sstate) : Prop :=
  match st with
  | SHex k acc hi =>
      (k <= 3)%nat /\ (acc < 16 ^ N.of_nat (3 - k))%N
      /\ match hi with Some h => (0xD800 <= h <= 0xDBFF)%N | None => True end
  | SLowEsc h | SLowU h => (0xD800 <= h <= 0xDBFF)%N
  | _ => True
  end.

Definition pending_of (st : sstate) : list (N * N) :=
  match st with SCont rs => rs | _ => [] end.

(** Every string and every key of a value is well-formed UTF-8. *)
Fixpoint json_utf8 (j : json) : bool :=
  match j with
  | JString s => utf8_ok [] s
  | JArray items => forallb json_utf8 items
  | JObject members =>
      forallb (fun kv => utf8_ok [] (fst kv) && json_utf8 (snd kv)) members
  | _ => true
  end.

(** What may follow a value inside a compact text: nothing, a comma, or a
    closing bracket or brace. *)
Definition is_delim (t : string) : bool :=
  match t with
  | String c _ => Ascii.eqb c "," || Ascii.eqb c "]" || Ascii.eqb c "}"
  | EmptyString => true
  end.

Definition not_digit_head (t : string) : bool :=
  match t with
  | String c _ => negb (is_digit c)
  | EmptyString => true
  end.

Definition not_head (c : ascii) (t : string) : bool :=
  match t with
  | String c' _ => negb (Ascii.eqb c' c)
  | EmptyString => true
  end.

Definition not_e_head (t : string) : bool :=
  match t with
  | String c _ => negb (Ascii.eqb c "e" || Ascii.eqb c "E")
  | EmptyString => true
  end.

Fixpoint all_digits (s : string) : bool :=
  match s with
  | String c r => is_digit c && all_digits r
  | EmptyString => true
  end.

(** [scan_number] after the sign: [s] is the whole text, [s1] the text
    behind the sign (lemma [scan_number_sign]). *)
Definition scan_number_from (neg : bool) (s s1 : string) : option (json * string) :=
  match scan_int_part s1 with
  | None => None
  | Some (ip, s2) =>
      match scan_frac s2 with
      | None => None
      | Some (fp, s3) =>
          match scan_exp s3 with
          | None => None
          | Some (ep, s4) =>
              let n := Z.of_N (digits_value ip 0) in
              let lexeme := substr s 0 (String.length s - String.length s4) in
              if is_empty_str fp && bool_decide (ep = None) &&
                 (if neg then n <=? 2 ^ 63 else n <? 2 ^ 64)
              then Some (JInt (if neg then - n else n), s4)
              else
                let e10 :=
                  match ep with
                  | Some (eneg, d) =>
                      let x := Z.of_N (digits_value d 0) in if eneg then - x else x
                  | None => 0
                  end - Z.of_nat (String.length fp) in
                if double_overflows (ip +:+ fp) e10 then None
                else Some (JFloat lexeme, s4)
          end
      end
  end.

(** The numbers the reader produces: an integer of 64 bits, or a double
    kept as a lexeme that reads as itself. *)
Definition int_range (z : Z) : bool := (- 2 ^ 63 <=? z) && (z <? 2 ^ 64).

Definition float_lexeme (l : string) : bool :=
  match scan_number l with
  | Some (JFloat l', EmptyString) => String.eqb l' l
  | _ => false
  end.

Fixpoint json_numbers (j : json) : bool :=
  match j with
  | JInt z => int_range z
  | JFloat l => float_lexeme l
  | JArray items => forallb json_numbers items
  | JObject members => forallb (fun kv => json_numbers (snd kv)) members
  | _ => true
  end.

(** What is assumed of the platform where a double is printed: the text
    [dump] prints for a double the reader accepted is a JSON number. *)
Definition double_dump_reads : Prop :=
  forall l t, float_lexeme l = true -> is_delim t = true ->
    exists j, scan_number (double_dump l +:+ t) = Some (j, t).

(** A text [json::parse] accepts. *)
Definition is_json (text : string) : Prop := exists j, json_parse text = Some j.

(** The cache holds nothing or a JSON text. *)
Definition cache_json (s : ApiState) : Prop :=
  g_cachedResponse s = EmptyString \/ is_json (g_cachedResponse s).

(** A JSON text without an [error] member that is a string: what the store
    block of the worker (lines 840-865) files under Ready. *)
Definition plain_answer (text : string) : Prop :=
  exists j, json_parse text = Some j /\ at_key j "error" ≫= get_string = None.

(** A Ready cycle holds such a text, and so does a worker between the call
    and the store. *)
Definition answer_inv (a : Async) : Prop :=
  cache_json (api a)
  /\ (g_asyncState a = Ready -> plain_answer (g_asyncResponse a))
  /\ (forall gs r,
        g_asyncThread a = Running gs (AfterCall r) \/ g_asyncThread a = Running gs (AtStore r) ->
        is_json r).

(** A text without a NUL byte: its [c_str()] is the whole text. *)
Fixpoint no_nul (s : string) : bool :=
  match s with
  | String c r => negb (code c =? 0)%N && no_nul r
  | EmptyString => true
  end.

End Engine.

(** * Sample platform, worlds and host

    Concrete data for the worked examples below.  The platform prints a
    double by its lexeme.  The value it gives to the conversion of a double
    to [int], 0, is an arbitrary one: the properties are proved for every
    platform, and the snapshots of the examples give turn and player as
    integers.  One world always answers with the rate-limit
    error, the other with a text block holding an end-turn action; in the
    sample host every entry point is resolved and the arguments of a call
    are the values on the stack. *)

Definition sample_platform : Platform :=
  {| double_to_int := fun _ => 0;
     double_dump := fun l => if is_empty_str l then "0.0" else l;
     dump_error_what := fun _ => "[json.exception.type_error.316] invalid UTF-8 byte" |}.

Definition world_rate_limited : World :=
  {| HttpPost := fun _ _ _ _ => kRateLimited; system_prompt_file := None |}.

Definition kEndTurnReply : string :=
  Eval vm_compute in
  cstr "{'content':[{'type':'text','text':'{\\'action\\':\\'end_turn\\'}'}]}".

Definition kEndTurn : string := Eval vm_compute in cstr "{'action':'end_turn'}".

Definition world_end_turn : World :=
  {| HttpPost := fun _ _ _ _ => kEndTurnReply; system_prompt_file := None |}.

Definition kTurn5 : string := Eval vm_compute in cstr "{'turn':5,'playerID':0}".
Definition kTurn6 : string := Eval vm_compute in cstr "{'turn':6,'playerID':0}".

Definition sample_api : ApiState := with_apiKey "key" (initial_api None).

Definition sample_idle : Async := initial_async (Some "key").

Definition sample_started : Async :=
  {| api := with_apiKey "key" (initial_api (Some "key"));
     g_asyncState := Pending; g_asyncResponse := EmptyString;
     g_asyncError := EmptyString; g_asyncCancelled := false;
     g_asyncThread := Running kTurn5 AtEntry |}.

Definition sample_ready : Async :=
  {| api := sample_api; g_asyncState := Ready; g_asyncResponse := kEndTurn;
     g_asyncError := EmptyString; g_asyncCancelled := false;
     g_asyncThread := Finished |}.

Definition sample_cancelled : Async :=
  {| api := with_apiKey "key" (initial_api (Some "key"));
     g_asyncState := Idle; g_asyncResponse := EmptyString;
     g_asyncError := EmptyString; g_asyncCancelled := true;
     g_asyncThread := NoThread |}.

Definition sample_failed : Async :=
  {| api := initial_api None; g_asyncState := Failed;
     g_asyncResponse := EmptyString; g_asyncError := "Failed to initialize API";
     g_asyncCancelled := false; g_asyncThread := NoThread |}.

Definition kFencedHello : string := Eval vm_compute in cstr "```\n  hello \n```".

Definition sample_hks : HksApi :=
  {| gettop := Some (fun rt => Z.of_nat (length (lua_stack rt)));
     checklstring :=
       Some (fun rt i =>
               match lua_stack rt !! Z.to_nat (i - 1) with
               | Some (LString s) => Some s
               | _ => None
               end);
     has_pushstring := true; has_pushlstring := true;
     pushfstring := Some (fun s => s);
     has_pushboolean := true; has_pushinteger := true;
     has_pushnamedcclosure := true; has_setfield := true |}.

Definition sample_pcall (L : handle) (nargs nresults errfunc : Z) : Z := 0.

(** More sample data: a text with a two-byte sequence and with bytes to
    escape, a reply in a fence, a game state that is not UTF-8, a world with
    a prompt file, a response of 401 bytes, a host whose [dostring] succeeds
    and changes nothing, and a MinHook that lacks memory twice. *)

Definition kCafe : string :=
  Eval vm_compute in
  cstr "caf" +:+ String (byte_of 0xC3) (String (byte_of 0xA9) (cstr " 'au lait'\n")).

Definition kFencedAction : string :=
  Eval vm_compute in cstr "```json\n{ 'b' : 1, 'a' : [true] }\n```".

Definition kSortedAction : string := Eval vm_compute in cstr "{'a':[true],'b':1}".

Definition kNotUtf8 : string := String (byte_of 200) "x".


Definition sample_keyed : Async :=
  set_api (snd (Initialize (api (initial_async (Some "key"))))) (initial_async (Some "key")).

Definition sample_answered : Async :=
  set_api (call_state (GetActionFromClaude (platform := sample_platform) world_end_turn
                         (api sample_keyed) kTurn5))
    sample_keyed.

Definition sample_in_flight : Async :=
  {| api := sample_api; g_asyncState := Pending; g_asyncResponse := EmptyString;
     g_asyncError := EmptyString; g_asyncCancelled := false;
     g_asyncThread := Running kTurn5 AtCall |}.

Definition kLongText : string :=
  Eval vm_compute in string_of_list_ascii (repeat "x"%char 401).

Definition sample_ready_long : Async :=
  {| api := sample_api; g_asyncState := Ready; g_asyncResponse := kLongText;
     g_asyncError := EmptyString; g_asyncCancelled := false;
     g_asyncThread := Finished |}.

Definition sample_dostring : DoString := fun _ _ rt => (0, rt).

Definition sample_minhook : MinHook :=
  {| MH_CreateHook := fun n => if (n <? 3)%nat then MH_ERROR_MEMORY_ALLOC else MH_OK;
     MH_EnableHook := MH_OK |}.

(** A cycle run to its end, and a bridge whose caller passed one argument. *)
Definition sample_done : Async :=
  AsyncWorkerThread (platform := sample_platform) world_end_turn sample_started.

Definition sample_call_bridge (gameStateJson : string) : Bridge :=
  set_runtime 1%N (lua_push (LString gameStateJson) empty_runtime)
    (set_async sample_ready (initial_bridge None)).

Definition kEmptyFence : string := Eval vm_compute in cstr "Sorry.\n```\n```".

Definition kProse : string := "I cannot decide.".


(** A host that resolved neither [pushstring] nor [pushfstring] nor
    [pushboolean], but [pushinteger]. *)
Definition sample_hks_integers : HksApi :=
  {| gettop := gettop sample_hks; checklstring := checklstring sample_hks;
     has_pushstring := false; has_pushlstring := false; pushfstring := None;
     has_pushboolean := false; has_pushinteger := true;
     has_pushnamedcclosure := true; has_setfield := true |}.

(** A first query for the pair (5, 0) between its second and its third
    store (lines 784 and 785): the pair is recorded, the answer is not. *)
Definition sample_between_stores : ApiState := with_cache 5 0 EmptyString sample_api.

(** * Properties *)

Section Properties.

Context {platform : Platform}.

Ltac break_match :=
  match goal with
  | |- context [match ?x with _ => _ end] => destruct x eqn:?
  end.

Ltac rew_eqns :=
  repeat match goal with
         | H : ?x = _ |- context [match ?x with _ => _ end] => rewrite H
         end.

(** ** The reader: the fuel is enough *)

Lemma skip_ws_length (s : string) : (String.length (skip_ws s) <= String.length s)%nat.
Proof.
  induction s as [|c r IH]; [reflexivity|]. cbn [skip_ws].
  destruct (is_ws c); cbn [String.length]; lia.
Qed.

Lemma skip_ws_cons (s r : string) (c : ascii) :
  skip_ws s = String c r -> (String.length r < String.length s)%nat.
Proof.
  intros H. pose proof (skip_ws_length s) as Hl. rewrite H in Hl. cbn [String.length] in Hl. lia.
Qed.

Lemma emit_Some (b : string) (x : option (string * string)) (str r : string) :
  emit b x = Some (str, r) -> exists t, x = Some (t, r).
Proof. destruct x as [[t u]|]; [|discriminate]. intros [= _ <-]. eauto. Qed.

Lemma scan_string_length (st : sstate) (s str r : string) :
  scan_string st s = Some (str, r) -> (String.length r < String.length s)%nat.
Proof.
  revert st str; induction s as [|c s IH]; intros st str; [discriminate|].
  cbn [scan_string String.length].
  assert (forall st' b str', emit b (scan_string st' s) = Some (str', r) ->
            (String.length r < S (String.length s))%nat) as Hemit.
  { intros st' b str' H. apply emit_Some in H. destruct H as [t H]. apply IH in H. lia. }
  assert (forall st' str', scan_string st' s = Some (str', r) ->
            (String.length r < S (String.length s))%nat) as Hrec.
  { intros st' str' H. apply IH in H. lia. }
  destruct st.
  - repeat (match goal with |- context [if ?b then _ else _] => destruct b end);
      try discriminate; eauto.
    + intros [= _ <-]. lia.
    + destruct (utf8_tail (code c)); [eauto|discriminate].
  - destruct rs as [|[lo hi] rs']; [discriminate|].
    destruct (in_range lo hi c); [eauto|discriminate].
  - repeat (match goal with |- context [if ?b then _ else _] => destruct b end);
      try discriminate; eauto.
  - destruct (hex_val c); [|discriminate]. destruct k; [|eauto].
    destruct hi;
      repeat (match goal with |- context [if ?b then _ else _] => destruct b end);
      try discriminate; eauto.
  - destruct (Ascii.eqb c BSLASH); [eauto|discriminate].
  - destruct (Ascii.eqb c "u"); [eauto|discriminate].
Qed.

Lemma take_digits_length (s d t : string) :
  take_digits s = (d, t) -> (String.length t <= String.length s)%nat.
Proof.
  revert d t; induction s as [|c s IH]; intros d t; cbn [take_digits String.length].
  - intros [= _ <-]. reflexivity.
  - destruct (is_digit c).
    + destruct (take_digits s) as [d' t'] eqn:H. intros [= _ <-].
      specialize (IH _ _ eq_refl). lia.
    + intros [= _ <-]. cbn [String.length]. lia.
Qed.

Lemma scan_number_length (s r : string) (v : json) :
  scan_number s = Some (v, r) -> (String.length r < String.length s)%nat.
Proof.
  unfold scan_number.
  set (s1 := match s with
             | String c r0 => if Ascii.eqb c "-" then (true, r0) else (false, s)
             | EmptyString => (false, s)
             end).
  assert (String.length (snd s1) <= String.length s)%nat as Hs1.
  { unfold s1. destruct s as [|c r0]; [reflexivity|].
    destruct (Ascii.eqb c "-"); cbn [snd String.length]; lia. }
  destruct s1 as [neg s1']. cbn [snd] in Hs1.
  destruct (scan_int_part s1') as [[ip s2]|] eqn:Hip; [|discriminate].
  assert (String.length s2 < String.length s1')%nat as H2.
  { revert Hip. unfold scan_int_part. destruct s1' as [|c r0]; [discriminate|].
    destruct (Ascii.eqb c "0"); [intros [= _ <-]; cbn [String.length]; lia|].
    destruct (is_digit c); [|discriminate].
    destruct (take_digits r0) as [d t] eqn:Hd. intros [= _ <-].
    apply take_digits_length in Hd. cbn [String.length]. lia. }
  destruct (scan_frac s2) as [[fp s3]|] eqn:Hfp; [|discriminate].
  assert (String.length s3 <= String.length s2)%nat as H3.
  { revert Hfp. unfold scan_frac. destruct s2 as [|c r0]; [intros [= _ <-]; reflexivity|].
    destruct (Ascii.eqb c "."); [|intros [= _ <-]; reflexivity].
    destruct (take_digits r0) as [d t] eqn:Hd. apply take_digits_length in Hd.
    destruct d; [discriminate|]. intros [= _ <-]. cbn [String.length]. lia. }
  destruct (scan_exp s3) as [[ep s4]|] eqn:Hep; [|discriminate].
  assert (String.length s4 <= String.length s3)%nat as H4.
  { revert Hep. unfold scan_exp. destruct s3 as [|c r0]; [intros [= _ <-]; reflexivity|].
    destruct (Ascii.eqb c "e" || Ascii.eqb c "E"); [|intros [= _ <-]; reflexivity].
    set (p := match r0 with
              | String sg r' =>
                  if Ascii.eqb sg "-" then (true, r')
                  else if Ascii.eqb sg "+" then (false, r') else (false, r0)
              | EmptyString => (false, r0)
              end).
    assert (String.length (snd p) <= String.length r0)%nat as Hp.
    { unfold p. destruct r0 as [|sg r']; [reflexivity|].
      destruct (Ascii.eqb sg "-"); [cbn [snd String.length]; lia|].
      destruct (Ascii.eqb sg "+"); cbn [snd String.length]; lia. }
    destruct p as [eneg r1]. cbn [snd] in Hp.
    destruct (take_digits r1) as [d t] eqn:Hd. apply take_digits_length in Hd.
    destruct d; [discriminate|]. intros [= _ <-]. cbn [String.length]. lia. }
  repeat (match goal with |- context [if ?b then _ else _] => destruct b end);
    try discriminate; intros [= _ <-]; lia.
Qed.

Lemma drop_str_length (n : nat) (s : string) :
  String.length (drop_str n s) = (String.length s - n)%nat.
Proof.
  revert s; induction n as [|n IH]; intros [|c s]; cbn [drop_str String.length]; try lia.
  rewrite IH. lia.
Qed.

Lemma prefix_length (p s : string) :
  String.prefix p s = true -> (String.length p <= String.length s)%nat.
Proof.
  revert s; induction p as [|a p IH]; intros [|b s]; cbn [String.prefix String.length];
    try lia; try discriminate.
  destruct (ascii_dec a b); [|discriminate]. intros H. apply IH in H. lia.
Qed.

(** One more unit of fuel than the calls need changes nothing: the three
    functions unfold as follows. *)
Lemma parse_value_S (f : nat) (s : string) :
  parse_value (S f) s =
  match skip_ws s with
  | EmptyString => None
  | String c r =>
      if Ascii.eqb c "{" then
        match skip_ws r with
        | String c' r' =>
            if Ascii.eqb c' "}" then Some (JObject [], r') else parse_members f r []
        | EmptyString => None
        end
      else if Ascii.eqb c "[" then
        match skip_ws r with
        | String c' r' =>
            if Ascii.eqb c' "]" then Some (JArray [], r') else parse_elements f r []
        | EmptyString => None
        end
      else if Ascii.eqb c DQ then
        match scan_string SNormal r with
        | Some (str, t) => Some (JString str, t)
        | None => None
        end
      else if String.prefix "true" (String c r) then Some (JBool true, drop_str 4 (String c r))
      else if String.prefix "false" (String c r) then Some (JBool false, drop_str 5 (String c r))
      else if String.prefix "null" (String c r) then Some (JNull, drop_str 4 (String c r))
      else scan_number (String c r)
  end.
Proof. reflexivity. Qed.

Lemma parse_elements_S (f : nat) (s : string) (acc : list json) :
  parse_elements (S f) s acc =
  match parse_value f s with
  | None => None
  | Some (v, t) =>
      match skip_ws t with
      | String c r =>
          if Ascii.eqb c "," then parse_elements f r (acc ++ [v])%list
          else if Ascii.eqb c "]" then Some (JArray (acc ++ [v])%list, r)
          else None
      | EmptyString => None
      end
  end.
Proof. reflexivity. Qed.

Lemma parse_members_S (f : nat) (s : string) (acc : list (string * json)) :
  parse_members (S f) s acc =
  match skip_ws s with
  | String c r =>
      if Ascii.eqb c DQ then
        match scan_string SNormal r with
        | Some (k, t) =>
            match skip_ws t with
            | String c1 r1 =>
                if Ascii.eqb c1 ":" then
                  match parse_value f r1 with
                  | Some (v, u) =>
                      match skip_ws u with
                      | String c2 r2 =>
                          if Ascii.eqb c2 "," then parse_members f r2 (obj_assign k v acc)
                          else if Ascii.eqb c2 "}" then Some (JObject (obj_assign k v acc), r2)
                          else None
                      | EmptyString => None
                      end
                  | None => None
                  end
                else None
            | EmptyString => None
            end
        | None => None
        end
      else None
  | EmptyString => None
  end.
Proof. reflexivity. Qed.

Lemma parse_adequate (f' : nat) :
  (forall s v r,
     parse_value f' s = Some (v, r) ->
     (String.length r < String.length s)%nat
     /\ forall f, enough s r f -> parse_value f s = Some (v, r))
  /\ (forall s acc v r,
        parse_elements f' s acc = Some (v, r) ->
        (String.length r < String.length s)%nat
        /\ forall f, enough s r f -> parse_elements f s acc = Some (v, r))
  /\ (forall s acc v r,
        parse_members f' s acc = Some (v, r) ->
        (String.length r < String.length s)%nat
        /\ forall f, enough s r f -> parse_members f s acc = Some (v, r)).
Proof.
  induction f' as [|f' (IHv & IHe & IHm)]; [repeat split; discriminate|].
  split; [|split].
  - intros s v r. rewrite parse_value_S.
    destruct (skip_ws s) as [|c s0] eqn:Hs; [discriminate|].
    pose proof (skip_ws_cons _ _ _ Hs) as Hl0.
    destruct (Ascii.eqb c "{") eqn:Hc1.
    { destruct (skip_ws s0) as [|c' r'] eqn:Hs0; [discriminate|].
      pose proof (skip_ws_cons _ _ _ Hs0) as Hl1.
      destruct (Ascii.eqb c' "}") eqn:Hc'.
      - intros [= <- <-]. split; [lia|]. intros [|f] Hf; [unfold enough in Hf; lia|].
        rewrite parse_value_S. rew_eqns. reflexivity.
      - intros H. destruct (IHm _ _ _ _ H) as [Hlen Hfuel]. split; [lia|].
        intros [|f] Hf; [unfold enough in Hf; lia|].
        rewrite parse_value_S. rew_eqns. apply Hfuel. unfold enough in *. lia. }
    destruct (Ascii.eqb c "[") eqn:Hc2.
    { destruct (skip_ws s0) as [|c' r'] eqn:Hs0; [discriminate|].
      pose proof (skip_ws_cons _ _ _ Hs0) as Hl1.
      destruct (Ascii.eqb c' "]") eqn:Hc'.
      - intros [= <- <-]. split; [lia|]. intros [|f] Hf; [unfold enough in Hf; lia|].
        rewrite parse_value_S. rew_eqns. reflexivity.
      - intros H. destruct (IHe _ _ _ _ H) as [Hlen Hfuel]. split; [lia|].
        intros [|f] Hf; [unfold enough in Hf; lia|].
        rewrite parse_value_S. rew_eqns. apply Hfuel. unfold enough in *. lia. }
    destruct (Ascii.eqb c DQ) eqn:Hc3.
    { destruct (scan_string SNormal s0) as [[str t]|] eqn:Hstr; [|discriminate].
      pose proof (scan_string_length _ _ _ _ Hstr) as Hl1.
      intros [= <- <-]. split; [lia|]. intros [|f] Hf; [unfold enough in Hf; lia|].
      rewrite parse_value_S. rew_eqns. reflexivity. }
    assert (forall p, String.prefix p (String c s0) = true -> (1 <= String.length p)%nat ->
              (String.length (drop_str (String.length p) (String c s0)) < String.length s)%nat)
      as Hlit.
    { intros p Hp Hp1. pose proof (prefix_length _ _ Hp) as Hpl. rewrite drop_str_length.
      cbn [String.length] in *. lia. }
    destruct (String.prefix "true" (String c s0)) eqn:Hp1.
    { pose proof (Hlit _ Hp1 ltac:(cbn; lia)) as Hl1. cbn [String.length] in Hl1.
      intros [= <- <-]. split; [exact Hl1|]. intros [|f] Hf; [unfold enough in Hf; lia|].
      rewrite parse_value_S. rew_eqns. reflexivity. }
    destruct (String.prefix "false" (String c s0)) eqn:Hp2.
    { pose proof (Hlit _ Hp2 ltac:(cbn; lia)) as Hl1. cbn [String.length] in Hl1.
      intros [= <- <-]. split; [exact Hl1|]. intros [|f] Hf; [unfold enough in Hf; lia|].
      rewrite parse_value_S. rew_eqns. reflexivity. }
    destruct (String.prefix "null" (String c s0)) eqn:Hp3.
    { pose proof (Hlit _ Hp3 ltac:(cbn; lia)) as Hl1. cbn [String.length] in Hl1.
      intros [= <- <-]. split; [exact Hl1|]. intros [|f] Hf; [unfold enough in Hf; lia|].
      rewrite parse_value_S. rew_eqns. reflexivity. }
    intros H. pose proof (scan_number_length _ _ _ H) as Hl1. cbn [String.length] in Hl1.
    split; [lia|]. intros [|f] Hf; [unfold enough in Hf; lia|].
    rewrite parse_value_S. rew_eqns. exact H.
  - intros s acc v r. rewrite parse_elements_S.
    destruct (parse_value f' s) as [[v0 t]|] eqn:Hv; [|discriminate].
    destruct (IHv _ _ _ Hv) as [Hlt Hvf].
    destruct (skip_ws t) as [|c r0] eqn:Ht; [discriminate|].
    pose proof (skip_ws_cons _ _ _ Ht) as Hl0.
    destruct (Ascii.eqb c ",") eqn:Hc.
    + intros H. destruct (IHe _ _ _ _ H) as [Hlen Hfuel]. split; [lia|].
      intros [|f] Hf; [unfold enough in Hf; lia|].
      rewrite parse_elements_S, (Hvf f) by (unfold enough in *; lia).
      rew_eqns. apply Hfuel. unfold enough in *. lia.
    + destruct (Ascii.eqb c "]") eqn:Hc2; [|discriminate].
      intros [= <- <-]. split; [lia|]. intros [|f] Hf; [unfold enough in Hf; lia|].
      rewrite parse_elements_S, (Hvf f) by (unfold enough in *; lia).
      rew_eqns. reflexivity.
  - intros s acc v r. rewrite parse_members_S.
    destruct (skip_ws s) as [|c s0] eqn:Hs; [discriminate|].
    pose proof (skip_ws_cons _ _ _ Hs) as Hl0.
    destruct (Ascii.eqb c DQ) eqn:Hc; [|discriminate].
    destruct (scan_string SNormal s0) as [[k t]|] eqn:Hk; [|discriminate].
    pose proof (scan_string_length _ _ _ _ Hk) as Hl1.
    destruct (skip_ws t) as [|c1 r1] eqn:Ht; [discriminate|].
    pose proof (skip_ws_cons _ _ _ Ht) as Hl2.
    destruct (Ascii.eqb c1 ":") eqn:Hc1; [|discriminate].
    destruct (parse_value f' r1) as [[v0 u]|] eqn:Hv; [|discriminate].
    destruct (IHv _ _ _ Hv) as [Hlt Hvf].
    destruct (skip_ws u) as [|c2 r2] eqn:Hu; [discriminate|].
    pose proof (skip_ws_cons _ _ _ Hu) as Hl3.
    destruct (Ascii.eqb c2 ",") eqn:Hc2.
    + intros H. destruct (IHm _ _ _ _ H) as [Hlen Hfuel]. split; [lia|].
      intros [|f] Hf; [unfold enough in Hf; lia|].
      rewrite parse_members_S. rew_eqns.
      rewrite (Hvf f) by (unfold enough in *; lia).
      rew_eqns. apply Hfuel. unfold enough in *. lia.
    + destruct (Ascii.eqb c2 "}") eqn:Hc3; [|discriminate].
      intros [= <- <-]. split; [lia|]. intros [|f] Hf; [unfold enough in Hf; lia|].
      rewrite parse_members_S. rew_eqns.
      rewrite (Hvf f) by (unfold enough in *; lia).
      rew_eqns. reflexivity.
Qed.

(** The fuel [json_parse] gives is enough: a text the parser accepts with
    some fuel, it accepts with that one, and with the same value. *)
Lemma json_parse_enough_fuel (text : string) (f : nat) (v : json) (r : string) :
  parse_value f (if String.prefix kBom text then drop_str 3 text else text) = Some (v, r) ->
  skip_ws r = EmptyString ->
  json_parse text = Some v.
Proof.
  intros Hp Hr. unfold json_parse.
  destruct (parse_adequate f) as (Hv & _ & _).
  destruct (Hv _ _ _ Hp) as [_ Hfuel].
  rewrite Hfuel by (unfold enough; lia). rewrite Hr. reflexivity.
Qed.

(** ** Whitespace trimming

    Strategy 4 computes [ws_trim] with two searches and a substring. *)

Lemma substring_drop (k n : nat) (s : string) :
  String.substring k n s = String.substring 0 n (drop_str k s).
Proof.
  revert s; induction k as [|k IH]; intros s; [reflexivity|].
  destruct s as [|c r]; simpl; [destruct n; reflexivity|apply IH].
Qed.

Lemma first_not_of_skip (s : string) (i : nat) :
  match first_not_of_at kWhitespace s i with
  | Some j => exists k, j = (i + k)%nat /\ drop_str k s = skip_ws s
                        /\ exists c r, skip_ws s = String c r /\ is_ws c = false
  | None => skip_ws s = EmptyString
  end.
Proof.
  revert i; induction s as [|c r IH]; intros i; [reflexivity|].
  cbn [first_not_of_at skip_ws]. change (mem_chr c kWhitespace) with (is_ws c).
  destruct (is_ws c) eqn:Hc.
  - specialize (IH (S i)). destruct (first_not_of_at kWhitespace r (S i)) as [j|]; [|exact IH].
    destruct IH as (k & -> & Hd & Hne). exists (S k). split; [lia|]. split; [exact Hd|exact Hne].
  - exists 0%nat. split; [lia|]. split; [reflexivity|].
    exists c, r; split; [reflexivity|exact Hc].
Qed.

Lemma last_not_of_trailing (t : string) (i : nat) :
  match last_not_of_at kWhitespace t i with
  | Some j => exists m, j = (i + m)%nat
                        /\ String.substring 0 (S m) t = drop_trailing_ws t
                        /\ drop_trailing_ws t <> EmptyString
  | None => drop_trailing_ws t = EmptyString
  end.
Proof.
  revert i; induction t as [|c r IH]; intros i; [reflexivity|].
  cbn [last_not_of_at drop_trailing_ws]. specialize (IH (S i)).
  destruct (last_not_of_at kWhitespace r (S i)) as [j|].
  - destruct IH as (m & -> & Hs & Hne). exists (S m). split; [lia|].
    destruct (drop_trailing_ws r) as [|c' t'] eqn:Hd; [congruence|].
    split; [|discriminate]. cbn [String.substring]. rewrite Hs. reflexivity.
  - rewrite IH. change (mem_chr c kWhitespace) with (is_ws c).
    destruct (is_ws c); [reflexivity|].
    exists 0%nat. split; [lia|]. split; [|discriminate].
    cbn [String.substring]. destruct r; reflexivity.
Qed.

Lemma last_not_of_skip (s : string) (i : nat) :
  skip_ws s <> EmptyString ->
  exists k, drop_str k s = skip_ws s
            /\ last_not_of_at kWhitespace s i = last_not_of_at kWhitespace (skip_ws s) (i + k).
Proof.
  revert i; induction s as [|c r IH]; intros i Hne; [exists 0%nat; split; [reflexivity|f_equal; lia]|].
  cbn [skip_ws] in Hne |- *. destruct (is_ws c) eqn:Hc.
  - destruct (IH (S i) Hne) as (k & Hd & Hl). exists (S k). split; [exact Hd|].
    cbn [last_not_of_at]. rewrite Hl. replace (i + S k)%nat with (S i + k)%nat by lia.
    pose proof (last_not_of_trailing (skip_ws r) (S i + k)) as Ht.
    destruct (last_not_of_at kWhitespace (skip_ws r) (S i + k)); [reflexivity|].
    exfalso. destruct (skip_ws r) as [|c' r'] eqn:Hs; [congruence|].
    pose proof (first_not_of_skip r 0) as Hf.
    destruct (first_not_of_at kWhitespace r 0).
    + destruct Hf as (_ & _ & _ & c'' & r'' & Heq & Hws). rewrite Hs in Heq.
      injection Heq as -> ->. cbn [drop_trailing_ws] in Ht. rewrite Hws in Ht.
      destruct (drop_trailing_ws r''); discriminate.
    + congruence.
  - exists 0%nat. split; [reflexivity|]. f_equal. lia.
Qed.

Lemma prefix_append (p q s : string) :
  String.prefix (p +:+ q) s = true -> String.prefix p s = true.
Proof.
  revert s; induction p as [|a p IH]; intros s; [destruct s; reflexivity|].
  destruct s as [|b s]; [discriminate|].
  change (String a p +:+ q) with (String a (p +:+ q)). cbn [String.prefix].
  destruct (ascii_dec a b); [apply IH|discriminate].
Qed.

(** A text that holds [p] followed by [q] holds [p]. *)
Lemma find_at_weaken (p q s : string) (i j : nat) :
  find_at (p +:+ q) s i = Some j -> find_at p s i <> None.
Proof.
  revert i; induction s as [|c r IH]; intros i; cbn [find_at].
  - destruct (String.prefix (p +:+ q) EmptyString) eqn:H; [|discriminate].
    apply prefix_append in H. rewrite H. discriminate.
  - destruct (String.prefix (p +:+ q) (String c r)) eqn:H.
    + apply prefix_append in H. rewrite H. discriminate.
    + destruct (String.prefix p (String c r)); [discriminate|apply IH].
Qed.

(** Strategy 4 trims, whenever the text holds a byte that is not whitespace. *)
Lemma trim_passthrough_trims (s : string) :
  skip_ws s <> EmptyString -> trim_passthrough s = ws_trim s.
Proof.
  intros Hne. unfold trim_passthrough, ws_trim, find_first_not_of, find_last_not_of.
  pose proof (first_not_of_skip s 0) as Hf.
  destruct (first_not_of_at kWhitespace s 0) as [start|]; [|congruence].
  destruct Hf as (k & -> & Hd & _). simpl.
  destruct (last_not_of_skip s 0 Hne) as (k' & Hd' & ->).
  assert (k' = k) as ->.
  { assert (String.length (drop_str k' s) = String.length (drop_str k s)) by congruence.
    assert (forall n t, (n <= String.length t)%nat ->
              String.length (drop_str n t) = (String.length t - n)%nat) as Hlen.
    { induction n as [|n IH]; intros [|c t] Hle; simpl in *; try lia. apply IH. lia. }
    assert (forall n t, (String.length t < n)%nat -> drop_str n t = EmptyString) as Hbig.
    { induction n as [|n IH]; intros [|c t] Hlt; simpl in *; try lia; try reflexivity.
      apply IH. lia. }
    destruct (le_lt_dec k (String.length s)) as [Hk|Hk];
      [|rewrite (Hbig k s Hk) in Hd; congruence].
    destruct (le_lt_dec k' (String.length s)) as [Hk'|Hk'];
      [|rewrite (Hbig k' s Hk') in Hd'; congruence].
    rewrite (Hlen k s Hk), (Hlen k' s Hk') in H.
    assert (String.length (skip_ws s) <> 0%nat) by (destruct (skip_ws s); simpl; congruence).
    rewrite <- Hd, (Hlen k s Hk) in H0. lia. }
  pose proof (last_not_of_trailing (skip_ws s) (0 + k)) as Ht.
  destruct (last_not_of_at kWhitespace (skip_ws s) (0 + k)) as [last|].
  - destruct Ht as (m & -> & Hs & _). unfold substr.
    rewrite substring_drop, Hd. replace (0 + k + m - k + 1)%nat with (S m) by lia. exact Hs.
  - exfalso. destruct (skip_ws s) as [|c r] eqn:Hs; [congruence|].
    pose proof (first_not_of_skip s 0) as Hf. rewrite Hs in Hf.
    destruct (first_not_of_at kWhitespace s 0); [|discriminate].
    destruct Hf as (_ & _ & _ & c' & r' & Heq & Hws). injection Heq as -> ->.
    cbn [drop_trailing_ws] in Ht. rewrite Hws in Ht. destruct (drop_trailing_ws r'); discriminate.
Qed.

(** ** C4 and C5: extraction *)

(** C4. The three test vectors of the specification: a tagged fenced block
    wins over loose braces after it; the object is cut where the brace depth
    returns to zero, not at the last closing brace; text without braces or
    fences comes back verbatim.  (In [cstr] an apostrophe writes the double
    quote.) *)
Theorem extraction_test_vectors :
  ExtractJsonFromResponse (cstr "```json\n{'a':1}\n```\nextra {'b':2}") = cstr "{'a':1}"
  /\ ExtractJsonFromResponse (cstr "noise {'x':{'y':2}} trailer") = cstr "{'x':{'y':2}}"
  /\ ExtractJsonFromResponse "just plain text" = "just plain text".
Proof. repeat split; vm_compute; reflexivity. Qed.

(** C5, as claimed, fails: for a fenced block whose contents are not JSON,
    strategies 1-3 yield nothing, and what comes back is the contents of the
    fence, not the trimmed original text. *)
Lemma fenced_text_not_returned_verbatim :
  balanced_object (fenced_candidate (cstr "```\nhello\n```")) = None
  /\ ExtractJsonFromResponse (cstr "```\nhello\n```") = "hello"
  /\ ExtractJsonFromResponse (cstr "```\nhello\n```") <> ws_trim (cstr "```\nhello\n```").
Proof.
  split; [vm_compute; reflexivity|].
  split; [vm_compute; reflexivity|vm_compute; discriminate].
Qed.

(** C5, amended. When strategies 1-3 yield no valid JSON, the result is the
    candidate text without its leading and trailing whitespace, provided the
    candidate holds a byte that is not whitespace; the candidate is the
    contents of the fenced block when step 1 or 2 found one, and the original
    text when the text has no fence. *)
Theorem extraction_passthrough (content : string) :
  balanced_object (fenced_candidate content) = None ->
  skip_ws (fenced_candidate content) <> EmptyString ->
  ExtractJsonFromResponse content = ws_trim (fenced_candidate content)
  /\ (str_find content kFence 0 = None -> ExtractJsonFromResponse content = ws_trim content).
Proof.
  intros Hnone Hne. unfold ExtractJsonFromResponse. rewrite Hnone.
  split; [apply trim_passthrough_trims; exact Hne|].
  intros Hfence. rewrite trim_passthrough_trims by exact Hne.
  unfold fenced_candidate. rewrite Hfence.
  destruct (str_find content kFenceJson 0) as [j|] eqn:Hj; [|reflexivity].
  exfalso. revert Hj Hfence. unfold str_find. cbn [Nat.leb drop_str].
  intros Hj Hfence. apply (find_at_weaken kFence "json") in Hj. congruence.
Qed.

(** ** The engine: invariants *)

(** A call leaves the key and the environment as they are. *)
Lemma handle_response_key (s : ApiState) (t p : Z) (response : string) :
  g_apiKey (snd (handle_response s t p response)) = g_apiKey s
  /\ env_ANTHROPIC_API_KEY (snd (handle_response s t p response)) = env_ANTHROPIC_API_KEY s.
Proof. unfold handle_response. repeat break_match; split; reflexivity. Qed.

Lemma GetActionFromClaude_key (w : World) (s : ApiState) (gs : string) :
  g_apiKey (call_state (GetActionFromClaude w s gs)) = g_apiKey s
  /\ env_ANTHROPIC_API_KEY (call_state (GetActionFromClaude w s gs)) = env_ANTHROPIC_API_KEY s.
Proof.
  unfold GetActionFromClaude.
  destruct (is_empty_str (g_apiKey s)); [split; reflexivity|].
  destruct (ExtractTurnAndPlayer gs) as [t p].
  destruct (cache_hit s t p); [split; reflexivity|].
  destruct (dump (request_json w s gs)) as [body|]; [|split; reflexivity].
  pose proof (handle_response_key s t p (HttpPost w kApiHost kApiPath body (g_apiKey s))) as H.
  destruct (handle_response s t p (HttpPost w kApiHost kApiPath body (g_apiKey s))).
  exact H.
Qed.

Lemma store_result_inv (result : string) (a : Async) :
  g_asyncError a = EmptyString ->
  g_asyncState (store_result result a) <> Failed ->
  g_asyncError (store_result result a) = EmptyString.
Proof.
  intros Herr. unfold store_result. repeat break_match; simpl; intros H; congruence.
Qed.

Lemma worker_step_inv (w : World) (a a' : Async) :
  engine_inv a -> worker_step w a = Some a' -> engine_inv a'.
Proof.
  intros [Herr Hrun]. unfold worker_step.
  destruct (g_asyncThread a) as [|gs pc|] eqn:Hth; try discriminate.
  assert (g_asyncError a = EmptyString) as He.
  { apply Herr. rewrite (Hrun gs pc eq_refl). discriminate. }
  pose proof (Hrun gs pc eq_refl) as Hp.
  intros [= <-]. destruct pc.
  - destruct (g_asyncCancelled a); split; simpl; auto.
  - split; simpl; [auto|discriminate].
  - destruct (call_outcome (GetActionFromClaude w (api a) gs)); split; simpl; auto.
  - destruct (g_asyncCancelled a); split; simpl; auto.
  - split; simpl; [auto|discriminate].
  - split; simpl; [|discriminate]. apply store_result_inv; exact He.
  - split; simpl; [congruence|discriminate].
Qed.

Lemma StartAsyncRequest_inv (gs : string) (a a' : Async) (ok : bool) :
  engine_inv a -> StartAsyncRequest gs a = Some (ok, a') -> engine_inv a'.
Proof.
  intros [Herr Hrun]. unfold StartAsyncRequest.
  destruct (decide (g_asyncState a = Pending)) as [Hp|Hp]; [intros [= <- <-]; split; assumption|].
  destruct (g_asyncThread a) as [|gs' pc|] eqn:Hth; try discriminate;
    repeat break_match; intros [= <- <-]; split; simpl; try discriminate; try congruence; auto.
Qed.

Lemma step_inv (y z : System) : engine_inv (engine y) -> step y z -> engine_inv (engine z).
Proof.
  intros Hinv Hstep. destruct Hstep; simpl in *.
  - eapply worker_step_inv; eassumption.
  - eapply StartAsyncRequest_inv; eassumption.
  - destruct Hinv as [Herr Hrun]. unfold GetAsyncResponse.
    destruct (decide (g_asyncState a = Ready)) as [Hr|Hr]; simpl; [|split; assumption].
    split; simpl.
    + intros _. apply Herr. rewrite Hr. discriminate.
    + intros gs pc Hth. pose proof (Hrun gs pc Hth). congruence.
  - exact Hinv.
  - exact Hinv.
  - revert H. unfold CancelAsyncRequest_reset.
    destruct (g_asyncThread a); try discriminate; intros [= <-]; split; simpl; auto; discriminate.
  - exact Hinv.
  - exact Hinv.
  - exact Hinv.
Qed.

Lemma reachable_inv (y : System) : reachable y -> engine_inv (engine y).
Proof.
  intros [env Hsteps].
  assert (engine_inv (engine (initial_system env))) as H0.
  { split; simpl; [reflexivity|discriminate]. }
  revert H0. induction Hsteps as [|x y z Hxy _ IH]; [auto|].
  intros Hx. apply IH. eapply step_inv; eassumption.
Qed.

(** ** C1, C2 and C9: the calls of the runtime *)

(** C1, as claimed, fails: in the initial state, which is Idle, with no key
    loaded and none in the environment, the call returns false and leaves
    the state Failed with no worker. *)
Lemma start_fails_without_key :
  g_asyncState (initial_async None) <> Pending
  /\ exists a',
       StartAsyncRequest "{}" (initial_async None) = Some (false, a')
       /\ g_asyncState a' = Failed
       /\ g_asyncError a' = "Failed to initialize API"
       /\ g_asyncThread a' = NoThread.
Proof.
  split; [discriminate|]. eexists. split; [reflexivity|]. repeat split.
Qed.

(** C1, amended. In a reachable state: while Pending the call returns false
    and changes nothing; in every other state, when a key is loaded or the
    environment holds one, it empties the result and error slots, clears the
    cancellation flag, sets Pending, launches a worker on the snapshot and
    returns true; when no key is loaded and the environment holds none, it
    returns false, records the initialisation error and sets Failed. *)
Theorem start_request (y : System) (gs : string) :
  reachable y ->
  let a := engine y in
  (g_asyncState a = Pending -> StartAsyncRequest gs a = Some (false, a))
  /\ (g_asyncState a <> Pending ->
      g_apiKey (api a) <> EmptyString \/ env_ANTHROPIC_API_KEY (api a) <> None ->
      exists a',
        StartAsyncRequest gs a = Some (true, a')
        /\ g_asyncResponse a' = EmptyString
        /\ g_asyncError a' = EmptyString
        /\ g_asyncCancelled a' = false
        /\ g_asyncState a' = Pending
        /\ g_asyncThread a' = Running gs AtEntry)
  /\ (g_asyncState a <> Pending ->
      g_apiKey (api a) = EmptyString -> env_ANTHROPIC_API_KEY (api a) = None ->
      exists a',
        StartAsyncRequest gs a = Some (false, a')
        /\ g_asyncState a' = Failed
        /\ g_asyncError a' = "Failed to initialize API"
        /\ g_asyncThread a' = NoThread).
Proof.
  intros Hreach a. destruct (reachable_inv y Hreach) as [_ Hrun]. fold a in Hrun.
  unfold StartAsyncRequest. split; [|split].
  - intros Hp. destruct (decide (g_asyncState a = Pending)); [reflexivity|contradiction].
  - intros Hp Hkey. destruct (decide (g_asyncState a = Pending)); [contradiction|].
    destruct (g_asyncThread a) as [|gs' pc|] eqn:Hth;
      [|exfalso; apply Hp; eapply Hrun; reflexivity|].
    all: cbn [api set_thread]; unfold Initialize.
    all: destruct (g_apiKey (api a)) as [|c k] eqn:Hk; cbn [is_empty_str].
    all: try (destruct (env_ANTHROPIC_API_KEY (api a)) as [e|] eqn:He;
              [|destruct Hkey; congruence]).
    all: eexists; split; [reflexivity|]; repeat split.
  - intros Hp Hk He. destruct (decide (g_asyncState a = Pending)); [contradiction|].
    destruct (g_asyncThread a) as [|gs' pc|] eqn:Hth;
      [|exfalso; apply Hp; eapply Hrun; reflexivity|].
    all: cbn [api set_thread]; unfold Initialize; rewrite Hk, He; cbn [is_empty_str].
    all: eexists; split; [reflexivity|]; repeat split.
Qed.

(** C2. In the Ready state one call returns the payload, empties the slot
    and leaves Idle, and the next call returns the empty text with the state
    still Idle; in any other state the call returns the empty text and
    changes nothing.  The payload is the result the worker stored when it
    declared the cycle Ready. *)
Theorem take_result_at_most_once (a : Async) :
  (g_asyncState a = Ready ->
   fst (GetAsyncResponse a) = g_asyncResponse a
   /\ g_asyncState (snd (GetAsyncResponse a)) = Idle
   /\ g_asyncResponse (snd (GetAsyncResponse a)) = EmptyString
   /\ GetAsyncResponse (snd (GetAsyncResponse a)) = (EmptyString, snd (GetAsyncResponse a)))
  /\ (g_asyncState a <> Ready -> GetAsyncResponse a = (EmptyString, a))
  /\ (forall result,
        g_asyncState (store_result result a) = Ready ->
        fst (GetAsyncResponse (store_result result a)) = result).
Proof.
  unfold GetAsyncResponse. split; [|split].
  - intros Hr. destruct (decide (g_asyncState a = Ready)); [|contradiction].
    simpl. repeat split.
  - intros Hr. destruct (decide (g_asyncState a = Ready)); [contradiction|reflexivity].
  - intros result Hr. destruct (decide (g_asyncState (store_result result a) = Ready));
      [|contradiction].
    simpl. unfold store_result. repeat break_match; reflexivity.
Qed.

(** C9. In every reachable state the call returns the stored error text
    when the state is Failed and the empty text otherwise; it changes
    nothing, so a second read returns the same text. *)
Theorem error_only_when_failed (y : System) :
  reachable y ->
  fst (GetAsyncError (engine y))
    = (if decide (g_asyncState (engine y) = Failed)
       then g_asyncError (engine y) else EmptyString)
  /\ snd (GetAsyncError (engine y)) = engine y
  /\ GetAsyncError (snd (GetAsyncError (engine y))) = GetAsyncError (engine y).
Proof.
  intros Hreach. destruct (reachable_inv y Hreach) as [Herr _].
  unfold GetAsyncError. simpl. repeat split.
  destruct (decide (g_asyncState (engine y) = Failed)); [reflexivity|auto].
Qed.

(** ** C3: cancellation *)

Lemma StartAsyncRequest_true (gs : string) (a0 a1 : Async) :
  StartAsyncRequest gs a0 = Some (true, a1) ->
  g_asyncThread a1 = Running gs AtEntry
  /\ g_asyncCancelled a1 = false
  /\ g_asyncState a1 = Pending
  /\ g_asyncResponse a1 = EmptyString
  /\ g_asyncError a1 = EmptyString
  /\ key_available (api a1).
Proof.
  unfold StartAsyncRequest, Initialize, key_available.
  destruct (decide (g_asyncState a0 = Pending)); [discriminate|].
  destruct (g_asyncThread a0); try discriminate; cbn [api set_thread].
  all: destruct (g_apiKey (api a0)) as [|c k] eqn:Hk; cbn [is_empty_str].
  all: try (destruct (env_ANTHROPIC_API_KEY (api a0)) eqn:He; [|discriminate]).
  all: intros [= <-]; simpl; repeat split; try rewrite He; try rewrite Hk; auto;
       try (right; discriminate); try (left; discriminate).
Qed.

Lemma worker_step_key (w : World) (a a' : Async) :
  worker_step w a = Some a' ->
  g_apiKey (api a') = g_apiKey (api a)
  /\ env_ANTHROPIC_API_KEY (api a') = env_ANTHROPIC_API_KEY (api a).
Proof.
  unfold worker_step. destruct (g_asyncThread a) as [|gs pc|]; try discriminate.
  intros [= <-]. destruct pc; try (split; reflexivity).
  - destruct (g_asyncCancelled a); split; reflexivity.
  - destruct (call_outcome (GetActionFromClaude w (api a) gs)); simpl;
      apply GetActionFromClaude_key.
  - destruct (g_asyncCancelled a); split; reflexivity.
  - unfold store_result. repeat break_match; split; reflexivity.
Qed.

Lemma worker_steps_key (a a' : Async) :
  worker_steps a a' -> key_available (api a) -> key_available (api a').
Proof.
  unfold key_available. induction 1 as [|x y z [w Hxy] _ IH]; [auto|].
  intros Hx. apply IH. destruct (worker_step_key w x y Hxy) as [-> ->]. exact Hx.
Qed.

Lemma worker_steps_untouched (a a' : Async) :
  worker_steps a a' -> untouched a -> untouched a'.
Proof.
  induction 1 as [|x y z [w Hxy] _ IH]; [auto|]. intros Hx. apply IH. clear IH.
  revert Hxy. unfold worker_step, untouched in *.
  destruct (g_asyncThread x) as [|gs pc|] eqn:Hth; try discriminate.
  destruct Hx as [Hx|[Hr Hp]]; [discriminate|].
  intros [= <-]. destruct pc; simpl; auto.
  - destruct (g_asyncCancelled x); simpl; auto.
  - destruct (call_outcome (GetActionFromClaude w (api x) gs)); simpl; auto.
  - destruct (g_asyncCancelled x); simpl; auto.
Qed.

Lemma worker_steps_silenced (a a' : Async) :
  worker_steps a a' -> silenced a -> silenced a'.
Proof.
  induction 1 as [|x y z [w Hxy] _ IH]; [auto|]. intros Hx. apply IH. clear IH.
  revert Hxy. unfold worker_step, silenced in *.
  destruct (g_asyncThread x) as [|gs pc|] eqn:Hth; try discriminate.
  destruct Hx as (Hc & Hr & Hs & Hpc).
  intros [= <-]. destruct pc; try rewrite Hc; simpl;
    try (destruct (call_outcome (GetActionFromClaude w (api x) gs)); simpl);
    try (exfalso; eapply Hpc; reflexivity);
    (split; [|split; [|split]]); auto; try discriminate; intros ? ?; discriminate.
Qed.

Lemma worker_steps_observing (a a' : Async) :
  worker_steps a a' -> observing a ->
  observing a'
  /\ g_asyncResponse a' = g_asyncResponse a
  /\ g_asyncError a' = g_asyncError a.
Proof.
  induction 1 as [|x y z [w Hxy] _ IH]; [auto|]. intros Hx.
  assert (observing y /\ g_asyncResponse y = g_asyncResponse x
          /\ g_asyncError y = g_asyncError x) as (Hy & <- & <-); [|apply IH; exact Hy].
  clear IH. revert Hxy. unfold worker_step, observing in *.
  destruct (g_asyncThread x) as [|gs pc|] eqn:Hth; try discriminate.
  intros [= <-]. destruct pc; try contradiction; try rewrite Hx; simpl; auto.
Qed.

Lemma run_worker_steps (n : nat) (w : World) (a : Async) : worker_steps a (run_worker n w a).
Proof.
  revert a; induction n as [|n IH]; intros a; simpl; [apply rtc_refl|].
  destruct (worker_step w a) as [a'|] eqn:Hs; [|apply rtc_refl].
  eapply rtc_l; [exists w; exact Hs|apply IH].
Qed.

(** Once the flag is set, three more steps end a worker that stands before
    the call. *)
Lemma cancelled_worker_returns (w : World) (a : Async) (gs : string) :
  g_asyncCancelled a = true ->
  g_asyncThread a = Running gs AtEntry \/ g_asyncThread a = Running gs AtCall ->
  g_asyncThread (run_worker 3 w a) = Finished.
Proof.
  intros Hc [Hth|Hth]; unfold run_worker, worker_step; rewrite Hth.
  - rewrite Hc. simpl. reflexivity.
  - destruct (call_outcome (GetActionFromClaude w (api a) gs)); simpl; [rewrite Hc|];
      reflexivity.
Qed.

(** C3. After a successful start, let the worker run up to (not into) the
    call, then set the flag, let the worker run on, and finish the cancel
    once [join] returns.  The state is then Idle with both slots empty and a
    new start succeeds; the worker does return; when it has returned the
    payload slot is still empty and the state is not Ready.  And a worker
    that finds the flag set at a checkpoint changes neither slot afterwards
    and returns with the state Idle. *)
Theorem cancel_right_after_start (gs : string) (a0 a1 a2 a3 a4 : Async) :
  StartAsyncRequest gs a0 = Some (true, a1) ->
  worker_steps a1 a2 ->
  g_asyncThread a2 = Running gs AtEntry \/ g_asyncThread a2 = Running gs AtCall ->
  worker_steps (CancelAsyncRequest_signal a2) a3 ->
  CancelAsyncRequest_reset a3 = Some a4 ->
  (g_asyncState a4 = Idle /\ g_asyncResponse a4 = EmptyString /\ g_asyncError a4 = EmptyString)
  /\ (forall gs', exists a5, StartAsyncRequest gs' a4 = Some (true, a5))
  /\ (forall w : World,
        worker_steps (CancelAsyncRequest_signal a2) (run_worker 3 w (CancelAsyncRequest_signal a2))
        /\ g_asyncThread (run_worker 3 w (CancelAsyncRequest_signal a2)) = Finished)
  /\ (g_asyncResponse a3 = EmptyString /\ g_asyncState a3 <> Ready)
  /\ (forall b b', observing b -> worker_steps b b' ->
        g_asyncResponse b' = g_asyncResponse b
        /\ g_asyncError b' = g_asyncError b
        /\ (g_asyncThread b' = Finished -> g_asyncState b' = Idle)).
Proof.
  intros Hstart H12 Hpc H23 Hreset.
  destruct (StartAsyncRequest_true gs a0 a1 Hstart) as (Hth1 & Hc1 & Hp1 & Hr1 & He1 & Hk1).
  assert (key_available (api a3)) as Hk3.
  { apply (worker_steps_key _ _ H23). simpl. apply (worker_steps_key _ _ H12). exact Hk1. }
  assert (g_asyncResponse a2 = EmptyString /\ g_asyncState a2 = Pending) as [Hr2 Hp2].
  { destruct (worker_steps_untouched a1 a2 H12) as [Hf|H]; [right; auto| |exact H].
    destruct Hpc; congruence. }
  assert (silenced (CancelAsyncRequest_signal a2)) as Hsil.
  { repeat split; simpl; auto; [congruence|]. intros gs' r. destruct Hpc; congruence. }
  revert Hreset. unfold CancelAsyncRequest_reset.
  destruct (g_asyncThread a3) eqn:Hth3; try discriminate; intros [= <-].
  all: split; [repeat split|].
  all: split;
    [intros gs'; unfold StartAsyncRequest, Initialize; simpl;
     destruct Hk3 as [Hk|Hk];
     [destruct (g_apiKey (api a3)); [contradiction|]; simpl; eexists; reflexivity
     |destruct (g_apiKey (api a3)); simpl;
      [destruct (env_ANTHROPIC_API_KEY (api a3)); [|contradiction]|];
      eexists; reflexivity]|].
  all: split;
    [intros w;
     split; [apply run_worker_steps|apply (cancelled_worker_returns w _ gs); simpl; auto]|].
  all: split;
    [destruct (worker_steps_silenced _ _ H23 Hsil) as (_ & Hr3 & Hs3 & _); auto|].
  all: intros b b' Hobs Hsteps;
       destruct (worker_steps_observing b b' Hsteps Hobs) as (Hobs' & Hr & He);
       repeat split; auto; intros Hfin; unfold observing in Hobs'; rewrite Hfin in Hobs';
       exact Hobs'.
Qed.

(** ** C6 and C7: the blocking call

    C6 itself is proved further down, once it is known when the writer
    throws. *)

Lemma dec_digits_nonempty (fuel : nat) (n : N) (acc : string) :
  acc <> EmptyString -> dec_digits fuel n acc <> EmptyString.
Proof.
  revert n acc; induction fuel as [|f IH]; intros n acc Hacc; simpl; [exact Hacc|].
  destruct (n <? 10)%N; [discriminate|]. apply IH. discriminate.
Qed.

Lemma Z_to_dec_nonempty (z : Z) : Z_to_dec z <> EmptyString.
Proof.
  unfold Z_to_dec, N_to_dec. destruct (z <? 0); [discriminate|].
  cbn [dec_digits]. destruct (_ <? 10)%N; [discriminate|].
  apply dec_digits_nonempty. discriminate.
Qed.

(** [dump] never prints the empty text, given that it prints none for a
    double. *)
Lemma dump_nonempty (j : json) (r : string) :
  (forall l, double_dump l <> EmptyString) ->
  dump j = Some r -> r <> EmptyString.
Proof.
  intros Hd. destruct j; cbn [dump].
  - intros [= <-]. discriminate.
  - intros [= <-]. destruct b; discriminate.
  - intros [= <-]. apply Z_to_dec_nonempty.
  - intros [= <-]. apply Hd.
  - unfold dump_quoted. destruct (dump_escaped [] s); [|discriminate].
    intros [= <-]. discriminate.
  - unfold prepend. break_match; [|discriminate]. intros [= <-]. discriminate.
  - unfold prepend. break_match; [|discriminate]. intros [= <-]. discriminate.
Qed.

Lemma action_of_content_nonempty (content : string) :
  (forall l, double_dump l <> EmptyString) ->
  action_of_content content <> EmptyString.
Proof.
  intros Hd. unfold action_of_content.
  destruct (negb (is_empty_str (ExtractJsonFromResponse content))); [|discriminate].
  destruct (json_parse (ExtractJsonFromResponse content)) as [j|]; [|discriminate].
  destruct (dump j) as [r|] eqn:Hr; [|discriminate].
  eapply dump_nonempty; eassumption.
Qed.

(** The body handler either leaves the state alone or stores, under the
    pair it was given, the non-empty text it returns. *)
Lemma handle_response_cases (s : ApiState) (t p : Z) (response : string) :
  (forall l, double_dump l <> EmptyString) ->
  snd (handle_response s t p response) = s
  \/ (snd (handle_response s t p response)
        = with_cache t p (fst (handle_response s t p response)) s
      /\ fst (handle_response s t p response) <> EmptyString).
Proof.
  intros Hd. unfold handle_response.
  repeat break_match; simpl; auto.
  right. split; [reflexivity|]. apply action_of_content_nonempty. exact Hd.
Qed.

(** What a call that posted has done. *)
Lemma GetActionFromClaude_posted (w : World) (s : ApiState) (gs : string) :
  call_posted (GetActionFromClaude w s gs) <> None ->
  exists t p body,
    ExtractTurnAndPlayer gs = (t, p)
    /\ is_empty_str (g_apiKey s) = false
    /\ cache_hit s t p = false
    /\ dump (request_json w s gs) = Some body
    /\ call_posted (GetActionFromClaude w s gs) = Some body
    /\ call_outcome (GetActionFromClaude w s gs)
         = Returned (fst (handle_response s t p (HttpPost w kApiHost kApiPath body (g_apiKey s))))
    /\ call_state (GetActionFromClaude w s gs)
         = snd (handle_response s t p (HttpPost w kApiHost kApiPath body (g_apiKey s))).
Proof.
  unfold GetActionFromClaude.
  destruct (is_empty_str (g_apiKey s)) eqn:Hk; [simpl; congruence|].
  destruct (ExtractTurnAndPlayer gs) as [t p].
  destruct (cache_hit s t p) eqn:Hh; [simpl; congruence|].
  destruct (dump (request_json w s gs)) as [body|] eqn:Hb; [|simpl; congruence].
  intros _. exists t, p, body.
  destruct (handle_response s t p (HttpPost w kApiHost kApiPath body (g_apiKey s))).
  simpl. repeat split; auto.
Qed.

Lemma handle_response_rate_limited (s : ApiState) (t p : Z) :
  handle_response s t p kRateLimited = (kErrRateLimited, s).
Proof. vm_compute. reflexivity. Qed.

Lemma store_result_rate_limited (a : Async) :
  g_asyncState (store_result kErrRateLimited a) = Failed
  /\ g_asyncError (store_result kErrRateLimited a) = "rate limited".
Proof. split; vm_compute; reflexivity. Qed.

(** A worker that is not cancelled and whose call returns runs to line 841
    and publishes what the call returned. *)
Lemma worker_runs_to_store (w : World) (a : Async) (gs result : string) :
  g_asyncThread a = Running gs AtEntry ->
  g_asyncCancelled a = false ->
  call_outcome (GetActionFromClaude w (api a) gs) = Returned result ->
  exists a', AsyncWorkerThread w a = set_thread Finished (store_result result a').
Proof.
  intros Hth Hc Hout. eexists.
  unfold AsyncWorkerThread. cbn [run_worker].
  unfold worker_step at 1. rewrite Hth, Hc.
  unfold worker_step at 1. cbn [g_asyncThread set_thread api]. rewrite Hout.
  unfold worker_step at 1. cbn [g_asyncThread g_asyncCancelled set_thread set_api]. rewrite Hc.
  unfold worker_step at 1. cbn [g_asyncThread set_thread].
  unfold worker_step at 1. cbn [g_asyncThread set_thread]. reflexivity.
Qed.

(** Five steps are enough: from any point of its body the worker returns. *)
Lemma AsyncWorkerThread_returns (w : World) (a : Async) (gs : string) (pc : WorkerPc) :
  g_asyncThread a = Running gs pc ->
  g_asyncThread (AsyncWorkerThread w a) = Finished.
Proof.
  intros Hth. unfold AsyncWorkerThread. cbn [run_worker].
  unfold worker_step at 1. rewrite Hth.
  destruct pc;
    try destruct (g_asyncCancelled a) eqn:Hc;
    try destruct (call_outcome (GetActionFromClaude w (api a) gs)) eqn:Hout;
    repeat (unfold worker_step at 1;
            cbn [g_asyncThread g_asyncCancelled set_thread set_state set_error set_api api];
            try rewrite Hc; try rewrite Hout;
            try destruct (call_outcome (GetActionFromClaude w (api a) gs)) eqn:Hout);
    reflexivity.
Qed.

Lemma set_thread_slots (t : Thread) (a : Async) :
  g_asyncState (set_thread t a) = g_asyncState a
  /\ g_asyncError (set_thread t a) = g_asyncError a
  /\ g_asyncThread (set_thread t a) = t.
Proof. repeat split. Qed.

(** C7. A cycle is started and its worker runs from entry to return; the
    call reaches the service, which answers with the error object whose
    message is "rate limited".  The cycle ends Failed and the stored error
    text is "rate limited". *)
Theorem error_surfacing (w : World) (gs : string) (a0 a1 : Async) :
  StartAsyncRequest gs a0 = Some (true, a1) ->
  (forall host path body key, HttpPost w host path body key = kRateLimited) ->
  call_posted (GetActionFromClaude w (api a1) gs) <> None ->
  g_asyncState (AsyncWorkerThread w a1) = Failed
  /\ g_asyncError (AsyncWorkerThread w a1) = "rate limited"
  /\ g_asyncThread (AsyncWorkerThread w a1) = Finished.
Proof.
  intros Hstart Hreply Hposted.
  destruct (StartAsyncRequest_true gs a0 a1 Hstart) as (Hth & Hc & _).
  destruct (GetActionFromClaude_posted w (api a1) gs Hposted)
    as (t & p & body & _ & _ & _ & _ & _ & Hout & _).
  rewrite Hreply, handle_response_rate_limited in Hout. cbn [fst] in Hout.
  destruct (worker_runs_to_store w a1 gs _ Hth Hc Hout) as [a' ->].
  destruct (set_thread_slots Finished (store_result kErrRateLimited a'))
    as (-> & -> & ->).
  destruct (store_result_rate_limited a') as [Hs He].
  split; [exact Hs|]. split; [exact He|reflexivity].
Qed.

(** ** C8: registration *)

Lemma bind_all_bound (rt : LuaRuntime) :
  bridge_bound
    (bind_cfunction fn_CancelClaudeAPIRequest
       (bind_cfunction fn_CheckClaudeAPIResponse
          (bind_cfunction fn_StartClaudeAPIRequest
             (bind_cfunction fn_SendGameStateToClaudeAPI rt)))).
Proof.
  intros f. unfold bind_cfunction, lua_setglobal, lua_push. cbn [lua_stack lua_globals].
  destruct f; cbn [cfunction_name];
    repeat (first [rewrite lookup_insert_eq; reflexivity
                  |rewrite lookup_insert_ne by discriminate]).
Qed.

Lemma count_in_NoDup (l : list handle) (L : handle) :
  NoDup l ->
  length (filter (fun x => x = L) l) = if decide (L ∈ l) then 1%nat else 0%nat.
Proof.
  induction 1 as [|y l Hy Hnd IH]; [reflexivity|].
  rewrite filter_cons. destruct (decide (y = L)) as [->|Hne].
  - cbn [length]. rewrite IH. destruct (decide (L ∈ l)); [contradiction|].
    destruct (decide (L ∈ L :: l)) as [|Hn]; [reflexivity|].
    exfalso. apply Hn. left.
  - rewrite IH. destruct (decide (L ∈ l)) as [Hin|Hnin].
    + destruct (decide (L ∈ y :: l)) as [|Hn]; [reflexivity|].
      exfalso. apply Hn. right. exact Hin.
    + destruct (decide (L ∈ y :: l)) as [Hin|]; [|reflexivity].
      apply elem_of_cons in Hin. destruct Hin; [congruence|contradiction].
Qed.

(** One interception event. *)
Lemma HookedPcall_registry (hks : HksApi) (orig : handle -> Z -> Z -> Z -> Z)
    (L : handle) (n1 n2 n3 : Z) (b : Bridge) :
  has_pushnamedcclosure hks = true -> has_setfield hks = true ->
  g_shutdownRequested b = false -> registry_inv b ->
  g_shutdownRequested (snd (HookedPcall hks orig L n1 n2 n3 b)) = false
  /\ registry_inv (snd (HookedPcall hks orig L n1 n2 n3 b))
  /\ (forall x, x ∈ registrations (snd (HookedPcall hks orig L n1 n2 n3 b))
                <-> x ∈ registrations b \/ (x = L /\ L <> 0%N)).
Proof.
  intros Hpush Hset Hshut (Hnd & Hreg & Hbound). unfold HookedPcall. cbn [snd].
  set (b1 := if negb (L =? 0)%N && (g_luaState b =? 0)%N then set_luaState L b else b).
  assert (g_shutdownRequested b1 = false /\ registrations b1 = registrations b
          /\ g_registeredStates b1 = g_registeredStates b
          /\ runtimes b1 = runtimes b) as (Hs1 & Hr1 & Hg1 & Hm1).
  { unfold b1. destruct (negb (L =? 0)%N && (g_luaState b =? 0)%N); repeat split; auto. }
  assert (forall x, runtime_of b1 x = runtime_of b x) as Hrt1.
  { intros x. unfold runtime_of. rewrite Hm1. reflexivity. }
  assert (registry_inv b1) as Hinv1.
  { unfold registry_inv. rewrite Hr1, Hg1. split; [exact Hnd|]. split; [exact Hreg|].
    intros x Hx. rewrite Hrt1. auto. }
  clearbody b1. rewrite Hs1. destruct (N.eqb_spec L 0) as [->|HL]; cbn [negb andb].
  { split; [exact Hs1|]. split; [exact Hinv1|]. rewrite Hr1.
    intros x. split; [auto|]. intros [H|[_ H]]; [exact H|contradiction]. }
  destruct (decide (L ∈ g_registeredStates b1)) as [Hin|Hnin].
  { split; [exact Hs1|]. split; [exact Hinv1|]. rewrite Hr1.
    intros x. split; [auto|]. intros [H|[-> _]]; [exact H|].
    rewrite Hg1, Hreg in Hin. apply elem_of_list_to_set in Hin. exact Hin. }
  assert (L ∉ registrations b) as HnL.
  { intros H. apply Hnin. rewrite Hg1, Hreg. apply elem_of_list_to_set. exact H. }
  unfold RegisterFunctionInState. rewrite Hs1, Hpush, Hset.
  destruct (N.eqb_spec L 0) as [|_]; [contradiction|]. cbn [orb negb].
  set (b2 := if g_claudeAPIInitialized b1 then b1
             else set_apiInitialized
                    (set_async (set_api (snd (Initialize (api (async b1)))) (async b1)) b1)).
  assert (g_shutdownRequested b2 = false /\ registrations b2 = registrations b
          /\ g_registeredStates b2 = g_registeredStates b
          /\ runtimes b2 = runtimes b) as (Hs2 & Hr2 & Hg2 & Hm2).
  { unfold b2. destruct (g_claudeAPIInitialized b1); repeat split; auto. }
  clearbody b2. cbn [g_shutdownRequested registrations g_registeredStates mark_registered
                     set_runtime runtimes].
  unfold registry_inv.
  cbn [g_shutdownRequested registrations g_registeredStates mark_registered
       set_runtime runtimes].
  rewrite Hr2, Hg2. split; [exact Hs2|]. split.
  - split; [|split].
    + apply NoDup_app. split; [exact Hnd|]. split; [|apply NoDup_singleton].
      intros x Hx Hx'. apply list_elem_of_singleton in Hx'. congruence.
    + rewrite Hreg, list_to_set_snoc_L. apply (comm_L union).
    + intros x Hx. unfold runtime_of. cbn [runtimes mark_registered set_runtime]. rewrite Hm2.
      destruct (decide (x = L)) as [->|Hne].
      * rewrite lookup_insert_eq. cbn [default]. apply bind_all_bound.
      * rewrite lookup_insert_ne by congruence.
        apply elem_of_app in Hx. destruct Hx as [Hx|Hx].
        -- apply (Hbound x Hx).
        -- apply list_elem_of_singleton in Hx. contradiction.
  - intros x. rewrite elem_of_app, list_elem_of_singleton. split.
    + intros [H| ->]; auto.
    + intros [H|[-> _]]; auto.
Qed.

(** A sequence of events. *)
Lemma intercept_all_registry (hks : HksApi) (orig : handle -> Z -> Z -> Z -> Z)
    (events : list handle) (b : Bridge) :
  has_pushnamedcclosure hks = true -> has_setfield hks = true ->
  g_shutdownRequested b = false -> registry_inv b ->
  registry_inv (intercept_all hks orig events b)
  /\ (forall x, x ∈ registrations (intercept_all hks orig events b)
                <-> x ∈ registrations b \/ (x ∈ events /\ x <> 0%N)).
Proof.
  intros Hpush Hset. revert b. induction events as [|L events IH]; intros b Hshut Hinv.
  - split; [exact Hinv|]. intros x. split; [auto|].
    intros [H|[H _]]; [exact H|]. inversion H.
  - unfold intercept_all. cbn [fold_left].
    destruct (HookedPcall_registry hks orig L 0 0 0 b Hpush Hset Hshut Hinv)
      as (Hshut' & Hinv' & Hmem).
    destruct (IH _ Hshut' Hinv') as [Hinv'' Hmem'']. split; [exact Hinv''|].
    intros x. unfold intercept_all in Hmem''. rewrite Hmem'', Hmem, elem_of_cons.
    split.
    + intros [[H|[-> H]]|[H H']]; auto.
    + intros [H|[[ ->|H] H']]; auto.
Qed.

(** C8, amended. While shutdown has not been requested and the host's
    [pushnamedcclosure] and [setfield] are resolved, start from an empty
    registry and let any sequence of events pass.  Every non-null handle
    among the events is registered exactly once: it is in the set and its
    runtime carries the four callables.  Null handles and handles not among
    the events are never registered.  The number of registrations is the
    number of distinct non-null handles, and one or more events with the
    same non-null handle leave the single registration of that handle. *)
Theorem registration_once (hks : HksApi) (orig : handle -> Z -> Z -> Z -> Z)
    (events : list handle) (b : Bridge) :
  has_pushnamedcclosure hks = true -> has_setfield hks = true ->
  g_shutdownRequested b = false ->
  g_registeredStates b = ∅ -> registrations b = [] ->
  (forall L, L ∈ events -> L <> 0%N ->
     times_registered L (intercept_all hks orig events b) = 1%nat
     /\ L ∈ g_registeredStates (intercept_all hks orig events b)
     /\ bridge_bound (runtime_of (intercept_all hks orig events b) L))
  /\ (forall L, L ∉ events \/ L = 0%N ->
        times_registered L (intercept_all hks orig events b) = 0%nat)
  /\ length (registrations (intercept_all hks orig events b))
       = size (list_to_set (filter (fun L => L <> 0%N) events) : gset handle)
  /\ (forall L n, L <> 0%N -> events = replicate (S n) L ->
        registrations (intercept_all hks orig events b) = [L]).
Proof.
  intros Hpush Hset Hshut Hempty Hlog.
  assert (registry_inv b) as Hinv.
  { unfold registry_inv. rewrite Hlog, Hempty. split; [apply NoDup_nil_2|].
    split; [reflexivity|]. intros L H. inversion H. }
  destruct (intercept_all_registry hks orig events b Hpush Hset Hshut Hinv)
    as [(Hnd & Hreg & Hbound) Hmem].
  rewrite Hlog in Hmem.
  assert (forall x, x ∈ registrations (intercept_all hks orig events b)
                    <-> x ∈ events /\ x <> 0%N) as Hmem'.
  { intros x. rewrite Hmem. split; [intros [H|H]; [inversion H|exact H]|auto]. }
  clear Hmem. split; [|split; [|split]].
  - intros L HL Hne. assert (L ∈ registrations (intercept_all hks orig events b)) as Hin
      by (apply Hmem'; auto).
    split; [|split].
    + unfold times_registered. rewrite (count_in_NoDup _ L Hnd).
      case_decide; [reflexivity|contradiction].
    + rewrite Hreg. apply elem_of_list_to_set. exact Hin.
    + apply Hbound. exact Hin.
  - intros L HL. unfold times_registered. rewrite (count_in_NoDup _ L Hnd).
    case_decide as Hin; [|reflexivity].
    apply Hmem' in Hin. destruct Hin as [Hin Hne]. destruct HL; contradiction.
  - rewrite <- (size_list_to_set (C := gset handle) _ Hnd). f_equal.
    apply set_eq. intros x. rewrite !elem_of_list_to_set, list_elem_of_filter, Hmem'.
    tauto.
  - intros L n Hne ->.
    assert (forall x, x ∈ registrations (intercept_all hks orig (replicate (S n) L) b)
                      <-> x = L) as Hone.
    { intros x. rewrite Hmem', elem_of_replicate. split; [tauto|].
      intros ->. repeat split; auto. }
    destruct (registrations (intercept_all hks orig (replicate (S n) L) b)) as [|y [|z r]].
    + exfalso. assert (L ∈ @nil handle) as H by (apply Hone; reflexivity). inversion H.
    + f_equal. apply Hone. left.
    + exfalso. assert (y = L) as -> by (apply Hone; left).
      assert (z = L) as -> by (apply Hone; right; left).
      apply NoDup_cons in Hnd. destruct Hnd as [Hn _]. apply Hn. left.
Qed.

(** ** C10: a call without a game state *)

Lemma lacks_game_state_argument (hks : HksApi) (rt : LuaRuntime) :
  lacks_game_state hks rt -> game_state_argument hks rt = None.
Proof.
  unfold lacks_game_state, game_state_argument.
  intros [H|[(check & -> & H)|(check & -> & H)]].
  - destruct (Z.leb_spec 1 (match gettop hks with Some f => f rt | None => 0 end));
      [lia|reflexivity].
  - rewrite H. destruct (1 <=? _); reflexivity.
  - rewrite H. destruct (1 <=? _); reflexivity.
Qed.

Lemma runtime_of_set_runtime (L : handle) (rt : LuaRuntime) (b : Bridge) :
  runtime_of (set_runtime L rt b) L = rt.
Proof. unfold runtime_of. cbn [set_runtime runtimes]. rewrite lookup_insert_eq. reflexivity. Qed.

(** What [PushStringToLua] leaves on the stack for either error text, by
    the push function the host resolved. *)
Lemma push_error_stack (hks : HksApi) (shutdown : bool) (rt : LuaRuntime) :
  let msg := if shutdown then kErrShutdown else kErrNoGameState in
  (has_pushstring hks = true ->
   lua_stack (PushStringToLua_cstr hks msg rt) = LString msg :: lua_stack rt)
  /\ (has_pushstring hks = false ->
      forall fmt, pushfstring hks = Some fmt ->
      lua_stack (PushStringToLua_cstr hks msg rt) = LString (fmt msg) :: lua_stack rt)
  /\ (has_pushstring hks = false -> pushfstring hks = None ->
      PushStringToLua_cstr hks msg rt = rt).
Proof.
  unfold PushStringToLua_cstr. cbv zeta. split; [|split].
  - intros ->. destruct shutdown; reflexivity.
  - intros -> fmt ->. destruct shutdown; reflexivity.
  - intros -> ->. reflexivity.
Qed.

Lemma push_false_stack (hks : HksApi) (rt : LuaRuntime) :
  (has_pushboolean hks = true ->
   lua_stack (push_flag hks false rt) = LBoolean false :: lua_stack rt)
  /\ (has_pushboolean hks = false -> has_pushinteger hks = true ->
      lua_stack (push_flag hks false rt) = LInteger 0 :: lua_stack rt)
  /\ (has_pushboolean hks = false -> has_pushinteger hks = false ->
      push_flag hks false rt = rt).
Proof.
  unfold push_flag. split; [|split].
  - intros ->. reflexivity.
  - intros -> ->. reflexivity.
  - intros -> ->. reflexivity.
Qed.

(** C10, amended. When the call carries no game state, both entry points
    report one result, start no request and leave the engine as it is, on
    every host.  The blocking entry point pushes the text [kErrNoGameState],
    or [kErrShutdown] once shutdown has been requested: through
    [pushstring] when the host resolved it, else as [pushfstring] formats
    it with [%s], and when neither was resolved it pushes nothing.  The start entry point
    pushes false through [pushboolean] when the host resolved it, else the
    integer 0 through [pushinteger], and when neither was resolved it pushes
    nothing. *)
Theorem no_game_state_received (hks : HksApi) (w : World) (L : handle) (b : Bridge) :
  lacks_game_state hks (runtime_of b L) ->
  (exists b',
     lua_SendGameStateToClaudeAPI hks w L b = (Returned 1, b')
     /\ async b' = async b
     /\ runtime_of b' L
        = PushStringToLua_cstr hks
            (if g_shutdownRequested b then kErrShutdown else kErrNoGameState) (runtime_of b L)
     /\ (has_pushstring hks = true ->
         lua_stack (runtime_of b' L)
         = LString (if g_shutdownRequested b then kErrShutdown else kErrNoGameState)
             :: lua_stack (runtime_of b L))
     /\ (has_pushstring hks = false ->
         forall fmt, pushfstring hks = Some fmt ->
         lua_stack (runtime_of b' L)
         = LString (fmt (if g_shutdownRequested b then kErrShutdown else kErrNoGameState))
             :: lua_stack (runtime_of b L))
     /\ (has_pushstring hks = false -> pushfstring hks = None ->
         runtime_of b' L = runtime_of b L))
  /\ (exists b',
        lua_StartClaudeAPIRequest hks L b = Some (1, b')
        /\ async b' = async b
        /\ runtime_of b' L = push_flag hks false (runtime_of b L)
        /\ (has_pushboolean hks = true ->
            lua_stack (runtime_of b' L) = LBoolean false :: lua_stack (runtime_of b L))
        /\ (has_pushboolean hks = false -> has_pushinteger hks = true ->
            lua_stack (runtime_of b' L) = LInteger 0 :: lua_stack (runtime_of b L))
        /\ (has_pushboolean hks = false -> has_pushinteger hks = false ->
            runtime_of b' L = runtime_of b L)).
Proof.
  intros Hlack. pose proof (lacks_game_state_argument _ _ Hlack) as Harg.
  destruct (push_error_stack hks (g_shutdownRequested b) (runtime_of b L)) as (Hs1 & Hs2 & Hs3).
  destruct (push_false_stack hks (runtime_of b L)) as (Hf1 & Hf2 & Hf3).
  split.
  - exists (set_runtime L
              (PushStringToLua_cstr hks
                 (if g_shutdownRequested b then kErrShutdown else kErrNoGameState)
                 (runtime_of b L)) b).
    split; [|split; [reflexivity|]].
    + unfold lua_SendGameStateToClaudeAPI. rewrite Harg.
      destruct (g_shutdownRequested b); reflexivity.
    + rewrite runtime_of_set_runtime.
      split; [reflexivity|]. split; [exact Hs1|]. split; [exact Hs2|exact Hs3].
  - exists (set_runtime L (push_flag hks false (runtime_of b L)) b).
    split; [|split; [reflexivity|]].
    + unfold lua_StartClaudeAPIRequest. rewrite Harg.
      destruct (g_shutdownRequested b); reflexivity.
    + rewrite runtime_of_set_runtime.
      split; [reflexivity|]. split; [exact Hf1|]. split; [exact Hf2|exact Hf3].
Qed.

(** ** UTF-8: [EscapeJson], the reader and the writer *)

Lemma append_cons (c : ascii) (a b : string) : String c a +:+ b = String c (a +:+ b).
Proof. reflexivity. Qed.

Lemma append_nil_l (a : string) : EmptyString +:+ a = a.
Proof. reflexivity. Qed.

Lemma append_assoc (a b c : string) : (a +:+ b) +:+ c = a +:+ (b +:+ c).
Proof. induction a as [|x a IH]; [reflexivity|]. rewrite !append_cons, IH. reflexivity. Qed.

Lemma append_nil_r (a : string) : a +:+ EmptyString = a.
Proof. induction a as [|x a IH]; [reflexivity|]. rewrite append_cons, IH. reflexivity. Qed.

Lemma utf8_tail_high (lead : N) (rs : list (N * N)) :
  utf8_tail lead = Some rs -> high_ranges rs /\ rs <> [].
Proof.
  unfold utf8_tail, high_ranges.
  repeat (match goal with |- context [if ?b then _ else _] => destruct b end);
    intros [= <-]; (split; [repeat constructor; cbn; lia|discriminate]).
Qed.

Lemma EscapeJson_cons (c : ascii) (r : string) :
  EscapeJson (String c r) = EscapeJson (chr c) +:+ EscapeJson r.
Proof. unfold chr. cbn [EscapeJson]. rewrite append_nil_r. reflexivity. Qed.

(** One escaped ASCII byte reads back as that byte. *)
Lemma scan_escaped_ascii (c : ascii) (t : string) :
  (code c <? 0x80)%N = true ->
  scan_string SNormal (EscapeJson (chr c) +:+ t) = emit (chr c) (scan_string SNormal t).
Proof.
  destruct c as [[] [] [] [] [] [] [] []]; intros H; try discriminate H; reflexivity.
Qed.

Lemma EscapeJson_high (c : ascii) :
  (code c <? 0x80)%N = false -> EscapeJson (chr c) = chr c.
Proof.
  destruct c as [[] [] [] [] [] [] [] []]; intros H; try discriminate H; reflexivity.
Qed.

Lemma scan_high (c : ascii) (t : string) :
  (code c <? 0x80)%N = false ->
  scan_string SNormal (String c t)
  = match utf8_tail (code c) with
    | Some rs => emit (chr c) (scan_string (SCont rs) t)
    | None => None
    end.
Proof.
  destruct c as [[] [] [] [] [] [] [] []]; intros H; try discriminate H; reflexivity.
Qed.

Lemma in_high_range (lo hi : N) (c : ascii) :
  (0x80 <= lo)%N -> in_range lo hi c = true -> (code c <? 0x80)%N = false.
Proof.
  unfold in_range. intros Hlo H. apply andb_true_iff in H. destruct H as [H _].
  apply N.leb_le in H. apply N.ltb_ge. lia.
Qed.

Lemma EscapeJson_reads_back (s : string) :
  forall (p : list (N * N)) (rest : string),
    high_ranges p -> utf8_ok p s = true ->
    scan_string (sstate_of p) (EscapeJson s +:+ String DQ rest) = Some (s, rest).
Proof.
  induction s as [|c s IH]; intros p rest Hp Hok.
  - destruct p; [reflexivity|discriminate].
  - rewrite EscapeJson_cons, append_assoc. cbn [utf8_ok] in Hok.
    destruct p as [|[lo hi] p'].
    + cbn [sstate_of]. destruct (code c <? 0x80)%N eqn:Hc.
      * rewrite (scan_escaped_ascii c _ Hc).
        pose proof (IH [] rest Hp Hok) as H. cbn [sstate_of] in H. rewrite H. reflexivity.
      * rewrite (EscapeJson_high c Hc). unfold chr at 1. rewrite append_cons, append_nil_l.
        rewrite (scan_high c _ Hc).
        destruct (utf8_tail (code c)) as [rs|] eqn:Hrs; [|discriminate].
        destruct (utf8_tail_high _ _ Hrs) as [Hhigh Hne].
        pose proof (IH rs rest Hhigh Hok) as H.
        destruct rs; [contradiction|]. cbn [sstate_of] in H. rewrite H. reflexivity.
    + apply andb_true_iff in Hok. destruct Hok as [Hin Hok].
      inversion Hp as [|x l Hlo Hp']; subst. cbn [fst] in Hlo.
      pose proof (in_high_range lo hi c Hlo Hin) as Hc.
      rewrite (EscapeJson_high c Hc). unfold chr at 1. rewrite append_cons, append_nil_l.
      cbn [sstate_of scan_string]. rewrite Hin.
      pose proof (IH p' rest Hp' Hok) as H.
      destruct p'; cbn [sstate_of] in H; rewrite H; reflexivity.
Qed.

Lemma code_byte_of (n : N) : (n < 256)%N -> code (byte_of n) = n.
Proof. intros H. unfold code, byte_of. apply N_ascii_embedding. exact H. Qed.

Lemma byte_of_code (c : ascii) : byte_of (code c) = c.
Proof. unfold code, byte_of. apply ascii_N_embedding. Qed.

Lemma code_lt_256 (c : ascii) : (code c < 256)%N.
Proof. unfold code. apply N_ascii_bounded. Qed.

Lemma utf8_encode_ok (cp : N) (t : string) :
  (cp < 0x110000)%N -> ~ (0xD800 <= cp <= 0xDFFF)%N ->
  utf8_ok [] (utf8_encode cp +:+ t) = utf8_ok [] t.
Proof.
  intros Hmax Hsur. unfold utf8_encode.
  destruct (N.ltb_spec cp 0x80) as [H1|H1].
  { rewrite append_cons, append_nil_l. cbn [utf8_ok].
    rewrite code_byte_of by lia. destruct (N.ltb_spec cp 0x80); [reflexivity|lia]. }
  destruct (N.ltb_spec cp 0x800) as [H2|H2].
  { rewrite !append_cons, append_nil_l. cbn [utf8_ok].
    pose proof (N.div_mod' cp 64) as Hdm. pose proof (N.mod_lt cp 64 ltac:(lia)) as Hm.
    set (q := (cp / 64)%N) in *. set (r := (cp mod 64)%N) in *. clearbody q r.
    rewrite code_byte_of by lia.
    destruct (N.ltb_spec (0xC0 + q) 0x80); [lia|].
    unfold utf8_tail.
    destruct (N.leb_spec 0xC2 (0xC0 + q)); [|lia].
    destruct (N.leb_spec (0xC0 + q) 0xDF); [|lia]. cbn [andb utf8_ok].
    unfold in_range. rewrite code_byte_of by lia.
    destruct (N.leb_spec 0x80 (0x80 + r)); [|lia].
    destruct (N.leb_spec (0x80 + r) 0xBF); [|lia]. reflexivity. }
  destruct (N.ltb_spec cp 0x10000) as [H3|H3].
  { rewrite !append_cons, append_nil_l. cbn [utf8_ok].
    pose proof (N.div_mod' cp 4096) as Hdm. pose proof (N.mod_lt cp 4096 ltac:(lia)) as Hm.
    pose proof (N.div_mod' cp 64) as Hdm1. pose proof (N.mod_lt cp 64 ltac:(lia)) as Hm1.
    pose proof (N.div_mod' (cp / 64) 64) as Hdm2.
    pose proof (N.mod_lt (cp / 64) 64 ltac:(lia)) as Hm2.
    set (q := (cp / 4096)%N) in *. set (r := (cp mod 4096)%N) in *.
    set (r1 := (cp mod 64)%N) in *.
    set (r2 := ((cp / 64) mod 64)%N) in *.
    set (q2 := ((cp / 64) / 64)%N) in *.
    set (q1 := (cp / 64)%N) in *.
    clearbody q r r1 r2 q2 q1.
    assert (q2 = q) as -> by lia.
    rewrite code_byte_of by lia.
    destruct (N.ltb_spec (0xE0 + q) 0x80); [lia|].
    unfold utf8_tail.
    destruct (N.leb_spec 0xC2 (0xE0 + q)); [|lia].
    destruct (N.leb_spec (0xE0 + q) 0xDF); [lia|]. cbn [andb].
    destruct (N.eqb_spec (0xE0 + q) 0xE0).
    { cbn [utf8_ok]. unfold in_range. rewrite !code_byte_of by lia.
      destruct (N.leb_spec 0xA0 (0x80 + r2)); [|lia].
      destruct (N.leb_spec (0x80 + r2) 0xBF); [|lia].
      destruct (N.leb_spec 0x80 (0x80 + r1)); [|lia].
      destruct (N.leb_spec (0x80 + r1) 0xBF); [|lia]. reflexivity. }
    destruct (N.eqb_spec (0xE0 + q) 0xED).
    { cbn [utf8_ok]. unfold in_range. rewrite !code_byte_of by lia.
      destruct (N.leb_spec 0x80 (0x80 + r2)); [|lia].
      destruct (N.leb_spec (0x80 + r2) 0x9F); [|lia].
      destruct (N.leb_spec 0x80 (0x80 + r1)); [|lia].
      destruct (N.leb_spec (0x80 + r1) 0xBF); [|lia]. reflexivity. }
    destruct (N.leb_spec 0xE1 (0xE0 + q)); [|lia].
    destruct (N.leb_spec (0xE0 + q) 0xEF); [|lia]. cbn [andb utf8_ok].
    unfold in_range. rewrite !code_byte_of by lia.
    destruct (N.leb_spec 0x80 (0x80 + r2)); [|lia].
    destruct (N.leb_spec (0x80 + r2) 0xBF); [|lia].
    destruct (N.leb_spec 0x80 (0x80 + r1)); [|lia].
    destruct (N.leb_spec (0x80 + r1) 0xBF); [|lia]. reflexivity. }
  rewrite !append_cons, append_nil_l. cbn [utf8_ok].
  pose proof (N.div_mod' cp 262144) as Hdm. pose proof (N.mod_lt cp 262144 ltac:(lia)) as Hm.
  pose proof (N.div_mod' cp 4096) as Hdm0. pose proof (N.mod_lt cp 4096 ltac:(lia)) as Hm0.
  pose proof (N.div_mod' (cp / 4096) 64) as Hdm3.
  pose proof (N.mod_lt (cp / 4096) 64 ltac:(lia)) as Hm3.
  pose proof (N.div_mod' cp 64) as Hdm1. pose proof (N.mod_lt cp 64 ltac:(lia)) as Hm1.
  pose proof (N.div_mod' (cp / 64) 64) as Hdm2.
  pose proof (N.mod_lt (cp / 64) 64 ltac:(lia)) as Hm2.
  set (q := (cp / 262144)%N) in *. set (r := (cp mod 262144)%N) in *.
  set (r3 := ((cp / 4096) mod 64)%N) in *.
  set (q3 := ((cp / 4096) / 64)%N) in *.
  set (q0 := (cp / 4096)%N) in *. set (r0 := (cp mod 4096)%N) in *.
  set (r1 := (cp mod 64)%N) in *.
  set (r2 := ((cp / 64) mod 64)%N) in *.
  set (q2 := ((cp / 64) / 64)%N) in *.
  set (q1 := (cp / 64)%N) in *.
  clearbody q r r3 q3 q0 r0 r1 r2 q2 q1.
  assert (q3 = q) as -> by lia.
  rewrite code_byte_of by lia.
  destruct (N.ltb_spec (0xF0 + q) 0x80); [lia|].
  unfold utf8_tail.
  destruct (N.leb_spec 0xC2 (0xF0 + q)); [|lia].
  destruct (N.leb_spec (0xF0 + q) 0xDF); [lia|]. cbn [andb].
  destruct (N.eqb_spec (0xF0 + q) 0xE0); [lia|].
  destruct (N.eqb_spec (0xF0 + q) 0xED); [lia|].
  destruct (N.leb_spec 0xE1 (0xF0 + q)); [|lia].
  destruct (N.leb_spec (0xF0 + q) 0xEF); [lia|]. cbn [andb].
  destruct (N.eqb_spec (0xF0 + q) 0xF0).
  { cbn [utf8_ok]. unfold in_range. rewrite !code_byte_of by lia.
    destruct (N.leb_spec 0x90 (0x80 + r3)); [|lia].
    destruct (N.leb_spec (0x80 + r3) 0xBF); [|lia].
    destruct (N.leb_spec 0x80 (0x80 + r2)); [|lia].
    destruct (N.leb_spec (0x80 + r2) 0xBF); [|lia].
    destruct (N.leb_spec 0x80 (0x80 + r1)); [|lia].
    destruct (N.leb_spec (0x80 + r1) 0xBF); [|lia]. reflexivity. }
  destruct (N.leb_spec 0xF1 (0xF0 + q)); [|lia].
  destruct (N.leb_spec (0xF0 + q) 0xF3).
  { cbn [andb utf8_ok]. unfold in_range. rewrite !code_byte_of by lia.
    destruct (N.leb_spec 0x80 (0x80 + r3)); [|lia].
    destruct (N.leb_spec (0x80 + r3) 0xBF); [|lia].
    destruct (N.leb_spec 0x80 (0x80 + r2)); [|lia].
    destruct (N.leb_spec (0x80 + r2) 0xBF); [|lia].
    destruct (N.leb_spec 0x80 (0x80 + r1)); [|lia].
    destruct (N.leb_spec (0x80 + r1) 0xBF); [|lia]. reflexivity. }
  cbn [andb].
  destruct (N.eqb_spec (0xF0 + q) 0xF4); [|lia].
  cbn [utf8_ok]. unfold in_range. rewrite !code_byte_of by lia.
  destruct (N.leb_spec 0x80 (0x80 + r3)); [|lia].
  destruct (N.leb_spec (0x80 + r3) 0x8F); [|lia].
  destruct (N.leb_spec 0x80 (0x80 + r2)); [|lia].
  destruct (N.leb_spec (0x80 + r2) 0xBF); [|lia].
  destruct (N.leb_spec 0x80 (0x80 + r1)); [|lia].
  destruct (N.leb_spec (0x80 + r1) 0xBF); [|lia]. reflexivity.
Qed.

Lemma emit_inv (b : string) (x : option (string * string)) (out rest : string) :
  emit b x = Some (out, rest) -> exists t, x = Some (t, rest) /\ out = b +:+ t.
Proof. destruct x as [[t u]|]; [|discriminate]. intros [= <- <-]. eauto. Qed.

Lemma hex_val_lt (c : ascii) (v : N) : hex_val c = Some v -> (v < 16)%N.
Proof.
  unfold hex_val, in_range.
  pose proof (code_lt_256 c).
  repeat match goal with
         | |- context [(?a <=? ?b)%N] => destruct (N.leb_spec a b); cbn [andb]
         end; intros [= <-]; lia.
Qed.

Lemma scan_string_utf8 (s : string) :
  forall (st : sstate) (out rest : string),
    sstate_wf st -> scan_string st s = Some (out, rest) ->
    utf8_ok (pending_of st) out = true.
Proof.
  induction s as [|c s IH]; intros st out rest Hwf; [discriminate|].
  cbn [scan_string].
  assert (forall st' x out',
            sstate_wf st' -> pending_of st' = [] ->
            (x <? 0x80)%N = true ->
            emit (chr (byte_of x)) (scan_string st' s) = Some (out', rest) ->
            (x < 256)%N ->
            utf8_ok [] out' = true) as Hascii.
  { intros st' x out' Hwf' Hp Hx H Hlt. apply emit_inv in H. destruct H as (t & H & ->).
    apply IH in H; [|exact Hwf']. rewrite Hp in H. unfold chr. rewrite append_cons, append_nil_l.
    cbn [utf8_ok]. rewrite code_byte_of by exact Hlt. rewrite Hx. exact H. }
  destruct st.
  - (* SNormal *)
    destruct (Ascii.eqb c DQ); [intros [= <- _]; reflexivity|].
    destruct (Ascii.eqb c BSLASH); [intros H; apply (IH SEsc _ _ I H)|].
    destruct (code c <? 0x20)%N; [discriminate|].
    destruct (code c <? 0x80)%N eqn:Hc.
    + intros H. apply emit_inv in H. destruct H as (t & H & ->).
      apply (IH SNormal _ _ I) in H. unfold chr. rewrite append_cons, append_nil_l.
      cbn [utf8_ok pending_of] in *. rewrite Hc. exact H.
    + destruct (utf8_tail (code c)) as [rs|] eqn:Hrs; [|discriminate].
      intros H. apply emit_inv in H. destruct H as (t & H & ->).
      apply (IH (SCont rs) _ _ I) in H. unfold chr. rewrite append_cons, append_nil_l.
      cbn [utf8_ok pending_of] in *. rewrite Hc, Hrs. exact H.
  - (* SCont *)
    destruct rs as [|[lo hi] rs']; [discriminate|].
    destruct (in_range lo hi c) eqn:Hin; [|discriminate].
    intros H. apply emit_inv in H. destruct H as (t & H & ->).
    unfold chr. rewrite append_cons, append_nil_l. cbn [utf8_ok pending_of]. rewrite Hin.
    destruct rs'; apply IH in H; try exact I; exact H.
  - (* SEsc *)
    repeat match goal with
           | |- context [if Ascii.eqb c ?x then _ else _] => destruct (Ascii.eqb c x)
           end; try discriminate.
    1-8: intros Hs; apply emit_inv in Hs; destruct Hs as (t & Hs & ->);
         apply (IH SNormal _ _ I) in Hs; exact Hs.
    intros Hs. apply (IH (SHex 3 0 None)) in Hs; [exact Hs|].
    cbn. repeat split; lia.
  - (* SHex *)
    destruct Hwf as (Hk & Hacc & Hhi).
    destruct (hex_val c) as [v|] eqn:Hv; [|discriminate].
    pose proof (hex_val_lt c v Hv) as Hv16.
    destruct k as [|k'].
    + cbn in Hacc.
      assert (acc * 16 + v < 65536)%N as Hcp by lia.
      assert (forall x out',
                (x < 0x110000)%N -> ~ (0xD800 <= x <= 0xDFFF)%N ->
                emit (utf8_encode x) (scan_string SNormal s) = Some (out', rest) ->
                utf8_ok [] out' = true) as Hemit.
      { intros x out' Hx1 Hx2 Hs. apply emit_inv in Hs. destruct Hs as (t & Hs & ->).
        apply (IH SNormal _ _ I) in Hs. cbn [pending_of] in Hs.
        rewrite utf8_encode_ok; [exact Hs|exact Hx1|exact Hx2]. }
      cbn [pending_of].
      destruct hi as [h|].
      * destruct (N.leb_spec 0xDC00 (acc * 16 + v)) as [Ha|Ha]; cbn [andb]; [|discriminate].
        destruct (N.leb_spec (acc * 16 + v) 0xDFFF) as [Hb|Hb]; [|discriminate].
        apply Hemit; lia.
      * destruct (N.leb_spec 0xD800 (acc * 16 + v)) as [Ha|Ha]; cbn [andb].
        -- destruct (N.leb_spec (acc * 16 + v) 0xDBFF) as [Hb|Hb].
           ++ intros Hs. apply (IH (SLowEsc (acc * 16 + v))) in Hs; [exact Hs|]. cbn. lia.
           ++ destruct (N.leb_spec 0xDC00 (acc * 16 + v)) as [Hc|Hc]; cbn [andb].
              ** destruct (N.leb_spec (acc * 16 + v) 0xDFFF) as [Hd|Hd]; [discriminate|].
                 apply Hemit; lia.
              ** apply Hemit; lia.
        -- destruct (N.leb_spec 0xDC00 (acc * 16 + v)) as [Hc|Hc]; cbn [andb]; [lia|].
           apply Hemit; lia.
    + intros Hs. apply (IH (SHex k' (acc * 16 + v) hi)) in Hs; [exact Hs|].
      cbn. split; [lia|]. split; [|exact Hhi].
      destruct k' as [|[|[|k'']]]; cbn in Hacc |- *; lia.
  - (* SLowEsc *)
    destruct (Ascii.eqb c BSLASH); [|discriminate].
    intros Hs. apply (IH (SLowU hi)) in Hs; [exact Hs|exact Hwf].
  - (* SLowU *)
    destruct (Ascii.eqb c "u"); [|discriminate].
    intros Hs. apply (IH (SHex 3 0 (Some hi))) in Hs; [exact Hs|].
    cbn. cbn in Hwf. repeat split; lia.
Qed.

Lemma json_ind2 (P : json -> Prop) :
  P JNull -> (forall b, P (JBool b)) -> (forall z, P (JInt z)) ->
  (forall l, P (JFloat l)) -> (forall s, P (JString s)) ->
  (forall items, Forall P items -> P (JArray items)) ->
  (forall members, Forall (fun kv => P (snd kv)) members -> P (JObject members)) ->
  forall j, P j.
Proof.
  intros Hnull Hbool Hint Hfloat Hstr Harr Hobj.
  fix IH 1. intros [ |b|z|l|s|items|members].
  - exact Hnull.
  - apply Hbool.
  - apply Hint.
  - apply Hfloat.
  - apply Hstr.
  - apply Harr. induction items as [|x items IHl]; constructor; [apply IH|exact IHl].
  - apply Hobj. induction members as [|[k x] members IHl]; constructor; [apply IH|exact IHl].
Qed.

Lemma obj_assign_utf8 (k : string) (v : json) (m : list (string * json)) :
  utf8_ok [] k = true -> json_utf8 v = true ->
  forallb (fun kv => utf8_ok [] (fst kv) && json_utf8 (snd kv)) m = true ->
  forallb (fun kv => utf8_ok [] (fst kv) && json_utf8 (snd kv)) (obj_assign k v m) = true.
Proof.
  intros Hk Hv. induction m as [|[k' v'] m IH]; cbn [obj_assign forallb fst snd].
  - intros _. rewrite Hk, Hv. reflexivity.
  - intros H. apply andb_true_iff in H. destruct H as [H1 H2].
    destruct (String.compare k k'); cbn [forallb fst snd].
    + rewrite Hk, Hv, H2. reflexivity.
    + rewrite Hk, Hv, H1, H2. reflexivity.
    + rewrite H1, (IH H2). reflexivity.
Qed.

Lemma parse_utf8 (f : nat) :
  (forall s v r, parse_value f s = Some (v, r) -> json_utf8 v = true)
  /\ (forall s acc v r,
        parse_elements f s acc = Some (v, r) ->
        forallb json_utf8 acc = true -> json_utf8 v = true)
  /\ (forall s acc v r,
        parse_members f s acc = Some (v, r) ->
        forallb (fun kv => utf8_ok [] (fst kv) && json_utf8 (snd kv)) acc = true ->
        json_utf8 v = true).
Proof.
  induction f as [|f (IHv & IHe & IHm)]; [repeat split; discriminate|].
  split; [|split].
  - intros s v r. rewrite parse_value_S.
    destruct (skip_ws s) as [|c s0]; [discriminate|].
    destruct (Ascii.eqb c "{").
    { destruct (skip_ws s0) as [|c' r']; [discriminate|].
      destruct (Ascii.eqb c' "}"); [intros [= <- _]; reflexivity|].
      intros H. apply (IHm _ _ _ _ H). reflexivity. }
    destruct (Ascii.eqb c "[").
    { destruct (skip_ws s0) as [|c' r']; [discriminate|].
      destruct (Ascii.eqb c' "]"); [intros [= <- _]; reflexivity|].
      intros H. apply (IHe _ _ _ _ H). reflexivity. }
    destruct (Ascii.eqb c DQ).
    { destruct (scan_string SNormal s0) as [[str t]|] eqn:Hstr; [|discriminate].
      intros [= <- _]. cbn [json_utf8]. apply (scan_string_utf8 s0 SNormal str t I Hstr). }
    destruct (String.prefix "true" (String c s0)); [intros [= <- _]; reflexivity|].
    destruct (String.prefix "false" (String c s0)); [intros [= <- _]; reflexivity|].
    destruct (String.prefix "null" (String c s0)); [intros [= <- _]; reflexivity|].
    unfold scan_number.
    repeat match goal with
           | |- context [match ?x with _ => _ end] => destruct x
           end; try discriminate; intros [= <- _]; reflexivity.
  - intros s acc v r. rewrite parse_elements_S.
    destruct (parse_value f s) as [[v0 t]|] eqn:Hv; [|discriminate].
    pose proof (IHv _ _ _ Hv) as Hv0.
    assert (forallb json_utf8 acc = true -> forallb json_utf8 (acc ++ [v0]) = true) as Hacc.
    { intros H. rewrite forallb_app, H. cbn. rewrite Hv0. reflexivity. }
    destruct (skip_ws t) as [|c r0]; [discriminate|].
    destruct (Ascii.eqb c ",").
    + intros H Ha. apply (IHe _ _ _ _ H). apply Hacc. exact Ha.
    + destruct (Ascii.eqb c "]"); [|discriminate].
      intros [= <- _] Ha. cbn [json_utf8]. apply Hacc. exact Ha.
  - intros s acc v r. rewrite parse_members_S.
    destruct (skip_ws s) as [|c s0]; [discriminate|].
    destruct (Ascii.eqb c DQ); [|discriminate].
    destruct (scan_string SNormal s0) as [[k t]|] eqn:Hk; [|discriminate].
    pose proof (scan_string_utf8 s0 SNormal k t I Hk) as Hkok. cbn [pending_of] in Hkok.
    destruct (skip_ws t) as [|c1 r1]; [discriminate|].
    destruct (Ascii.eqb c1 ":"); [|discriminate].
    destruct (parse_value f r1) as [[v0 u]|] eqn:Hv; [|discriminate].
    pose proof (IHv _ _ _ Hv) as Hv0.
    destruct (skip_ws u) as [|c2 r2]; [discriminate|].
    destruct (Ascii.eqb c2 ",").
    + intros H Ha. apply (IHm _ _ _ _ H). apply obj_assign_utf8; assumption.
    + destruct (Ascii.eqb c2 "}"); [|discriminate].
      intros [= <- _] Ha. cbn [json_utf8]. apply obj_assign_utf8; assumption.
Qed.

Lemma json_parse_utf8 (text : string) (j : json) :
  json_parse text = Some j -> json_utf8 j = true.
Proof.
  unfold json_parse.
  set (t := if String.prefix kBom text then drop_str 3 text else text).
  destruct (parse_value (2 * String.length t + 2) t) as [[v r]|] eqn:Hp; [|discriminate].
  destruct (is_empty_str (skip_ws r)); [|discriminate].
  intros [= <-]. destruct (parse_utf8 (2 * String.length t + 2)) as (Hv & _ & _).
  apply (Hv _ _ _ Hp).
Qed.

Lemma dump_escaped_ascii (c : ascii) (r : string) :
  (code c <? 0x80)%N = true ->
  dump_escaped [] (String c r) = prepend (EscapeJson (chr c)) (dump_escaped [] r).
Proof.
  destruct c as [[] [] [] [] [] [] [] []]; intros H; try discriminate H; reflexivity.
Qed.

Lemma dump_escaped_high (c : ascii) (r : string) :
  (code c <? 0x80)%N = false ->
  dump_escaped [] (String c r)
  = match utf8_tail (code c) with
    | Some rs => prepend (chr c) (dump_escaped rs r)
    | None => None
    end.
Proof.
  destruct c as [[] [] [] [] [] [] [] []]; intros H; try discriminate H; reflexivity.
Qed.

(** On well-formed UTF-8 the writer of the library escapes as [EscapeJson]
    does. *)
Lemma dump_escaped_EscapeJson (s : string) :
  forall p : list (N * N),
    high_ranges p -> utf8_ok p s = true -> dump_escaped p s = Some (EscapeJson s).
Proof.
  induction s as [|c s IH]; intros p Hp Hok.
  - destruct p; [reflexivity|discriminate].
  - rewrite EscapeJson_cons. cbn [utf8_ok] in Hok. destruct p as [|[lo hi] p'].
    + destruct (code c <? 0x80)%N eqn:Hc.
      * rewrite (dump_escaped_ascii c s Hc), (IH [] Hp Hok). reflexivity.
      * rewrite (dump_escaped_high c s Hc), (EscapeJson_high c Hc).
        destruct (utf8_tail (code c)) as [rs|] eqn:Hrs; [|discriminate].
        destruct (utf8_tail_high _ _ Hrs) as [Hhigh _].
        rewrite (IH rs Hhigh Hok). reflexivity.
    + apply andb_true_iff in Hok. destruct Hok as [Hin Hok].
      inversion Hp as [|x l Hlo Hp']; subst. cbn [fst] in Hlo.
      pose proof (in_high_range lo hi c Hlo Hin) as Hc.
      cbn [dump_escaped]. rewrite Hin, (IH p' Hp' Hok), (EscapeJson_high c Hc). reflexivity.
Qed.

Lemma dump_quoted_utf8 (s : string) :
  utf8_ok [] s = true -> dump_quoted s = Some (String DQ (EscapeJson s +:+ chr DQ)).
Proof.
  intros H. unfold dump_quoted. rewrite (dump_escaped_EscapeJson s [] (Forall_nil_2 _) H).
  reflexivity.
Qed.

(** [dump] throws on no value whose strings are well-formed UTF-8. *)
Lemma dump_utf8 (j : json) : json_utf8 j = true -> exists r, dump j = Some r.
Proof.
  induction j as [ |b|z|l|s|items IH|members IH] using json_ind2; intros Hok.
  - eexists; reflexivity.
  - eexists; reflexivity.
  - eexists; reflexivity.
  - eexists; reflexivity.
  - cbn [dump]. rewrite (dump_quoted_utf8 s Hok). eexists; reflexivity.
  - cbn [dump json_utf8] in *.
    assert (exists r,
              (fix elements (l : list json) : option string :=
                 match l with
                 | [] => Some "]"
                 | x :: r =>
                     match dump x, elements r with
                     | Some dx, Some dr =>
                         Some (dx +:+ (match r with [] => EmptyString | _ => "," end) +:+ dr)
                     | _, _ => None
                     end
                 end) items = Some r) as [r ->].
    { induction IH as [|x items Hx _ IHl]; [eexists; reflexivity|].
      cbn [forallb] in Hok. apply andb_true_iff in Hok. destruct Hok as [H1 H2].
      destruct (Hx H1) as [dx ->]. destruct (IHl H2) as [dr ->]. eexists; reflexivity. }
    eexists; reflexivity.
  - cbn [dump json_utf8] in *.
    assert (exists r,
              (fix fields (l : list (string * json)) : option string :=
                 match l with
                 | [] => Some "}"
                 | (k, x) :: r =>
                     match dump_quoted k, dump x, fields r with
                     | Some dk, Some dx, Some dr =>
                         Some (dk +:+ ":" +:+ dx
                               +:+ (match r with [] => EmptyString | _ => "," end) +:+ dr)
                     | _, _, _ => None
                     end
                 end) members = Some r) as [r ->].
    { induction IH as [|[k x] members Hx _ IHl]; [eexists; reflexivity|].
      cbn [forallb fst snd] in Hok. apply andb_true_iff in Hok. destruct Hok as [H1 H2].
      apply andb_true_iff in H1. destruct H1 as [Hk H1]. cbn [snd] in Hx.
      rewrite (dump_quoted_utf8 k Hk).
      destruct (Hx H1) as [dx ->]. destruct (IHl H2) as [dr ->]. eexists; reflexivity. }
    eexists; reflexivity.
Qed.

Lemma obj_find_utf8 (k : string) (m : list (string * json)) (v : json) :
  forallb (fun kv => utf8_ok [] (fst kv) && json_utf8 (snd kv)) m = true ->
  obj_find k m = Some v -> json_utf8 v = true.
Proof.
  induction m as [|[k' v'] m IH]; [discriminate|].
  cbn [forallb fst snd obj_find]. intros H. apply andb_true_iff in H. destruct H as [H1 H2].
  apply andb_true_iff in H1. destruct H1 as [_ H1].
  destruct (String.eqb k k'); [intros [= <-]; exact H1|apply IH; exact H2].
Qed.

Lemma at_key_utf8 (j v : json) (k : string) :
  json_utf8 j = true -> at_key j k = Some v -> json_utf8 v = true.
Proof.
  destruct j; cbn [at_key]; try discriminate.
  - intros _ [= <-]. reflexivity.
  - cbn [json_utf8]. intros H [= <-].
    destruct (obj_find k members) as [x|] eqn:Hx; [|reflexivity].
    apply (obj_find_utf8 _ _ _ H Hx).
Qed.

Lemma at_index_utf8 (j v : json) (i : nat) :
  json_utf8 j = true -> at_index j i = Some v -> json_utf8 v = true.
Proof.
  destruct j; cbn [at_index]; try discriminate.
  - intros _ [= <-]. reflexivity.
  - cbn [json_utf8]. intros H [= <-].
    destruct (items !! i) as [x|] eqn:Hx; [|reflexivity]. cbn [default].
    rewrite forallb_forall in H. apply H. apply list_elem_of_In.
    apply (list_elem_of_lookup_2 _ _ _ Hx).
Qed.

Lemma get_string_utf8 (j : json) (s : string) :
  json_utf8 j = true -> get_string j = Some s -> utf8_ok [] s = true.
Proof. destruct j; try discriminate. cbn. intros H [= <-]. exact H. Qed.

(** X1. [EscapeJson] and the reader are inverse on well-formed UTF-8: the
    escaped text between double quotes reads back as the string it was made
    from; and it is the very text the library prints for that string. *)
Theorem EscapeJson_round_trip (s : string) :
  utf8_ok [] s = true ->
  json_parse (String DQ (EscapeJson s +:+ chr DQ)) = Some (JString s)
  /\ dump (JString s) = Some (String DQ (EscapeJson s +:+ chr DQ)).
Proof.
  intros Hok. split; [|apply dump_quoted_utf8; exact Hok].
  apply (json_parse_enough_fuel _ 1 _ EmptyString); [|reflexivity].
  change (String.prefix kBom (String DQ (EscapeJson s +:+ chr DQ))) with false. cbv iota.
  rewrite parse_value_S.
  change (skip_ws (String DQ (EscapeJson s +:+ chr DQ)))
    with (String DQ (EscapeJson s +:+ chr DQ)).
  cbv iota. change (Ascii.eqb DQ "{") with false. change (Ascii.eqb DQ "[") with false.
  change (Ascii.eqb DQ DQ) with true. cbv iota.
  pose proof (EscapeJson_reads_back s [] EmptyString (Forall_nil_2 _) Hok) as H.
  cbn [sstate_of] in H. unfold chr. rewrite H. reflexivity.
Qed.

Lemma error_object_parses (m : string) :
  utf8_ok [] m = true ->
  json_parse (kErrorOpen +:+ EscapeJson m +:+ kObjectClose)
  = Some (JObject [("error", JString m)]).
Proof.
  intros Hok.
  apply (json_parse_enough_fuel _ 3 _ EmptyString); [|reflexivity].
  pose proof (EscapeJson_reads_back m [] "}" (Forall_nil_2 _) Hok) as H.
  cbn [sstate_of] in H. change (String DQ "}") with kObjectClose in H.
  generalize dependent (EscapeJson m +:+ kObjectClose). intros t0 H.
  unfold kErrorOpen. rewrite !append_cons, append_nil_l.
  match goal with
  | |- context [String.prefix kBom ?t] => change (String.prefix kBom t) with false
  end.
  cbv iota. simpl. rewrite H. reflexivity.
Qed.

Lemma reason_object_parses (m : string) :
  utf8_ok [] m = true ->
  json_parse (kReasonOpen +:+ EscapeJson m +:+ kObjectClose)
  = Some (JObject [("action", JString "end_turn"); ("reason", JString m)]).
Proof.
  intros Hok.
  apply (json_parse_enough_fuel _ 4 _ EmptyString); [|reflexivity].
  pose proof (EscapeJson_reads_back m [] "}" (Forall_nil_2 _) Hok) as H.
  cbn [sstate_of] in H. change (String DQ "}") with kObjectClose in H.
  generalize dependent (EscapeJson m +:+ kObjectClose). intros t0 H.
  unfold kReasonOpen. rewrite !append_cons, append_nil_l.
  match goal with
  | |- context [String.prefix kBom ?t] => change (String.prefix kBom t) with false
  end.
  cbv iota. simpl. rewrite H. reflexivity.
Qed.

Lemma store_result_error_object (m : string) (a : Async) :
  utf8_ok [] m = true ->
  store_result (kErrorOpen +:+ EscapeJson m +:+ kObjectClose) a
  = set_state Failed
      (set_error m (set_response (kErrorOpen +:+ EscapeJson m +:+ kObjectClose) a)).
Proof.
  intros Hok. unfold store_result. rewrite (error_object_parses m Hok). reflexivity.
Qed.

Lemma json_parse_nonempty (text : string) (j : json) :
  json_parse text = Some j -> is_empty_str text = false.
Proof. destruct text; [discriminate|reflexivity]. Qed.

Lemma worker_runs_to_store_state (w : World) (a : Async) (gs result : string) :
  g_asyncThread a = Running gs AtEntry ->
  g_asyncCancelled a = false ->
  call_outcome (GetActionFromClaude w (api a) gs) = Returned result ->
  AsyncWorkerThread w a
  = set_thread Finished
      (store_result result
         (set_thread (Running gs (AtStore result))
            (set_thread (Running gs (AfterCall result))
               (set_api (call_state (GetActionFromClaude w (api a) gs))
                  (set_thread (Running gs AtCall) a))))).
Proof.
  intros Hth Hc Hout.
  unfold AsyncWorkerThread. cbn [run_worker].
  unfold worker_step at 1. rewrite Hth, Hc.
  unfold worker_step at 1. cbn [g_asyncThread set_thread api]. rewrite Hout.
  unfold worker_step at 1. cbn [g_asyncThread g_asyncCancelled set_thread set_api]. rewrite Hc.
  unfold worker_step at 1. cbn [g_asyncThread set_thread].
  unfold worker_step at 1. cbn [g_asyncThread set_thread]. reflexivity.
Qed.

(** X2. A cycle is started and not cancelled, the call posts a request, and
    the service answers with a JSON object that has an [error] member whose
    [message] is a string.  Whatever the message, the cycle ends Failed, the
    stored error text is that message byte for byte, the stored response is
    the error object built from it, and the turn cache is not written. *)
Theorem api_error_message_surfaces (w : World) (gs body msg : string) (j : json)
    (a0 a1 : Async) :
  StartAsyncRequest gs a0 = Some (true, a1) ->
  call_posted (GetActionFromClaude w (api a1) gs) = Some body ->
  json_parse (HttpPost w kApiHost kApiPath body (g_apiKey (api a1))) = Some j ->
  contains j "error" = true ->
  (at_key j "error" ≫= fun e => at_key e "message") ≫= get_string = Some msg ->
  g_asyncState (AsyncWorkerThread w a1) = Failed
  /\ g_asyncError (AsyncWorkerThread w a1) = msg
  /\ g_asyncResponse (AsyncWorkerThread w a1) = kErrorOpen +:+ EscapeJson msg +:+ kObjectClose
  /\ api (AsyncWorkerThread w a1) = api a1.
Proof.
  intros Hstart Hposted Hparse Herr Hmsg.
  destruct (StartAsyncRequest_true gs a0 a1 Hstart) as (Hth & Hc & _).
  assert (call_posted (GetActionFromClaude w (api a1) gs) <> None) as Hp by congruence.
  destruct (GetActionFromClaude_posted w (api a1) gs Hp)
    as (t & p & body' & _ & _ & _ & _ & Hb & Hout & Hst).
  rewrite Hposted in Hb. injection Hb as <-.
  assert (utf8_ok [] msg = true) as Hok.
  { pose proof (json_parse_utf8 _ _ Hparse) as Hj.
    destruct (at_key j "error") as [e|] eqn:He; [|discriminate]. cbn in Hmsg.
    destruct (at_key e "message") as [x|] eqn:Hx; [|discriminate]. cbn in Hmsg.
    apply (get_string_utf8 x msg); [|exact Hmsg].
    apply (at_key_utf8 e x "message"); [|exact Hx].
    apply (at_key_utf8 j e "error"); [exact Hj|exact He]. }
  assert (handle_response (api a1) t p (HttpPost w kApiHost kApiPath body (g_apiKey (api a1)))
          = (kErrorOpen +:+ EscapeJson msg +:+ kObjectClose, api a1)) as Hh.
  { unfold handle_response. rewrite (json_parse_nonempty _ _ Hparse), Hparse, Herr, Hmsg.
    reflexivity. }
  rewrite Hh in Hout, Hst. cbn [fst snd] in Hout, Hst.
  rewrite (worker_runs_to_store_state w a1 gs _ Hth Hc Hout).
  rewrite (store_result_error_object msg _ Hok), Hst. cbn. repeat split.
Qed.

(** X3. When the text extracted from the reply is JSON, the action returned
    is its compact dump: printing a value the reader produced never throws,
    so line 773 is reached only when the text is not JSON. *)
Theorem parsed_action_is_its_dump (content : string) (j : json) :
  json_parse (ExtractJsonFromResponse content) = Some j ->
  exists r, dump j = Some r /\ action_of_content content = r.
Proof.
  intros Hparse. destruct (dump_utf8 j (json_parse_utf8 _ _ Hparse)) as [r Hr].
  exists r. split; [exact Hr|]. unfold action_of_content.
  rewrite (json_parse_nonempty _ _ Hparse), Hparse, Hr. reflexivity.
Qed.

Lemma dump_escaped_Some_utf8 (s : string) :
  forall (p : list (N * N)) (r : string), dump_escaped p s = Some r -> utf8_ok p s = true.
Proof.
  induction s as [|c s IH]; intros p r.
  - destruct p; [reflexivity|discriminate].
  - destruct p as [|[lo hi] p'].
    + cbn [utf8_ok]. destruct (code c <? 0x80)%N eqn:Hc.
      * rewrite (dump_escaped_ascii c s Hc).
        destruct (dump_escaped [] s) as [t|] eqn:Ht; [|discriminate].
        intros _. apply (IH _ _ Ht).
      * rewrite (dump_escaped_high c s Hc).
        destruct (utf8_tail (code c)) as [rs|]; [|discriminate].
        destruct (dump_escaped rs s) as [t|] eqn:Ht; [|discriminate].
        intros _. apply (IH _ _ Ht).
    + cbn [dump_escaped utf8_ok]. destruct (in_range lo hi c); [|discriminate].
      destruct (dump_escaped p' s) as [t|] eqn:Ht; [|discriminate].
      intros _. apply (IH _ _ Ht).
Qed.

Lemma dump_quoted_Some_utf8 (s r : string) : dump_quoted s = Some r -> utf8_ok [] s = true.
Proof.
  unfold dump_quoted. destruct (dump_escaped [] s) as [t|] eqn:Ht; [|discriminate].
  intros _. apply (dump_escaped_Some_utf8 _ _ _ Ht).
Qed.

Lemma dump_Some_utf8 (j : json) : forall r, dump j = Some r -> json_utf8 j = true.
Proof.
  induction j as [ |b|z|l|s|items IH|members IH] using json_ind2; intros r; try reflexivity.
  - cbn [dump json_utf8]. apply dump_quoted_Some_utf8.
  - cbn [dump json_utf8]. unfold prepend.
    match goal with |- context [match ?x with _ => _ end] => destruct x as [t|] eqn:Ht end;
      [|discriminate].
    intros _. revert t Ht. induction IH as [|x items Hx _ IHl]; intros t Ht; [reflexivity|].
    destruct (dump x) as [dx|] eqn:Hdx; [|discriminate].
    match type of Ht with match ?y with _ => _ end = _ => destruct y as [dr|] eqn:Hdr end;
      [|discriminate].
    cbn [forallb]. rewrite (Hx _ eq_refl), (IHl _ eq_refl). reflexivity.
  - cbn [dump json_utf8]. unfold prepend.
    match goal with |- context [match ?x with _ => _ end] => destruct x as [t|] eqn:Ht end;
      [|discriminate].
    intros _. revert t Ht.
    induction IH as [|[k x] members Hx _ IHl]; intros t Ht; [reflexivity|].
    destruct (dump_quoted k) as [dk|] eqn:Hdk; [|discriminate].
    destruct (dump x) as [dx|] eqn:Hdx; [|discriminate].
    match type of Ht with match ?y with _ => _ end = _ => destruct y as [dr|] eqn:Hdr end;
      [|discriminate].
    cbn [forallb fst snd]. cbn [snd] in Hx.
    rewrite (dump_quoted_Some_utf8 _ _ Hdk), (Hx _ Hdx), (IHl _ eq_refl). reflexivity.
Qed.

Lemma utf8_ok_cons_ascii (c : ascii) (r : string) :
  (code c <? 0x80)%N = true -> utf8_ok [] (String c r) = utf8_ok [] r.
Proof. intros H. cbn [utf8_ok]. rewrite H. reflexivity. Qed.

Lemma utf8_ok_before_ascii (g : string) (c : ascii) (q : string) :
  (code c <? 0x80)%N = true -> utf8_ok [] (String c q) = true ->
  forall p, high_ranges p -> utf8_ok p (g +:+ String c q) = utf8_ok p g.
Proof.
  intros Hc Hq. induction g as [|d g IH]; intros p Hp.
  - rewrite append_nil_l. destruct p as [|[lo hi] p']; [exact Hq|].
    cbn [utf8_ok]. inversion Hp as [|x l Hlo _]; subst. cbn [fst] in Hlo.
    destruct (in_range lo hi c) eqn:Hin; [|reflexivity].
    rewrite (in_high_range lo hi c Hlo Hin) in Hc. discriminate.
  - rewrite append_cons. cbn [utf8_ok]. destruct p as [|[lo hi] p'].
    + destruct (code d <? 0x80)%N; [apply IH; exact Hp|].
      destruct (utf8_tail (code d)) as [rs|] eqn:Hrs; [|reflexivity].
      apply IH. apply (utf8_tail_high _ _ Hrs).
    + inversion Hp as [|x l _ Hp']; subst. rewrite (IH p' Hp'). reflexivity.
Qed.

Lemma request_content_utf8 (gs : string) :
  utf8_ok [] (kStateIntro +:+ gs +:+ kQuestion) = utf8_ok [] gs.
Proof.
  unfold kStateIntro. repeat (rewrite append_cons, utf8_ok_cons_ascii by reflexivity).
  rewrite append_nil_l. unfold kQuestion.
  apply utf8_ok_before_ascii; [reflexivity|reflexivity|apply Forall_nil_2].
Qed.

Lemma request_json_shape (w : World) (s : ApiState) (gs : string) :
  request_json w s gs
  = JObject
      [("max_tokens", JInt (g_maxTokens s));
       ("messages",
        JArray [JObject [("content", JString (kStateIntro +:+ gs +:+ kQuestion));
                         ("role", JString "user")]]);
       ("model", JString (g_model s));
       ("system",
        JString (BuildSystemPrompt w (fst (ExtractCivInfo gs)) (snd (ExtractCivInfo gs))))].
Proof.
  unfold request_json. destruct (ExtractCivInfo gs) as [civ leader]. cbn [fst snd].
  generalize (kStateIntro +:+ gs +:+ kQuestion). intros content.
  generalize (BuildSystemPrompt w civ leader). intros prompt.
  reflexivity.
Qed.

Lemma request_json_utf8 (w : World) (s : ApiState) (gs : string) :
  json_utf8 (request_json w s gs)
  = utf8_ok [] (g_model s)
    && utf8_ok [] (BuildSystemPrompt w (fst (ExtractCivInfo gs)) (snd (ExtractCivInfo gs)))
    && utf8_ok [] gs.
Proof.
  rewrite request_json_shape, <- (request_content_utf8 gs).
  generalize (kStateIntro +:+ gs +:+ kQuestion). intros content.
  generalize (BuildSystemPrompt w (fst (ExtractCivInfo gs)) (snd (ExtractCivInfo gs))).
  intros prompt. cbn [json_utf8 forallb fst snd].
  change (utf8_ok [] "max_tokens") with true. change (utf8_ok [] "messages") with true.
  change (utf8_ok [] "content") with true. change (utf8_ok [] "role") with true.
  change (utf8_ok [] "user") with true. change (utf8_ok [] "model") with true.
  change (utf8_ok [] "system") with true. cbn [andb].
  destruct (utf8_ok [] content), (utf8_ok [] (g_model s)), (utf8_ok [] prompt); reflexivity.
Qed.

(** X4. A call that has a key and is not answered from the cache throws
    exactly when the model name, the system prompt or the game state is not
    well-formed UTF-8: then it throws at line 723, before any request, and
    leaves the state as it is; otherwise it posts a request and returns. *)
Theorem call_throws_exactly_on_ill_formed_utf8 (w : World) (s : ApiState) (gs : string) :
  g_apiKey s <> EmptyString ->
  cache_hit s (fst (ExtractTurnAndPlayer gs)) (snd (ExtractTurnAndPlayer gs)) = false ->
  let prompt := BuildSystemPrompt w (fst (ExtractCivInfo gs)) (snd (ExtractCivInfo gs)) in
  (utf8_ok [] (g_model s) && utf8_ok [] prompt && utf8_ok [] gs = true ->
   exists result body,
     call_outcome (GetActionFromClaude w s gs) = Returned result
     /\ call_posted (GetActionFromClaude w s gs) = Some body)
  /\ (utf8_ok [] (g_model s) && utf8_ok [] prompt && utf8_ok [] gs = false ->
      GetActionFromClaude w s gs
      = {| call_outcome := Thrown (dump_error_what (request_json w s gs));
           call_state := s; call_posted := None |}).
Proof.
  intros Hkey Hmiss prompt. unfold prompt. rewrite <- request_json_utf8.
  unfold GetActionFromClaude.
  destruct (g_apiKey s) as [|c k] eqn:Hk; [contradiction|]. cbn [is_empty_str].
  destruct (ExtractTurnAndPlayer gs) as [t p]. cbn [fst snd] in Hmiss. rewrite Hmiss.
  split.
  - intros Hok. destruct (dump_utf8 _ Hok) as [body ->].
    destruct (handle_response s t p (HttpPost w kApiHost kApiPath body (String c k)))
      as [result s'].
    exists result, body. split; reflexivity.
  - intros Hbad. destruct (dump (request_json w s gs)) as [body|] eqn:Hb; [|reflexivity].
    rewrite (dump_Some_utf8 _ _ Hb) in Hbad. discriminate.
Qed.

(** ** C6: the turn cache *)





(** ** The engine: cache, configuration, cancellation *)

Lemma GetActionFromClaude_cache_inv (w : World) (s : ApiState) (gs : string) :
  (forall l, double_dump l <> EmptyString) ->
  cache_inv s -> cache_inv (call_state (GetActionFromClaude w s gs)).
Proof.
  intros Hd Hinv. unfold GetActionFromClaude.
  destruct (is_empty_str (g_apiKey s)); [exact Hinv|].
  destruct (ExtractTurnAndPlayer gs) as [t p].
  destruct (cache_hit s t p); [exact Hinv|].
  destruct (dump (request_json w s gs)) as [body|]; [|exact Hinv].
  pose proof (handle_response_cases s t p (HttpPost w kApiHost kApiPath body (g_apiKey s)) Hd)
    as H.
  destruct (handle_response s t p (HttpPost w kApiHost kApiPath body (g_apiKey s)))
    as [result s'].
  cbn [fst snd call_state] in *. destruct H as [->|[-> Hne]]; [exact Hinv|].
  intros _. exact Hne.
Qed.

Lemma Initialize_cache (s : ApiState) :
  g_lastQueriedTurn (snd (Initialize s)) = g_lastQueriedTurn s
  /\ g_lastQueriedPlayer (snd (Initialize s)) = g_lastQueriedPlayer s
  /\ g_cachedResponse (snd (Initialize s)) = g_cachedResponse s.
Proof.
  unfold Initialize. destruct (is_empty_str (g_apiKey s)); [|repeat split].
  destruct (env_ANTHROPIC_API_KEY s); repeat split.
Qed.

Lemma StartAsyncRequest_cache (gs : string) (a a' : Async) (ok : bool) :
  StartAsyncRequest gs a = Some (ok, a') ->
  g_lastQueriedTurn (api a') = g_lastQueriedTurn (api a)
  /\ g_lastQueriedPlayer (api a') = g_lastQueriedPlayer (api a)
  /\ g_cachedResponse (api a') = g_cachedResponse (api a).
Proof.
  unfold StartAsyncRequest.
  destruct (decide (g_asyncState a = Pending)); [intros [= <- <-]; repeat split|].
  destruct (g_asyncThread a); try discriminate; cbn [api set_thread].
  all: destruct (is_empty_str (g_apiKey (api a))).
  all: try (pose proof (Initialize_cache (api a)) as H;
            destruct (Initialize (api a)) as [ok' s']; cbn [snd] in H).
  all: try destruct ok'; intros [= <- <-]; cbn; try exact H; repeat split.
Qed.

(** X5. The cache under calls that do not overlap.  At load time no turn is
    recorded, and each complete call of [GetActionFromClaude], [Initialize]
    and [ResetTurnTracking] keeps [cache_inv]: a recorded turn comes with a
    stored answer that is not empty.  From a state with [cache_inv], a call
    answered from the cache returns the stored answer, posts nothing and
    changes nothing.  The three stores of lines 783-785 take no lock: in a
    state where the pair is recorded and the stored answer is empty, as
    between the second and the third store of a first query, [cache_inv]
    fails and the same call returns the placeholder of line 704.  (A double
    is taken to print as some text.) *)
Theorem cache_hit_returns_stored_answer (w : World) (s : ApiState) (gs : string) :
  (forall l, double_dump l <> EmptyString) ->
  (forall env, cache_inv (initial_api env))
  /\ (cache_inv s ->
      cache_inv (call_state (GetActionFromClaude w s gs))
      /\ cache_inv (snd (Initialize s))
      /\ cache_inv (ResetTurnTracking s))
  /\ (g_apiKey s <> EmptyString ->
      cache_hit s (fst (ExtractTurnAndPlayer gs)) (snd (ExtractTurnAndPlayer gs)) = true ->
      (cache_inv s ->
       g_cachedResponse s <> EmptyString
       /\ GetActionFromClaude w s gs
          = {| call_outcome := Returned (g_cachedResponse s);
               call_state := s;
               call_posted := None |})
      /\ (g_cachedResponse s = EmptyString ->
          ~ cache_inv s
          /\ GetActionFromClaude w s gs
             = {| call_outcome := Returned kAlreadyQueried;
                  call_state := s;
                  call_posted := None |})).
Proof.
  intros Hd. split; [|split].
  - intros env. unfold cache_inv. cbn. lia.
  - intros Hinv. split; [apply GetActionFromClaude_cache_inv; assumption|]. split.
    + destruct (Initialize_cache s) as (Ht & _ & Hc). unfold cache_inv. rewrite Ht, Hc.
      exact Hinv.
    + unfold cache_inv. cbn. lia.
  - intros Hkey Hhit.
    assert (0 <= g_lastQueriedTurn s) as Hturn.
    { revert Hhit. unfold cache_hit.
      destruct (ExtractTurnAndPlayer gs) as [t p]. cbn [fst snd].
      intros H. apply andb_true_iff in H. destruct H as [H _].
      apply andb_true_iff in H. destruct H as [H Ht].
      apply andb_true_iff in H. destruct H as [H0 _].
      apply Z.eqb_eq in Ht. apply Z.leb_le in H0. lia. }
    assert (GetActionFromClaude w s gs
            = {| call_outcome :=
                   Returned (if negb (is_empty_str (g_cachedResponse s))
                             then g_cachedResponse s else kAlreadyQueried);
                 call_state := s; call_posted := None |}) as Hcall.
    { unfold GetActionFromClaude.
      destruct (g_apiKey s) as [|c k] eqn:Hk; [contradiction|]. cbn [is_empty_str].
      destruct (ExtractTurnAndPlayer gs) as [t p]. cbn [fst snd] in Hhit. rewrite Hhit.
      reflexivity. }
    split.
    + intros Hinv. pose proof (Hinv Hturn) as Hne. split; [exact Hne|].
      rewrite Hcall. destruct (g_cachedResponse s); [contradiction|reflexivity].
    + intros Hempty. split; [intros Hinv; exact (Hinv Hturn Hempty)|].
      rewrite Hcall, Hempty. reflexivity.
Qed.

Lemma Initialize_fields (s : ApiState) :
  env_ANTHROPIC_API_KEY (snd (Initialize s)) = env_ANTHROPIC_API_KEY s
  /\ g_model (snd (Initialize s)) = g_model s
  /\ g_maxTokens (snd (Initialize s)) = g_maxTokens s
  /\ (g_apiKey s <> EmptyString -> g_apiKey (snd (Initialize s)) = g_apiKey s)
  /\ (g_apiKey (snd (Initialize s)) = EmptyString
      \/ g_apiKey (snd (Initialize s)) = g_apiKey s
      \/ env_ANTHROPIC_API_KEY s = Some (g_apiKey (snd (Initialize s)))).
Proof.
  unfold Initialize. destruct (g_apiKey s) as [|c k] eqn:Hk; cbn [is_empty_str].
  - destruct (env_ANTHROPIC_API_KEY s) as [e|] eqn:He; cbn; rewrite ?Hk, ?He;
      repeat split; auto; try contradiction.
  - cbn. rewrite Hk. repeat split; auto.
Qed.

Lemma handle_response_fields (s : ApiState) (t p : Z) (response : string) :
  g_apiKey (snd (handle_response s t p response)) = g_apiKey s
  /\ env_ANTHROPIC_API_KEY (snd (handle_response s t p response)) = env_ANTHROPIC_API_KEY s
  /\ g_model (snd (handle_response s t p response)) = g_model s
  /\ g_maxTokens (snd (handle_response s t p response)) = g_maxTokens s.
Proof. unfold handle_response. repeat break_match; repeat split. Qed.

Lemma GetActionFromClaude_fields (w : World) (s : ApiState) (gs : string) :
  g_apiKey (call_state (GetActionFromClaude w s gs)) = g_apiKey s
  /\ env_ANTHROPIC_API_KEY (call_state (GetActionFromClaude w s gs)) = env_ANTHROPIC_API_KEY s
  /\ g_model (call_state (GetActionFromClaude w s gs)) = g_model s
  /\ g_maxTokens (call_state (GetActionFromClaude w s gs)) = g_maxTokens s.
Proof.
  unfold GetActionFromClaude.
  destruct (is_empty_str (g_apiKey s)); [repeat split|].
  destruct (ExtractTurnAndPlayer gs) as [t p].
  destruct (cache_hit s t p); [repeat split|].
  destruct (dump (request_json w s gs)) as [body|]; [|repeat split].
  pose proof (handle_response_fields s t p (HttpPost w kApiHost kApiPath body (g_apiKey s))) as H.
  destruct (handle_response s t p (HttpPost w kApiHost kApiPath body (g_apiKey s))).
  exact H.
Qed.

Lemma same_config_refl (s : ApiState) : same_config s s.
Proof. unfold same_config. repeat split; auto. Qed.

Lemma same_config_call (w : World) (s : ApiState) (gs : string) :
  same_config s (call_state (GetActionFromClaude w s gs)).
Proof.
  destruct (GetActionFromClaude_fields w s gs) as (Hk & He & Hm & Ht).
  unfold same_config. rewrite Hk, He, Hm, Ht. repeat split; auto.
Qed.

Lemma step_config (y z : System) :
  step y z -> same_config (api (engine y)) (api (engine z)).
Proof.
  intros Hstep. destruct Hstep; cbn [engine] in *; try apply same_config_refl.
  - revert H. unfold worker_step. destruct (g_asyncThread a) as [|gs pc|]; try discriminate.
    intros [= <-]. destruct pc; try apply same_config_refl.
    + destruct (g_asyncCancelled a); apply same_config_refl.
    + destruct (call_outcome (GetActionFromClaude w (api a) gs)); cbn [api set_thread set_api];
        apply same_config_call.
    + destruct (g_asyncCancelled a); apply same_config_refl.
    + unfold store_result. repeat break_match; apply same_config_refl.
  - revert H. unfold StartAsyncRequest.
    destruct (decide (g_asyncState a = Pending)); [intros [= <- <-]; apply same_config_refl|].
    destruct (g_asyncThread a); try discriminate; cbn [api set_thread].
    all: destruct (is_empty_str (g_apiKey (api a))).
    all: try (pose proof (Initialize_fields (api a)) as Hi;
              destruct (Initialize (api a)) as [ok' s']; cbn [snd] in Hi).
    all: try destruct ok'; intros [= <- <-]; cbn; try exact Hi; try apply same_config_refl.
  - unfold GetAsyncResponse. destruct (decide (g_asyncState a = Ready)); apply same_config_refl.
  - revert H. unfold CancelAsyncRequest_reset.
    destruct (g_asyncThread a); try discriminate; intros [= <-]; apply same_config_refl.
  - cbn [api set_api]. apply same_config_call.
  - cbn [api set_api]. apply Initialize_fields.
  - unfold same_config. cbn. repeat split; auto.
Qed.

Lemma steps_config (y z : System) :
  rtc step y z ->
  env_ANTHROPIC_API_KEY (api (engine z)) = env_ANTHROPIC_API_KEY (api (engine y))
  /\ g_model (api (engine z)) = g_model (api (engine y))
  /\ g_maxTokens (api (engine z)) = g_maxTokens (api (engine y))
  /\ (g_apiKey (api (engine y)) <> EmptyString ->
      g_apiKey (api (engine z)) = g_apiKey (api (engine y)))
  /\ (g_apiKey (api (engine z)) = EmptyString
      \/ g_apiKey (api (engine z)) = g_apiKey (api (engine y))
      \/ env_ANTHROPIC_API_KEY (api (engine y)) = Some (g_apiKey (api (engine z)))).
Proof.
  induction 1 as [x|x y z Hxy _ IH]; [repeat split; auto|].
  destruct (step_config x y Hxy) as (He & Hm & Ht & Hk & Hor).
  destruct IH as (He' & Hm' & Ht' & Hk' & Hor').
  rewrite He', Hm', Ht', He, Hm, Ht. repeat split.
  - intros Hx. rewrite Hk', (Hk Hx); auto. rewrite (Hk Hx). exact Hx.
  - destruct Hor' as [H|[H|H]]; [auto| |].
    + rewrite H. exact Hor.
    + right. right. rewrite <- He. exact H.
Qed.

(** X9. In every reachable state the environment is as it was at load, the
    key is either unset or the value of ANTHROPIC_API_KEY, and the model and
    the token limit are the defaults; a key that is set stays as it is in
    every state reached afterwards. *)
Theorem api_key_comes_from_environment (env : option string) (y z : System) :
  rtc step (initial_system env) y -> rtc step y z ->
  env_ANTHROPIC_API_KEY (api (engine y)) = env
  /\ (g_apiKey (api (engine y)) = EmptyString \/ env = Some (g_apiKey (api (engine y))))
  /\ g_model (api (engine y)) = kDefaultModel
  /\ g_maxTokens (api (engine y)) = kDefaultMaxTokens
  /\ (g_apiKey (api (engine y)) <> EmptyString ->
      g_apiKey (api (engine z)) = g_apiKey (api (engine y))).
Proof.
  intros H0 H1.
  destruct (steps_config _ _ H0) as (He & Hm & Ht & _ & Hor).
  destruct (steps_config _ _ H1) as (_ & _ & _ & Hk & _).
  cbn in He, Hm, Ht, Hor. split; [exact He|]. split.
  { destruct Hor as [H|[H|H]]; auto. }
  split; [exact Hm|]. split; [exact Ht|exact Hk].
Qed.

Lemma worker_runs_to_catch (w : World) (a : Async) (gs what : string) :
  g_asyncThread a = Running gs AtEntry ->
  g_asyncCancelled a = false ->
  call_outcome (GetActionFromClaude w (api a) gs) = Thrown what ->
  AsyncWorkerThread w a
  = set_thread Finished
      (set_state Failed
         (set_error ("Exception: " +:+ what)
            (set_thread (Running gs (InCatch what))
               (set_api (call_state (GetActionFromClaude w (api a) gs))
                  (set_thread (Running gs AtCall) a))))).
Proof.
  intros Hth Hc Hout.
  unfold AsyncWorkerThread. cbn [run_worker].
  unfold worker_step at 1. rewrite Hth, Hc.
  unfold worker_step at 1. cbn [g_asyncThread set_thread api]. rewrite Hout.
  unfold worker_step at 1. cbn [g_asyncThread set_thread].
  unfold worker_step at 1. cbn [g_asyncThread set_thread]. reflexivity.
Qed.

Lemma store_result_slots (result : string) (a : Async) :
  g_asyncResponse (store_result result a) = result
  /\ api (store_result result a) = api a
  /\ (g_asyncState (store_result result a) = Ready
      \/ g_asyncState (store_result result a) = Failed)
  /\ (g_asyncState (store_result result a) = Ready ->
      g_asyncError (store_result result a) = g_asyncError a).
Proof.
  unfold store_result. repeat break_match; cbn; repeat split; auto; discriminate.
Qed.

(** X6. The worker of a cycle that is not cancelled does what the blocking
    call does: it leaves the module state the call leaves; when the call
    returns, the response slot holds what it returned, the cycle ends Ready
    or Failed, and a Ready cycle hands that result over; when the call
    throws, the cycle ends Failed with "Exception: " and the message. *)
Theorem async_agrees_with_blocking (w : World) (gs : string) (a0 a1 : Async) :
  StartAsyncRequest gs a0 = Some (true, a1) ->
  let r := GetActionFromClaude w (api a1) gs in
  let a2 := AsyncWorkerThread w a1 in
  g_asyncThread a2 = Finished
  /\ api a2 = call_state r
  /\ match call_outcome r with
     | Returned result =>
         g_asyncResponse a2 = result
         /\ (g_asyncState a2 = Ready \/ g_asyncState a2 = Failed)
         /\ (g_asyncState a2 = Ready ->
             g_asyncError a2 = EmptyString /\ fst (GetAsyncResponse a2) = result)
     | Thrown what =>
         g_asyncState a2 = Failed
         /\ g_asyncError a2 = "Exception: " +:+ what
         /\ g_asyncResponse a2 = EmptyString
     end.
Proof.
  intros Hstart r a2.
  destruct (StartAsyncRequest_true gs a0 a1 Hstart) as (Hth & Hc & Hp & Hr & He & _).
  unfold a2. destruct (call_outcome r) as [result|what] eqn:Hout.
  - rewrite (worker_runs_to_store_state w a1 gs result Hth Hc Hout).
    set (a' := set_thread (Running gs (AtStore result)) _).
    destruct (store_result_slots result a') as (Hres & Hapi & Hst & Herr).
    cbn [g_asyncThread api g_asyncResponse g_asyncState g_asyncError set_thread].
    split; [reflexivity|]. split; [rewrite Hapi; reflexivity|].
    split; [exact Hres|]. split; [exact Hst|].
    intros Hready. split; [rewrite (Herr Hready); exact He|].
    unfold GetAsyncResponse.
    cbn [g_asyncThread api g_asyncResponse g_asyncState g_asyncError set_thread].
    destruct (decide (g_asyncState (store_result result a') = Ready)); [|contradiction].
    exact Hres.
  - rewrite (worker_runs_to_catch w a1 gs what Hth Hc Hout). cbn.
    split; [reflexivity|]. split; [reflexivity|]. split; [reflexivity|].
    split; [reflexivity|exact Hr].
Qed.

Lemma cache_hit_same (s : ApiState) (t p : Z) (P : string) :
  0 <= t -> 0 <= p -> cache_hit (with_cache t p P s) t p = true.
Proof.
  intros Ht Hp. unfold cache_hit. cbn [g_lastQueriedTurn g_lastQueriedPlayer with_cache].
  rewrite !Z.eqb_refl, !andb_true_r. apply andb_true_iff. split; apply Z.leb_le; assumption.
Qed.

(** X7. Cancelling a request whose call is in flight does not undo what
    the call stores.  If that call stores answer P for the turn, then after
    the cancel (Idle, nothing to fetch) a new request for the same snapshot
    starts, is answered from the cache without any post, whatever the
    service would say, and its worker publishes P. *)
Theorem cancelled_answer_is_cached (w : World) (gs P : string) (t p : Z) (a1 : Async) :
  g_asyncThread a1 = Running gs AtCall ->
  g_apiKey (api a1) <> EmptyString ->
  ExtractTurnAndPlayer gs = (t, p) -> 0 <= t -> 0 <= p -> P <> EmptyString ->
  call_state (GetActionFromClaude w (api a1) gs) = with_cache t p P (api a1) ->
  exists a3 a4,
    CancelAsyncRequest_reset (AsyncWorkerThread w (CancelAsyncRequest_signal a1)) = Some a3
    /\ g_asyncState a3 = Idle
    /\ g_asyncResponse a3 = EmptyString
    /\ StartAsyncRequest gs a3 = Some (true, a4)
    /\ forall w',
         GetActionFromClaude w' (api a4) gs
           = {| call_outcome := Returned P; call_state := api a4; call_posted := None |}
         /\ g_asyncResponse (AsyncWorkerThread w' a4) = P
         /\ g_asyncThread (AsyncWorkerThread w' a4) = Finished.
Proof.
  intros Hth Hkey Htp Ht Hp HP Hstore.
  set (s1 := with_cache t p P (api a1)) in *.
  set (a2 := AsyncWorkerThread w (CancelAsyncRequest_signal a1)).
  assert (g_asyncThread a2 = Finished) as Hth2.
  { apply (AsyncWorkerThread_returns w _ gs AtCall). exact Hth. }
  assert (api a2 = s1) as Hapi2.
  { rewrite <- Hstore. unfold a2, AsyncWorkerThread. cbn [run_worker].
    unfold worker_step at 1. cbn [CancelAsyncRequest_signal g_asyncThread set_cancelled api].
    rewrite Hth.
    destruct (call_outcome (GetActionFromClaude w (api a1) gs)) as [result|what].
    - unfold worker_step at 1. cbn [g_asyncThread g_asyncCancelled set_thread set_api].
      unfold worker_step at 1. cbn [g_asyncThread set_thread].
      unfold worker_step at 1. cbn [g_asyncThread set_thread set_state].
      reflexivity.
    - unfold worker_step at 1. cbn [g_asyncThread set_thread].
      unfold worker_step at 1. cbn [g_asyncThread set_thread set_state set_error].
      reflexivity. }
  clearbody a2.
  assert (g_apiKey s1 = g_apiKey (api a1)) as Hk1 by reflexivity.
  unfold CancelAsyncRequest_reset. rewrite Hth2.
  eexists. eexists. split; [reflexivity|]. split; [reflexivity|]. split; [reflexivity|].
  split.
  { unfold StartAsyncRequest.
    cbn [g_asyncState g_asyncThread set_error set_response set_state set_thread api].
    destruct (decide (Idle = Pending)) as [Hn|_]; [discriminate|].
    rewrite Hapi2, Hk1. destruct (g_apiKey (api a1)) as [|c k]; [contradiction|].
    cbn [is_empty_str]. reflexivity. }
  intros w'.
  set (a4 := set_thread (Running gs AtEntry) _).
  assert (api a4 = s1) as Hapi4.
  { reflexivity. }
  assert (GetActionFromClaude w' (api a4) gs
          = {| call_outcome := Returned P; call_state := api a4; call_posted := None |}) as Hcall.
  { rewrite Hapi4. unfold GetActionFromClaude. rewrite Hk1.
    destruct (g_apiKey (api a1)) as [|c k]; [contradiction|]. cbn [is_empty_str].
    rewrite Htp. unfold s1. rewrite (cache_hit_same (api a1) t p P Ht Hp).
    cbn [g_cachedResponse with_cache].
    destruct P; [contradiction|]. reflexivity. }
  split; [exact Hcall|].
  assert (call_outcome (GetActionFromClaude w' (api a4) gs) = Returned P) as Hout
    by (rewrite Hcall; reflexivity).
  rewrite (worker_runs_to_store_state w' a4 gs P eq_refl eq_refl Hout).
  split; [|reflexivity].
  cbn [g_asyncResponse set_thread]. apply store_result_slots.
Qed.

(** ** [TestConnection] and the system prompt *)

Lemma handle_response_accepts (s : ApiState) (t p : Z) (response : string) :
  (test_reply_ok response = true ->
   exists content,
     handle_response s t p response
     = (action_of_content content, with_cache t p (action_of_content content) s))
  /\ (test_reply_ok response = false -> snd (handle_response s t p response) = s).
Proof.
  unfold test_reply_ok, handle_response.
  destruct response as [|c r]; [split; [discriminate|reflexivity]|].
  cbn [is_empty_str].
  destruct (json_parse (String c r)) as [j|]; [|split; [discriminate|reflexivity]].
  destruct (contains j "error").
  { split; [discriminate|]. intros _. repeat break_match; reflexivity. }
  destruct (contains j "content" && is_array (default JNull (at_key j "content"))
            && negb (json_empty (default JNull (at_key j "content"))));
    [|split; [discriminate|reflexivity]].
  destruct ((at_index (default JNull (at_key j "content")) 0 ≫= fun b => at_key b "text")
            ≫= get_string) as [content|];
    [|split; [discriminate|reflexivity]].
  split; [intros _; exists content; reflexivity|discriminate].
Qed.

(** X10. [TestConnection] changes the module state only as [Initialize]
    does, and posts nothing when no key can be loaded.  When it posts, it
    succeeds exactly on the replies from which [GetActionFromClaude] makes
    an action and writes the cache; on a reply it reports as a failure, the
    call would leave the state as it is. *)
Theorem test_connection_accepts_what_the_call_caches (w : World) (s : ApiState) :
  let r := TestConnection w s in
  test_state r = snd (Initialize s)
  /\ (fst (Initialize s) = false -> test_outcome r = Returned false /\ test_posted r = None)
  /\ (forall body, test_posted r = Some body ->
        let response := HttpPost w kApiHost kApiPath body (g_apiKey (test_state r)) in
        (test_outcome r = Returned true ->
         forall s' t p, exists content,
           handle_response s' t p response
           = (action_of_content content, with_cache t p (action_of_content content) s'))
        /\ (test_outcome r = Returned false ->
            forall s' t p, snd (handle_response s' t p response) = s')).
Proof.
  unfold TestConnection. destruct (Initialize s) as [ok s1]. cbn [fst snd].
  destruct ok; [|cbn; repeat split; intros; discriminate].
  destruct (dump (test_request_json s1)) as [body|];
    [|cbn; repeat split; intros; discriminate].
  cbn [test_state test_outcome test_posted].
  split; [reflexivity|]. split; [discriminate|].
  intros body' [= <-]. cbv zeta.
  set (response := HttpPost w kApiHost kApiPath body (g_apiKey s1)).
  split.
  - intros [= H] s' t p. apply andb_true_iff in H. destruct H as [_ H].
    apply (handle_response_accepts s' t p response). exact H.
  - intros [= H] s' t p. apply andb_false_iff in H. destruct H as [H|H].
    + destruct response; [reflexivity|discriminate].
    + apply (handle_response_accepts s' t p response). exact H.
Qed.



Lemma ReplaceAll_from_over (u v from' to : string) (f0 : ascii) :
  mem_chr f0 u = false ->
  ReplaceAll_from O (u +:+ v) (String f0 from') to
  = u +:+ ReplaceAll_from O v (String f0 from') to.
Proof.
  induction u as [|c u IH]; [reflexivity|].
  cbn [mem_chr]. intros H. apply orb_false_iff in H. destruct H as [Hc Hu].
  rewrite !append_cons. cbn [ReplaceAll_from String.prefix].
  destruct (ascii_dec f0 c) as [->|Hne]; [rewrite Ascii.eqb_refl in Hc; discriminate|].
  rewrite (IH Hu). reflexivity.
Qed.

Lemma fallback_civ (civ : string) :
  ReplaceAll kFallbackPrompt "{CIV_NAME}" civ
  = kPromptHead +:+ ("{LEADER_NAME}" +:+ (kPromptOf +:+ (civ +:+ kPromptTail))).
Proof. vm_compute. reflexivity. Qed.

Lemma prefix_app_self (p r : string) : String.prefix p (p +:+ r) = true.
Proof.
  induction p as [|c p IH]; [destruct r; reflexivity|].
  rewrite append_cons. cbn [String.prefix].
  destruct (ascii_dec c c) as [_|Hne]; [exact IH|contradiction].
Qed.

Lemma ReplaceAll_from_skip (x rest from to : string) :
  ReplaceAll_from (String.length x) (x +:+ rest) from to = ReplaceAll_from O rest from to.
Proof.
  induction x as [|c x IH]; [reflexivity|].
  rewrite append_cons. cbn [String.length ReplaceAll_from]. exact IH.
Qed.

Lemma ReplaceAll_from_hit (f0 : ascii) (from' rest to : string) :
  ReplaceAll_from O (String f0 from' +:+ rest) (String f0 from') to
  = to +:+ ReplaceAll_from O rest (String f0 from') to.
Proof.
  rewrite append_cons. cbn [ReplaceAll_from].
  change (String f0 (from' +:+ rest)) with (String f0 from' +:+ rest).
  rewrite prefix_app_self.
  replace (String.length (String f0 from') - 1)%nat with (String.length from')
    by (cbn [String.length]; lia).
  rewrite ReplaceAll_from_skip. reflexivity.
Qed.

Lemma chr_find_none_mem (c : ascii) (s : string) :
  chr_find s c 0 = None -> mem_chr c s = false.
Proof.
  unfold chr_find, str_find. cbn [Nat.leb drop_str]. generalize 0%nat.
  induction s as [|d s IH]; intros i; [reflexivity|].
  cbn [find_at String.prefix mem_chr].
  destruct (ascii_dec c d) as [->|Hne].
  - destruct s; discriminate.
  - intros H. apply IH in H. rewrite H, orb_false_r.
    apply Ascii.eqb_neq. exact Hne.
Qed.

Lemma mem_chr_app (c : ascii) (a b : string) :
  mem_chr c (a +:+ b) = mem_chr c a || mem_chr c b.
Proof.
  induction a as [|d a IH]; [reflexivity|]. rewrite append_cons. cbn [mem_chr]. rewrite IH.
  rewrite orb_assoc. reflexivity.
Qed.

(** X12. Without a prompt file, or with an empty one, the system prompt is
    the built-in text with the leader and the civilisation in place of the
    two placeholders, each once, provided the civilisation name holds no
    open brace (the leader is substituted second, into the text that
    already holds the civilisation name). *)
Theorem fallback_prompt_names_leader_and_civilization (w : World)
    (civType leaderType : string) :
  system_prompt_file w = None \/ system_prompt_file w = Some EmptyString ->
  chr_find civType "{" 0 = None ->
  BuildSystemPrompt w civType leaderType
  = kPromptHead +:+ (leaderType +:+ (kPromptOf +:+ (civType +:+ kPromptTail))).
Proof.
  intros Hfile Hciv. apply chr_find_none_mem in Hciv.
  unfold BuildSystemPrompt.
  assert (is_empty_str (default EmptyString (system_prompt_file w)) = true) as ->
    by (destruct Hfile as [-> | ->]; reflexivity).
  rewrite fallback_civ. unfold ReplaceAll.
  rewrite (ReplaceAll_from_over kPromptHead) by reflexivity.
  rewrite ReplaceAll_from_hit.
  rewrite <- (append_assoc kPromptOf civType kPromptTail).
  rewrite (ReplaceAll_from_over (kPromptOf +:+ civType))
    by (rewrite mem_chr_app, Hciv; reflexivity).
  rewrite (append_assoc kPromptOf civType _).
  assert (ReplaceAll_from O kPromptTail "{LEADER_NAME}" leaderType = kPromptTail) as ->
    by (vm_compute; reflexivity).
  reflexivity.
Qed.

(** ** Type names *)

Lemma upper_facts (d : ascii) :
  in_range 65 90 d = true ->
  toupper d = d /\ toupper (tolower d) = d /\ Ascii.eqb (tolower d) "_" = false
  /\ Ascii.eqb d "_" = false /\ tolower (tolower d) = tolower d.
Proof.
  destruct d as [[] [] [] [] [] [] [] []]; intros H; try discriminate H;
    repeat split; reflexivity.
Qed.

Lemma tidy_tail (rest : list string) :
  Forall type_word rest ->
  forall (w' : string) (prev : ascii),
    all_upper w' = true -> Ascii.eqb prev "_" = false ->
    remove_chr "_"
      (cap_after_underscore prev
         (map_str tolower
            (w' +:+ match rest with [] => EmptyString | _ => String "_" (join_words rest) end)))
    = map_str tolower w' +:+ concat_words (map capitalised rest).
Proof.
  induction 1 as [|w2 rest [Hne Hup] Hrest IH].
  - intros w'. induction w' as [|d w' IHw]; intros prev Hw Hprev; [reflexivity|].
    cbn [all_upper] in Hw. apply andb_true_iff in Hw. destruct Hw as [Hd Hw].
    destruct (upper_facts d Hd) as (_ & _ & Hlow & _ & _).
    rewrite !append_cons. cbn [map_str cap_after_underscore]. rewrite Hprev.
    cbn [remove_chr]. rewrite Hlow. rewrite append_cons. f_equal.
    apply IHw; assumption.
  - intros w'. induction w' as [|d w' IHw]; intros prev Hw Hprev.
    + destruct w2 as [|e w2']; [contradiction|].
      cbn [all_upper] in Hup. apply andb_true_iff in Hup. destruct Hup as [He Hw2].
      destruct (upper_facts e He) as (_ & Hup_low & _ & He_us & _).
      assert (join_words (String e w2' :: rest)
              = String e (w2' +:+ match rest with
                                  | [] => EmptyString
                                  | _ => String "_" (join_words rest)
                                  end)) as ->.
      { cbn [join_words]. destruct rest; [|reflexivity].
        clear. induction w2' as [|x w IHx]; [reflexivity|].
        rewrite append_cons. f_equal. injection IHx as IHx. f_equal. exact IHx. }
      rewrite !append_nil_l.
      cbn [map_str cap_after_underscore]. rewrite Hprev.
      change (tolower "_") with "_"%char.
      cbn [remove_chr]. change (Ascii.eqb "_" "_") with true.
      cbn [cap_after_underscore]. cbv iota. change (Ascii.eqb "_" "_") with true. cbv iota.
      rewrite Hup_low. cbn [remove_chr]. rewrite He_us.
      cbn [map capitalised concat_words map_str]. rewrite append_cons. f_equal.
      apply IH; assumption.
    + cbn [all_upper] in Hw. apply andb_true_iff in Hw. destruct Hw as [Hd Hw].
      destruct (upper_facts d Hd) as (_ & _ & Hlow & _ & _).
      rewrite !append_cons. cbn [map_str cap_after_underscore]. rewrite Hprev.
      cbn [remove_chr]. rewrite Hlow. rewrite append_cons. f_equal.
      apply IHw; assumption.
Qed.

(** X13. A type name made of words in capital letters joined by
    underscores is tidied to the words capitalised and concatenated; so is
    the name behind the prefix CIVILIZATION_ or LEADER_; the result holds no
    underscore. *)
Theorem type_names_become_camel_case (ws : list string) :
  ws <> [] -> Forall type_word ws ->
  tidy_name (join_words ws) = concat_words (map capitalised ws)
  /\ strip_type_prefix "CIVILIZATION_" 13 ("CIVILIZATION_" +:+ join_words ws)
     = concat_words (map capitalised ws)
  /\ strip_type_prefix "LEADER_" 7 ("LEADER_" +:+ join_words ws)
     = concat_words (map capitalised ws)
  /\ chr_find (concat_words (map capitalised ws)) "_" 0 = None.
Proof.
  intros Hne Hws.
  assert (tidy_name (join_words ws) = concat_words (map capitalised ws)) as Htidy.
  { destruct Hws as [|w rest [Hw Hup] Hrest]; [contradiction|].
    destruct w as [|c w']; [contradiction|].
    cbn [all_upper] in Hup. apply andb_true_iff in Hup. destruct Hup as [Hc Hw'].
    destruct (upper_facts c Hc) as (Hup & _ & _ & Hus & _).
    assert (join_words (String c w' :: rest)
            = String c (w' +:+ match rest with
                               | [] => EmptyString
                               | _ => String "_" (join_words rest)
                               end)) as ->.
    { cbn [join_words]. destruct rest; [|reflexivity].
      clear. induction w' as [|x w IHx]; [reflexivity|].
      rewrite append_cons. f_equal. injection IHx as IHx. f_equal. exact IHx. }
    unfold tidy_name. rewrite Hup. cbn [remove_chr]. rewrite Hus.
    cbn [map capitalised concat_words]. rewrite append_cons. f_equal.
    apply tidy_tail; assumption. }
  split; [exact Htidy|].
  assert (forall pfx : string,
            strip_type_prefix pfx (String.length pfx) (pfx +:+ join_words ws)
            = tidy_name (join_words ws)) as Hstrip.
  { intros pfx. unfold strip_type_prefix, substr_from.
    assert (String.prefix pfx (pfx +:+ join_words ws) = true) as ->.
    { induction pfx as [|c p IH]; [destruct (join_words ws); reflexivity|].
      rewrite append_cons. cbn [String.prefix].
      destruct (ascii_dec c c); [exact IH|contradiction]. }
    f_equal. induction pfx as [|c p IH]; [reflexivity|exact IH]. }
  split; [rewrite <- Htidy; apply (Hstrip "CIVILIZATION_")|].
  split; [rewrite <- Htidy; apply (Hstrip "LEADER_")|].
  rewrite <- Htidy. unfold chr_find, str_find. cbn [Nat.leb drop_str].
  unfold tidy_name. destruct (join_words ws) as [|c r]; [reflexivity|].
  generalize (String (toupper c) (cap_after_underscore (toupper c) (map_str tolower r))).
  intros s. generalize 0%nat. induction s as [|d s IH]; intros i; [reflexivity|].
  cbn [remove_chr]. destruct (Ascii.eqb d "_") eqn:Hd; [apply IH|].
  cbn [find_at String.prefix].
  destruct (ascii_dec "_" d) as [<-|Hn]; [discriminate|]. apply IH.
Qed.

(** ** The bridge: escaping, polling, shutdown, hooks *)

Lemma escape_byte_app (c : ascii) (to a b : string) :
  escape_byte c to (a +:+ b) = escape_byte c to a +:+ escape_byte c to b.
Proof.
  induction a as [|d a IH]; [reflexivity|].
  rewrite append_cons. cbn [escape_byte]. rewrite IH. destruct (Ascii.eqb d c).
  - rewrite append_assoc. reflexivity.
  - reflexivity.
Qed.

Lemma EscapeForLua_app (a b : string) :
  EscapeForLua (a +:+ b) = EscapeForLua a +:+ EscapeForLua b.
Proof. unfold EscapeForLua. rewrite !escape_byte_app. reflexivity. Qed.

Lemma EscapeForLua_chr (c : ascii) :
  EscapeForLua (chr c) =
    if Ascii.eqb c BSLASH then String BSLASH (chr BSLASH)
    else if Ascii.eqb c DQ then String BSLASH (chr DQ)
    else if Ascii.eqb c LF then String BSLASH "n"
    else if Ascii.eqb c CR then String BSLASH "r"
    else chr c.
Proof.
  unfold EscapeForLua, chr. cbn [escape_byte].
  destruct (Ascii.eqb c BSLASH) eqn:H1; [reflexivity|].
  cbn [escape_byte]. destruct (Ascii.eqb c DQ) eqn:H2; [reflexivity|].
  cbn [escape_byte]. destruct (Ascii.eqb c LF) eqn:H3; [reflexivity|].
  cbn [escape_byte]. destruct (Ascii.eqb c CR) eqn:H4; reflexivity.
Qed.

Lemma find_at_chr (c : ascii) (s : string) (i : nat) :
  mem_chr c s = false -> find_at (chr c) s i = None.
Proof.
  revert i; induction s as [|d s IH]; intros i; [reflexivity|].
  cbn [mem_chr]. intros H. apply orb_false_iff in H. destruct H as [Hd Hs].
  unfold chr. cbn [find_at String.prefix].
  destruct (ascii_dec c d) as [->|Hne]; [rewrite Ascii.eqb_refl in Hd; discriminate|].
  apply IH. exact Hs.
Qed.

Lemma chr_find_absent (c : ascii) (s : string) :
  mem_chr c s = false -> chr_find s c 0 = None.
Proof.
  intros H. unfold chr_find, str_find. cbn [Nat.leb drop_str]. apply find_at_chr. exact H.
Qed.

Lemma EscapeForLua_no_line_break (s : string) :
  mem_chr LF (EscapeForLua s) = false /\ mem_chr CR (EscapeForLua s) = false.
Proof.
  induction s as [|c s [IH1 IH2]]; [split; reflexivity|].
  change (String c s) with (chr c +:+ s).
  rewrite EscapeForLua_app, !mem_chr_app, IH1, IH2, !orb_false_r, EscapeForLua_chr.
  destruct (Ascii.eqb c BSLASH) eqn:H1; [split; reflexivity|].
  destruct (Ascii.eqb c DQ) eqn:H2; [split; reflexivity|].
  destruct (Ascii.eqb c LF) eqn:H3; [split; reflexivity|].
  destruct (Ascii.eqb c CR) eqn:H4; [split; reflexivity|].
  unfold chr. cbn [mem_chr]. rewrite Ascii.eqb_sym, H3. rewrite (Ascii.eqb_sym CR), H4.
  split; reflexivity.
Qed.

(** X14. [EscapeForLua] works byte by byte, although it is written as four
    passes: a backslash, a double quote, a line feed and a carriage return
    become a backslash and one more byte, every other byte stays, and the
    escapes of a concatenation are concatenated.  The result holds no line
    feed and no carriage return. *)
Theorem EscapeForLua_bytewise :
  (forall a b, EscapeForLua (a +:+ b) = EscapeForLua a +:+ EscapeForLua b)
  /\ (forall c,
        EscapeForLua (chr c) =
          if Ascii.eqb c BSLASH then String BSLASH (chr BSLASH)
          else if Ascii.eqb c DQ then String BSLASH (chr DQ)
          else if Ascii.eqb c LF then String BSLASH "n"
          else if Ascii.eqb c CR then String BSLASH "r"
          else chr c)
  /\ (forall s, chr_find (EscapeForLua s) LF 0 = None /\ chr_find (EscapeForLua s) CR 0 = None).
Proof.
  split; [exact EscapeForLua_app|]. split; [exact EscapeForLua_chr|].
  intros s. destruct (EscapeForLua_no_line_break s) as [H1 H2].
  split; apply chr_find_absent; assumption.
Qed.

Lemma runtime_of_set_async (a : Async) (b : Bridge) (L : handle) :
  runtime_of (set_async a b) L = runtime_of b L.
Proof. reflexivity. Qed.

(** X15. The poll entry point, before shutdown and with [pushstring] and
    [pushlstring] resolved.  Idle and Pending push one status and change
    nothing; Failed pushes "error" and the stored error text as a C string,
    and changes nothing, so the next poll says the same; Ready with a
    response of at most 400 bytes, or without [dostring], pushes "ready" and
    the response in full, and takes it: the state is Idle, the slot empty,
    and the next poll pushes "idle". *)
Theorem poll_reports_state (hks : HksApi) (dostring : option DoString) (L : handle)
    (b : Bridge) :
  g_shutdownRequested b = false ->
  has_pushstring hks = true -> has_pushlstring hks = true ->
  let r := lua_CheckClaudeAPIResponse hks dostring L b in
  let old := lua_stack (runtime_of b L) in
  (g_asyncState (async b) = Idle ->
   fst r = 1 /\ async (snd r) = async b
   /\ lua_stack (runtime_of (snd r) L) = LString "idle" :: old)
  /\ (g_asyncState (async b) = Pending ->
      fst r = 1 /\ async (snd r) = async b
      /\ lua_stack (runtime_of (snd r) L) = LString "pending" :: old)
  /\ (g_asyncState (async b) = Failed ->
      fst r = 2 /\ async (snd r) = async b
      /\ lua_stack (runtime_of (snd r) L)
           = LString (c_str (g_asyncError (async b))) :: LString "error" :: old)
  /\ (g_asyncState (async b) = Ready ->
      (String.length (g_asyncResponse (async b)) <= kLongResponseThreshold)%nat
      \/ dostring = None ->
      fst r = 2
      /\ lua_stack (runtime_of (snd r) L)
           = LString (g_asyncResponse (async b)) :: LString "ready" :: old
      /\ g_asyncState (async (snd r)) = Idle
      /\ g_asyncResponse (async (snd r)) = EmptyString
      /\ fst (lua_CheckClaudeAPIResponse hks dostring L (snd r)) = 1
      /\ lua_stack (runtime_of (snd (lua_CheckClaudeAPIResponse hks dostring L (snd r))) L)
           = LString "idle" :: LString (g_asyncResponse (async b)) :: LString "ready" :: old).
Proof.
  intros Hshut Hps Hpl r old.
  split; [|split; [|split]]; intros Hst.
  - assert (r = (1, set_runtime L (PushStringToLua_cstr hks "idle" (runtime_of b L)) b)) as ->.
    { unfold r, lua_CheckClaudeAPIResponse, GetAsyncState. rewrite Hshut, Hst. reflexivity. }
    cbn [fst snd]. rewrite runtime_of_set_runtime. unfold PushStringToLua_cstr. rewrite Hps.
    repeat split.
  - assert (r = (1, set_runtime L (PushStringToLua_cstr hks "pending" (runtime_of b L)) b))
      as ->.
    { unfold r, lua_CheckClaudeAPIResponse, GetAsyncState. rewrite Hshut, Hst. reflexivity. }
    cbn [fst snd]. rewrite runtime_of_set_runtime. unfold PushStringToLua_cstr. rewrite Hps.
    repeat split.
  - assert (r = (2, set_runtime L
                      (PushStringToLua_cstr hks (g_asyncError (async b))
                         (PushStringToLua_cstr hks "error" (runtime_of b L)))
                      (set_async (async b) b))) as ->.
    { unfold r, lua_CheckClaudeAPIResponse, GetAsyncState. rewrite Hshut, Hst. reflexivity. }
    cbn [fst snd]. rewrite runtime_of_set_runtime.
    unfold PushStringToLua_cstr. rewrite Hps. repeat split.
  - intros Hshort.
    set (a' := set_state Idle (set_response EmptyString (async b))).
    set (b1 := set_async a' b).
    set (rt := push_ready hks (g_asyncResponse (async b)) (runtime_of b L)).
    assert (r = (2, set_runtime L rt b1)) as ->.
    { unfold r, lua_CheckClaudeAPIResponse, GetAsyncState, GetAsyncResponse.
      rewrite Hshut, Hst. destruct (decide (Ready = Ready)) as [_|Hne]; [|contradiction].
      cbv beta iota zeta. fold a' b1.
      destruct Hshort as [Hlen| ->].
      - destruct (Nat.ltb_spec kLongResponseThreshold
                    (String.length (g_asyncResponse (async b)))); [lia|reflexivity].
      - destruct (_ <? _)%nat; reflexivity. }
    cbn [fst snd].
    assert (lua_CheckClaudeAPIResponse hks dostring L (set_runtime L rt b1)
            = (1, set_runtime L (PushStringToLua_cstr hks "idle" rt) (set_runtime L rt b1)))
      as ->.
    { unfold lua_CheckClaudeAPIResponse. cbn [g_shutdownRequested set_runtime set_async b1].
      rewrite Hshut. cbn [GetAsyncState async set_runtime set_async b1 a' g_asyncState set_state].
      rewrite runtime_of_set_runtime. reflexivity. }
    cbn [fst snd]. rewrite !runtime_of_set_runtime.
    unfold rt, push_ready, PushStringToLua, PushStringToLua_cstr. rewrite Hps, Hpl.
    repeat split.
Qed.

(** X16. A Ready response of more than 400 bytes is handed to [dostring]
    as a [Game.SetProperty] call on its [EscapeForLua] text.  When that
    returns 0 the poll pushes the single status "ready_long"; otherwise it
    pushes "ready" and the response itself.  Either way the response is
    taken and the state is Idle. *)
Theorem poll_long_response (hks : HksApi) (run : DoString) (L : handle) (b : Bridge)
    (status : Z) (rt : LuaRuntime) :
  g_shutdownRequested b = false ->
  has_pushstring hks = true -> has_pushlstring hks = true ->
  g_asyncState (async b) = Ready ->
  (kLongResponseThreshold < String.length (g_asyncResponse (async b)))%nat ->
  run L (c_str (kSetPropertyOpen +:+ EscapeForLua (g_asyncResponse (async b))
                +:+ kSetPropertyClose)) (runtime_of b L) = (status, rt) ->
  let r := lua_CheckClaudeAPIResponse hks (Some run) L b in
  g_asyncState (async (snd r)) = Idle
  /\ g_asyncResponse (async (snd r)) = EmptyString
  /\ (status = 0 ->
      fst r = 1 /\ lua_stack (runtime_of (snd r) L) = LString "ready_long" :: lua_stack rt)
  /\ (status <> 0 ->
      fst r = 2
      /\ lua_stack (runtime_of (snd r) L)
           = LString (g_asyncResponse (async b)) :: LString "ready" :: lua_stack rt).
Proof.
  intros Hshut Hps Hpl Hst Hlen Hrun r.
  set (b1 := set_async (set_state Idle (set_response EmptyString (async b))) b).
  assert (r = if status =? 0
              then (1, set_runtime L (PushStringToLua_cstr hks "ready_long" rt) b1)
              else (2, set_runtime L (push_ready hks (g_asyncResponse (async b)) rt) b1)) as ->.
  { unfold r, lua_CheckClaudeAPIResponse, GetAsyncState, GetAsyncResponse.
    rewrite Hshut, Hst. destruct (decide (Ready = Ready)) as [_|Hne]; [|contradiction].
    cbv beta iota zeta. fold b1.
    destruct (Nat.ltb_spec kLongResponseThreshold (String.length (g_asyncResponse (async b))));
      [|lia].
    change (runtime_of b1 L) with (runtime_of b L). rewrite Hrun. reflexivity. }
  destruct (Z.eqb_spec status 0) as [Hz|Hz]; cbn [fst snd].
  - split; [reflexivity|]. split; [reflexivity|]. split; [|contradiction].
    intros _. rewrite runtime_of_set_runtime. unfold PushStringToLua_cstr. rewrite Hps.
    split; reflexivity.
  - split; [reflexivity|]. split; [reflexivity|]. split; [contradiction|].
    intros _. rewrite runtime_of_set_runtime.
    unfold push_ready, PushStringToLua, PushStringToLua_cstr. rewrite Hps, Hpl.
    split; reflexivity.
Qed.

Lemma RegisterFunctionInState_shutdown (hks : HksApi) (L : handle) (b : Bridge) :
  g_shutdownRequested b = true -> RegisterFunctionInState hks L b = b.
Proof.
  intros H. unfold RegisterFunctionInState. rewrite H, orb_true_r. reflexivity.
Qed.


Lemma RegisterFunctionInState_luaState (hks : HksApi) (L : handle) (b : Bridge) :
  g_luaState (RegisterFunctionInState hks L b) = g_luaState b.
Proof.
  unfold RegisterFunctionInState.
  destruct ((L =? 0)%N || g_shutdownRequested b); [reflexivity|].
  destruct (negb (has_pushnamedcclosure hks) || negb (has_setfield hks)); [reflexivity|].
  destruct (g_claudeAPIInitialized b); reflexivity.
Qed.

Lemma HookedPcall_luaState (hks : HksApi) (orig : handle -> Z -> Z -> Z -> Z)
    (L : handle) (n1 n2 n3 : Z) (b : Bridge) :
  g_luaState (snd (HookedPcall hks orig L n1 n2 n3 b))
  = if negb (L =? 0)%N && (g_luaState b =? 0)%N then L else g_luaState b.
Proof.
  unfold HookedPcall. cbn [snd].
  set (b1 := if negb (L =? 0)%N && (g_luaState b =? 0)%N then set_luaState L b else b).
  assert (g_luaState b1 = if negb (L =? 0)%N && (g_luaState b =? 0)%N then L else g_luaState b)
    as <-.
  { unfold b1. destruct (negb (L =? 0)%N && (g_luaState b =? 0)%N); reflexivity. }
  clearbody b1.
  destruct (negb (L =? 0)%N && negb (g_shutdownRequested b1)); [|reflexivity].
  destruct (decide (L ∈ g_registeredStates b1)); [reflexivity|].
  apply RegisterFunctionInState_luaState.
Qed.

(** X18. The runtime captured for [ExecuteLuaCode] is the first handle
    that is not null among the intercepted calls, and it is never replaced;
    the hook returns what the original entry point returns on the arguments
    it was given. *)
Theorem first_state_captured (hks : HksApi) (orig : handle -> Z -> Z -> Z -> Z)
    (events : list handle) (b : Bridge) :
  g_luaState (intercept_all hks orig events b)
  = (if (g_luaState b =? 0)%N
     then default 0%N (head (filter (fun L => L <> 0%N) events))
     else g_luaState b)
  /\ forall L n1 n2 n3, fst (HookedPcall hks orig L n1 n2 n3 b) = orig L n1 n2 n3.
Proof.
  split; [|reflexivity].
  revert b. induction events as [|L events IH]; intros b.
  - cbn. destruct (N.eqb_spec (g_luaState b) 0) as [->|]; reflexivity.
  - assert (intercept_all hks orig (L :: events) b
            = intercept_all hks orig events (snd (HookedPcall hks orig L 0 0 0 b))) as ->
      by reflexivity.
    rewrite IH, HookedPcall_luaState. rewrite filter_cons.
    destruct (N.eqb_spec L 0) as [->|HL]; cbn [negb andb].
    + case_decide; [contradiction|]. reflexivity.
    + case_decide; [|contradiction].
      destruct (N.eqb_spec (g_luaState b) 0) as [Hb|Hb]; cbn [head default].
      * destruct (N.eqb_spec L 0); [contradiction|reflexivity].
      * destruct (N.eqb_spec (g_luaState b) 0); [contradiction|reflexivity].
Qed.

Lemma install_from_spec (mh : MinHook) (h : HookState) (fuel attempt slept : nat) :
  (fuel + attempt = 6)%nat -> (1 <= attempt <= 5)%nat ->
  let r := install_from mh h fuel attempt slept in
  (attempt <= create_calls r <= kMaxHookRetries)%nat
  /\ sleep_calls r = (slept + (create_calls r - attempt))%nat
  /\ (enable_calls r <= 1)%nat
  /\ (forall n, (attempt <= n < create_calls r)%nat -> MH_CreateHook mh n = MH_ERROR_MEMORY_ALLOC)
  /\ g_originalDostring (hooks_after r) = g_originalDostring h
  /\ install_ok mh h r
  /\ (forall k, (attempt <= k <= kMaxHookRetries)%nat ->
        (forall n, (attempt <= n < k)%nat -> MH_CreateHook mh n = MH_ERROR_MEMORY_ALLOC) ->
        MH_CreateHook mh k = MH_OK -> MH_EnableHook mh = MH_OK ->
        g_pcallHookInstalled (hooks_after r) = true /\ create_calls r = k).
Proof.
  revert attempt slept. induction fuel as [|f IH]; intros attempt slept Hsum Hatt; [lia|].
  cbn [install_from]. unfold kMaxHookRetries in *.
  assert (forall r0 : InstallResult,
            create_calls r0 = attempt -> sleep_calls r0 = slept -> (enable_calls r0 <= 1)%nat ->
            g_originalDostring (hooks_after r0) = g_originalDostring h ->
            install_ok mh h r0 ->
            (forall k, (attempt <= k <= 5)%nat ->
               (forall n, (attempt <= n < k)%nat -> MH_CreateHook mh n = MH_ERROR_MEMORY_ALLOC) ->
               MH_CreateHook mh k = MH_OK -> MH_EnableHook mh = MH_OK ->
               g_pcallHookInstalled (hooks_after r0) = true /\ create_calls r0 = k) ->
            (attempt <= create_calls r0 <= 5)%nat
            /\ sleep_calls r0 = (slept + (create_calls r0 - attempt))%nat
            /\ (enable_calls r0 <= 1)%nat
            /\ (forall n, (attempt <= n < create_calls r0)%nat ->
                  MH_CreateHook mh n = MH_ERROR_MEMORY_ALLOC)
            /\ g_originalDostring (hooks_after r0) = g_originalDostring h
            /\ install_ok mh h r0
            /\ (forall k, (attempt <= k <= 5)%nat ->
                  (forall n, (attempt <= n < k)%nat ->
                     MH_CreateHook mh n = MH_ERROR_MEMORY_ALLOC) ->
                  MH_CreateHook mh k = MH_OK -> MH_EnableHook mh = MH_OK ->
                  g_pcallHookInstalled (hooks_after r0) = true /\ create_calls r0 = k)) as Hstop.
  { intros r0 Hc Hs He Hd Hok Hk.
    split; [lia|]. split; [lia|]. split; [exact He|]. split; [intros n Hn; lia|].
    split; [exact Hd|]. split; [exact Hok|exact Hk]. }
  assert (forall st, MH_CreateHook mh attempt = st -> st <> MH_OK ->
            forall k, (attempt <= k <= 5)%nat ->
              (forall n, (attempt <= n < k)%nat -> MH_CreateHook mh n = MH_ERROR_MEMORY_ALLOC) ->
              MH_CreateHook mh k = MH_OK -> st = MH_ERROR_MEMORY_ALLOC /\ (attempt < k)%nat)
    as Hfirst.
  { intros st Hst Hne k Hk Hprev Hcr.
    destruct (Nat.eq_dec k attempt) as [->|Hka]; [congruence|].
    split; [|lia]. rewrite <- Hst. apply Hprev. lia. }
  assert (forall r0 : InstallResult,
            hooks_after r0 = h -> install_ok mh h r0) as Hsame.
  { intros r0 Hh. unfold install_ok. rewrite Hh. auto. }
  destruct (MH_CreateHook mh attempt) eqn:Hcreate;
    try (apply Hstop;
         [reflexivity|reflexivity|cbn; lia|reflexivity|apply Hsame; reflexivity|];
         intros k Hk Hprev Hcr He;
         destruct (Hfirst _ eq_refl ltac:(discriminate) k Hk Hprev Hcr); discriminate).
  - apply Hstop; [reflexivity|reflexivity|cbn; lia| | |].
    + cbn. destruct (MH_EnableHook mh); reflexivity.
    + unfold install_ok. cbn. intros Hi.
      destruct (MH_EnableHook mh) eqn:He; try (left; exact Hi).
      right. split; [reflexivity|]. left. split; [exact Hcreate|reflexivity].
    + intros k Hk Hprev Hcr He. rewrite He. cbn. split; [reflexivity|].
      destruct (Nat.eq_dec k attempt) as [->|Hka]; [reflexivity|].
      assert (MH_CreateHook mh attempt = MH_ERROR_MEMORY_ALLOC) by (apply Hprev; lia).
      congruence.
  - apply Hstop; [reflexivity|reflexivity|cbn; lia| | |].
    + cbn. destruct (MH_EnableHook mh); reflexivity.
    + unfold install_ok. cbn. intros Hi.
      destruct (MH_EnableHook mh) eqn:He; try (left; exact Hi).
      * right. split; [reflexivity|]. right. split; [exact Hcreate|left; reflexivity].
      * right. split; [reflexivity|]. right. split; [exact Hcreate|right; reflexivity].
    + intros k Hk Hprev Hcr He.
      destruct (Hfirst _ eq_refl ltac:(discriminate) k Hk Hprev Hcr); discriminate.
  - destruct (Nat.ltb_spec attempt 5) as [Hlt|Hge].
    + destruct (IH (S attempt) (S slept) ltac:(lia) ltac:(lia))
        as (Hc & Hs & He & Hall & Hd & Hok & Hk).
      set (r0 := install_from mh h f (S attempt) (S slept)) in *.
      split; [lia|]. split; [lia|]. split; [exact He|]. split; [|split; [exact Hd|split]].
      * intros n Hn. destruct (Nat.eq_dec n attempt) as [->|Hna]; [exact Hcreate|].
        apply Hall. lia.
      * exact Hok.
      * intros k Hk' Hprev Hcr He'.
        destruct (Hfirst _ eq_refl ltac:(discriminate) k Hk' Hprev Hcr) as [_ Hak].
        apply Hk; auto; [lia|]. intros n Hn. apply Hprev. lia.
    + apply Hstop; [reflexivity|reflexivity|cbn; lia|reflexivity|apply Hsame; reflexivity|].
      intros k Hk Hprev Hcr He.
      destruct (Hfirst _ eq_refl ltac:(discriminate) k Hk Hprev Hcr) as [_ Hak]. lia.
Qed.

(** X19. [InstallPcallHook] calls [MH_CreateHook] at most five times and
    sleeps once between two calls; it calls again only after a failure for
    lack of memory, and calls [MH_EnableHook] at most once.  It leaves
    [g_originalDostring] alone.  It sets the flag only when the hook was
    created, or found created, and then enabled; it does set it when the
    first creation that does not fail for lack of memory is among the five
    attempts and succeeds, and enabling succeeds.  Without [pcall] it does
    nothing. *)
Theorem install_pcall_hook_bounded (has_pcall : bool) (mh : MinHook) (h : HookState) :
  let r := InstallPcallHook has_pcall mh h in
  (create_calls r <= kMaxHookRetries)%nat
  /\ sleep_calls r = (create_calls r - 1)%nat
  /\ (enable_calls r <= 1)%nat
  /\ (forall n, (1 <= n < create_calls r)%nat -> MH_CreateHook mh n = MH_ERROR_MEMORY_ALLOC)
  /\ g_originalDostring (hooks_after r) = g_originalDostring h
  /\ (g_pcallHookInstalled (hooks_after r) = true ->
      g_pcallHookInstalled h = true
      \/ (enable_calls r = 1%nat
          /\ (MH_CreateHook mh (create_calls r) = MH_OK /\ MH_EnableHook mh = MH_OK
              \/ MH_CreateHook mh (create_calls r) = MH_ERROR_ALREADY_CREATED
                 /\ (MH_EnableHook mh = MH_OK \/ MH_EnableHook mh = MH_ERROR_ENABLED))))
  /\ (has_pcall = true ->
      forall k, (1 <= k <= kMaxHookRetries)%nat ->
        (forall n, (1 <= n < k)%nat -> MH_CreateHook mh n = MH_ERROR_MEMORY_ALLOC) ->
        MH_CreateHook mh k = MH_OK -> MH_EnableHook mh = MH_OK ->
        g_pcallHookInstalled (hooks_after r) = true /\ create_calls r = k)
  /\ (has_pcall = false -> create_calls r = 0%nat /\ hooks_after r = h).
Proof.
  unfold InstallPcallHook. destruct has_pcall.
  - destruct (install_from_spec mh h kMaxHookRetries 1 0 eq_refl ltac:(lia))
      as (Hc & Hs & He & Hall & Hd & Hok & Hk).
    cbv zeta. split; [lia|]. split; [lia|]. split; [exact He|]. split; [exact Hall|].
    split; [exact Hd|]. split; [exact Hok|]. split; [intros _; exact Hk|discriminate].
  - cbv zeta. cbn. repeat split; auto; try lia; try discriminate.
Qed.


(** ** Numbers: what the reader takes, it takes again before a delimiter *)

Lemma take_digits_stop (t : string) :
  not_digit_head t = true -> take_digits t = (EmptyString, t).
Proof.
  destruct t as [|c r]; [reflexivity|]. cbn. destruct (is_digit c); [discriminate|reflexivity].
Qed.

Lemma take_digits_extend (s : string) :
  forall d t, take_digits s = (d, t) ->
    s = d +:+ t /\ not_digit_head t = true
    /\ forall t', not_digit_head t' = true -> take_digits (d +:+ t') = (d, t').
Proof.
  induction s as [|c r IH]; intros d t; cbn [take_digits].
  - intros [= <- <-]. repeat split. intros t' Ht'. rewrite append_nil_l.
    apply take_digits_stop, Ht'.
  - destruct (is_digit c) eqn:Hc.
    + destruct (take_digits r) as [d0 t0] eqn:Hr. intros [= <- <-].
      destruct (IH _ _ eq_refl) as (-> & Hn & Hext). repeat split; [exact Hn|].
      intros t' Ht'. rewrite append_cons. cbn [take_digits]. rewrite Hc, (Hext _ Ht').
      reflexivity.
    + intros [= <- <-]. repeat split; [cbn; rewrite Hc; reflexivity|].
      intros t' Ht'. rewrite append_nil_l. apply take_digits_stop, Ht'.
Qed.

Lemma scan_int_part_extend (s ip s2 : string) :
  scan_int_part s = Some (ip, s2) ->
  s = ip +:+ s2
  /\ (exists c d, ip = String c d /\ is_digit c = true)
  /\ forall t', not_digit_head t' = true -> scan_int_part (ip +:+ t') = Some (ip, t').
Proof.
  unfold scan_int_part. destruct s as [|c r]; [discriminate|].
  destruct (Ascii.eqb c "0") eqn:H0.
  - apply Ascii.eqb_eq in H0 as ->. intros [= <- <-]. split; [reflexivity|split].
    + exists "0"%char, EmptyString. split; reflexivity.
    + intros t' _. reflexivity.
  - destruct (is_digit c) eqn:Hc; [|discriminate].
    destruct (take_digits r) as [d t] eqn:Hr. intros [= <- <-].
    destruct (take_digits_extend _ _ _ Hr) as (-> & _ & Hext). split; [reflexivity|split].
    + exists c, d. split; [reflexivity|exact Hc].
    + intros t' Ht'. rewrite append_cons, H0, Hc, (Hext _ Ht'). reflexivity.
Qed.

Lemma scan_frac_extend (s fp s3 : string) :
  scan_frac s = Some (fp, s3) ->
  exists x,
    s = x +:+ s3
    /\ (x = EmptyString /\ not_head "." s3 = true \/ exists r, x = String "." r)
    /\ forall t', (x = EmptyString -> not_head "." t' = true) -> not_digit_head t' = true ->
        scan_frac (x +:+ t') = Some (fp, t').
Proof.
  unfold scan_frac. destruct s as [|c r].
  - intros [= <- <-]. exists EmptyString. split; [reflexivity|]. split; [left; split; reflexivity|].
    intros t' Hd _. rewrite append_nil_l. specialize (Hd eq_refl).
    destruct t' as [|c' r']; [reflexivity|]. cbn in Hd.
    destruct (Ascii.eqb c' "."); [discriminate|reflexivity].
  - destruct (Ascii.eqb c ".") eqn:Hc.
    + apply Ascii.eqb_eq in Hc as ->.
      destruct (take_digits r) as [d t] eqn:Hr.
      destruct (take_digits_extend _ _ _ Hr) as (-> & _ & Hext).
      destruct d as [|d0 d']; [discriminate|]. intros [= <- <-].
      exists (String "." (String d0 d')). split; [reflexivity|]. split; [right; eexists; reflexivity|].
      intros t' _ Ht'. rewrite append_cons.
      change (Ascii.eqb "." ".") with true. cbv iota. rewrite (Hext _ Ht'). reflexivity.
    + intros [= <- <-]. exists EmptyString.
      split; [reflexivity|]. split; [left; split; [reflexivity|cbn; rewrite Hc; reflexivity]|].
      intros t' Hd _. rewrite append_nil_l. specialize (Hd eq_refl).
      destruct t' as [|c' r']; [reflexivity|]. cbn in Hd.
      destruct (Ascii.eqb c' "."); [discriminate|reflexivity].
Qed.

Lemma scan_exp_extend (s s4 : string) (ep : option (bool * string)) :
  scan_exp s = Some (ep, s4) ->
  exists x,
    s = x +:+ s4
    /\ (x = EmptyString \/ exists c r, x = String c r /\ is_digit c = false /\ c <> "."%char)
    /\ forall t', (x = EmptyString -> not_e_head t' = true) -> not_digit_head t' = true ->
        scan_exp (x +:+ t') = Some (ep, t').
Proof.
  unfold scan_exp. destruct s as [|c r].
  - intros [= <- <-]. exists EmptyString. split; [reflexivity|]. split; [left; reflexivity|].
    intros t' Hd _. rewrite append_nil_l. specialize (Hd eq_refl).
    destruct t' as [|c' r']; [reflexivity|]. cbn in Hd.
    destruct (Ascii.eqb c' "e" || Ascii.eqb c' "E"); [discriminate|reflexivity].
  - destruct (Ascii.eqb c "e" || Ascii.eqb c "E") eqn:Hc.
    + assert (is_digit c = false /\ c <> "."%char) as Hshape.
      { apply orb_true_iff in Hc as [Hc|Hc]; apply Ascii.eqb_eq in Hc as ->;
          split; [reflexivity|discriminate|reflexivity|discriminate]. }
      destruct r as [|sg r'].
      * cbn. discriminate.
      * destruct (Ascii.eqb sg "-") eqn:Hm; [|destruct (Ascii.eqb sg "+") eqn:Hp].
        -- destruct (take_digits r') as [d t] eqn:Hr.
           destruct (take_digits_extend _ _ _ Hr) as (-> & _ & Hext).
           destruct d as [|d0 d']; [discriminate|]. intros [= <- <-].
           exists (String c (String sg (String d0 d'))).
           split; [reflexivity|]. split; [right; exists c, (String sg (String d0 d')); tauto|].
           intros t' _ Ht'. rewrite !append_cons. rewrite Hc, Hm.
           rewrite <- append_cons, (Hext _ Ht'). reflexivity.
        -- destruct (take_digits r') as [d t] eqn:Hr.
           destruct (take_digits_extend _ _ _ Hr) as (-> & _ & Hext).
           destruct d as [|d0 d']; [discriminate|]. intros [= <- <-].
           exists (String c (String sg (String d0 d'))).
           split; [reflexivity|]. split; [right; exists c, (String sg (String d0 d')); tauto|].
           intros t' _ Ht'. rewrite !append_cons. rewrite Hc, Hm, Hp.
           rewrite <- append_cons, (Hext _ Ht'). reflexivity.
        -- destruct (take_digits (String sg r')) as [d t] eqn:Hr.
           destruct (take_digits_extend _ _ _ Hr) as (Heq & _ & Hext).
           destruct d as [|d0 d']; [discriminate|]. intros [= <- <-].
           rewrite append_cons in Heq. injection Heq as -> ->.
           exists (String c (String d0 d')).
           split; [reflexivity|]. split; [right; exists c, (String d0 d'); tauto|].
           intros t' _ Ht'. rewrite !append_cons. rewrite Hc, Hm, Hp.
           rewrite <- append_cons, (Hext _ Ht'). reflexivity.
    + intros [= <- <-]. exists EmptyString. split; [reflexivity|]. split; [left; reflexivity|].
      intros t' Hd _. rewrite append_nil_l. specialize (Hd eq_refl).
      destruct t' as [|c' r']; [reflexivity|]. cbn in Hd.
      destruct (Ascii.eqb c' "e" || Ascii.eqb c' "E"); [discriminate|reflexivity].
Qed.

Lemma scan_number_sign (s : string) :
  scan_number s =
  match s with
  | String c r => if Ascii.eqb c "-" then scan_number_from true s r else scan_number_from false s s
  | EmptyString => None
  end.
Proof.
  destruct s as [|c r]; [reflexivity|]. unfold scan_number.
  destruct (Ascii.eqb c "-"); reflexivity.
Qed.

Lemma length_append (a b : string) :
  String.length (a +:+ b) = (String.length a + String.length b)%nat.
Proof.
  induction a as [|c a IH]; [reflexivity|]. rewrite append_cons. cbn [String.length].
  rewrite IH. reflexivity.
Qed.

Lemma substr_prefix (x t : string) :
  substr (x +:+ t) 0 (String.length (x +:+ t) - String.length t) = x.
Proof.
  rewrite length_append.
  replace (String.length x + String.length t - String.length t)%nat with (String.length x)
    by lia.
  unfold substr. induction x as [|c x IH].
  - rewrite append_nil_l. destruct t; reflexivity.
  - rewrite append_cons. cbn [String.length String.substring]. rewrite IH. reflexivity.
Qed.

Lemma delim_follow (t : string) :
  is_delim t = true ->
  not_digit_head t = true /\ not_head "." t = true /\ not_e_head t = true.
Proof.
  destruct t as [|c r]; [repeat split|]. cbn [is_delim]. intros H.
  apply orb_true_iff in H as [H|H]; [apply orb_true_iff in H as [H|H]|];
    apply Ascii.eqb_eq in H as ->; repeat split.
Qed.

Lemma head_follow (x t : string) (c : ascii) (r : string) :
  x = String c r -> is_digit c = false -> c <> "."%char ->
  not_digit_head (x +:+ t) = true /\ not_head "." (x +:+ t) = true.
Proof.
  intros -> Hd Hc. rewrite append_cons. cbn. rewrite Hd. split; [reflexivity|].
  destruct (Ascii.eqb c ".") eqn:E; [apply Ascii.eqb_eq in E; contradiction|reflexivity].
Qed.

Lemma scan_number_from_extend (neg : bool) (s s1 pre s4 : string) (v : json) :
  s = pre +:+ s1 ->
  scan_number_from neg s s1 = Some (v, s4) ->
  exists x,
    s1 = x +:+ s4
    /\ (exists c r, x = String c r /\ is_digit c = true)
    /\ (forall z, v = JInt z -> int_range z = true)
    /\ (forall l, v = JFloat l -> l = pre +:+ x)
    /\ forall t', is_delim t' = true ->
         scan_number_from neg (pre +:+ (x +:+ t')) (x +:+ t') = Some (v, t').
Proof.
  intros Hs. unfold scan_number_from.
  destruct (scan_int_part s1) as [[ip s2]|] eqn:Hi; [|discriminate].
  destruct (scan_frac s2) as [[fp s3]|] eqn:Hf; [|discriminate].
  destruct (scan_exp s3) as [[ep s4']|] eqn:He; [|discriminate].
  destruct (scan_int_part_extend _ _ _ Hi) as (E1 & (c & d & Hip & Hc) & X1).
  destruct (scan_frac_extend _ _ _ Hf) as (xf & E2 & Sf & X2).
  destruct (scan_exp_extend _ _ _ He) as (xe & E3 & Se & X3).
  cbv zeta.
  set (cond := is_empty_str fp && bool_decide (ep = None) &&
               (if neg then Z.of_N (digits_value ip 0) <=? 2 ^ 63
                else Z.of_N (digits_value ip 0) <? 2 ^ 64)).
  set (e10 := match ep with
              | Some (eneg, d0) =>
                  if eneg then - Z.of_N (digits_value d0 0) else Z.of_N (digits_value d0 0)
              | None => 0
              end - Z.of_nat (String.length fp)).
  intros H.
  assert (s4' = s4) as ->.
  { destruct cond; [injection H; auto|].
    destruct (double_overflows (ip +:+ fp) e10); [discriminate|injection H; auto]. }
  exists (ip +:+ (xf +:+ xe)).
  assert (s1 = (ip +:+ (xf +:+ xe)) +:+ s4) as Hs1.
  { rewrite E1, E2, E3, !append_assoc. reflexivity. }
  split; [exact Hs1|].
  split; [exists c, (d +:+ (xf +:+ xe)); split; [rewrite Hip, append_cons; reflexivity|exact Hc]|].
  split.
  { intros z ->. destruct cond eqn:Hcond;
      [|destruct (double_overflows (ip +:+ fp) e10); discriminate].
    injection H as H. subst cond. apply andb_true_iff in Hcond as [_ Hr].
    pose proof (N2Z.is_nonneg (digits_value ip 0)) as Hn.
    unfold int_range. apply andb_true_iff.
    destruct neg; [apply Z.leb_le in Hr|apply Z.ltb_lt in Hr]; subst z;
      (split; [apply Z.leb_le|apply Z.ltb_lt]; lia). }
  split.
  { intros l ->. destruct cond; [discriminate|].
    destruct (double_overflows (ip +:+ fp) e10); [discriminate|].
    injection H as H. rewrite <- H, Hs, Hs1, <- append_assoc. apply substr_prefix. }
  intros t' Ht'. destruct (delim_follow _ Ht') as (Hd & Hdot & Hee).
  assert (not_digit_head (xe +:+ t') = true /\ not_head "." (xe +:+ t') = true) as [He1 He2].
  { destruct Se as [->|(c0 & r0 & Hx & Hd0 & Hn0)];
      [rewrite append_nil_l; auto|eapply head_follow; eassumption]. }
  assert (not_digit_head (xf +:+ (xe +:+ t')) = true) as Hf1.
  { destruct Sf as [[-> _]|[r0 ->]]; [rewrite append_nil_l; exact He1|reflexivity]. }
  rewrite !append_assoc. rewrite (X1 _ Hf1).
  rewrite (X2 _ (fun _ => He2) He1).
  rewrite (X3 _ (fun _ => Hee) Hd).
  fold cond. fold e10.
  destruct cond; [injection H as <-; reflexivity|].
  destruct (double_overflows (ip +:+ fp) e10); [discriminate|].
  injection H as <-. f_equal. f_equal. f_equal.
  replace (pre +:+ (ip +:+ (xf +:+ (xe +:+ t'))))
    with ((pre +:+ (ip +:+ (xf +:+ xe))) +:+ t') by (rewrite !append_assoc; reflexivity).
  rewrite substr_prefix, Hs, Hs1, <- (append_assoc pre (ip +:+ (xf +:+ xe)) s4), substr_prefix.
  reflexivity.
Qed.

Lemma scan_number_extend (s s4 : string) (v : json) :
  scan_number s = Some (v, s4) ->
  exists x,
    s = x +:+ s4
    /\ (exists c r, x = String c r /\ (is_digit c = true \/ c = "-"%char))
    /\ (forall z, v = JInt z -> int_range z = true)
    /\ (forall l, v = JFloat l -> l = x)
    /\ forall t', is_delim t' = true -> scan_number (x +:+ t') = Some (v, t').
Proof.
  rewrite scan_number_sign. destruct s as [|c r]; [discriminate|].
  destruct (Ascii.eqb c "-") eqn:Hc.
  - apply Ascii.eqb_eq in Hc as ->. intros H.
    destruct (scan_number_from_extend true (String "-" r) r "-" s4 v eq_refl H)
      as (x & -> & _ & Hz & Hl & Hext).
    exists (String "-" x). split; [reflexivity|].
    split; [exists "-"%char, x; split; [reflexivity|right; reflexivity]|].
    split; [exact Hz|]. split; [exact Hl|].
    intros t' Ht'. rewrite scan_number_sign, append_cons.
    change (Ascii.eqb "-" "-") with true. cbv iota. apply (Hext _ Ht').
  - intros H.
    destruct (scan_number_from_extend false (String c r) (String c r) EmptyString s4 v
                eq_refl H) as (x & Hx & (c0 & r0 & -> & Hd) & Hz & Hl & Hext).
    rewrite append_cons in Hx. injection Hx as <- ->.
    exists (String c r0). split; [reflexivity|].
    split; [exists c, r0; split; [reflexivity|left; exact Hd]|].
    split; [exact Hz|]. split; [exact Hl|].
    intros t' Ht'. rewrite scan_number_sign, append_cons, Hc. apply (Hext _ Ht').
Qed.

Lemma float_lexeme_extend (l t : string) :
  float_lexeme l = true -> is_delim t = true ->
  scan_number (l +:+ t) = Some (JFloat l, t).
Proof.
  unfold float_lexeme. destruct (scan_number l) as [[v r]|] eqn:Hs; [|discriminate].
  destruct v; try discriminate. destruct r; [|discriminate].
  intros Heq Ht. apply String.eqb_eq in Heq as ->.
  destruct (scan_number_extend _ _ _ Hs) as (x & Hx & _ & _ & _ & Hext).
  rewrite append_nil_r in Hx. subst x. apply (Hext _ Ht).
Qed.

Lemma scan_number_numbers (s r : string) (v : json) :
  scan_number s = Some (v, r) -> json_numbers v = true.
Proof.
  intros H. destruct (scan_number_extend _ _ _ H) as (x & _ & _ & Hz & Hl & Hext).
  assert ((exists z, v = JInt z) \/ exists l, v = JFloat l) as Hshape.
  { revert H. unfold scan_number.
    repeat match goal with
           | |- context [match ?y with _ => _ end] => destruct y
           end; try discriminate; intros [= <- _]; eauto. }
  destruct Hshape as [[z ->]|[l ->]]; cbn [json_numbers]; [apply (Hz _ eq_refl)|].
  rewrite (Hl _ eq_refl) in *. unfold float_lexeme.
  specialize (Hext EmptyString eq_refl). rewrite append_nil_r in Hext. rewrite Hext.
  apply String.eqb_refl.
Qed.

Lemma obj_assign_numbers (k : string) (v : json) (m : list (string * json)) :
  json_numbers v = true ->
  forallb (fun kv => json_numbers (snd kv)) m = true ->
  forallb (fun kv => json_numbers (snd kv)) (obj_assign k v m) = true.
Proof.
  intros Hv. induction m as [|[k' v'] m IH]; cbn [obj_assign forallb fst snd].
  - intros _. rewrite Hv. reflexivity.
  - intros H. apply andb_true_iff in H. destruct H as [H1 H2].
    destruct (String.compare k k'); cbn [forallb fst snd].
    + rewrite Hv, H2. reflexivity.
    + rewrite Hv, H1, H2. reflexivity.
    + rewrite H1, (IH H2). reflexivity.
Qed.

Lemma parse_numbers (f : nat) :
  (forall s v r, parse_value f s = Some (v, r) -> json_numbers v = true)
  /\ (forall s acc v r,
        parse_elements f s acc = Some (v, r) ->
        forallb json_numbers acc = true -> json_numbers v = true)
  /\ (forall s acc v r,
        parse_members f s acc = Some (v, r) ->
        forallb (fun kv => json_numbers (snd kv)) acc = true ->
        json_numbers v = true).
Proof.
  induction f as [|f (IHv & IHe & IHm)]; [repeat split; discriminate|].
  split; [|split].
  - intros s v r. rewrite parse_value_S.
    destruct (skip_ws s) as [|c s0]; [discriminate|].
    destruct (Ascii.eqb c "{").
    { destruct (skip_ws s0) as [|c' r']; [discriminate|].
      destruct (Ascii.eqb c' "}"); [intros [= <- _]; reflexivity|].
      intros H. apply (IHm _ _ _ _ H). reflexivity. }
    destruct (Ascii.eqb c "[").
    { destruct (skip_ws s0) as [|c' r']; [discriminate|].
      destruct (Ascii.eqb c' "]"); [intros [= <- _]; reflexivity|].
      intros H. apply (IHe _ _ _ _ H). reflexivity. }
    destruct (Ascii.eqb c DQ).
    { destruct (scan_string SNormal s0) as [[str t]|] eqn:Hstr; [|discriminate].
      intros [= <- _]. reflexivity. }
    destruct (String.prefix "true" (String c s0)); [intros [= <- _]; reflexivity|].
    destruct (String.prefix "false" (String c s0)); [intros [= <- _]; reflexivity|].
    destruct (String.prefix "null" (String c s0)); [intros [= <- _]; reflexivity|].
    apply scan_number_numbers.
  - intros s acc v r. rewrite parse_elements_S.
    destruct (parse_value f s) as [[v0 t]|] eqn:Hv; [|discriminate].
    pose proof (IHv _ _ _ Hv) as Hv0.
    assert (forallb json_numbers acc = true -> forallb json_numbers (acc ++ [v0]) = true)
      as Hacc.
    { intros H. rewrite forallb_app, H. cbn. rewrite Hv0. reflexivity. }
    destruct (skip_ws t) as [|c r0]; [discriminate|].
    destruct (Ascii.eqb c ",").
    + intros H Ha. apply (IHe _ _ _ _ H). apply Hacc. exact Ha.
    + destruct (Ascii.eqb c "]"); [|discriminate].
      intros [= <- _] Ha. cbn [json_numbers]. apply Hacc. exact Ha.
  - intros s acc v r. rewrite parse_members_S.
    destruct (skip_ws s) as [|c s0]; [discriminate|].
    destruct (Ascii.eqb c DQ); [|discriminate].
    destruct (scan_string SNormal s0) as [[k t]|] eqn:Hk; [|discriminate].
    destruct (skip_ws t) as [|c1 r1]; [discriminate|].
    destruct (Ascii.eqb c1 ":"); [|discriminate].
    destruct (parse_value f r1) as [[v0 u]|] eqn:Hv; [|discriminate].
    pose proof (IHv _ _ _ Hv) as Hv0.
    destruct (skip_ws u) as [|c2 r2]; [discriminate|].
    destruct (Ascii.eqb c2 ",").
    + intros H Ha. apply (IHm _ _ _ _ H). apply obj_assign_numbers; assumption.
    + destruct (Ascii.eqb c2 "}"); [|discriminate].
      intros [= <- _] Ha. cbn [json_numbers]. apply obj_assign_numbers; assumption.
Qed.

Lemma json_parse_numbers (text : string) (j : json) :
  json_parse text = Some j -> json_numbers j = true.
Proof.
  unfold json_parse.
  set (t := if String.prefix kBom text then drop_str 3 text else text).
  destruct (parse_value (2 * String.length t + 2) t) as [[v r]|] eqn:Hp; [|discriminate].
  destruct (is_empty_str (skip_ws r)); [|discriminate].
  intros [= <-]. destruct (parse_numbers (2 * String.length t + 2)) as (Hv & _ & _).
  apply (Hv _ _ _ Hp).
Qed.

(** ** Integers: [dump] then [parse] *)

Lemma take_all_digits (d t : string) :
  all_digits d = true -> not_digit_head t = true -> take_digits (d +:+ t) = (d, t).
Proof.
  intros Hd Ht. induction d as [|c d IH]; [apply take_digits_stop, Ht|].
  cbn [all_digits] in Hd. apply andb_true_iff in Hd as [Hc Hd].
  rewrite append_cons. cbn [take_digits]. rewrite Hc, (IH Hd). reflexivity.
Qed.

Lemma all_digits_app (a b : string) :
  all_digits (a +:+ b) = all_digits a && all_digits b.
Proof.
  induction a as [|c a IH]; [reflexivity|]. rewrite append_cons. cbn [all_digits].
  rewrite IH, andb_assoc. reflexivity.
Qed.

Lemma digits_value_app (a b : string) :
  forall acc, digits_value (a +:+ b) acc = digits_value b (digits_value a acc).
Proof.
  induction a as [|c a IH]; intros acc; [reflexivity|]. rewrite append_cons.
  cbn [digits_value]. apply IH.
Qed.

Lemma digit_byte (k : N) :
  (k < 10)%N ->
  is_digit (byte_of (48 + k)) = true /\ (code (byte_of (48 + k)) - 48 = k)%N.
Proof.
  intros Hk. unfold is_digit, in_range. rewrite code_byte_of by lia.
  split; [|lia]. apply andb_true_iff. split; apply N.leb_le; lia.
Qed.

Lemma dec_digits_spec (f : nat) :
  forall n, (n < 2 ^ N.of_nat (S f))%N ->
    exists c d,
      (forall acc, dec_digits (S f) n acc = String c d +:+ acc)
      /\ is_digit c = true /\ all_digits d = true
      /\ digits_value (String c d) 0 = n
      /\ (Ascii.eqb c "0" = true -> d = EmptyString).
Proof.
  assert (forall n,
            (n < 10)%N ->
            exists c d,
              (forall fuel acc, dec_digits (S fuel) n acc = String c d +:+ acc)
              /\ is_digit c = true /\ all_digits d = true
              /\ digits_value (String c d) 0 = n
              /\ (Ascii.eqb c "0" = true -> d = EmptyString)) as Hsmall.
  { intros n Hlt. destruct (digit_byte n Hlt) as [Hd Hv].
    exists (byte_of (48 + n)), EmptyString.
    split; [|split; [exact Hd|split; [reflexivity|split; [|reflexivity]]]].
    - intros fuel acc. cbn [dec_digits]. rewrite (N.mod_small n 10 Hlt).
      apply N.ltb_lt in Hlt. rewrite Hlt. reflexivity.
    - cbn [digits_value]. rewrite Hv. reflexivity. }
  induction f as [|f IH]; intros n Hn.
  - destruct (Hsmall n) as (c & d & Heq & H); [cbn in Hn; lia|].
    exists c, d. split; [apply Heq|exact H].
  - destruct (n <? 10)%N eqn:Hlt.
    { apply N.ltb_lt in Hlt. destruct (Hsmall n Hlt) as (c & d & Heq & H).
      exists c, d. split; [apply Heq|exact H]. }
    apply N.ltb_ge in Hlt.
    pose proof (N.div_mod' n 10) as Hdm.
    pose proof (N.mod_lt n 10 ltac:(discriminate)) as Hm.
    destruct (digit_byte (n mod 10) Hm) as [Hd Hv].
    assert (n / 10 < 2 ^ N.of_nat (S f))%N as Hq.
    { rewrite (Nat2N.inj_succ (S f)), N.pow_succ_r' in Hn.
      revert Hn Hdm Hm. generalize (n / 10)%N (n mod 10)%N (2 ^ N.of_nat (S f))%N. lia. }
    destruct (IH _ Hq) as (c & d & Heq & Hc & Hall & Hval & Hzero).
    exists c, (d +:+ chr (byte_of (48 + n mod 10))).
    split; [|split; [exact Hc|split; [|split]]].
    + intros acc. change (dec_digits (S (S f)) n acc)
        with (if (n <? 10)%N then String (byte_of (48 + n mod 10)) acc
              else dec_digits (S f) (n / 10) (String (byte_of (48 + n mod 10)) acc)).
      apply N.ltb_ge in Hlt. rewrite Hlt, Heq, !append_cons, append_assoc. reflexivity.
    + rewrite all_digits_app, Hall. cbn. rewrite Hd. reflexivity.
    + rewrite <- append_cons, digits_value_app, Hval. cbn [digits_value chr]. rewrite Hv.
      lia.
    + intros H0. specialize (Hzero H0). subst d. apply Ascii.eqb_eq in H0. subst c.
      cbn in Hval. lia.
Qed.

Lemma N_to_dec_spec (n : N) :
  exists c d,
    N_to_dec n = String c d
    /\ is_digit c = true /\ all_digits d = true
    /\ digits_value (String c d) 0 = n
    /\ (Ascii.eqb c "0" = true -> d = EmptyString).
Proof.
  unfold N_to_dec.
  destruct (dec_digits_spec (N.to_nat (N.log2 n)) n) as (c & d & Heq & H).
  - rewrite Nat2N.inj_succ, N2Nat.id.
    destruct n as [|p]; [reflexivity|]. apply N.log2_spec. lia.
  - exists c, d. split; [rewrite Heq; apply append_nil_r|exact H].
Qed.

Lemma scan_frac_stop (t : string) :
  not_head "." t = true -> scan_frac t = Some (EmptyString, t).
Proof.
  destruct t as [|c r]; [reflexivity|]. cbn. destruct (Ascii.eqb c "."); [discriminate|reflexivity].
Qed.

Lemma scan_exp_stop (t : string) :
  not_e_head t = true -> scan_exp t = Some (None, t).
Proof.
  destruct t as [|c r]; [reflexivity|]. cbn.
  destruct (Ascii.eqb c "e" || Ascii.eqb c "E"); [discriminate|reflexivity].
Qed.

Lemma scan_digits (neg : bool) (s : string) (n : N) (t : string) :
  is_delim t = true ->
  (if neg then Z.of_N n <=? 2 ^ 63 else Z.of_N n <? 2 ^ 64) = true ->
  scan_number_from neg s (N_to_dec n +:+ t)
  = Some (JInt (if neg then - Z.of_N n else Z.of_N n), t).
Proof.
  intros Ht Hr. destruct (delim_follow _ Ht) as (Hd & Hdot & He).
  destruct (N_to_dec_spec n) as (c & d & -> & Hc & Hall & Hval & Hzero).
  unfold scan_number_from.
  assert (scan_int_part (String c d +:+ t) = Some (String c d, t)) as ->.
  { rewrite append_cons. unfold scan_int_part. destruct (Ascii.eqb c "0") eqn:H0.
    - rewrite (Hzero eq_refl). apply Ascii.eqb_eq in H0 as ->. reflexivity.
    - rewrite Hc, (take_all_digits _ _ Hall Hd). reflexivity. }
  rewrite (scan_frac_stop _ Hdot), (scan_exp_stop _ He). cbv zeta. rewrite Hval.
  cbn [is_empty_str andb]. rewrite bool_decide_eq_true_2 by reflexivity.
  cbn [andb]. rewrite Hr. reflexivity.
Qed.

Lemma scan_Z_to_dec (z : Z) (t : string) :
  int_range z = true -> is_delim t = true ->
  scan_number (Z_to_dec z +:+ t) = Some (JInt z, t).
Proof.
  unfold int_range. intros Hr Ht. apply andb_true_iff in Hr as [Hlo Hhi].
  apply Z.leb_le in Hlo. apply Z.ltb_lt in Hhi.
  unfold Z_to_dec. destruct (z <? 0) eqn:Hneg.
  - apply Z.ltb_lt in Hneg. rewrite scan_number_sign, append_cons.
    change (Ascii.eqb "-" "-") with true. cbv iota.
    rewrite (scan_digits true) by (try exact Ht; apply Z.leb_le; lia).
    f_equal. f_equal. f_equal. lia.
  - apply Z.ltb_ge in Hneg. rewrite scan_number_sign.
    destruct (N_to_dec_spec (Z.to_N z)) as (c & d & Heq & Hc & _).
    pose proof (scan_digits false (N_to_dec (Z.to_N z) +:+ t) (Z.to_N z) t Ht) as H.
    rewrite Heq in *. rewrite append_cons in *.
    assert (Ascii.eqb c "-" = false) as ->.
    { destruct (Ascii.eqb c "-") eqn:E; [|reflexivity].
      apply Ascii.eqb_eq in E. subst c. discriminate. }
    rewrite H by (apply Z.ltb_lt; lia). f_equal. f_equal. f_equal. lia.
Qed.

(** ** The reader accepts what the writer prints *)

Lemma parse_value_scan (s t : string) (v : json) (f : nat) :
  scan_number s = Some (v, t) -> parse_value (S f) s = Some (v, t).
Proof.
  intros H. destruct (scan_number_extend _ _ _ H) as (x & -> & (c & r & -> & Hc) & _).
  rewrite <- H, parse_value_S, append_cons.
  destruct Hc as [Hc| ->]; [|reflexivity].
  destruct c as [[] [] [] [] [] [] [] []]; try discriminate Hc; reflexivity.
Qed.

Lemma parse_value_head (f : nat) (s t : string) (v : json) :
  parse_value f s = Some (v, t) ->
  exists c r,
    skip_ws s = String c r /\ Ascii.eqb c "]" = false /\ Ascii.eqb c "}" = false.
Proof.
  destruct f as [|f]; [discriminate|]. rewrite parse_value_S.
  destruct (skip_ws s) as [|c r]; [discriminate|]. intros H. exists c, r.
  split; [reflexivity|]. split.
  - destruct (Ascii.eqb c "]") eqn:E; [|reflexivity].
    apply Ascii.eqb_eq in E. subst c. discriminate H.
  - destruct (Ascii.eqb c "}") eqn:E; [|reflexivity].
    apply Ascii.eqb_eq in E. subst c. discriminate H.
Qed.

Lemma parse_value_no_bom (f : nat) (s t : string) (v : json) :
  parse_value f s = Some (v, t) -> String.prefix kBom s = false.
Proof.
  destruct f as [|f]; [discriminate|]. rewrite parse_value_S.
  destruct s as [|c r]; [discriminate|].
  destruct (Ascii.eqb c (byte_of 0xEF)) eqn:E.
  - apply Ascii.eqb_eq in E. subst c. discriminate.
  - intros _. unfold kBom. cbn [String.prefix].
    destruct (ascii_dec (byte_of 239) c) as [<-|]; [|reflexivity].
    rewrite Ascii.eqb_refl in E. discriminate.
Qed.

Lemma fuel_up_value (f f' : nat) (s t : string) (v : json) :
  parse_value f s = Some (v, t) -> (2 * String.length s + 1 <= f')%nat ->
  parse_value f' s = Some (v, t).
Proof.
  intros H Hf. destruct (parse_adequate f) as (Hv & _ & _).
  destruct (Hv _ _ _ H) as [_ Hup]. apply Hup. unfold enough. lia.
Qed.

Lemma fuel_up_elements (f f' : nat) (s t : string) (acc : list json) (v : json) :
  parse_elements f s acc = Some (v, t) -> (2 * String.length s + 1 <= f')%nat ->
  parse_elements f' s acc = Some (v, t).
Proof.
  intros H Hf. destruct (parse_adequate f) as (_ & He & _).
  destruct (He _ _ _ _ H) as [_ Hup]. apply Hup. unfold enough. lia.
Qed.

Lemma fuel_up_members (f f' : nat) (s t : string) (acc : list (string * json)) (v : json) :
  parse_members f s acc = Some (v, t) -> (2 * String.length s + 1 <= f')%nat ->
  parse_members f' s acc = Some (v, t).
Proof.
  intros H Hf. destruct (parse_adequate f) as (_ & _ & Hm).
  destruct (Hm _ _ _ _ H) as [_ Hup]. apply Hup. unfold enough. lia.
Qed.

Lemma dump_quoted_reads_back (s q t : string) :
  dump_quoted s = Some q ->
  exists body, q = String DQ body /\ scan_string SNormal (body +:+ t) = Some (s, t).
Proof.
  intros H. pose proof (dump_quoted_Some_utf8 _ _ H) as Hok.
  rewrite (dump_quoted_utf8 _ Hok) in H. injection H as <-.
  exists (EscapeJson s +:+ chr DQ). split; [reflexivity|].
  rewrite append_assoc. apply (EscapeJson_reads_back s [] t (Forall_nil_2 _) Hok).
Qed.

Lemma parse_elements_head (f : nat) (s t : string) (acc : list json) (v : json) :
  parse_elements f s acc = Some (v, t) ->
  exists c r, skip_ws s = String c r /\ Ascii.eqb c "]" = false.
Proof.
  destruct f as [|f]; [discriminate|]. rewrite parse_elements_S.
  destruct (parse_value f s) as [[v0 t0]|] eqn:Hv; [|discriminate]. intros _.
  destruct (parse_value_head _ _ _ _ Hv) as (c & r & H1 & H2 & _). eauto.
Qed.

Lemma parse_value_bracket (f : nat) (x : string) :
  parse_value (S f) (String "[" x) =
  match skip_ws x with
  | String c' r' => if Ascii.eqb c' "]" then Some (JArray [], r') else parse_elements f x []
  | EmptyString => None
  end.
Proof. rewrite parse_value_S. reflexivity. Qed.

Lemma parse_value_brace (f : nat) (x : string) :
  parse_value (S f) (String "{" x) =
  match skip_ws x with
  | String c' r' => if Ascii.eqb c' "}" then Some (JObject [], r') else parse_members f x []
  | EmptyString => None
  end.
Proof. rewrite parse_value_S. reflexivity. Qed.

Lemma parse_value_quote (f : nat) (x : string) :
  parse_value (S f) (String DQ x) =
  match scan_string SNormal x with
  | Some (str, t) => Some (JString str, t)
  | None => None
  end.
Proof. rewrite parse_value_S. reflexivity. Qed.

Lemma parse_members_quote (f : nat) (x : string) (acc : list (string * json)) :
  parse_members (S f) (String DQ x) acc =
  match scan_string SNormal x with
  | Some (k, t) =>
      match skip_ws t with
      | String c1 r1 =>
          if Ascii.eqb c1 ":" then
            match parse_value f r1 with
            | Some (v, u) =>
                match skip_ws u with
                | String c2 r2 =>
                    if Ascii.eqb c2 "," then parse_members f r2 (obj_assign k v acc)
                    else if Ascii.eqb c2 "}" then Some (JObject (obj_assign k v acc), r2)
                    else None
                | EmptyString => None
                end
            | None => None
            end
          else None
      | EmptyString => None
      end
  | None => None
  end.
Proof. rewrite parse_members_S. reflexivity. Qed.

Lemma field_text (body dx rest t : string) :
  (String DQ body +:+ ":" +:+ dx +:+ rest) +:+ t
  = String DQ (body +:+ String ":" (dx +:+ (rest +:+ t))).
Proof.
  change (":" +:+ dx +:+ rest) with (String ":" (dx +:+ rest)).
  rewrite (append_cons DQ), (append_cons DQ). f_equal.
  rewrite (append_assoc body). f_equal.
  rewrite (append_cons ":"). f_equal. apply append_assoc.
Qed.

Lemma dump_reads_back (j : json) :
  double_dump_reads ->
  forall r, dump j = Some r -> json_numbers j = true ->
  forall t, is_delim t = true ->
  exists f j', parse_value f (r +:+ t) = Some (j', t).
Proof.
  intros Hd.
  induction j as [ |b|z|l|s|items IH|members IH] using json_ind2; intros r Hr Hn t Ht.
  - injection Hr as <-. exists 1%nat, JNull. destruct t; reflexivity.
  - destruct b; injection Hr as <-; exists 1%nat; eexists; destruct t; reflexivity.
  - injection Hr as <-. exists 1%nat, (JInt z). apply parse_value_scan, scan_Z_to_dec; assumption.
  - injection Hr as <-. destruct (Hd l t Hn Ht) as [j Hj]. exists 1%nat, j.
    apply parse_value_scan, Hj.
  - cbn [dump] in Hr. destruct (dump_quoted_reads_back s r t Hr) as (body & -> & Hs).
    exists 1%nat, (JString s). rewrite append_cons, parse_value_quote, Hs. reflexivity.
  - cbn [dump json_numbers] in Hr, Hn. unfold prepend in Hr.
    match type of Hr with
    | match ?y with _ => _ end = _ => destruct y as [e|] eqn:He
    end; [|discriminate].
    injection Hr as <-.
    assert (items <> [] ->
            forall acc, exists f j', parse_elements f (e +:+ t) acc = Some (j', t)) as Hsub.
    { clear Hd. revert e He Hn.
      induction IH as [|x items Hx _ IHl]; intros e He Hn Hne acc; [contradiction|].
      destruct (dump x) as [dx|] eqn:Hdx; [|discriminate].
      match type of He with
      | match ?y with _ => _ end = _ => destruct y as [dr|] eqn:Hdr
      end; [|discriminate].
      injection He as <-. cbn [forallb] in Hn. apply andb_true_iff in Hn as [Hnx Hni].
      destruct items as [|y items'].
      - injection Hdr as <-.
        destruct (Hx _ eq_refl Hnx (String "]" t) eq_refl) as (f1 & j1 & Hv).
        exists (S f1), (JArray (acc ++ [j1])). rewrite parse_elements_S.
        replace ((dx +:+ "" +:+ "]") +:+ t) with (dx +:+ String "]" t)
          by (rewrite append_assoc; reflexivity).
        rewrite Hv. reflexivity.
      - destruct (Hx _ eq_refl Hnx (String "," (dr +:+ t)) eq_refl) as (f1 & j1 & Hv).
        destruct (IHl _ eq_refl Hni ltac:(discriminate) (acc ++ [j1])%list) as (f2 & j2 & Hrest).
        exists (S (Nat.max (2 * String.length (dx +:+ String "," (dr +:+ t)) + 1)
                     (2 * String.length (dr +:+ t) + 1))), j2.
        rewrite parse_elements_S.
        replace ((dx +:+ "," +:+ dr) +:+ t) with (dx +:+ String "," (dr +:+ t))
          by (rewrite !append_assoc; reflexivity).
        rewrite (fuel_up_value _ _ _ _ _ Hv) by lia.
        change (skip_ws (String "," (dr +:+ t))) with (String "," (dr +:+ t)).
        change (Ascii.eqb "," ",") with true. cbv iota.
        apply (fuel_up_elements _ _ _ _ _ _ Hrest). lia. }
    destruct items as [|x items'].
    + injection He as <-. exists 1%nat, (JArray []). reflexivity.
    + destruct (Hsub ltac:(discriminate) []) as (f & j' & Hp). exists (S f), j'.
      change (("[" +:+ e) +:+ t) with (String "[" (e +:+ t)).
      rewrite parse_value_bracket.
      destruct (parse_elements_head _ _ _ _ _ Hp) as (c & r0 & -> & ->). exact Hp.
  - cbn [dump json_numbers] in Hr, Hn. unfold prepend in Hr.
    match type of Hr with
    | match ?y with _ => _ end = _ => destruct y as [e|] eqn:He
    end; [|discriminate].
    injection Hr as <-.
    assert (members <> [] ->
            forall acc, exists f j', parse_members f (e +:+ t) acc = Some (j', t)) as Hsub.
    { clear Hd. revert e He Hn.
      induction IH as [|[k x] members Hx _ IHl]; intros e He Hn Hne acc; [contradiction|].
      destruct (dump_quoted k) as [dk|] eqn:Hdk; [|discriminate].
      destruct (dump x) as [dx|] eqn:Hdx; [|discriminate].
      match type of He with
      | match ?y with _ => _ end = _ => destruct y as [dr|] eqn:Hdr
      end; [|discriminate].
      injection He as <-. cbn [forallb snd] in Hn, Hx. apply andb_true_iff in Hn as [Hnx Hni].
      destruct members as [|m members'].
      - injection Hdr as <-.
        destruct (Hx _ Hdx Hnx (String "}" t) eq_refl) as (f1 & j1 & Hv).
        destruct (dump_quoted_reads_back k dk (String ":" (dx +:+ String "}" t)) Hdk)
          as (body & -> & Hk).
        exists (S f1), (JObject (obj_assign k j1 acc)).
        replace ((String DQ body +:+ ":" +:+ dx +:+ "" +:+ "}") +:+ t)
          with (String DQ (body +:+ String ":" (dx +:+ String "}" t)))
          by (rewrite field_text; reflexivity).
        rewrite parse_members_quote, Hk.
        change (skip_ws (String ":" (dx +:+ String "}" t)))
          with (String ":" (dx +:+ String "}" t)).
        change (Ascii.eqb ":" ":") with true. cbv iota. rewrite Hv. reflexivity.
      - destruct (Hx _ Hdx Hnx (String "," (dr +:+ t)) eq_refl) as (f1 & j1 & Hv).
        destruct (IHl _ eq_refl Hni ltac:(discriminate) (obj_assign k j1 acc))
          as (f2 & j2 & Hrest).
        destruct (dump_quoted_reads_back k dk (String ":" (dx +:+ String "," (dr +:+ t))) Hdk)
          as (body & -> & Hk).
        exists (S (Nat.max (2 * String.length (dx +:+ String "," (dr +:+ t)) + 1)
                     (2 * String.length (dr +:+ t) + 1))), j2.
        replace ((String DQ body +:+ ":" +:+ dx +:+ "," +:+ dr) +:+ t)
          with (String DQ (body +:+ String ":" (dx +:+ String "," (dr +:+ t))))
          by (rewrite field_text; reflexivity).
        rewrite parse_members_quote, Hk.
        change (skip_ws (String ":" (dx +:+ String "," (dr +:+ t))))
          with (String ":" (dx +:+ String "," (dr +:+ t))).
        change (Ascii.eqb ":" ":") with true. cbv iota.
        rewrite (fuel_up_value _ _ _ _ _ Hv) by lia.
        change (skip_ws (String "," (dr +:+ t))) with (String "," (dr +:+ t)).
        change (Ascii.eqb "," ",") with true. cbv iota.
        apply (fuel_up_members _ _ _ _ _ _ Hrest). lia. }
    destruct members as [|m members'].
    + injection He as <-. exists 1%nat, (JObject []). reflexivity.
    + destruct (Hsub ltac:(discriminate) []) as (f & j' & Hp). exists (S f), j'.
      change (("{" +:+ e) +:+ t) with (String "{" (e +:+ t)).
      rewrite parse_value_brace.
      assert (exists c r0, skip_ws (e +:+ t) = String c r0 /\ Ascii.eqb c "}" = false)
        as (c & r0 & -> & ->); [|exact Hp].
      destruct f as [|f]; [discriminate|]. revert Hp. rewrite parse_members_S.
      destruct (skip_ws (e +:+ t)) as [|c r0]; [discriminate|].
      destruct (Ascii.eqb c DQ) eqn:E; [|discriminate]. intros _.
      apply Ascii.eqb_eq in E. subst c. eauto.
Qed.

Lemma dump_is_json (j : json) (r : string) :
  double_dump_reads -> dump j = Some r -> json_numbers j = true -> is_json r.
Proof.
  intros Hd Hr Hn.
  destruct (dump_reads_back j Hd r Hr Hn EmptyString eq_refl) as (f & j' & Hp).
  rewrite append_nil_r in Hp. exists j'.
  apply (json_parse_enough_fuel r f j' EmptyString); [|reflexivity].
  rewrite (parse_value_no_bom _ _ _ _ Hp). exact Hp.
Qed.

(** ** [GetActionFromClaude] returns JSON *)

Lemma action_of_content_json (content : string) :
  double_dump_reads -> utf8_ok [] content = true -> is_json (action_of_content content).
Proof.
  intros Hd Hok. unfold action_of_content.
  destruct (negb (is_empty_str (ExtractJsonFromResponse content))).
  - destruct (json_parse (ExtractJsonFromResponse content)) as [j|] eqn:Hj;
      [|eexists; vm_compute; reflexivity].
    destruct (dump j) as [r|] eqn:Hr; [|eexists; vm_compute; reflexivity].
    apply (dump_is_json j r Hd Hr). apply (json_parse_numbers _ _ Hj).
  - eexists. apply reason_object_parses, Hok.
Qed.

Lemma handle_response_json (s : ApiState) (t p : Z) (response : string) :
  double_dump_reads ->
  is_json (fst (handle_response s t p response))
  /\ (snd (handle_response s t p response) = s
      \/ snd (handle_response s t p response)
         = with_cache t p (fst (handle_response s t p response)) s).
Proof.
  intros Hd. unfold handle_response.
  destruct (is_empty_str response);
    [split; [eexists; vm_compute; reflexivity|left; reflexivity]|].
  destruct (json_parse response) as [j|] eqn:Hj;
    [|split; [eexists; vm_compute; reflexivity|left; reflexivity]].
  pose proof (json_parse_utf8 _ _ Hj) as Hu.
  destruct (contains j "error").
  - destruct ((at_key j "error" ≫= fun e => at_key e "message") ≫= get_string)
      as [msg|] eqn:Hmsg; [|split; [eexists; vm_compute; reflexivity|left; reflexivity]].
    split; [|left; reflexivity]. cbn [fst]. eexists. apply error_object_parses.
    destruct (at_key j "error") as [e|] eqn:He; [|discriminate]. cbn in Hmsg.
    destruct (at_key e "message") as [x|] eqn:Hx; [|discriminate]. cbn in Hmsg.
    apply (get_string_utf8 x msg); [|exact Hmsg].
    apply (at_key_utf8 e x "message"); [|exact Hx].
    apply (at_key_utf8 j e "error"); [exact Hu|exact He].
  - destruct (contains j "content" && is_array (default JNull (at_key j "content"))
              && negb (json_empty (default JNull (at_key j "content")))) eqn:Hc;
      [|split; [eexists; vm_compute; reflexivity|left; reflexivity]].
    destruct ((at_index (default JNull (at_key j "content")) 0 ≫= fun b => at_key b "text")
              ≫= get_string) as [content|] eqn:Hcontent;
      [|split; [eexists; vm_compute; reflexivity|left; reflexivity]].
    split; [|right; reflexivity]. cbn [fst]. apply action_of_content_json; [exact Hd|].
    destruct (at_key j "content") as [blocks|] eqn:Hb.
    + change (default JNull (Some blocks)) with blocks in Hcontent.
      destruct (at_index blocks 0) as [b0|] eqn:H0; [|discriminate]. cbn in Hcontent.
      destruct (at_key b0 "text") as [x|] eqn:Hx; [|discriminate]. cbn in Hcontent.
      apply (get_string_utf8 x content); [|exact Hcontent].
      apply (at_key_utf8 b0 x "text"); [|exact Hx].
      apply (at_index_utf8 blocks b0 0); [|exact H0].
      apply (at_key_utf8 j blocks "content"); [exact Hu|exact Hb].
    + cbn in Hcontent. discriminate.
Qed.

Lemma GetActionFromClaude_json (w : World) (s : ApiState) (gs : string) :
  double_dump_reads -> cache_json s ->
  cache_json (call_state (GetActionFromClaude w s gs))
  /\ forall r, call_outcome (GetActionFromClaude w s gs) = Returned r -> is_json r.
Proof.
  intros Hd Hinv. unfold GetActionFromClaude.
  destruct (is_empty_str (g_apiKey s)).
  { split; [exact Hinv|]. intros r [= <-]. eexists. vm_compute. reflexivity. }
  destruct (ExtractTurnAndPlayer gs) as [t p].
  destruct (cache_hit s t p).
  { split; [exact Hinv|]. cbn [call_outcome]. intros r [= <-].
    destruct Hinv as [-> |Hj]; [eexists; vm_compute; reflexivity|].
    destruct (g_cachedResponse s); [eexists; vm_compute; reflexivity|exact Hj]. }
  destruct (dump (request_json w s gs)) as [body|]; [|split; [exact Hinv|discriminate]].
  destruct (handle_response_json s t p (HttpPost w kApiHost kApiPath body (g_apiKey s)) Hd)
    as [Hj Hs].
  destruct (handle_response s t p (HttpPost w kApiHost kApiPath body (g_apiKey s)))
    as [result s'].
  cbn [fst snd call_state call_outcome] in *. split.
  - destruct Hs as [-> | ->]; [exact Hinv|]. right. exact Hj.
  - intros r [= <-]. exact Hj.
Qed.

Lemma worker_step_cache_json (w : World) (a a' : Async) :
  double_dump_reads ->
  worker_step w a = Some a' -> cache_json (api a) -> cache_json (api a').
Proof.
  intros Hd. unfold worker_step. destruct (g_asyncThread a) as [|gs pc|]; try discriminate.
  intros [= <-] Hinv. destruct pc; try exact Hinv.
  - destruct (g_asyncCancelled a); exact Hinv.
  - destruct (call_outcome (GetActionFromClaude w (api a) gs)); cbn [api set_thread set_api];
      apply GetActionFromClaude_json; assumption.
  - destruct (g_asyncCancelled a); exact Hinv.
  - unfold store_result. repeat break_match; exact Hinv.
Qed.

Lemma step_cache_json (y z : System) :
  double_dump_reads ->
  step y z -> cache_json (api (engine y)) -> cache_json (api (engine z)).
Proof.
  intros Hd Hstep Hinv. destruct Hstep; cbn [engine] in *.
  - eapply worker_step_cache_json; eassumption.
  - destruct (StartAsyncRequest_cache _ _ _ _ H) as (_ & _ & Hc).
    unfold cache_json. rewrite Hc. exact Hinv.
  - unfold GetAsyncResponse. destruct (decide (g_asyncState a = Ready)); exact Hinv.
  - exact Hinv.
  - exact Hinv.
  - revert H. unfold CancelAsyncRequest_reset.
    destruct (g_asyncThread a); try discriminate; intros [= <-]; exact Hinv.
  - cbn [api set_api]. apply GetActionFromClaude_json; assumption.
  - destruct (Initialize_cache (api a)) as (_ & _ & Hc).
    unfold cache_json. cbn [api set_api]. rewrite Hc. exact Hinv.
  - left. reflexivity.
Qed.

Lemma reachable_cache_json (y : System) :
  double_dump_reads -> reachable y -> cache_json (api (engine y)).
Proof.
  intros Hd [env Hsteps].
  assert (cache_json (api (engine (initial_system env)))) as H0 by (left; reflexivity).
  revert H0. induction Hsteps as [|x y z Hxy _ IH]; [auto|].
  intros Hx. apply IH. eapply step_cache_json; eassumption.
Qed.

(** X20. In every reachable state, whatever the service replies, a text
    that [GetActionFromClaude] returns is JSON: [json::parse] accepts it.
    (A double is taken to print as a JSON number.) *)
Theorem returned_text_is_json (y : System) (w : World) (gs r : string) :
  double_dump_reads -> reachable y ->
  call_outcome (GetActionFromClaude w (api (engine y)) gs) = Returned r ->
  is_json r.
Proof.
  intros Hd Hreach. apply GetActionFromClaude_json; [exact Hd|].
  apply reachable_cache_json; assumption.
Qed.

(** ** What a Ready cycle holds *)

Lemma no_error_member (j : json) :
  contains j "error" = false -> at_key j "error" ≫= get_string = None.
Proof.
  destruct j; try reflexivity. cbn [contains at_key]. intros H.
  apply bool_decide_eq_false in H. destruct (obj_find "error" members) as [v|].
  - exfalso. apply H. eauto.
  - reflexivity.
Qed.

Lemma store_result_answer (result : string) (a : Async) :
  is_json result ->
  g_asyncState (store_result result a) = Ready ->
  plain_answer (g_asyncResponse (store_result result a)).
Proof.
  intros [j Hj]. unfold store_result. rewrite Hj.
  destruct (contains j "error") eqn:Hc.
  - destruct (at_key j "error" ≫= get_string) as [e|] eqn:He; [discriminate|].
    intros _. exists j. split; [exact Hj|exact He].
  - intros _. exists j. split; [exact Hj|apply no_error_member, Hc].
Qed.

Lemma worker_step_answer_inv (w : World) (a a' : Async) :
  double_dump_reads ->
  worker_step w a = Some a' -> answer_inv a -> answer_inv a'.
Proof.
  intros Hd Hstep (Hc & Hr & Ht).
  split; [eapply worker_step_cache_json; eassumption|].
  revert Hstep. unfold worker_step.
  destruct (g_asyncThread a) as [|gs pc|] eqn:Hth; try discriminate.
  intros [= <-]. destruct pc as [| | |result| |result|what].
  - destruct (g_asyncCancelled a); (split; [exact Hr|]); cbn;
      intros gs' r [H|H]; discriminate.
  - split; [discriminate|]. cbn. intros gs' r [H|H]; discriminate.
  - destruct (GetActionFromClaude_json w (api a) gs Hd Hc) as [_ Hj].
    destruct (call_outcome (GetActionFromClaude w (api a) gs)) as [result|what] eqn:Hout.
    + split; [exact Hr|]. cbn. intros gs' r [[= _ <-]|[=]]. apply Hj. reflexivity.
    + split; [exact Hr|]. cbn. intros gs' r [[=]|[=]].
  - assert (is_json result) as Hj by (apply (Ht gs result); left; reflexivity).
    destruct (g_asyncCancelled a); (split; [exact Hr|]); cbn.
    + intros gs' r [[=]|[=]].
    + intros gs' r [[=]|[= _ <-]]. exact Hj.
  - split; [discriminate|]. cbn. intros gs' r [[=]|[=]].
  - assert (is_json result) as Hj by (apply (Ht gs result); right; reflexivity).
    split.
    + cbn [g_asyncState g_asyncResponse set_thread]. apply store_result_answer, Hj.
    + cbn. intros gs' r [[=]|[=]].
  - split; [discriminate|]. cbn. intros gs' r [[=]|[=]].
Qed.

Lemma step_answer_inv (y z : System) :
  double_dump_reads -> step y z -> answer_inv (engine y) -> answer_inv (engine z).
Proof.
  intros Hd Hstep Hinv.
  assert (cache_json (api (engine z))) as Hcz.
  { eapply step_cache_json; [exact Hd|exact Hstep|apply Hinv]. }
  destruct Hstep; cbn [engine] in *.
  - eapply worker_step_answer_inv; eassumption.
  - destruct Hinv as (_ & Hr & Ht). split; [exact Hcz|]. revert H. unfold StartAsyncRequest.
    destruct (decide (g_asyncState a = Pending)) as [Hp|Hp].
    { intros [= _ <-]. split; assumption. }
    destruct (g_asyncThread a) as [|gs0 pc|] eqn:Hth; try discriminate.
    all: destruct (if is_empty_str (g_apiKey (api (set_thread NoThread a)))
                   then Initialize (api (set_thread NoThread a))
                   else (true, api (set_thread NoThread a))) as [[|] api'];
      intros [= _ <-]; (split; [discriminate|]); cbn; intros gs' r [[=]|[=]].
  - destruct Hinv as (_ & Hr & Ht). split; [exact Hcz|]. unfold GetAsyncResponse.
    destruct (decide (g_asyncState a = Ready)); cbn [snd]; [|split; assumption].
    split; [discriminate|exact Ht].
  - exact Hinv.
  - destruct Hinv as (_ & Hr & Ht). split; [exact Hcz|]. split; assumption.
  - destruct Hinv as (_ & Hr & Ht). split; [exact Hcz|]. revert H.
    unfold CancelAsyncRequest_reset.
    destruct (g_asyncThread a); try discriminate; intros [= <-];
      (split; [discriminate|]); cbn; intros gs' r [[=]|[=]].
  - destruct Hinv as (_ & Hr & Ht). split; [exact Hcz|]. split; assumption.
  - destruct Hinv as (_ & Hr & Ht). split; [exact Hcz|]. split; assumption.
  - destruct Hinv as (_ & Hr & Ht). split; [exact Hcz|]. split; assumption.
Qed.

Lemma reachable_answer_inv (y : System) :
  double_dump_reads -> reachable y -> answer_inv (engine y).
Proof.
  intros Hd [env Hsteps].
  assert (answer_inv (engine (initial_system env))) as H0.
  { split; [left; reflexivity|]. split; [discriminate|]. cbn. intros gs r [[=]|[=]]. }
  revert H0. induction Hsteps as [|x y z Hxy _ IH]; [auto|].
  intros Hx. apply IH. eapply step_answer_inv; eassumption.
Qed.

Lemma run_worker_system_steps (n : nat) (w : World) (a : Async) (c : bool) :
  rtc step {| engine := a; in_cancel := c |} {| engine := run_worker n w a; in_cancel := c |}.
Proof.
  revert a; induction n as [|n IH]; intros a; cbn [run_worker]; [apply rtc_refl|].
  destruct (worker_step w a) as [a'|] eqn:Hs; [|apply rtc_refl].
  eapply rtc_l; [apply (step_worker w a a' c Hs)|apply IH].
Qed.

(** X21. In every reachable state a Ready cycle hands over a JSON text
    that has no [error] member holding a string, and taking it leaves the
    state Idle: an answer that carries an error text is never filed under
    Ready.  (A double is taken to print as a JSON number.) *)
Theorem ready_response_is_plain_json (y : System) :
  double_dump_reads -> reachable y ->
  g_asyncState (engine y) = Ready ->
  plain_answer (fst (GetAsyncResponse (engine y)))
  /\ g_asyncState (snd (GetAsyncResponse (engine y))) = Idle.
Proof.
  intros Hd Hreach Hr. destruct (reachable_answer_inv y Hd Hreach) as (_ & H & _).
  unfold GetAsyncResponse. destruct (decide (g_asyncState (engine y) = Ready)); [|contradiction].
  split; [apply H, Hr|reflexivity].
Qed.

(** ** The blocking entry point and exceptions *)

(** X22. The blocking entry point has no handler of its own.  Before
    shutdown, with a game state, a key and no cache hit: when the model
    name, the system prompt or the game state is not well-formed UTF-8, the
    exception of [dump] leaves the entry point, nothing is pushed and the
    engine is as it was; otherwise the entry point returns 1 and pushes what
    the call returned. *)
Theorem blocking_entry_point_lets_exception_through (hks : HksApi) (w : World) (L : handle)
    (b : Bridge) (gs : string) :
  g_shutdownRequested b = false ->
  game_state_argument hks (runtime_of b L) = Some gs ->
  g_apiKey (api (async b)) <> EmptyString ->
  cache_hit (api (async b)) (fst (ExtractTurnAndPlayer gs)) (snd (ExtractTurnAndPlayer gs))
    = false ->
  let prompt := BuildSystemPrompt w (fst (ExtractCivInfo gs)) (snd (ExtractCivInfo gs)) in
  let out := lua_SendGameStateToClaudeAPI hks w L b in
  (utf8_ok [] (g_model (api (async b))) && utf8_ok [] prompt && utf8_ok [] gs = false ->
   fst out = Thrown (dump_error_what (request_json w (api (async b)) gs))
   /\ runtime_of (snd out) L = runtime_of b L
   /\ api (async (snd out)) = api (async b)
   /\ g_asyncState (async (snd out)) = g_asyncState (async b)
   /\ g_asyncError (async (snd out)) = g_asyncError (async b))
  /\ (utf8_ok [] (g_model (api (async b))) && utf8_ok [] prompt && utf8_ok [] gs = true ->
      exists action,
        call_outcome (GetActionFromClaude w (api (async b)) gs) = Returned action
        /\ fst out = Returned 1
        /\ runtime_of (snd out) L = PushStringToLua hks action (runtime_of b L)).
Proof.
  intros Hshut Harg Hkey Hmiss prompt out. unfold prompt. rewrite <- request_json_utf8.
  unfold out, lua_SendGameStateToClaudeAPI. rewrite Hshut, Harg. cbv zeta.
  assert (GetActionFromClaude w (api (async b)) gs
          = match dump (request_json w (api (async b)) gs) with
            | None =>
                {| call_outcome := Thrown (dump_error_what (request_json w (api (async b)) gs));
                   call_state := api (async b); call_posted := None |}
            | Some body =>
                let '(result, s') :=
                  handle_response (api (async b)) (fst (ExtractTurnAndPlayer gs))
                    (snd (ExtractTurnAndPlayer gs))
                    (HttpPost w kApiHost kApiPath body (g_apiKey (api (async b)))) in
                {| call_outcome := Returned result; call_state := s';
                   call_posted := Some body |}
            end) as ->.
  { unfold GetActionFromClaude.
    destruct (g_apiKey (api (async b))) as [|c k] eqn:Hk; [contradiction|].
    cbn [is_empty_str]. destruct (ExtractTurnAndPlayer gs) as [t p].
    cbn [fst snd] in *. rewrite Hmiss. reflexivity. }
  split.
  - intros Hbad. destruct (dump (request_json w (api (async b)) gs)) as [body|] eqn:Hb.
    { rewrite (dump_Some_utf8 _ _ Hb) in Hbad. discriminate. }
    cbn [call_outcome call_state fst snd]. repeat split.
  - intros Hok. destruct (dump_utf8 _ Hok) as [body ->].
    destruct (handle_response (api (async b)) (fst (ExtractTurnAndPlayer gs))
                (snd (ExtractTurnAndPlayer gs))
                (HttpPost w kApiHost kApiPath body (g_apiKey (api (async b)))))
      as [result s'].
    exists result. cbn [call_outcome call_state fst snd].
    rewrite runtime_of_set_runtime. repeat split.
Qed.

(** ** [ExecuteLuaCode] from initialisation to clean-up *)

Lemma RegisterFunctionInState_flag (hks : HksApi) (L : handle) (b : Bridge) :
  g_shutdownRequested (RegisterFunctionInState hks L b) = g_shutdownRequested b.
Proof.
  unfold RegisterFunctionInState.
  destruct ((L =? 0)%N || g_shutdownRequested b); [reflexivity|].
  destruct (negb (has_pushnamedcclosure hks) || negb (has_setfield hks)); [reflexivity|].
  destruct (g_claudeAPIInitialized b); reflexivity.
Qed.

Lemma HookedPcall_flag (hks : HksApi) (orig : handle -> Z -> Z -> Z -> Z)
    (L : handle) (n1 n2 n3 : Z) (b : Bridge) :
  g_shutdownRequested (snd (HookedPcall hks orig L n1 n2 n3 b)) = g_shutdownRequested b.
Proof.
  unfold HookedPcall. cbn [snd].
  set (b1 := if negb (L =? 0)%N && (g_luaState b =? 0)%N then set_luaState L b else b).
  assert (g_shutdownRequested b1 = g_shutdownRequested b) as <-.
  { unfold b1. destruct (negb (L =? 0)%N && (g_luaState b =? 0)%N); reflexivity. }
  clearbody b1.
  destruct (negb (L =? 0)%N && negb (g_shutdownRequested b1)); [|reflexivity].
  destruct (decide (L ∈ g_registeredStates b1)); [reflexivity|].
  apply RegisterFunctionInState_flag.
Qed.

(** X23. [ExecuteLuaCode] over the life of the hook.  Before a runtime is
    captured it returns false and changes nothing.  Once
    [InitializeHavokScriptIntegration] has stored [dostring] and an
    intercepted call has captured the runtime, it runs the code (as a C
    string) on that runtime and returns whether the status is 0.  When
    [pcall] was not resolved [dostring] is not stored, so it returns false.
    After [CleanupHavokScriptIntegration] it returns false again; the
    clean-up forgets the runtime and the registered set and leaves the
    engine and the runtimes alone. *)
Theorem lua_execution_lifecycle (hks : HksApi) (orig : handle -> Z -> Z -> Z -> Z)
    (run : DoString) (h : HookState) (L : handle) (n1 n2 n3 : Z) (b : Bridge)
    (code : string) :
  L <> 0%N -> g_luaState b = 0%N -> g_shutdownRequested b = false ->
  let h1 := InitializeHavokScriptIntegration true (Some run) h in
  let b1 := snd (HookedPcall hks orig L n1 n2 n3 b) in
  let done := run L (c_str code) (runtime_of b1 L) in
  ExecuteLuaCode h1 code b = (false, b)
  /\ ExecuteLuaCode h1 code b1 = (fst done =? 0, set_runtime L (snd done) b1)
  /\ ExecuteLuaCode (InitializeHavokScriptIntegration false (Some run) initial_hooks) code b1
     = (false, b1)
  /\ forall has_pcall,
       let after := CleanupHavokScriptIntegration has_pcall h1 b1 in
       ExecuteLuaCode (fst after) code (snd after) = (false, snd after)
       /\ g_luaState (snd after) = 0%N
       /\ g_registeredStates (snd after) = ∅
       /\ async (snd after) = async b1
       /\ runtimes (snd after) = runtimes b1
       /\ g_shutdownRequested (snd after) = false.
Proof.
  intros HL Hnone Hshut h1 b1 done.
  assert (g_luaState b1 = L) as Hcap.
  { unfold b1. rewrite HookedPcall_luaState, Hnone.
    destruct (N.eqb_spec L 0); [contradiction|reflexivity]. }
  assert (g_shutdownRequested b1 = false) as Hshut1.
  { unfold b1. rewrite HookedPcall_flag. exact Hshut. }
  split; [|split; [|split]].
  - unfold ExecuteLuaCode. rewrite Hshut, Hnone. reflexivity.
  - unfold ExecuteLuaCode. rewrite Hshut1, Hcap.
    destruct (N.eqb_spec L 0); [contradiction|]. cbn [h1 InitializeHavokScriptIntegration
      g_originalDostring]. fold done. destruct done as [status rt]. reflexivity.
  - unfold ExecuteLuaCode. rewrite Hshut1, Hcap.
    destruct (N.eqb_spec L 0); [contradiction|]. reflexivity.
  - intros has_pcall after. unfold after, CleanupHavokScriptIntegration. cbn [fst snd].
    unfold ExecuteLuaCode. cbn [g_shutdownRequested g_luaState g_registeredStates async runtimes].
    rewrite Hshut1. repeat split.
Qed.

(** ** A request from start to poll *)

Lemma StartAsyncRequest_keyed (gs : string) (a : Async) :
  g_asyncState a <> Pending ->
  (forall gs' pc, g_asyncThread a <> Running gs' pc) ->
  g_apiKey (api a) <> EmptyString ->
  exists a1, StartAsyncRequest gs a = Some (true, a1) /\ api a1 = api a.
Proof.
  intros Hp Hth Hkey. unfold StartAsyncRequest.
  destruct (decide (g_asyncState a = Pending)); [contradiction|].
  destruct (g_asyncThread a) as [|gs' pc|] eqn:Ht; [|exfalso; exact (Hth gs' pc eq_refl)|].
  all: cbn [api set_thread]; destruct (g_apiKey (api a)); [contradiction|]; cbn [is_empty_str];
    eexists; split; reflexivity.
Qed.

(** X25. One asynchronous round seen from Lua, before shutdown, with the
    push functions resolved, a key loaded and no request pending.  The start
    entry point returns true; a poll before the worker is done says
    "pending"; once the worker has returned, the module state is the one
    the blocking call leaves and the poll hands over what that call gives:
    "ready" and the text it returned (when the text is at most 400 bytes or
    [dostring] is missing), or "error" and the stored error text, or
    "error" and "Exception: " with the message when the call threw. *)
Theorem async_round_through_entry_points (hks : HksApi) (w : World)
    (dostring : option DoString) (L : handle) (b : Bridge) (gs : string) :
  g_shutdownRequested b = false ->
  has_pushboolean hks = true -> has_pushstring hks = true -> has_pushlstring hks = true ->
  game_state_argument hks (runtime_of b L) = Some gs ->
  g_asyncState (async b) <> Pending ->
  (forall gs' pc, g_asyncThread (async b) <> Running gs' pc) ->
  g_apiKey (api (async b)) <> EmptyString ->
  let old := lua_stack (runtime_of b L) in
  exists b1,
    lua_StartClaudeAPIRequest hks L b = Some (1, b1)
    /\ lua_stack (runtime_of b1 L) = LBoolean true :: old
    /\ fst (lua_CheckClaudeAPIResponse hks dostring L b1) = 1
    /\ lua_stack (runtime_of (snd (lua_CheckClaudeAPIResponse hks dostring L b1)) L)
       = LString "pending" :: LBoolean true :: old
    /\ let b2 := set_async (AsyncWorkerThread w (async b1)) b1 in
       let r := GetActionFromClaude w (api (async b)) gs in
       let p := lua_CheckClaudeAPIResponse hks dostring L b2 in
       api (async b2) = call_state r
       /\ match call_outcome r with
          | Returned result =>
              (g_asyncState (async b2) = Ready \/ g_asyncState (async b2) = Failed)
              /\ (g_asyncState (async b2) = Ready ->
                  (String.length result <= kLongResponseThreshold)%nat \/ dostring = None ->
                  fst p = 2
                  /\ lua_stack (runtime_of (snd p) L)
                     = LString result :: LString "ready" :: LBoolean true :: old
                  /\ g_asyncState (async (snd p)) = Idle)
              /\ (g_asyncState (async b2) = Failed ->
                  fst p = 2
                  /\ lua_stack (runtime_of (snd p) L)
                     = LString (c_str (g_asyncError (async b2))) :: LString "error"
                         :: LBoolean true :: old)
          | Thrown what =>
              fst p = 2
              /\ lua_stack (runtime_of (snd p) L)
                 = LString (c_str ("Exception: " +:+ what)) :: LString "error"
                     :: LBoolean true :: old
          end.
Proof.
  intros Hshut Hpb Hps Hpl Harg Hnp Hnt Hkey old.
  destruct (StartAsyncRequest_keyed gs (async b) Hnp Hnt Hkey) as (a1 & Hstart & Hapi).
  destruct (StartAsyncRequest_true gs (async b) a1 Hstart) as (Hth & Hc & Hp & Hr & He & _).
  set (rt1 := push_flag hks true (runtime_of b L)).
  exists (set_runtime L rt1 (set_async a1 b)).
  assert (lua_stack rt1 = LBoolean true :: old) as Hrt1.
  { unfold rt1, push_flag. rewrite Hpb. reflexivity. }
  split.
  { unfold lua_StartClaudeAPIRequest. rewrite Hshut, Harg, Hstart. reflexivity. }
  split; [rewrite runtime_of_set_runtime; exact Hrt1|].
  assert (forall a,
            lua_CheckClaudeAPIResponse hks dostring L (set_runtime L rt1 (set_async a b))
            = match g_asyncState a with
              | Idle =>
                  (1, set_runtime L (PushStringToLua_cstr hks "idle" rt1)
                        (set_runtime L rt1 (set_async a b)))
              | Pending =>
                  (1, set_runtime L (PushStringToLua_cstr hks "pending" rt1)
                        (set_runtime L rt1 (set_async a b)))
              | Ready =>
                  lua_CheckClaudeAPIResponse hks dostring L (set_runtime L rt1 (set_async a b))
              | Failed =>
                  (2, set_runtime L
                        (PushStringToLua_cstr hks (g_asyncError a)
                           (PushStringToLua_cstr hks "error" rt1))
                        (set_async a (set_runtime L rt1 (set_async a b))))
              end) as Hpoll.
  { intros a. unfold lua_CheckClaudeAPIResponse at 1.
    cbn [g_shutdownRequested set_runtime set_async async]. rewrite Hshut.
    unfold GetAsyncState, GetAsyncError.
    destruct (g_asyncState a) eqn:Hst; try rewrite runtime_of_set_runtime; try reflexivity.
    - unfold lua_CheckClaudeAPIResponse.
      cbn [g_shutdownRequested set_runtime set_async async]. rewrite Hshut.
      unfold GetAsyncState. rewrite Hst. reflexivity.
    - rewrite runtime_of_set_async, runtime_of_set_runtime. reflexivity. }
  split; [rewrite Hpoll, Hp; reflexivity|].
  split.
  { rewrite Hpoll, Hp. cbn [snd]. rewrite runtime_of_set_runtime.
    unfold PushStringToLua_cstr. rewrite Hps. cbn [lua_push lua_stack]. rewrite Hrt1.
    reflexivity. }
  cbv zeta. cbn [async set_runtime set_async].
  change (set_async (AsyncWorkerThread w a1) (set_runtime L rt1 (set_async a1 b)))
    with (set_runtime L rt1 (set_async (AsyncWorkerThread w a1) b)).
  rewrite <- Hapi.
  destruct (call_outcome (GetActionFromClaude w (api a1) gs)) as [result|what] eqn:Hout.
  - rewrite (worker_runs_to_store_state w a1 gs result Hth Hc Hout).
    set (a' := set_thread (Running gs (AtStore result)) _).
    destruct (store_result_slots result a') as (Hres & Hapi' & Hst & Herr).
    set (a2 := set_thread Finished (store_result result a')).
    assert (g_asyncState a2 = g_asyncState (store_result result a')) as Hs2 by reflexivity.
    assert (g_asyncResponse a2 = result) as Hr2 by exact Hres.
    split; [cbn [api set_thread a2]; rewrite Hapi'; reflexivity|].
    split; [rewrite Hs2; exact Hst|]. split.
    + intros Hready Hshort.
      unfold lua_CheckClaudeAPIResponse.
      cbn [g_shutdownRequested set_runtime set_async async]. rewrite Hshut.
      unfold GetAsyncState, GetAsyncResponse. rewrite Hready.
      destruct (decide (Ready = Ready)) as [_|Hne]; [|contradiction].
      cbv beta iota zeta. rewrite Hr2.
      assert (forall x : Z * Bridge,
                x = (2, set_runtime L (push_ready hks result rt1)
                          (set_async (set_state Idle (set_response EmptyString a2))
                             (set_runtime L rt1 (set_async a2 b)))) ->
                fst x = 2
                /\ lua_stack (runtime_of (snd x) L)
                   = LString result :: LString "ready" :: LBoolean true :: old
                /\ g_asyncState (async (snd x)) = Idle) as Hfin.
      { intros x ->. cbn [fst snd]. rewrite runtime_of_set_runtime.
        unfold push_ready, PushStringToLua, PushStringToLua_cstr. rewrite Hps, Hpl.
        cbn [lua_push lua_stack]. rewrite Hrt1. repeat split. }
      apply Hfin. rewrite runtime_of_set_async, runtime_of_set_runtime.
      destruct Hshort as [Hlen| ->].
      * destruct (Nat.ltb_spec kLongResponseThreshold (String.length result));
          [lia|reflexivity].
      * destruct (_ <? _)%nat; reflexivity.
    + intros Hfailed. rewrite Hpoll, Hfailed. cbn [fst snd]. split; [reflexivity|].
      rewrite runtime_of_set_runtime. unfold PushStringToLua_cstr. rewrite Hps.
      cbn [lua_push lua_stack]. rewrite Hrt1. reflexivity.
  - rewrite (worker_runs_to_catch w a1 gs what Hth Hc Hout).
    split; [reflexivity|]. rewrite Hpoll.
    cbn [g_asyncState g_asyncError set_thread set_state set_error fst snd].
    split; [reflexivity|].
    rewrite runtime_of_set_runtime. unfold PushStringToLua_cstr. rewrite Hps.
    cbn [lua_push lua_stack]. rewrite Hrt1. reflexivity.
Qed.

(** ** When the reply is quoted back *)

Lemma drop_trailing_ws_head (c : ascii) (r : string) :
  is_ws c = false -> drop_trailing_ws (String c r) <> EmptyString.
Proof.
  intros Hc. cbn [drop_trailing_ws]. destruct (drop_trailing_ws r); [rewrite Hc|]; discriminate.
Qed.

Lemma trim_passthrough_empty (t : string) : trim_passthrough t = EmptyString -> t = EmptyString.
Proof.
  intros H. destruct (skip_ws t) as [|c r] eqn:Hs.
  - revert H. unfold trim_passthrough, find_first_not_of.
    pose proof (first_not_of_skip t 0) as Hf.
    destruct (first_not_of_at kWhitespace t 0); [|auto].
    destruct Hf as (_ & _ & _ & c & r & Heq & _). congruence.
  - exfalso. rewrite trim_passthrough_trims in H by congruence.
    unfold ws_trim in H. rewrite Hs in H.
    pose proof (first_not_of_skip t 0) as Hf.
    destruct (first_not_of_at kWhitespace t 0).
    + destruct Hf as (_ & _ & _ & c' & r' & Heq & Hws). rewrite Hs in Heq.
      injection Heq as <- <-. exact (drop_trailing_ws_head c r Hws H).
    + congruence.
Qed.

Lemma extract_empty (content : string) :
  ExtractJsonFromResponse content = EmptyString <-> fenced_candidate content = EmptyString.
Proof.
  unfold ExtractJsonFromResponse. cbv zeta. split.
  - destruct (balanced_object (fenced_candidate content)) as [e|] eqn:Hb.
    + intros ->. exfalso. revert Hb. unfold balanced_object.
      destruct (chr_find (fenced_candidate content) "{" 0) as [bs|]; [|discriminate].
      destruct (brace_scan (drop_str bs (fenced_candidate content)) bs 0) as [be|];
        [|discriminate].
      cbv zeta.
      destruct (json_parse (substr (fenced_candidate content) bs (be - bs + 1))) as [j|] eqn:Hj;
        [|discriminate].
      intros [= He]. rewrite He in Hj. discriminate Hj.
    + apply trim_passthrough_empty.
  - intros ->. reflexivity.
Qed.

Lemma unfenced_candidate (content : string) :
  str_find content kFence 0 = None -> fenced_candidate content = content.
Proof.
  intros H. unfold fenced_candidate. rewrite H.
  destruct (str_find content kFenceJson 0) as [i|] eqn:Hj; [|reflexivity].
  exfalso. revert H Hj. unfold str_find. cbn [Nat.leb drop_str].
  intros H Hj. apply (find_at_weaken kFence "json" content 0 i); assumption.
Qed.

(** X27. The action quotes the reply as its reason (line 778) only when
    the candidate text is empty: an empty reply, or a fence with nothing
    between the line feed and the closing fence.  From any other candidate
    the action is the dump of the JSON extracted, or else the fixed
    "Invalid JSON from Claude" object; and without a fence the candidate is
    the reply itself, so a reply in prose that is not empty is never
    quoted. *)
Theorem reply_quoted_only_when_nothing_extracted (content : string) :
  (fenced_candidate content = EmptyString ->
   action_of_content content = kReasonOpen +:+ EscapeJson content +:+ kObjectClose)
  /\ (fenced_candidate content <> EmptyString ->
      action_of_content content = kInvalidJson
      \/ exists j,
           json_parse (ExtractJsonFromResponse content) = Some j
           /\ dump j = Some (action_of_content content))
  /\ (str_find content kFence 0 = None -> fenced_candidate content = content).
Proof.
  split; [|split].
  - intros H. unfold action_of_content. apply extract_empty in H. rewrite H. reflexivity.
  - intros H. unfold action_of_content.
    destruct (ExtractJsonFromResponse content) as [|c r] eqn:He.
    { exfalso. apply H, extract_empty, He. }
    cbn [is_empty_str negb].
    destruct (json_parse (String c r)) as [j|] eqn:Hj; [|left; reflexivity].
    destruct (dump j) as [d|] eqn:Hd; [|left; reflexivity].
    right. exists j. split; [reflexivity|exact Hd].
  - apply unfenced_candidate.
Qed.

(** ** Snapshots without a turn *)


(** ** No NUL byte in what the call returns *)

Lemma c_str_no_nul (s : string) : no_nul s = true -> c_str s = s.
Proof.
  induction s as [|c r IH]; [reflexivity|]. cbn [no_nul c_str]. intros H.
  apply andb_true_iff in H as [Hc Hr]. destruct (code c =? 0)%N; [discriminate|].
  rewrite (IH Hr). reflexivity.
Qed.

Lemma no_nul_app (a b : string) : no_nul (a +:+ b) = no_nul a && no_nul b.
Proof.
  induction a as [|c a IH]; [reflexivity|]. rewrite append_cons. cbn [no_nul].
  rewrite IH, andb_assoc. reflexivity.
Qed.

Lemma EscapeJson_no_nul (s : string) : no_nul (EscapeJson s) = true.
Proof.
  induction s as [|c r IH]; [reflexivity|]. rewrite EscapeJson_cons, no_nul_app, IH, andb_true_r.
  destruct c as [[] [] [] [] [] [] [] []]; vm_compute; reflexivity.
Qed.

Lemma dump_quoted_no_nul (s q : string) : dump_quoted s = Some q -> no_nul q = true.
Proof.
  intros H. pose proof (dump_quoted_Some_utf8 _ _ H) as Hok.
  rewrite (dump_quoted_utf8 _ Hok) in H. injection H as <-.
  cbn [no_nul]. rewrite no_nul_app, EscapeJson_no_nul. reflexivity.
Qed.

Lemma all_digits_no_nul (d : string) : all_digits d = true -> no_nul d = true.
Proof.
  induction d as [|c d IH]; [reflexivity|]. cbn [all_digits no_nul]. intros H.
  apply andb_true_iff in H as [Hc Hd]. rewrite (IH Hd), andb_true_r.
  unfold is_digit, in_range in Hc. apply andb_true_iff in Hc as [Hlo _].
  apply N.leb_le in Hlo. destruct (N.eqb_spec (code c) 0); [lia|reflexivity].
Qed.

Lemma Z_to_dec_no_nul (z : Z) : no_nul (Z_to_dec z) = true.
Proof.
  assert (forall n, no_nul (N_to_dec n) = true) as Hn.
  { intros n. destruct (N_to_dec_spec n) as (c & d & -> & Hc & Hd & _).
    apply (all_digits_no_nul (String c d)). cbn [all_digits]. rewrite Hc, Hd. reflexivity. }
  unfold Z_to_dec. destruct (z <? 0); [|apply Hn]. cbn [no_nul]. rewrite Hn. reflexivity.
Qed.

Lemma take_digits_digits (s : string) :
  forall d t, take_digits s = (d, t) -> all_digits d = true.
Proof.
  induction s as [|c r IH]; intros d t; cbn [take_digits]; [intros [= <- _]; reflexivity|].
  destruct (is_digit c) eqn:Hc; [|intros [= <- _]; reflexivity].
  destruct (take_digits r) as [d0 t0] eqn:Hr. intros [= <- _].
  cbn [all_digits]. rewrite Hc, (IH _ _ eq_refl). reflexivity.
Qed.

Lemma scan_int_part_no_nul (s ip s2 : string) :
  scan_int_part s = Some (ip, s2) -> s = ip +:+ s2 /\ no_nul ip = true.
Proof.
  intros H. destruct (scan_int_part_extend _ _ _ H) as (Heq & _ & _). split; [exact Heq|].
  revert H. unfold scan_int_part. destruct s as [|c r]; [discriminate|].
  destruct (Ascii.eqb c "0"); [intros [= <- _]; reflexivity|].
  destruct (is_digit c) eqn:Hc; [|discriminate].
  destruct (take_digits r) as [d t] eqn:Hr. intros [= <- _].
  apply (all_digits_no_nul (String c d)). cbn [all_digits].
  rewrite Hc, (take_digits_digits _ _ _ Hr). reflexivity.
Qed.

Lemma scan_frac_no_nul (s fp s3 : string) :
  scan_frac s = Some (fp, s3) -> exists x, s = x +:+ s3 /\ no_nul x = true.
Proof.
  unfold scan_frac. destruct s as [|c r]; [intros [= _ <-]; exists EmptyString; auto|].
  destruct (Ascii.eqb c ".") eqn:Hc; [|intros [= _ <-]; exists EmptyString; auto].
  apply Ascii.eqb_eq in Hc as ->.
  destruct (take_digits r) as [d t] eqn:Hr.
  destruct (take_digits_extend _ _ _ Hr) as (-> & _ & _).
  pose proof (take_digits_digits _ _ _ Hr) as Hd.
  destruct d as [|d0 d']; [discriminate|]. intros [= _ <-].
  exists (String "." (String d0 d')). split; [reflexivity|].
  change (no_nul (String "." (String d0 d'))) with (no_nul (String d0 d')).
  apply all_digits_no_nul, Hd.
Qed.

Lemma scan_exp_no_nul (s s4 : string) (ep : option (bool * string)) :
  scan_exp s = Some (ep, s4) -> exists x, s = x +:+ s4 /\ no_nul x = true.
Proof.
  unfold scan_exp. destruct s as [|c r]; [intros [= _ <-]; exists EmptyString; auto|].
  destruct (Ascii.eqb c "e" || Ascii.eqb c "E") eqn:Hc;
    [|intros [= _ <-]; exists EmptyString; auto].
  assert (negb (code c =? 0)%N = true) as Hc0.
  { apply orb_true_iff in Hc as [Hc|Hc]; apply Ascii.eqb_eq in Hc as ->; reflexivity. }
  destruct r as [|sg r']; [cbn; discriminate|].
  destruct (Ascii.eqb sg "-") eqn:Hm; [|destruct (Ascii.eqb sg "+") eqn:Hp].
  - apply Ascii.eqb_eq in Hm as ->.
    destruct (take_digits r') as [d t] eqn:Hr.
    destruct (take_digits_extend _ _ _ Hr) as (-> & _ & _).
    pose proof (take_digits_digits _ _ _ Hr) as Hd.
    destruct d as [|d0 d']; [discriminate|]. intros [= _ <-].
    exists (String c (String "-" (String d0 d'))). split; [reflexivity|].
    cbn [no_nul]. rewrite Hc0. change (negb (code "-" =? 0)%N) with true.
    cbn [andb]. apply (all_digits_no_nul (String d0 d')), Hd.
  - apply Ascii.eqb_eq in Hp as ->.
    destruct (take_digits r') as [d t] eqn:Hr.
    destruct (take_digits_extend _ _ _ Hr) as (-> & _ & _).
    pose proof (take_digits_digits _ _ _ Hr) as Hd.
    destruct d as [|d0 d']; [discriminate|]. intros [= _ <-].
    exists (String c (String "+" (String d0 d'))). split; [reflexivity|].
    cbn [no_nul]. rewrite Hc0. change (negb (code "+" =? 0)%N) with true.
    cbn [andb]. apply (all_digits_no_nul (String d0 d')), Hd.
  - destruct (take_digits (String sg r')) as [d t] eqn:Hr.
    destruct (take_digits_extend _ _ _ Hr) as (Heq & _ & _).
    pose proof (take_digits_digits _ _ _ Hr) as Hd.
    destruct d as [|d0 d']; [discriminate|]. intros [= _ <-].
    exists (String c (String d0 d')). split; [rewrite Heq; reflexivity|].
    cbn [no_nul]. rewrite Hc0. cbn [andb]. apply (all_digits_no_nul (String d0 d')), Hd.
Qed.

Lemma scan_number_no_nul (s : string) (v : json) :
  scan_number s = Some (v, EmptyString) -> no_nul s = true.
Proof.
  assert (forall neg s0 s1, scan_number_from neg s0 s1 = Some (v, EmptyString) ->
                            no_nul s1 = true) as Hfrom.
  { intros neg s0 s1. unfold scan_number_from.
    destruct (scan_int_part s1) as [[ip s2]|] eqn:Hi; [|discriminate].
    destruct (scan_frac s2) as [[fp s3]|] eqn:Hf; [|discriminate].
    destruct (scan_exp s3) as [[ep s4]|] eqn:He; [|discriminate].
    destruct (scan_int_part_no_nul _ _ _ Hi) as (-> & H1).
    destruct (scan_frac_no_nul _ _ _ Hf) as (xf & -> & H2).
    destruct (scan_exp_no_nul _ _ _ He) as (xe & -> & H3).
    cbv zeta. intros H.
    assert (s4 = EmptyString) as ->.
    { revert H. repeat break_match; try discriminate; intros [= _ <-]; reflexivity. }
    rewrite !no_nul_app, H1, H2, H3. reflexivity. }
  rewrite scan_number_sign. destruct s as [|c r]; [discriminate|].
  destruct (Ascii.eqb c "-") eqn:Hc.
  - apply Ascii.eqb_eq in Hc as ->. intros H. cbn [no_nul].
    rewrite (Hfrom _ _ _ H). reflexivity.
  - apply Hfrom.
Qed.

Lemma dump_no_nul (j : json) :
  double_dump_reads ->
  forall r, dump j = Some r -> json_numbers j = true -> no_nul r = true.
Proof.
  intros Hd.
  induction j as [ |b|z|l|s|items IH|members IH] using json_ind2; intros r Hr Hn.
  - injection Hr as <-. reflexivity.
  - destruct b; injection Hr as <-; reflexivity.
  - injection Hr as <-. apply Z_to_dec_no_nul.
  - injection Hr as <-. destruct (Hd l EmptyString Hn eq_refl) as [j Hj].
    rewrite append_nil_r in Hj. apply (scan_number_no_nul _ _ Hj).
  - apply (dump_quoted_no_nul s r Hr).
  - cbn [dump json_numbers] in Hr, Hn. unfold prepend in Hr.
    match type of Hr with
    | match ?y with _ => _ end = _ => destruct y as [e|] eqn:He
    end; [|discriminate].
    injection Hr as <-. change (no_nul ("[" +:+ e)) with (no_nul e).
    clear Hd. revert e He Hn.
    induction IH as [|x items Hx _ IHl]; intros e He Hn; [injection He as <-; reflexivity|].
    destruct (dump x) as [dx|] eqn:Hdx; [|discriminate].
    match type of He with
    | match ?y with _ => _ end = _ => destruct y as [dr|] eqn:Hdr
    end; [|discriminate].
    injection He as <-. cbn [forallb] in Hn. apply andb_true_iff in Hn as [Hnx Hni].
    rewrite !no_nul_app, (Hx _ eq_refl Hnx), (IHl _ eq_refl Hni).
    destruct items; reflexivity.
  - cbn [dump json_numbers] in Hr, Hn. unfold prepend in Hr.
    match type of Hr with
    | match ?y with _ => _ end = _ => destruct y as [e|] eqn:He
    end; [|discriminate].
    injection Hr as <-. change (no_nul ("{" +:+ e)) with (no_nul e).
    clear Hd. revert e He Hn.
    induction IH as [|[k x] members Hx _ IHl]; intros e He Hn;
      [injection He as <-; reflexivity|].
    destruct (dump_quoted k) as [dk|] eqn:Hdk; [|discriminate].
    destruct (dump x) as [dx|] eqn:Hdx; [|discriminate].
    match type of He with
    | match ?y with _ => _ end = _ => destruct y as [dr|] eqn:Hdr
    end; [|discriminate].
    injection He as <-. cbn [forallb snd] in Hn, Hx. apply andb_true_iff in Hn as [Hnx Hni].
    rewrite !no_nul_app, (dump_quoted_no_nul _ _ Hdk), (Hx _ Hdx Hnx), (IHl _ eq_refl Hni).
    destruct members; reflexivity.
Qed.

Lemma action_of_content_no_nul (content : string) :
  double_dump_reads -> no_nul (action_of_content content) = true.
Proof.
  intros Hd. unfold action_of_content.
  destruct (negb (is_empty_str (ExtractJsonFromResponse content))).
  - destruct (json_parse (ExtractJsonFromResponse content)) as [j|] eqn:Hj; [|reflexivity].
    destruct (dump j) as [r|] eqn:Hr; [|reflexivity].
    apply (dump_no_nul j Hd r Hr). apply (json_parse_numbers _ _ Hj).
  - rewrite !no_nul_app, EscapeJson_no_nul. reflexivity.
Qed.

Lemma handle_response_no_nul (s : ApiState) (t p : Z) (response : string) :
  double_dump_reads -> no_nul (fst (handle_response s t p response)) = true.
Proof.
  intros Hd. unfold handle_response.
  repeat break_match; cbn [fst]; try reflexivity.
  - rewrite !no_nul_app, EscapeJson_no_nul. reflexivity.
  - apply action_of_content_no_nul, Hd.
Qed.

Lemma reachable_cache_property (P : string -> Prop) :
  P EmptyString ->
  (forall w s gs,
     P (g_cachedResponse s) -> P (g_cachedResponse (call_state (GetActionFromClaude w s gs)))) ->
  forall y, reachable y -> P (g_cachedResponse (api (engine y))).
Proof.
  intros H0 Hcall y [env Hsteps].
  assert (P (g_cachedResponse (api (engine (initial_system env))))) as Hi by exact H0.
  revert Hi. induction Hsteps as [|x y z Hxy _ IH]; [auto|].
  intros Hx. apply IH. clear IH. destruct Hxy; cbn [engine] in *.
  - revert H. unfold worker_step.
    destruct (g_asyncThread a) as [|gs pc|]; try discriminate. intros [= <-].
    destruct pc; try exact Hx.
    + destruct (g_asyncCancelled a); exact Hx.
    + destruct (call_outcome (GetActionFromClaude w (api a) gs)); cbn [api set_thread set_api];
        apply Hcall, Hx.
    + destruct (g_asyncCancelled a); exact Hx.
    + unfold store_result. repeat break_match; exact Hx.
  - destruct (StartAsyncRequest_cache _ _ _ _ H) as (_ & _ & ->). exact Hx.
  - unfold GetAsyncResponse. destruct (decide (g_asyncState a = Ready)); exact Hx.
  - exact Hx.
  - exact Hx.
  - revert H. unfold CancelAsyncRequest_reset.
    destruct (g_asyncThread a); try discriminate; intros [= <-]; exact Hx.
  - cbn [api set_api]. apply Hcall, Hx.
  - destruct (Initialize_cache (api a)) as (_ & _ & Hc). cbn [api set_api]. rewrite Hc.
    exact Hx.
  - exact H0.
Qed.

Lemma GetActionFromClaude_no_nul (w : World) (s : ApiState) (gs : string) :
  double_dump_reads -> no_nul (g_cachedResponse s) = true ->
  no_nul (g_cachedResponse (call_state (GetActionFromClaude w s gs))) = true
  /\ forall r, call_outcome (GetActionFromClaude w s gs) = Returned r -> no_nul r = true.
Proof.
  intros Hd Hinv. unfold GetActionFromClaude.
  destruct (is_empty_str (g_apiKey s)).
  { split; [exact Hinv|]. intros r [= <-]. reflexivity. }
  destruct (ExtractTurnAndPlayer gs) as [t p].
  destruct (cache_hit s t p).
  { split; [exact Hinv|]. cbn [call_outcome]. intros r [= <-].
    destruct (g_cachedResponse s); [reflexivity|exact Hinv]. }
  destruct (dump (request_json w s gs)) as [body|]; [|split; [exact Hinv|discriminate]].
  pose proof (handle_response_no_nul s t p (HttpPost w kApiHost kApiPath body (g_apiKey s)) Hd)
    as Hr.
  destruct (handle_response_json s t p (HttpPost w kApiHost kApiPath body (g_apiKey s)) Hd)
    as [_ Hs].
  destruct (handle_response s t p (HttpPost w kApiHost kApiPath body (g_apiKey s)))
    as [result s'].
  cbn [fst snd call_state call_outcome] in *. split.
  - destruct Hs as [-> | ->]; [exact Hinv|exact Hr].
  - intros r [= <-]. exact Hr.
Qed.

Lemma escape_byte_no_nul (c : ascii) (to s : string) :
  no_nul to = true -> no_nul s = true -> no_nul (escape_byte c to s) = true.
Proof.
  intros Hto. induction s as [|d r IH]; [reflexivity|]. cbn [no_nul escape_byte]. intros H.
  apply andb_true_iff in H as [Hd Hr]. destruct (Ascii.eqb d c).
  - rewrite no_nul_app, Hto, (IH Hr). reflexivity.
  - cbn [no_nul]. rewrite Hd, (IH Hr). reflexivity.
Qed.

Lemma EscapeForLua_no_nul (s : string) : no_nul s = true -> no_nul (EscapeForLua s) = true.
Proof.
  intros H. unfold EscapeForLua. repeat (apply escape_byte_no_nul; [reflexivity|]). exact H.
Qed.

(** X28. In every reachable state a text that [GetActionFromClaude]
    returns holds no NUL byte.  So the C strings made of it lose nothing:
    [PushStringToLua] pushes it in full through [pushstring] as through
    [pushlstring], and the [Game.SetProperty] call built on its
    [EscapeForLua] text reaches [dostring] whole.  (A double is taken to
    print as a JSON number.) *)
Theorem returned_text_survives_c_strings (y : System) (w : World) (gs r : string) :
  double_dump_reads -> reachable y ->
  call_outcome (GetActionFromClaude w (api (engine y)) gs) = Returned r ->
  c_str r = r
  /\ (forall hks rt,
        has_pushlstring hks = true \/ has_pushstring hks = true ->
        PushStringToLua hks r rt = lua_push (LString r) rt)
  /\ c_str (kSetPropertyOpen +:+ EscapeForLua r +:+ kSetPropertyClose)
     = kSetPropertyOpen +:+ EscapeForLua r +:+ kSetPropertyClose.
Proof.
  intros Hd Hreach Hout.
  assert (no_nul (g_cachedResponse (api (engine y))) = true) as Hc.
  { apply (reachable_cache_property (fun s => no_nul s = true)); [reflexivity| |exact Hreach].
    intros w' s gs' Hs. apply GetActionFromClaude_no_nul; assumption. }
  destruct (GetActionFromClaude_no_nul w _ gs Hd Hc) as [_ Hr].
  specialize (Hr r Hout).
  split; [apply c_str_no_nul, Hr|]. split.
  - intros hks rt Hpush. unfold PushStringToLua.
    destruct (has_pushlstring hks); [reflexivity|].
    destruct Hpush as [Hp|Hp]; [discriminate|]. rewrite Hp, (c_str_no_nul r Hr). reflexivity.
  - apply c_str_no_nul. rewrite !no_nul_app, (EscapeForLua_no_nul r Hr). reflexivity.
Qed.

End Properties.

(** * Worked examples

    Each theorem with a hypothesis is applied once to the sample data, and
    the two claims that fail under shutdown are shown to fail there. *)

#[local] Existing Instance sample_platform.

(** The literals read as intended, and the library model behaves as the
    library on small texts. *)

Example cstr_reads_quotes :
  cstr "{'a':1}"
  = String "{" (String DQ (String "a" (String DQ (String ":" (String "1" (String "}" EmptyString)))))).
Proof. reflexivity. Qed.

Example json_parse_object :
  json_parse (cstr " {'b' : [1, -2, true, null], 'a' : 'x\\n'} ")
  = Some (JObject [("a", JString (cstr "x\n"));
                   ("b", JArray [JInt 1; JInt (-2); JBool true; JNull])]).
Proof. vm_compute. reflexivity. Qed.

Example json_parse_rejects :
  json_parse (cstr "{'a':1,}") = None
  /\ json_parse (cstr "[1 2]") = None
  /\ json_parse "01" = None
  /\ json_parse "1e999" = None
  /\ json_parse (cstr "'tab\there'") = None
  /\ json_parse "just plain text" = None
  /\ json_parse EmptyString = None.
Proof. repeat split; vm_compute; reflexivity. Qed.

Example dump_sorts_and_escapes :
  dump (obj_of [("z", JInt 4096); ("a", JString (cstr "say 'hi'\n"))])
  = Some (cstr "{'a':'say \\'hi\\'\\n','z':4096}").
Proof. vm_compute. reflexivity. Qed.

Example dump_rejects_bad_utf8 : dump (JString (String (byte_of 200) "x")) = None.
Proof. vm_compute. reflexivity. Qed.

Example EscapeJson_sample :
  EscapeJson (cstr "rate 'limited'\n") = cstr "rate \\'limited\\'\\n".
Proof. vm_compute. reflexivity. Qed.

Example ExtractTurnAndPlayer_samples :
  ExtractTurnAndPlayer kTurn5 = (5, 0)
  /\ ExtractTurnAndPlayer (cstr "{'turn':5,'playerID':'x'}") = (5, -1)
  /\ ExtractTurnAndPlayer (cstr "{'turn':'x','playerID':3}") = (-1, -1)
  /\ ExtractTurnAndPlayer "not json" = (-1, -1).
Proof. repeat split; vm_compute; reflexivity. Qed.

Example ExtractCivInfo_sample :
  ExtractCivInfo
    (cstr "{'player':{'civilizationType':'CIVILIZATION_HOLY_ROMAN','leaderType':'LEADER_TRAJAN'}}")
  = ("HolyRoman", "Trajan").
Proof. vm_compute. reflexivity. Qed.

Example extraction_more_vectors :
  ExtractJsonFromResponse (cstr "text ```\n{'a':1}\n``` and ```json\n{'b':2}\n```") = cstr "{'b':2}"
  /\ ExtractJsonFromResponse (cstr "{'a':'}'}") = cstr "{'a':'}'}"
  /\ ExtractJsonFromResponse (cstr "  padded  \n") = "padded".
Proof. repeat split; vm_compute; reflexivity. Qed.

Lemma start_request_witness :
  reachable (initial_system (Some "key"))
  /\ exists a',
       StartAsyncRequest kTurn5 (initial_async (Some "key")) = Some (true, a')
       /\ g_asyncState a' = Pending
       /\ g_asyncThread a' = Running kTurn5 AtEntry.
Proof.
  assert (reachable (initial_system (Some "key"))) as Hr
    by (exists (Some "key"); apply rtc_refl).
  split; [exact Hr|].
  destruct (start_request (initial_system (Some "key")) kTurn5 Hr) as (_ & H & _).
  destruct H as (a' & H1 & _ & _ & _ & H2 & H3);
    [simpl; discriminate|right; simpl; discriminate|].
  exists a'. split; [exact H1|]. split; [exact H2|exact H3].
Defined.

Lemma take_result_at_most_once_witness :
  g_asyncState sample_ready = Ready
  /\ fst (GetAsyncResponse sample_ready) = kEndTurn
  /\ g_asyncState (snd (GetAsyncResponse sample_ready)) = Idle
  /\ GetAsyncResponse (snd (GetAsyncResponse sample_ready))
       = (EmptyString, snd (GetAsyncResponse sample_ready)).
Proof.
  destruct (take_result_at_most_once sample_ready) as (H & _ & _).
  destruct (H eq_refl) as (H1 & H2 & _ & H4).
  split; [reflexivity|]. split; [exact H1|]. split; [exact H2|exact H4].
Defined.

Lemma cancel_right_after_start_witness :
  StartAsyncRequest kTurn5 sample_idle = Some (true, sample_started)
  /\ CancelAsyncRequest_reset
       (run_worker 3 world_rate_limited (CancelAsyncRequest_signal sample_started))
     = Some sample_cancelled
  /\ g_asyncState sample_cancelled = Idle
  /\ g_asyncResponse sample_cancelled = EmptyString
  /\ g_asyncError sample_cancelled = EmptyString
  /\ exists a5, StartAsyncRequest kTurn6 sample_cancelled = Some (true, a5).
Proof.
  assert (StartAsyncRequest kTurn5 sample_idle = Some (true, sample_started)) as H1
    by reflexivity.
  assert (CancelAsyncRequest_reset
            (run_worker 3 world_rate_limited (CancelAsyncRequest_signal sample_started))
          = Some sample_cancelled) as H2 by (vm_compute; reflexivity).
  destruct (cancel_right_after_start kTurn5 sample_idle sample_started sample_started
              (run_worker 3 world_rate_limited (CancelAsyncRequest_signal sample_started))
              sample_cancelled H1 (rtc_refl _ _) (or_introl eq_refl)
              (run_worker_steps 3 world_rate_limited _) H2)
    as ((Ha & Hb & Hc) & Hd & _).
  split; [exact H1|]. split; [exact H2|]. split; [exact Ha|]. split; [exact Hb|].
  split; [exact Hc|apply Hd].
Defined.

Lemma extraction_passthrough_witness :
  balanced_object (fenced_candidate kFencedHello) = None
  /\ skip_ws (fenced_candidate kFencedHello) <> EmptyString
  /\ ExtractJsonFromResponse kFencedHello = ws_trim (fenced_candidate kFencedHello)
  /\ ws_trim (fenced_candidate kFencedHello) = "hello".
Proof.
  assert (balanced_object (fenced_candidate kFencedHello) = None) as H1
    by (vm_compute; reflexivity).
  assert (skip_ws (fenced_candidate kFencedHello) <> EmptyString) as H2
    by (vm_compute; discriminate).
  split; [exact H1|]. split; [exact H2|].
  split; [apply (extraction_passthrough kFencedHello H1 H2)|vm_compute; reflexivity].
Defined.



Lemma error_surfacing_witness :
  StartAsyncRequest kTurn5 sample_idle = Some (true, sample_started)
  /\ call_posted (GetActionFromClaude world_rate_limited (api sample_started) kTurn5) <> None
  /\ g_asyncState (AsyncWorkerThread world_rate_limited sample_started) = Failed
  /\ g_asyncError (AsyncWorkerThread world_rate_limited sample_started) = "rate limited".
Proof.
  assert (StartAsyncRequest kTurn5 sample_idle = Some (true, sample_started)) as H1
    by reflexivity.
  assert (call_posted (GetActionFromClaude world_rate_limited (api sample_started) kTurn5)
          <> None) as H2 by (vm_compute; discriminate).
  destruct (error_surfacing world_rate_limited kTurn5 sample_idle sample_started H1
              (fun _ _ _ _ => eq_refl) H2) as (Ha & Hb & _).
  split; [exact H1|]. split; [exact H2|]. split; [exact Ha|exact Hb].
Defined.

Lemma registration_once_witness :
  g_shutdownRequested (initial_bridge None) = false
  /\ times_registered 7%N
       (intercept_all sample_hks sample_pcall [7; 9; 7; 0]%N (initial_bridge None)) = 1%nat
  /\ times_registered 0%N
       (intercept_all sample_hks sample_pcall [7; 9; 7; 0]%N (initial_bridge None)) = 0%nat
  /\ registrations
       (intercept_all sample_hks sample_pcall (replicate 3 7%N) (initial_bridge None)) = [7%N].
Proof.
  destruct (registration_once sample_hks sample_pcall [7; 9; 7; 0]%N (initial_bridge None)
              eq_refl eq_refl eq_refl eq_refl eq_refl) as (Ha & Hb & _).
  destruct (registration_once sample_hks sample_pcall (replicate 3 7%N) (initial_bridge None)
              eq_refl eq_refl eq_refl eq_refl eq_refl) as (_ & _ & _ & Hc).
  split; [reflexivity|].
  split; [apply (Ha 7%N); [left|discriminate]|].
  split; [apply Hb; right; reflexivity|].
  apply (Hc 7%N 2%nat); [discriminate|reflexivity].
Defined.

Lemma error_only_when_failed_witness :
  reachable {| engine := sample_failed; in_cancel := false |}
  /\ fst (GetAsyncError sample_failed) = "Failed to initialize API"
  /\ fst (GetAsyncError (initial_async None)) = EmptyString.
Proof.
  assert (reachable {| engine := sample_failed; in_cancel := false |}) as Hr.
  { exists None. eapply rtc_l; [|apply rtc_refl].
    apply (step_start kTurn5 (initial_async None) false sample_failed). reflexivity. }
  assert (reachable (initial_system None)) as Hi by (exists None; apply rtc_refl).
  destruct (error_only_when_failed _ Hr) as (Ha & _).
  destruct (error_only_when_failed _ Hi) as (Hb & _).
  split; [exact Hr|]. split; [exact Ha|exact Hb].
Defined.

Lemma no_game_state_received_witness :
  lacks_game_state sample_hks (runtime_of (initial_bridge None) 1%N)
  /\ (exists b',
        lua_SendGameStateToClaudeAPI sample_hks world_rate_limited 1%N (initial_bridge None)
          = (Returned 1, b')
        /\ async b' = async (initial_bridge None)
        /\ lua_stack (runtime_of b' 1%N) = [LString kErrNoGameState])
  /\ (exists b',
        lua_StartClaudeAPIRequest sample_hks 1%N (initial_bridge None) = Some (1, b')
        /\ async b' = async (initial_bridge None)
        /\ lua_stack (runtime_of b' 1%N) = [LBoolean false])
  /\ (exists b',
        lua_SendGameStateToClaudeAPI sample_hks_integers world_rate_limited 1%N
          (initial_bridge None) = (Returned 1, b')
        /\ lua_stack (runtime_of b' 1%N) = [])
  /\ (exists b',
        lua_StartClaudeAPIRequest sample_hks_integers 1%N (initial_bridge None) = Some (1, b')
        /\ lua_stack (runtime_of b' 1%N) = [LInteger 0]).
Proof.
  assert (lacks_game_state sample_hks (runtime_of (initial_bridge None) 1%N)) as H
    by (left; vm_compute; reflexivity).
  assert (lacks_game_state sample_hks_integers (runtime_of (initial_bridge None) 1%N)) as H'
    by (left; vm_compute; reflexivity).
  split; [exact H|].
  destruct (no_game_state_received sample_hks world_rate_limited 1%N (initial_bridge None) H)
    as [(b1 & Ha & Hb & _ & Hc & _) (b2 & Hd & He & _ & Hf & _)].
  destruct (no_game_state_received sample_hks_integers world_rate_limited 1%N
              (initial_bridge None) H')
    as [(b3 & Hg & _ & _ & _ & _ & Hh) (b4 & Hi & _ & _ & _ & Hj & _)].
  split; [|split; [|split]].
  - exists b1. split; [exact Ha|]. split; [exact Hb|]. exact (Hc eq_refl).
  - exists b2. split; [exact Hd|]. split; [exact He|]. exact (Hf eq_refl).
  - exists b3. split; [exact Hg|]. rewrite (Hh eq_refl eq_refl). reflexivity.
  - exists b4. split; [exact Hi|]. exact (Hj eq_refl eq_refl).
Defined.

(** C8, as claimed, fails: once shutdown has been requested, two events with
    the same handle register nothing; the handle stays out of the log and
    its runtime gets no binding. *)
Lemma registration_suppressed_by_shutdown :
  registrations
    (intercept_all sample_hks sample_pcall [7; 7]%N (request_shutdown (initial_bridge None)))
    = []
  /\ times_registered 7%N
       (intercept_all sample_hks sample_pcall [7; 7]%N (request_shutdown (initial_bridge None)))
     = 0%nat
  /\ lua_globals
       (runtime_of
          (intercept_all sample_hks sample_pcall [7; 7]%N
             (request_shutdown (initial_bridge None))) 7%N)
       !! "StartClaudeAPIRequest" = None.
Proof. split; [reflexivity|]. split; reflexivity. Qed.

(** C10, as claimed, fails: once shutdown has been requested, the blocking
    entry point called with no argument returns the shutdown error, which is
    not the text the claim names. *)
Lemma shutdown_answer_differs :
  lacks_game_state sample_hks (runtime_of (request_shutdown (initial_bridge None)) 1%N)
  /\ (exists b',
        lua_SendGameStateToClaudeAPI sample_hks world_rate_limited 1%N
          (request_shutdown (initial_bridge None)) = (Returned 1, b')
        /\ lua_stack (runtime_of b' 1%N) = [LString kErrShutdown])
  /\ kErrShutdown <> kErrNoGameState.
Proof.
  split; [left; vm_compute; reflexivity|].
  split; [eexists; split; reflexivity|discriminate].
Qed.

(** The further properties, each applied once to the sample data. *)

Lemma EscapeJson_round_trip_witness :
  utf8_ok [] kCafe = true
  /\ json_parse (String DQ (EscapeJson kCafe +:+ chr DQ)) = Some (JString kCafe).
Proof.
  assert (utf8_ok [] kCafe = true) as H by (vm_compute; reflexivity).
  split; [exact H|apply (EscapeJson_round_trip kCafe H)].
Defined.

Lemma api_error_message_surfaces_witness :
  StartAsyncRequest kTurn5 sample_idle = Some (true, sample_started)
  /\ g_asyncState (AsyncWorkerThread world_rate_limited sample_started) = Failed
  /\ g_asyncError (AsyncWorkerThread world_rate_limited sample_started) = "rate limited"
  /\ api (AsyncWorkerThread world_rate_limited sample_started) = api sample_started.
Proof.
  assert (StartAsyncRequest kTurn5 sample_idle = Some (true, sample_started)) as H1
    by reflexivity.
  assert (exists body,
            call_posted (GetActionFromClaude world_rate_limited (api sample_started) kTurn5)
            = Some body) as [body H2] by (vm_compute; eexists; reflexivity).
  destruct (api_error_message_surfaces world_rate_limited kTurn5 body "rate limited"
              (JObject [("error", JObject [("message", JString "rate limited")])])
              sample_idle sample_started H1 H2)
    as (Ha & Hb & _ & Hd); [vm_compute; reflexivity|reflexivity|reflexivity|].
  split; [exact H1|]. split; [exact Ha|]. split; [exact Hb|exact Hd].
Defined.

Lemma parsed_action_is_its_dump_witness :
  json_parse (ExtractJsonFromResponse kFencedAction)
    = Some (JObject [("a", JArray [JBool true]); ("b", JInt 1)])
  /\ action_of_content kFencedAction = kSortedAction.
Proof.
  assert (json_parse (ExtractJsonFromResponse kFencedAction)
          = Some (JObject [("a", JArray [JBool true]); ("b", JInt 1)])) as H
    by (vm_compute; reflexivity).
  split; [exact H|].
  destruct (parsed_action_is_its_dump kFencedAction _ H) as (r & Hr & Ha).
  rewrite Ha. vm_compute in Hr. injection Hr as <-. reflexivity.
Defined.

Lemma call_throws_exactly_on_ill_formed_utf8_witness :
  g_apiKey sample_api <> EmptyString
  /\ (exists result body,
        call_outcome (GetActionFromClaude world_end_turn sample_api kTurn5) = Returned result
        /\ call_posted (GetActionFromClaude world_end_turn sample_api kTurn5) = Some body)
  /\ GetActionFromClaude world_end_turn sample_api kNotUtf8
     = {| call_outcome :=
            Thrown (dump_error_what (request_json world_end_turn sample_api kNotUtf8));
          call_state := sample_api; call_posted := None |}.
Proof.
  assert (g_apiKey sample_api <> EmptyString) as Hk by (vm_compute; discriminate).
  split; [exact Hk|]. split.
  - destruct (call_throws_exactly_on_ill_formed_utf8 world_end_turn sample_api kTurn5 Hk)
      as [H _]; [vm_compute; reflexivity|].
    apply H. vm_compute. reflexivity.
  - destruct (call_throws_exactly_on_ill_formed_utf8 world_end_turn sample_api kNotUtf8 Hk)
      as [_ H]; [vm_compute; reflexivity|].
    apply H. vm_compute. reflexivity.
Defined.

Lemma cache_hit_returns_stored_answer_witness :
  cache_inv (api sample_answered)
  /\ g_cachedResponse (api sample_answered) = kEndTurn
  /\ GetActionFromClaude world_rate_limited (api sample_answered) kTurn5
     = {| call_outcome := Returned (g_cachedResponse (api sample_answered));
          call_state := api sample_answered; call_posted := None |}
  /\ ~ cache_inv sample_between_stores
  /\ GetActionFromClaude world_rate_limited sample_between_stores kTurn5
     = {| call_outcome := Returned kAlreadyQueried;
          call_state := sample_between_stores; call_posted := None |}.
Proof.
  assert (forall l, double_dump l <> EmptyString) as H0
    by (intros l; simpl; destruct l; discriminate).
  destruct (cache_hit_returns_stored_answer world_end_turn (initial_api (Some "key")) kTurn5 H0)
    as (Hinit & Hkeep0 & _).
  destruct (Hkeep0 (Hinit (Some "key"))) as (_ & Hkeyed & _).
  destruct (cache_hit_returns_stored_answer world_end_turn (api sample_keyed) kTurn5 H0)
    as (_ & Hkeep1 & _).
  destruct (Hkeep1 Hkeyed) as (Hanswered & _).
  destruct (cache_hit_returns_stored_answer world_rate_limited (api sample_answered) kTurn5 H0)
    as (_ & _ & Hhit).
  destruct Hhit as [Hstored _]; [vm_compute; discriminate|vm_compute; reflexivity|].
  destruct (Hstored Hanswered) as [_ Hcall].
  destruct (cache_hit_returns_stored_answer world_rate_limited sample_between_stores kTurn5 H0)
    as (_ & _ & Hmid).
  destruct Hmid as [_ Hempty]; [vm_compute; discriminate|vm_compute; reflexivity|].
  destruct (Hempty eq_refl) as [Hbroken Hplaceholder].
  split; [exact Hanswered|]. split; [vm_compute; reflexivity|]. split; [exact Hcall|].
  split; [exact Hbroken|exact Hplaceholder].
Defined.

Lemma async_agrees_with_blocking_witness :
  StartAsyncRequest kTurn5 sample_idle = Some (true, sample_started)
  /\ call_outcome (GetActionFromClaude world_end_turn (api sample_started) kTurn5)
     = Returned kEndTurn
  /\ g_asyncThread (AsyncWorkerThread world_end_turn sample_started) = Finished
  /\ g_asyncResponse (AsyncWorkerThread world_end_turn sample_started) = kEndTurn
  /\ api (AsyncWorkerThread world_end_turn sample_started)
     = call_state (GetActionFromClaude world_end_turn (api sample_started) kTurn5).
Proof.
  assert (StartAsyncRequest kTurn5 sample_idle = Some (true, sample_started)) as H1
    by reflexivity.
  assert (call_outcome (GetActionFromClaude world_end_turn (api sample_started) kTurn5)
          = Returned kEndTurn) as H2 by (vm_compute; reflexivity).
  pose proof (async_agrees_with_blocking world_end_turn kTurn5 sample_idle sample_started H1)
    as H. cbv zeta in H. rewrite H2 in H. destruct H as (Ha & Hb & Hc & _).
  split; [exact H1|]. split; [exact H2|]. split; [exact Ha|]. split; [exact Hc|exact Hb].
Defined.

Lemma cancelled_answer_is_cached_witness :
  call_state (GetActionFromClaude world_end_turn (api sample_in_flight) kTurn5)
    = with_cache 5 0 kEndTurn (api sample_in_flight)
  /\ exists a3 a4,
       CancelAsyncRequest_reset
         (AsyncWorkerThread world_end_turn (CancelAsyncRequest_signal sample_in_flight))
       = Some a3
       /\ g_asyncState a3 = Idle
       /\ StartAsyncRequest kTurn5 a3 = Some (true, a4)
       /\ call_posted (GetActionFromClaude world_rate_limited (api a4) kTurn5) = None
       /\ g_asyncResponse (AsyncWorkerThread world_rate_limited a4) = kEndTurn.
Proof.
  assert (call_state (GetActionFromClaude world_end_turn (api sample_in_flight) kTurn5)
          = with_cache 5 0 kEndTurn (api sample_in_flight)) as H
    by (vm_compute; reflexivity).
  split; [exact H|].
  destruct (cancelled_answer_is_cached world_end_turn kTurn5 kEndTurn 5 0 sample_in_flight)
    as (a3 & a4 & Ha & Hb & _ & Hd & He);
    [reflexivity|vm_compute; discriminate|vm_compute; reflexivity|lia|lia|discriminate
    |exact H|].
  exists a3, a4. destruct (He world_rate_limited) as (Hf & Hg & _).
  split; [exact Ha|]. split; [exact Hb|]. split; [exact Hd|].
  split; [rewrite Hf; reflexivity|exact Hg].
Defined.

Lemma api_key_comes_from_environment_witness :
  rtc step (initial_system (Some "key")) {| engine := sample_keyed; in_cancel := false |}
  /\ rtc step {| engine := sample_keyed; in_cancel := false |}
       {| engine := sample_answered; in_cancel := false |}
  /\ g_apiKey (api sample_keyed) = "key"
  /\ g_apiKey (api sample_answered) = g_apiKey (api sample_keyed)
  /\ g_model (api sample_keyed) = kDefaultModel.
Proof.
  assert (rtc step (initial_system (Some "key"))
            {| engine := sample_keyed; in_cancel := false |}) as H1.
  { eapply rtc_l; [apply (step_initialize (initial_async (Some "key")))|apply rtc_refl]. }
  assert (rtc step {| engine := sample_keyed; in_cancel := false |}
            {| engine := sample_answered; in_cancel := false |}) as H2.
  { eapply rtc_l; [apply (step_blocking_call world_end_turn kTurn5 sample_keyed)|].
    apply rtc_refl. }
  destruct (api_key_comes_from_environment (Some "key") _ _ H1 H2)
    as (_ & _ & Hm & _ & Hk).
  split; [exact H1|]. split; [exact H2|]. split; [reflexivity|].
  split; [apply Hk; vm_compute; discriminate|exact Hm].
Defined.

Lemma test_connection_accepts_what_the_call_caches_witness :
  test_outcome (TestConnection world_end_turn (initial_api (Some "key"))) = Returned true
  /\ forall s' t p, exists content,
       handle_response s' t p kEndTurnReply
       = (action_of_content content, with_cache t p (action_of_content content) s').
Proof.
  assert (test_outcome (TestConnection world_end_turn (initial_api (Some "key")))
          = Returned true) as H1 by (vm_compute; reflexivity).
  assert (exists body,
            test_posted (TestConnection world_end_turn (initial_api (Some "key")))
            = Some body) as [body H2] by (vm_compute; eexists; reflexivity).
  destruct (test_connection_accepts_what_the_call_caches world_end_turn
              (initial_api (Some "key"))) as (_ & _ & H).
  destruct (H body H2) as [Ha _].
  split; [exact H1|exact (Ha H1)].
Defined.


Lemma fallback_prompt_names_leader_and_civilization_witness :
  chr_find "Rome" "{" 0 = None
  /\ BuildSystemPrompt world_end_turn "Rome" "Trajan"
     = kPromptHead +:+ ("Trajan" +:+ (kPromptOf +:+ ("Rome" +:+ kPromptTail))).
Proof.
  split; [vm_compute; reflexivity|].
  apply (fallback_prompt_names_leader_and_civilization world_end_turn "Rome" "Trajan");
    [left; reflexivity|vm_compute; reflexivity].
Defined.

Lemma type_names_become_camel_case_witness :
  Forall type_word ["HOLY"; "ROMAN"]
  /\ tidy_name "HOLY_ROMAN" = "HolyRoman"
  /\ strip_type_prefix "CIVILIZATION_" 13 "CIVILIZATION_HOLY_ROMAN" = "HolyRoman".
Proof.
  assert (Forall type_word ["HOLY"; "ROMAN"]) as H
    by (repeat constructor; discriminate).
  destruct (type_names_become_camel_case ["HOLY"; "ROMAN"] ltac:(discriminate) H)
    as (Ha & Hb & _).
  split; [exact H|]. split; [exact Ha|exact Hb].
Defined.

Lemma poll_reports_state_witness :
  g_shutdownRequested (set_async sample_ready (initial_bridge None)) = false
  /\ fst (lua_CheckClaudeAPIResponse sample_hks None 1%N
            (set_async sample_ready (initial_bridge None))) = 2
  /\ lua_stack
       (runtime_of
          (snd (lua_CheckClaudeAPIResponse sample_hks None 1%N
                  (set_async sample_ready (initial_bridge None)))) 1%N)
     = [LString kEndTurn; LString "ready"]
  /\ g_asyncState
       (async (snd (lua_CheckClaudeAPIResponse sample_hks None 1%N
                      (set_async sample_ready (initial_bridge None))))) = Idle.
Proof.
  destruct (poll_reports_state sample_hks None 1%N
              (set_async sample_ready (initial_bridge None)) eq_refl eq_refl eq_refl)
    as (_ & _ & _ & H).
  destruct (H eq_refl (or_intror eq_refl)) as (Ha & Hb & Hc & _).
  split; [reflexivity|]. split; [exact Ha|]. split; [exact Hb|exact Hc].
Defined.

Lemma poll_long_response_witness :
  (kLongResponseThreshold < String.length (g_asyncResponse sample_ready_long))%nat
  /\ fst (lua_CheckClaudeAPIResponse sample_hks (Some sample_dostring) 1%N
            (set_async sample_ready_long (initial_bridge None))) = 1
  /\ lua_stack
       (runtime_of
          (snd (lua_CheckClaudeAPIResponse sample_hks (Some sample_dostring) 1%N
                  (set_async sample_ready_long (initial_bridge None)))) 1%N)
     = [LString "ready_long"]
  /\ g_asyncState
       (async (snd (lua_CheckClaudeAPIResponse sample_hks (Some sample_dostring) 1%N
                      (set_async sample_ready_long (initial_bridge None))))) = Idle.
Proof.
  assert (kLongResponseThreshold < String.length (g_asyncResponse sample_ready_long))%nat
    as Hlen by (apply Nat.ltb_lt; vm_compute; reflexivity).
  destruct (poll_long_response sample_hks sample_dostring 1%N
              (set_async sample_ready_long (initial_bridge None)) 0
              (runtime_of (set_async sample_ready_long (initial_bridge None)) 1%N)
              eq_refl eq_refl eq_refl eq_refl Hlen eq_refl)
    as (Ha & _ & Hc & _).
  destruct (Hc eq_refl) as [Hd He].
  split; [exact Hlen|]. split; [exact Hd|]. split; [exact He|exact Ha].
Defined.


Lemma install_pcall_hook_bounded_witness :
  MH_CreateHook sample_minhook 3 = MH_OK
  /\ g_pcallHookInstalled (hooks_after (InstallPcallHook true sample_minhook initial_hooks))
     = true
  /\ create_calls (InstallPcallHook true sample_minhook initial_hooks) = 3%nat
  /\ sleep_calls (InstallPcallHook true sample_minhook initial_hooks) = 2%nat.
Proof.
  destruct (install_pcall_hook_bounded true sample_minhook initial_hooks)
    as (_ & Hs & _ & _ & _ & _ & Hk & _).
  destruct (Hk eq_refl 3%nat) as [Ha Hb];
    [unfold kMaxHookRetries; lia
    |intros n Hn; assert (n = 1 \/ n = 2)%nat as [-> | ->] by lia; reflexivity
    |reflexivity|reflexivity|].
  split; [reflexivity|]. split; [exact Ha|]. split; [exact Hb|].
  rewrite Hs, Hb. reflexivity.
Defined.

(** The sample platform prints a double by its lexeme, which reads as a
    number. *)
Lemma sample_platform_reads : double_dump_reads.
Proof.
  intros l t Hl Ht. exists (JFloat l). cbn [double_dump sample_platform].
  destruct l as [|c l]; [discriminate|]. cbn [is_empty_str].
  apply float_lexeme_extend; assumption.
Qed.

Lemma sample_answered_reachable : reachable {| engine := sample_answered; in_cancel := false |}.
Proof.
  exists (Some "key").
  eapply rtc_l; [apply (step_initialize (initial_async (Some "key")))|].
  eapply rtc_l; [apply (step_blocking_call world_end_turn kTurn5 sample_keyed)|].
  apply rtc_refl.
Qed.

Lemma returned_text_is_json_witness :
  reachable {| engine := sample_answered; in_cancel := false |}
  /\ call_outcome (GetActionFromClaude world_rate_limited (api sample_answered) kTurn6)
     = Returned kErrRateLimited
  /\ is_json kErrRateLimited.
Proof.
  assert (call_outcome (GetActionFromClaude world_rate_limited (api sample_answered) kTurn6)
          = Returned kErrRateLimited) as H by (vm_compute; reflexivity).
  split; [exact sample_answered_reachable|]. split; [exact H|].
  exact (returned_text_is_json _ world_rate_limited kTurn6 kErrRateLimited
           sample_platform_reads sample_answered_reachable H).
Defined.

Lemma ready_response_is_plain_json_witness :
  reachable {| engine := sample_done; in_cancel := false |}
  /\ g_asyncState sample_done = Ready
  /\ fst (GetAsyncResponse sample_done) = kEndTurn
  /\ plain_answer kEndTurn.
Proof.
  assert (reachable {| engine := sample_done; in_cancel := false |}) as Hr.
  { exists (Some "key").
    eapply rtc_l;
      [apply (step_start kTurn5 (initial_async (Some "key")) true sample_started); reflexivity|].
    apply (run_worker_system_steps 5 world_end_turn sample_started false). }
  assert (g_asyncState sample_done = Ready) as Hs by (vm_compute; reflexivity).
  assert (fst (GetAsyncResponse sample_done) = kEndTurn) as Hf by (vm_compute; reflexivity).
  destruct (ready_response_is_plain_json _ sample_platform_reads Hr Hs) as [H _].
  cbn [engine] in H. rewrite Hf in H.
  split; [exact Hr|]. split; [exact Hs|]. split; [exact Hf|exact H].
Defined.

Lemma blocking_entry_point_lets_exception_through_witness :
  game_state_argument sample_hks (runtime_of (sample_call_bridge kNotUtf8) 1%N) = Some kNotUtf8
  /\ fst (lua_SendGameStateToClaudeAPI sample_hks world_end_turn 1%N
            (sample_call_bridge kNotUtf8))
     = Thrown (dump_error_what (request_json world_end_turn sample_api kNotUtf8))
  /\ lua_stack
       (runtime_of
          (snd (lua_SendGameStateToClaudeAPI sample_hks world_end_turn 1%N
                  (sample_call_bridge kNotUtf8))) 1%N)
     = [LString kNotUtf8]
  /\ fst (lua_SendGameStateToClaudeAPI sample_hks world_end_turn 1%N
            (sample_call_bridge kTurn5))
     = Returned 1.
Proof.
  assert (forall gs,
            game_state_argument sample_hks (runtime_of (sample_call_bridge gs) 1%N)
            = if (0 <? String.length gs)%nat then Some gs else None) as Harg.
  { intros gs. unfold sample_call_bridge. rewrite runtime_of_set_runtime. reflexivity. }
  destruct (blocking_entry_point_lets_exception_through sample_hks world_end_turn 1%N
              (sample_call_bridge kNotUtf8) kNotUtf8) as [Hbad _];
    [reflexivity|apply Harg|vm_compute; discriminate|vm_compute; reflexivity|].
  destruct Hbad as (Ha & Hb & _); [vm_compute; reflexivity|].
  destruct (blocking_entry_point_lets_exception_through sample_hks world_end_turn 1%N
              (sample_call_bridge kTurn5) kTurn5) as [_ Hgood];
    [reflexivity|apply Harg|vm_compute; discriminate|vm_compute; reflexivity|].
  destruct Hgood as (action & _ & Hc & _); [vm_compute; reflexivity|].
  split; [apply Harg|]. split; [exact Ha|]. split; [|exact Hc].
  rewrite Hb. unfold sample_call_bridge. rewrite runtime_of_set_runtime. reflexivity.
Defined.

Lemma lua_execution_lifecycle_witness :
  ExecuteLuaCode (InitializeHavokScriptIntegration true (Some sample_dostring) initial_hooks)
    "return 1" (initial_bridge None)
  = (false, initial_bridge None)
  /\ fst (ExecuteLuaCode
            (InitializeHavokScriptIntegration true (Some sample_dostring) initial_hooks)
            "return 1"
            (snd (HookedPcall sample_hks sample_pcall 1%N 0 0 0 (initial_bridge None))))
     = true
  /\ fst (ExecuteLuaCode
            (InitializeHavokScriptIntegration false (Some sample_dostring) initial_hooks)
            "return 1"
            (snd (HookedPcall sample_hks sample_pcall 1%N 0 0 0 (initial_bridge None))))
     = false.
Proof.
  destruct (lua_execution_lifecycle sample_hks sample_pcall sample_dostring initial_hooks
              1%N 0 0 0 (initial_bridge None) "return 1")
    as (Ha & Hb & Hc & _); [discriminate|reflexivity|reflexivity|].
  split; [exact Ha|]. split; [rewrite Hb; reflexivity|rewrite Hc; reflexivity].
Defined.

Lemma async_round_through_entry_points_witness :
  game_state_argument sample_hks (runtime_of (sample_call_bridge kTurn5) 1%N) = Some kTurn5
  /\ exists b1,
       lua_StartClaudeAPIRequest sample_hks 1%N (sample_call_bridge kTurn5) = Some (1, b1)
       /\ lua_stack (runtime_of b1 1%N) = [LBoolean true; LString kTurn5]
       /\ lua_stack
            (runtime_of
               (snd (lua_CheckClaudeAPIResponse sample_hks None 1%N
                       (set_async (AsyncWorkerThread world_end_turn (async b1)) b1))) 1%N)
          = [LString kEndTurn; LString "ready"; LBoolean true; LString kTurn5].
Proof.
  assert (game_state_argument sample_hks (runtime_of (sample_call_bridge kTurn5) 1%N)
          = Some kTurn5) as Harg.
  { unfold sample_call_bridge. rewrite runtime_of_set_runtime. reflexivity. }
  destruct (async_round_through_entry_points sample_hks world_end_turn None 1%N
              (sample_call_bridge kTurn5) kTurn5)
    as (b1 & Ha & Hb & _ & _ & _ & Hc);
    [reflexivity|reflexivity|reflexivity|reflexivity|exact Harg|discriminate
    |intros gs' pc; discriminate|vm_compute; discriminate|].
  split; [exact Harg|]. exists b1. split; [exact Ha|].
  assert (lua_stack (runtime_of (sample_call_bridge kTurn5) 1%N) = [LString kTurn5]) as Hold.
  { unfold sample_call_bridge. rewrite runtime_of_set_runtime. reflexivity. }
  rewrite Hold in Hb, Hc. split; [exact Hb|].
  assert (call_outcome
            (GetActionFromClaude world_end_turn (api (async (sample_call_bridge kTurn5))) kTurn5)
          = Returned kEndTurn) as Hout by (vm_compute; reflexivity).
  rewrite Hout in Hc. destruct Hc as ([Hready|Hfailed] & Hr & Hf).
  - destruct (Hr Hready (or_intror eq_refl)) as (_ & Hs & _). exact Hs.
  - exfalso. destruct (Hf Hfailed) as [_ Hs].
    assert (g_asyncState
              (async (set_async (AsyncWorkerThread world_end_turn (async b1)) b1)) = Ready)
      as Hx.
    { injection Ha as <-. vm_compute. reflexivity. }
    rewrite Hx in Hfailed. discriminate.
Defined.


Lemma reply_quoted_only_when_nothing_extracted_witness :
  fenced_candidate kEmptyFence = EmptyString
  /\ action_of_content kEmptyFence = kReasonOpen +:+ EscapeJson kEmptyFence +:+ kObjectClose
  /\ fenced_candidate kProse = kProse
  /\ action_of_content kProse = kInvalidJson.
Proof.
  destruct (reply_quoted_only_when_nothing_extracted kEmptyFence) as (Ha & _ & _).
  destruct (reply_quoted_only_when_nothing_extracted kProse) as (_ & Hb & Hc).
  assert (fenced_candidate kEmptyFence = EmptyString) as He by (vm_compute; reflexivity).
  assert (fenced_candidate kProse = kProse) as Hp by (apply Hc; vm_compute; reflexivity).
  split; [exact He|]. split; [exact (Ha He)|]. split; [exact Hp|].
  destruct Hb as [Hb|(j & Hj & _)]; [rewrite Hp; discriminate|exact Hb|].
  vm_compute in Hj. discriminate Hj.
Defined.

Lemma returned_text_survives_c_strings_witness :
  call_outcome (GetActionFromClaude world_rate_limited (api sample_answered) kTurn6)
  = Returned kErrRateLimited
  /\ c_str kErrRateLimited = kErrRateLimited
  /\ PushStringToLua sample_hks kErrRateLimited empty_runtime
     = lua_push (LString kErrRateLimited) empty_runtime.
Proof.
  assert (call_outcome (GetActionFromClaude world_rate_limited (api sample_answered) kTurn6)
          = Returned kErrRateLimited) as H by (vm_compute; reflexivity).
  destruct (returned_text_survives_c_strings _ world_rate_limited kTurn6 kErrRateLimited
              sample_platform_reads sample_answered_reachable H) as (Ha & Hb & _).
  split; [exact H|]. split; [exact Ha|]. apply Hb. left. reflexivity.
Defined.
